(* ===== verification/_CoqProject ===== *)
-Q . S2P
Prelude.v
Layout.v
Proto.v
Crc.v
World.v
Client.v
Wire.v
Logic.v
Aborts.v
Bars.v
Sim.v
ClientSpec.v
Receive.v
EndToEnd.v
ClientInv.v
Server.v
ServerSpec.v
Isolation.v
Yaml.v
MemoryMock.v
MockSpec.v
MockServer.v
Host.v
HostSpec.v
Native.v
Link.v
Remote.v
Frame.v
Dma.v
DmaStates.v
DmaTree.v
DmaSpec.v
Threads.v
ThreadsSpec.v
Samples.v
SamplesSpec.v
Suite.v
SuiteSpec.v
UnitTests.v
