(* ===== verification/Prelude.v ===== *)
(** * Warp Pipe: a verification development

    Warp Pipe carries PCI Express transactions between processes over TCP.  A
    process listens or connects ([src/server.c]); every connection is a client
    ([src/client.c]) that frames transaction layer packets (TLPs) and data link
    layer packets (DLLPs), protects them with CRCs ([src/crc.c]), decodes their
    fields ([src/proto.c], [inc/warppipe/proto.h]), routes requests to callbacks
    of the application by BAR, and matches completions to reads by tag.  The
    memory mock ([memory-mock/main.c]) is an application of the library: a
    device with two memories and a configuration space, which it can load from
    a YAML file ([src/yaml_configspace.c]).  On the other side, the samples
    ([zephyr-samples]) share a library that enumerates a device and waits for the
    completions of its reads ([common/common.c]); on top of it are a test program
    ([pcie_native]), a program whose threads share a connection
    ([pcie_native_thread]), and an emulated DMA controller
    ([drivers/dma/dma_emul.c]), which a further sample uses ([pcie_dma]).  Four
    samples ([pcie_nvme], [pcie_ivshmem], [pcie_scan], [pcie_pipe]) use the devices
    through Zephyr's drivers, and a test suite ([zephyr-tests/src/main.cpp]) runs
    against the mock.

    ** Files

    - [Prelude]: machine integers, byte buffers, automation, shared lemmas.
    - [Layout]: the structures of [proto.h], declared for both byte orders; the
      position of every bit-field is computed from its declaration.
    - [Proto]: the enumerations of [proto.h] and the functions of [proto.c].
    - [Crc]: [crc.c], and the shift register of the PCIe specification.
    - [World]: the structures of [client.h] and [server.h], the state (operating
      system, server, heap of client structures, application, static variables of
      [server.c]) and the monad in which the stateful functions are written.  Its outcomes are: a result, a
      failed [assert], undefined behaviour, and fuel used up.  The classes
      [SocketIO] and [Callbacks] are the interfaces to the operating system and
      to the application; [SocketLaws] is what POSIX says of the former.
    - [Client]: every function of [client.c], named as in the source.
    - [Wire]: what is on the wire: the packets the client sends, as functions of
      their contents, and what the receiver decodes from them.
    - [Logic]: weakest preconditions for the monad, and streams: the class
      [StreamLaws] says that [recv] takes a prefix of what is pending.
    - [Aborts]: the causes for which a function can be aborted, tracked through
      the functions of the client.
    - [Bars]: routing by BAR ([get_bar_idx], [warppipe_register_bar]).
    - [Sim]: a simulated operating system (per-descriptor streams in arbitrary
      segments) and a logging application, which satisfy the interfaces; the
      witnesses run in it.
    - [ClientSpec], [Receive]: functional specifications of sending, of the
      receive loop, of acknowledgement and of the request handlers.
    - [EndToEnd]: what an API call on one side causes on the other.
    - [ClientInv]: the invariant of client structures, and safety.
    - [Server], [ServerSpec]: every function of [server.c]; the consistency of
      queue, heap and descriptors.
    - [Isolation]: connections of a process do not disturb each other; the class
      [StreamsApart] says that system calls on one descriptor leave the others
      alone.
    - [Yaml]: the event machine of [yaml_configspace.c], its loop, [strtoul].
    - [MemoryMock], [MockSpec], [MockServer]: the mock, as an instance of
      [Callbacks] and [ServerCallbacks]: its memories and registers, its
      command line and set-up, and its main loop.
    - [Host], [HostSpec]: [common.c].  The local variable that a read waits on
      is reached by the completion callback through [client->private_data]; such
      variables are a store ([frames]) from which they disappear when their
      function returns.  The class [HostApp] is an application with such a store.
    - [Native]: the main function of [pcie_native], and two processes as one
      system: the operating system of the sample ([pair_os]) contains the mock's
      process, which runs one iteration of its loop whenever the sample waits in
      [select], and the bytes in transit.
    - [Link], [Remote]: the steps of that system, and the refinement: the BARs
      of the device, accessed over the link, are local memories.
    - [Frame]: what functions of the library leave alone of the application's
      state, whatever the network does.
    - [Dma]: every operation of the DMA driver and its work handler, and the
      sample [pcie_dma].  Taking the driver's lock is where other threads run
      ([other_threads]); they, the user's callback and the work queue are the
      class [DmaEnv].
    - [DmaStates], [DmaSpec]: configuration, states, linked channels and
      disturbed transfers; undisturbed transfers from the device's memory.
    - [DmaTree]: the driver's instances as the macros build them from the device
      tree, the initialisation, and the log messages.
    - [Threads], [ThreadsSpec]: [pcie_native_thread] as a pool of threads that
      take steps between the points where they block, with the read-write lock as
      its number of readers, and a step relation on pools.
    - [Samples], [SamplesSpec]: the four samples on Zephyr's drivers, which are
      classes ([DiskAccess], [Ivshmem], [Pcie], [PipeMachine]); what a program
      prints is a list of lines.
    - [Suite], [SuiteSpec]: the test suite, and the system it runs in: like that of
      [Native], but with a connection per test ([hub_os], [spoke_os]).
    - [UnitTests]: the unit tests of the repository ([tests]), run on the model with
      fakes of the socket calls; all of them pass.

    ** How the code is modelled

    Packets are byte lists; loads and stores of bit-fields are [p.[f]] and
    [p.[f := v]].  Integers are [Z] with conversions to fixed widths written out
    ([u8] to [u64]).  Client structures live in a store indexed by address,
    because the server frees them while pointers to them exist; an access to a
    freed one, an index out of an array, a copy out of a buffer, signed overflow
    of the sequence number and a call through an unknown pointer are
    [Undefined].  A callback may change the whole world.  The receive buffer is
    part of the client, and a packet being handled lies in it, so that the
    completion handler reads the tag again after the callback as the code does.

    ** What the theorems show

    - Encoding: the two byte orders agree except in one byte of the TLP header;
      address and length of a request survive encoding; bounds of every length
      the receiver computes.
    - CRCs: [crc32p] computes the CRCs of the specification; what is generated
      is accepted; every burst as long as the CRC is detected.
    - Receiving: exactly one packet is taken off the stream, however the bytes
      behind its header are cut into segments (the header has to come in one piece);
      every other header has the stated outcome; corrupt TLPs are answered by a NAK
      and dropped.  Where the callbacks are safe ([CallbacksSafe]), [malloc] succeeds
      and sequence numbers are left, no input has undefined behaviour except a
      completion with a tag above 31 and a packet for a callback pointer that was
      never set ([misleads]); any sequence of API calls and receptions keeps the
      client structures well formed up to such a packet; the only [assert] fails for
      TLPs larger than the buffer.
    - Routing: [get_bar_idx] finds the first BAR that decodes an address; one whose
      base is no multiple of its size decodes none.
    - End to end: a write reaches the callback of the right BAR with its bytes, a
      read calls its completion callback with the bytes the other side's
      callback stored; up to 32 reads can be in flight.
    - Server: an iteration of the loop keeps queue, heap and descriptors
      consistent and reads once from every connection that is ready, in order;
      removal removes what it should and nothing else.
      A server that is created is consistent; one that cannot be leaves
      [pcie_server] set and may leave sockets open.  [handle_sigint] closes
      everything, and calls itself for ever when two servers were created.  A
      connection on which nothing arrived is left alone by an iteration, and keeps its place in the queue,
      whatever happens on the others.
    - Mock: BAR sizing and assignment, the memories; the main loop keeps the
      mock's state well formed, whoever connects; its pointer to the last
      connection dangles when that connection ends.
    - YAML: fields of a well-formed document, the error results, and what a
      device set up from such a file answers.
    - Two processes: a sequence of reads and writes of the sample has the results
      it has on local memories ([remote_memory_refines]), also from power-on
      ([session_refines]); every read completes; a read on a connection that is
      lost ends with an error; the assertions of [pcie_native] hold; the test
      suite passes in every order of its tests, if the memory of its fixture holds
      no accept callback.
    - Threads: the invariant of runs in which no two threads read at the same
      time, by induction on the steps: no assertion fails, no read is torn, every
      run can be completed; and what goes wrong when two do read at once.
    - DMA: a transfer, over any number of linked channels, copies its blocks and
      nothing else and reports completion;
      [dma_emul_configure] on every branch; the instances of the build are well
      formed, and stay so through any sequence of calls; log messages fit in their
      buffers;
      starting linked channels ends exactly if the links do; what a whole transfer
      does when it is stopped or configured again before any burst, and with burst
      lengths that the driver should reject.
    - Samples on Zephyr's drivers: what they print and return on every branch,
      for any behaviour of the drivers.

    ** Fuel

    [recv_loop] has as much fuel as the packet has bytes, and every successful
    [recv] adds one at least; [server_read] has as much as the queue has nodes;
    the theorems show that neither runs out ([client_invariant],
    [server_loop_spec]).  [parse_loop] takes a bound on the number of events
    and the theorems on it ask for no more than the document has.  The main loop
    of the mock runs until the process quits, for any number of iterations.  The
    waits of the samples ([wait_loop], [wait_result]) take a bound on their
    iterations: two more than there are packets in flight are enough when the
    device answers, and one when the connection is lost.  In the DMA driver
    [fuel] bounds the bursts of a block, of which there are no more than it has
    bytes, and [links] the linked channels, of which a path passes none twice.
    [scan_bars] needs six iterations, one for each BAR register.  Every wait of the
    test suite ends within five.

    ** What is not modelled

    Logging and printing; the asynchronous delivery of SIGINT ([handle_sigint]
    is a function on the state that ends with what it does next: nothing, raising
    the signal under its default action, or a call of the previous handler); the name
    resolution and sockets behind the calls of [server.c], [getopt] and libyaml,
    which are parameters or their results; thread objects and work queues of the
    kernel.  Other threads appear in the DMA driver only as what they do to its
    state, and in [Threads] they switch only between iterations of the server
    loop.  Zephyr's drivers, device tree macros and test framework are not part of
    the repository: the samples are modelled over classes that stand for them.  The
    usage text of the mock and declarations in headers have no model. *)

From stdpp Require Export base list list_numbers numbers gmap strings option.
From Stdlib Require Export ZArith Lia Btauto.

#[export] Set Default Goal Selector "!".
#[global] Open Scope Z_scope.

(** ** Machine integers

    A [w]-bit unsigned integer is a [Z]; conversion to the type is reduction
    modulo [2^w], as C prescribes for unsigned types. *)

Definition wrap (w z : Z) : Z := z mod 2 ^ w.

Declare Scope cint_scope.
Delimit Scope cint_scope with cint.
Notation "'u8' z" := (wrap 8 z) (at level 10, z at level 9) : cint_scope.
Notation "'u16' z" := (wrap 16 z) (at level 10, z at level 9) : cint_scope.
Notation "'u32' z" := (wrap 32 z) (at level 10, z at level 9) : cint_scope.
Notation "'u64' z" := (wrap 64 z) (at level 10, z at level 9) : cint_scope.
#[global] Open Scope cint_scope.

(** [int] is 32 bits wide. *)
Definition INT_MAX : Z := 2147483647.
Definition INT_MIN : Z := -2147483648.

(** ** Byte buffers

    Memory that C accesses through [uint8_t] or bit-fields is a list of bytes.
    [rd] and [wr] are one load and one store; [wr_bytes] is [memcpy] into the
    buffer.  Accesses out of range are excluded where they matter by explicit
    checks of the operations that own the buffer. *)

Definition byte_ok (b : Z) : Prop := 0 <= b < 256.
Definition bytes_ok (l : list Z) : Prop := Forall byte_ok l.

Definition rd (buf : list Z) (i : nat) : Z := default 0 (buf !! i).
Definition wr (buf : list Z) (i : nat) (v : Z) : list Z := <[i := u8 v]> buf.
Definition wr_bytes (off : nat) (bs buf : list Z) : list Z := list_inserts off bs buf.

(** A view of the buffer from byte [off] on (a pointer into it), and an update
    through that view. *)
Definition at_off (off : nat) (g : list Z -> list Z) (buf : list Z) : list Z :=
  take off buf ++ g (drop off buf).

(** Little-endian store of [n] bytes: the loop
    [for (i = 0; i < n; i++) { p[i] = x & 0xff; x = x >> 8; }]. *)
Fixpoint le_bytes (n : nat) (x : Z) : list Z :=
  match n with
  | O => []
  | S n => Z.land x 255 :: le_bytes n (Z.shiftr x 8)
  end.

(** A little-endian 32-bit word. *)
Definition le32 (bs : list Z) : Z :=
  Z.lor (rd bs 0) (Z.lor (Z.shiftl (rd bs 1) 8) (Z.lor (Z.shiftl (rd bs 2) 16) (Z.shiftl (rd bs 3) 24))).

(** The same digits, most significant first: [p[i] = x >> 8 * (n - i - 1)]. *)
Definition be_bytes (n : nat) (x : Z) : list Z :=
  (fun i => u8 (Z.shiftr x (8 * (Z.of_nat n - Z.of_nat i - 1)))) <$> seq 0 n.

(** [x |= (uint64_t)p[i] << 8 * (n - i - 1)] for [i] from [0] to [n - 1]. *)
Definition be_load (n : nat) (p : nat -> Z) : Z :=
  foldl (fun acc i => Z.lor acc (Z.shiftl (p i) (8 * (Z.of_nat n - Z.of_nat i - 1))))
        0 (seq 0 n).

(** ** Automation *)

Create HintDb wp.
Create Rewrite HintDb wp_len.

Ltac solve_side := first [ lia | done | reflexivity ].

(** Case analysis on the matches and conditionals of the goal. *)
Ltac case_goal :=
  repeat match goal with
         | |- context [if ?b then _ else _] => destruct b eqn:?
         | |- context [match ?x with _ => _ end] => destruct x eqn:?
         end.

(** *** Bits of integers *)

Lemma testbit_ones_pos (n m : Z) :
  0 <= n -> 0 <= m -> Z.testbit (Z.ones n) m = (m <? n).
Proof. intros. rewrite Z.testbit_ones by lia. destruct (Z.leb_spec 0 m); [done|lia]. Qed.

Lemma testbit_mod_pow2 (a n m : Z) :
  0 <= n -> 0 <= m -> Z.testbit (a mod 2 ^ n) m = (m <? n) && Z.testbit a m.
Proof.
  intros. rewrite <-Z.land_ones by lia.
  by rewrite Z.land_spec, testbit_ones_pos, andb_comm by lia.
Qed.

Lemma testbit_wrap (w z m : Z) :
  0 <= w -> 0 <= m -> Z.testbit (wrap w z) m = (m <? w) && Z.testbit z m.
Proof. apply testbit_mod_pow2. Qed.

Lemma testbit_shiftl (a n m : Z) :
  0 <= m -> Z.testbit (Z.shiftl a n) m = (n <=? m) && Z.testbit a (m - n).
Proof.
  intros. rewrite Z.shiftl_spec by lia.
  destruct (Z.leb_spec n m); simpl; [done|]. apply Z.testbit_neg_r. lia.
Qed.

Lemma testbit_high (x n m : Z) : 0 <= x < 2 ^ n -> 0 <= n <= m -> Z.testbit x m = false.
Proof.
  intros Hx Hm. rewrite <-(Z.mod_small x (2 ^ n)) by lia.
  apply Z.mod_pow2_bits_high. lia.
Qed.

Lemma testbit_255 (m : Z) : 0 <= m -> Z.testbit 255 m = (m <? 8).
Proof. intros. change 255 with (Z.ones 8). apply testbit_ones_pos; lia. Qed.

Create Rewrite HintDb bits.
#[export] Hint Rewrite Z.land_spec Z.lor_spec Z.lxor_spec Z.ldiff_spec Z.bits_0 : bits.
#[export] Hint Rewrite Z.shiftr_spec Z.lnot_spec testbit_shiftl testbit_ones_pos
  testbit_mod_pow2 testbit_wrap testbit_255 using lia : bits.

(** Closes an equation between integers bit by bit: introduces the bit index,
    pushes [testbit] to the variables, splits on the index comparisons. *)
Ltac bits_step :=
  autorewrite with bits;
  match goal with
  | |- context [?a <? ?b] => destruct (Z.ltb_spec a b)
  | |- context [?a <=? ?b] => destruct (Z.leb_spec a b)
  end; try (exfalso; lia).
Ltac bits_norm :=
  rewrite ?andb_false_r, ?andb_true_r, ?andb_false_l, ?andb_true_l, ?orb_false_r, ?orb_false_l,
    ?orb_true_r, ?orb_true_l, ?Z.sub_add, ?Z.add_simpl_r.
Ltac bitwise :=
  apply Z.bits_inj'; intros ?m ?Hm; repeat bits_step; autorewrite with bits; bits_norm;
  try done; try btauto; try (f_equal; lia).

(** *** Generic lemmas: integers *)

Lemma wrap_range (w z : Z) : 0 <= w -> 0 <= wrap w z < 2 ^ w.
Proof. intros. apply Z.mod_pos_bound, Z.pow_pos_nonneg; lia. Qed.

Lemma wrap_small (w z : Z) : 0 <= z < 2 ^ w -> wrap w z = z.
Proof. apply Z.mod_small. Qed.

Lemma wrap_land (w z : Z) : 0 <= w -> Z.land z (Z.ones w) = wrap w z.
Proof. apply Z.land_ones. Qed.

Lemma wrap_wrap (w z : Z) : 0 <= w -> wrap w (wrap w z) = wrap w z.
Proof. intros. apply wrap_small, wrap_range. done. Qed.

Lemma u8_byte_ok (z : Z) : byte_ok (u8 z).
Proof. apply (wrap_range 8); lia. Qed.

Lemma land_255 (x : Z) : Z.land x 255 = u8 x.
Proof. apply (Z.land_ones x 8). lia. Qed.

Lemma bits_lt (x n : Z) :
  0 <= n -> 0 <= x -> (forall m, n <= m -> Z.testbit x m = false) -> x < 2 ^ n.
Proof.
  intros Hn Hx Hb. assert (x = x mod 2 ^ n) as ->.
  { bitwise. by apply Hb. }
  apply Z.mod_pos_bound, Z.pow_pos_nonneg; lia.
Qed.

Lemma lor_range (x y n : Z) :
  0 <= n -> 0 <= x < 2 ^ n -> 0 <= y < 2 ^ n -> 0 <= Z.lor x y < 2 ^ n.
Proof.
  intros Hn Hx Hy. assert (0 <= Z.lor x y) by (apply Z.lor_nonneg; lia). split; [done|].
  apply bits_lt; [done..|]. intros m Hm.
  by rewrite Z.lor_spec, !(testbit_high _ n) by lia.
Qed.

Lemma lxor_range (x y n : Z) :
  0 <= n -> 0 <= x < 2 ^ n -> 0 <= y < 2 ^ n -> 0 <= Z.lxor x y < 2 ^ n.
Proof.
  intros Hn Hx Hy. assert (0 <= Z.lxor x y) by (apply Z.lxor_nonneg; lia).
  split; [done|]. apply bits_lt; [done..|]. intros m Hm.
  by rewrite Z.lxor_spec, !(testbit_high _ n) by lia.
Qed.

Lemma ldiff_range (x y n : Z) :
  0 <= n -> 0 <= x < 2 ^ n -> 0 <= Z.ldiff x y < 2 ^ n.
Proof.
  intros Hn Hx. assert (0 <= Z.ldiff x y) by (apply Z.ldiff_nonneg; lia).
  split; [done|]. apply bits_lt; [done..|]. intros m Hm.
  by rewrite Z.ldiff_spec, (testbit_high x n) by lia.
Qed.

Lemma shiftr_range (x k n : Z) :
  0 <= k -> 0 <= n -> 0 <= x < 2 ^ (n + k) -> 0 <= Z.shiftr x k < 2 ^ n.
Proof.
  intros. rewrite Z.shiftr_div_pow2 by done. split.
  - apply Z.div_pos; [lia|]. apply Z.pow_pos_nonneg; lia.
  - apply Z.div_lt_upper_bound; [apply Z.pow_pos_nonneg; lia|].
    rewrite <-Z.pow_add_r, (Z.add_comm k n) by lia. lia.
Qed.

(** *** Generic lemmas: buffers *)

Lemma rd_wr_eq (buf : list Z) (i : nat) (v : Z) :
  (i < length buf)%nat -> rd (wr buf i v) i = u8 v.
Proof. intros. unfold rd, wr. by rewrite list_lookup_insert_eq. Qed.

Lemma rd_wr_ne (buf : list Z) (i j : nat) (v : Z) : i <> j -> rd (wr buf i v) j = rd buf j.
Proof. intros. unfold rd, wr. by rewrite list_lookup_insert_ne. Qed.

Lemma length_wr (buf : list Z) (i : nat) (v : Z) : length (wr buf i v) = length buf.
Proof. apply length_insert. Qed.

Lemma length_wr_bytes (off : nat) (bs buf : list Z) :
  length (wr_bytes off bs buf) = length buf.
Proof. apply length_inserts. Qed.

Lemma wr_bytes_app (off : nat) (b1 b2 l : list Z) :
  wr_bytes (off + length b1) b2 (wr_bytes off b1 l) = wr_bytes off (b1 ++ b2) l.
Proof. unfold wr_bytes. rewrite list_inserts_app_l. by rewrite Nat.add_comm. Qed.

Lemma rd_wr_bytes_in (off : nat) (bs buf : list Z) (j : nat) :
  (off + length bs <= length buf)%nat -> (off <= j < off + length bs)%nat ->
  rd (wr_bytes off bs buf) j = rd bs (j - off).
Proof. intros. unfold rd, wr_bytes. by rewrite list_lookup_inserts by lia. Qed.

Lemma rd_wr_bytes_out (off : nat) (bs buf : list Z) (j : nat) :
  (j < off \/ off + length bs <= j)%nat -> rd (wr_bytes off bs buf) j = rd buf j.
Proof.
  intros [?|?]; unfold rd, wr_bytes.
  - by rewrite list_lookup_inserts_lt by lia.
  - by rewrite list_lookup_inserts_ge by lia.
Qed.

(** Boolean form, for concrete buffers. *)
Lemma bytes_ok_dec (l : list Z) :
  forallb (fun b => (0 <=? b) && (b <? 256)) l = true -> bytes_ok l.
Proof.
  rewrite forallb_forall. intros H. apply Forall_forall. intros b Hb.
  specialize (H b Hb). unfold byte_ok. lia.
Qed.

Lemma rd_byte_ok (buf : list Z) (i : nat) : bytes_ok buf -> byte_ok (rd buf i).
Proof.
  intros H. unfold rd. destruct (buf !! i) eqn:E; simpl; [|unfold byte_ok; lia].
  by eapply Forall_lookup_1.
Qed.

Lemma wr_bytes_ok (buf : list Z) (i : nat) (v : Z) : bytes_ok buf -> bytes_ok (wr buf i v).
Proof. intros. apply Forall_insert; [done|apply u8_byte_ok]. Qed.

Lemma wr_bytes_bytes_ok (off : nat) (bs buf : list Z) :
  bytes_ok bs -> bytes_ok buf -> bytes_ok (wr_bytes off bs buf).
Proof. intros. by apply Forall_inserts. Qed.

Lemma wr_bytes_split (off : nat) (bs buf : list Z) :
  (off + length bs <= length buf)%nat ->
  wr_bytes off bs buf = take off buf ++ bs ++ drop (off + length bs) buf.
Proof.
  intros H. unfold wr_bytes.
  rewrite <-(take_drop off buf) at 1. rewrite <-(take_drop (length bs) (drop off buf)), drop_drop.
  replace off with (length (take off buf) + 0)%nat at 1 by (rewrite length_take; lia).
  rewrite list_inserts_app_r. f_equal. apply list_inserts_0_r.
  rewrite length_take, length_drop. lia.
Qed.

Lemma bytes_ok_app (l k : list Z) : bytes_ok (l ++ k) <-> bytes_ok l /\ bytes_ok k.
Proof. apply Forall_app. Qed.

Lemma bytes_ok_take (n : nat) (l : list Z) : bytes_ok l -> bytes_ok (take n l).
Proof. apply Forall_take. Qed.

Lemma bytes_ok_drop (n : nat) (l : list Z) : bytes_ok l -> bytes_ok (drop n l).
Proof. apply Forall_drop. Qed.

Lemma at_off_bytes_ok (off : nat) (g : list Z -> list Z) (buf : list Z) :
  (forall l, bytes_ok l -> bytes_ok (g l)) -> bytes_ok buf -> bytes_ok (at_off off g buf).
Proof. intros. apply bytes_ok_app. auto using bytes_ok_take, bytes_ok_drop. Qed.

Lemma rd_drop (buf : list Z) (k i : nat) : rd (drop k buf) i = rd buf (k + i).
Proof. unfold rd. by rewrite lookup_drop. Qed.

Lemma rd_take (buf : list Z) (k i : nat) : (i < k)%nat -> rd (take k buf) i = rd buf i.
Proof. intros. unfold rd. by rewrite lookup_take_lt. Qed.

Lemma rd_ext (l1 l2 : list Z) :
  length l1 = length l2 -> (forall i, (i < length l1)%nat -> rd l1 i = rd l2 i) -> l1 = l2.
Proof.
  intros Hlen Hrd. apply list_eq_same_length with (n := length l1); [done..|].
  intros i x y Hi Hx Hy. specialize (Hrd i Hi). unfold rd in Hrd.
  by rewrite Hx, Hy in Hrd.
Qed.

Lemma length_at_off (off : nat) (g : list Z -> list Z) (buf : list Z) :
  (forall l, length (g l) = length l) -> length (at_off off g buf) = length buf.
Proof.
  intros Hg. unfold at_off. rewrite length_app, Hg, length_take, length_drop. lia.
Qed.

Lemma drop_at_off (off : nat) (g : list Z -> list Z) (buf : list Z) :
  (off <= length buf)%nat -> drop off (at_off off g buf) = g (drop off buf).
Proof. intros. unfold at_off. rewrite drop_app_length'; [done|]. rewrite length_take. lia. Qed.

Lemma take_at_off (off : nat) (g : list Z -> list Z) (buf : list Z) :
  (off <= length buf)%nat -> take off (at_off off g buf) = take off buf.
Proof. intros. unfold at_off. rewrite take_app_length'; [done|]. rewrite length_take. lia. Qed.

Lemma length_le_bytes (n : nat) (x : Z) : length (le_bytes n x) = n.
Proof. revert x. induction n; intros; simpl; [done|]. by rewrite IHn. Qed.

Lemma length_be_bytes (n : nat) (x : Z) : length (be_bytes n x) = n.
Proof. unfold be_bytes. by rewrite length_fmap, length_seq. Qed.

Lemma le_bytes_ok (n : nat) (x : Z) : bytes_ok (le_bytes n x).
Proof.
  revert x. induction n; intros; simpl; constructor; [|apply IHn].
  rewrite land_255. apply u8_byte_ok.
Qed.

Lemma be_bytes_ok (n : nat) (x : Z) : bytes_ok (be_bytes n x).
Proof. apply Forall_fmap, Forall_true. intros. apply u8_byte_ok. Qed.

#[export] Hint Resolve wr_bytes_bytes_ok bytes_ok_take bytes_ok_drop : wp.
#[export] Hint Resolve u8_byte_ok rd_byte_ok wr_bytes_ok le_bytes_ok be_bytes_ok : wp.
#[export] Hint Rewrite length_wr length_wr_bytes length_le_bytes length_be_bytes : wp_len.
