(* ===== verification/Layout.v ===== *)
(** * Packet layouts ([inc/warppipe/proto.h])

    The packets are C structures of bit-fields, unions and flexible arrays laid
    over a byte buffer.  The structures are declared here member by member, for
    both branches of [__BYTE_ORDER], and the position of every field is
    computed from the declaration by the allocation rule of the ABI.  [get] and
    [set] are the load and the store of a bit-field. *)

From S2P Require Import Prelude.

(** ** Bit-fields *)

Record field := Fld { f_byte : nat; f_bit : Z; f_width : Z }.

#[export] Instance field_eq_dec : EqDecision field.
Proof. solve_decision. Defined.

(** Load and store of a bit-field. A store keeps the low [f_width] bits of the
    value and the other bits of the byte. *)
Definition get (f : field) (p : list Z) : Z :=
  Z.land (Z.shiftr (rd p (f_byte f)) (f_bit f)) (Z.ones (f_width f)).

Definition set (f : field) (v : Z) (p : list Z) : list Z :=
  wr p (f_byte f)
     (Z.lor (Z.ldiff (rd p (f_byte f)) (Z.shiftl (Z.ones (f_width f)) (f_bit f)))
            (Z.shiftl (Z.land v (Z.ones (f_width f))) (f_bit f))).

Declare Scope cstruct_scope.
Notation "p .[ f ]" := (get f p) (at level 1, format "p .[ f ]") : cstruct_scope.
Notation "p .[ f := v ]" := (set f v p)
  (at level 1, format "p .[ f  :=  v ]") : cstruct_scope.
#[global] Open Scope cstruct_scope.

(** ** Declarations and their allocation *)

Inductive byte_order := LITTLE_ENDIAN | BIG_ENDIAN.

(** [uint8_t name : w] and [uintN_t name[n]] (elements of [e] bytes). *)
Inductive member :=
  | Bits (name : string) (w : Z)
  | Array (name : string) (e n : nat).

(** The unit of every bit-field is [uint8_t]: a field that does not fit in the
    bits left of its byte starts the next one.  Little-endian targets allocate
    from the least significant bit, big-endian ones from the most significant. *)
Fixpoint alloc (e : byte_order) (byte : nat) (bit : Z) (ds : list member)
  : list (string * field) * nat :=
  match ds with
  | [] => ([], if bit =? 0 then byte else S byte)
  | Bits nm w :: ds =>
      let '(byte, bit) := if bit + w <=? 8 then (byte, bit) else (S byte, 0) in
      let pos := match e with LITTLE_ENDIAN => bit | BIG_ENDIAN => 8 - bit - w end in
      let '(l, sz) := alloc e byte (bit + w) ds in
      ((nm, Fld byte pos w) :: l, sz)
  | Array nm el n :: ds =>
      let byte := if bit =? 0 then byte else S byte in
      let byte := (Nat.div (byte + el - 1) el * el)%nat in
      let '(l, sz) := alloc e (byte + el * n) 0 ds in
      ((nm, Fld byte 0 (8 * Z.of_nat (el * n))) :: l, sz)
  end.

Definition layout (e : byte_order) (ds : list member) : list (string * field) :=
  (alloc e 0 0 ds).1.
Definition sizeof (e : byte_order) (ds : list member) : nat := (alloc e 0 0 ds).2.

Fixpoint field_in (nm : string) (l : list (string * field)) : field :=
  match l with
  | [] => Fld 0 0 0
  | (n, f) :: l => if String.eqb n nm then f else field_in nm l
  end.

(** [union pcie_id] *)
Definition pcie_id (e : byte_order) : list member :=
  match e with
  | LITTLE_ENDIAN => [Bits "bus" 8; Bits "func" 1; Bits "dev" 7]
  | BIG_ENDIAN => [Bits "bus" 8; Bits "dev" 7; Bits "func" 1]
  end.

(** [struct pcie_tlp]: the header all TLPs share ... *)
Definition pcie_tlp_header (e : byte_order) : list member :=
  match e with
  | LITTLE_ENDIAN =>
      [Bits "tlp_type" 5; Bits "tlp_fmt" 3;
       Bits "tlp_th" 1; Bits "tlp_ln" 1; Bits "tlp_attr_hi" 1; Bits "tlp_t8" 1;
       Bits "tlp_tc" 3; Bits "tlp_t9" 1;
       Bits "tlp_length_hi" 2; Bits "tlp_at" 1; Bits "tlp_attr_lo" 2; Bits "tlp_ep" 1;
       Bits "tlp_td" 1]
  | BIG_ENDIAN =>
      [Bits "tlp_fmt" 3; Bits "tlp_type" 5;
       Bits "tlp_t9" 1; Bits "tlp_tc" 3; Bits "tlp_t8" 1; Bits "tlp_attr_hi" 1;
       Bits "tlp_ln" 1; Bits "tlp_th" 1;
       Bits "tlp_td" 1; Bits "tlp_ep" 1; Bits "tlp_attr_lo" 2; Bits "tlp_at" 1;
       Bits "tlp_length_hi" 2]
  end ++ [Bits "tlp_length_lo" 8].

(** ... followed by the request, whose address and payload are a union of the
    32-bit and the 64-bit form, ... *)
Definition tlp_req (e : byte_order) : list member :=
  [Array "r_requester" 1 2; Bits "r_tag" 8] ++
  match e with
  | LITTLE_ENDIAN => [Bits "r_first_be" 4; Bits "r_last_be" 4]
  | BIG_ENDIAN => [Bits "r_last_be" 4; Bits "r_first_be" 4]
  end.
Definition r_addr32 : list member := [Array "r_address32" 1 4; Array "r_data32" 1 0].
Definition r_addr64 : list member := [Array "r_address64" 1 8; Array "r_data64" 1 0].

(** ... or by the completion. *)
Definition tlp_cpl (e : byte_order) : list member :=
  [Array "c_completer" 1 2] ++
  match e with
  | LITTLE_ENDIAN =>
      [Bits "c_byte_count_hi" 4; Bits "c_bcm" 1; Bits "c_status" 3;
       Bits "c_byte_count_lo" 8;
       Array "c_requester" 1 2; Bits "c_tag" 8;
       Bits "c_lower_address" 7; Bits "c_rsvd1" 1]
  | BIG_ENDIAN =>
      [Bits "c_status" 3; Bits "c_bcm" 1; Bits "c_byte_count_hi" 4;
       Bits "c_byte_count_lo" 8;
       Array "c_requester" 1 2; Bits "c_tag" 8;
       Bits "c_rsvd1" 1; Bits "c_lower_address" 7]
  end ++ [Array "c_data" 1 0].

Definition pcie_tlp_req32 (e : byte_order) := pcie_tlp_header e ++ tlp_req e ++ r_addr32.
Definition pcie_tlp_req64 (e : byte_order) := pcie_tlp_header e ++ tlp_req e ++ r_addr64.
Definition pcie_tlp_cpl (e : byte_order) := pcie_tlp_header e ++ tlp_cpl e.

(** [struct pcie_dllp] *)
Definition pcie_dllp_type (e : byte_order) : list member :=
  [Bits "dl_type" 8; Array "_rest" 1 3; Array "dl_crc16" 1 2].
Definition pcie_dllp_acknak (e : byte_order) : list member :=
  [Bits "dl_nak" 8; Bits "dl_rsvd1_hi" 8] ++
  match e with
  | LITTLE_ENDIAN => [Bits "dl_seqno_hi" 4; Bits "dl_rsvd1_lo" 4]
  | BIG_ENDIAN => [Bits "dl_rsvd1_lo" 4; Bits "dl_seqno_hi" 4]
  end ++ [Bits "dl_seqno_lo" 8; Array "dl_crc16" 1 2].
Definition pcie_dllp_fc (e : byte_order) : list member :=
  match e with
  | LITTLE_ENDIAN =>
      [Bits "fc_vcid" 3; Bits "fc_rsvd1" 1; Bits "fc_kind" 2; Bits "fc_type" 2;
       Bits "fc_hdrfc_hi" 6; Bits "fc_hdr_scale" 2;
       Bits "fc_datafc_hi" 4; Bits "fc_data_scale" 2; Bits "fc_hdrfc_lo" 2]
  | BIG_ENDIAN =>
      [Bits "fc_type" 2; Bits "fc_kind" 2; Bits "fc_rsvd1" 1; Bits "fc_vcid" 3;
       Bits "fc_hdr_scale" 2; Bits "fc_hdrfc_hi" 6;
       Bits "fc_hdrfc_lo" 2; Bits "fc_data_scale" 2; Bits "fc_datafc_hi" 4]
  end ++ [Bits "fc_datafc_lo" 8; Array "dl_crc16" 1 2].

(** [struct pcie_dltlp]: sequence number, then the TLP (padded for its CRC). *)
Definition pcie_dltlp (e : byte_order) : list member :=
  match e with
  | LITTLE_ENDIAN => [Bits "dl_seqno_hi" 4; Bits "rsvd1" 4; Bits "dl_seqno_lo" 8]
  | BIG_ENDIAN => [Bits "rsvd1" 4; Bits "dl_seqno_hi" 4; Bits "dl_seqno_lo" 8]
  end ++ [Array "__pad_for_crc32" 1 20].

(** [struct warppipe_pcie_transport] *)
Definition warppipe_pcie_transport (e : byte_order) : list member :=
  [Bits "t_proto" 8; Array "t_tlp" 1 (sizeof e (pcie_dltlp e))].

(** [struct pcie_extended_capability] *)
Definition pcie_extended_capability (e : byte_order) : list member :=
  [Bits "next_capability_offset_hi" 8] ++
  match e with
  | LITTLE_ENDIAN => [Bits "capability_version" 4; Bits "next_capability_offset_lo" 4]
  | BIG_ENDIAN => [Bits "next_capability_offset_lo" 4; Bits "capability_version" 4]
  end ++
  [Bits "capability_id_hi" 8; Bits "capability_id_lo" 8; Array "data" 4 0].

(** [struct pcie_configuration_space_header_type0]; its last member is an array
    of unknown size of [struct pcie_extended_capability], aligned to 4. *)
Definition pcie_configuration_space_header_type0 : list member :=
  [Array "vendor_id" 1 2; Array "device_id" 1 2; Array "command" 1 2; Array "status" 1 2;
   Bits "revision_id" 8; Array "class_code" 1 3;
   Bits "cache_line_size" 8; Bits "latency_timer" 8; Bits "header_type" 8; Bits "bist" 8;
   Array "bar" 4 6; Array "cardbus_cis_pointer" 4 1;
   Array "subsystem_vendor_id" 1 2; Array "subsystem_id" 1 2;
   Array "expansion_rom_base_address" 4 1;
   Bits "capabilities_pointer" 8; Array "_reserved0" 1 1; Array "_reserved1" 1 2;
   Array "_reserved2" 1 4;
   Bits "interrupt_line" 8; Bits "interrupt_pin" 8; Bits "min_gnt" 8; Bits "max_lat" 8;
   Array "extended_capabilities" 4 0].

(** ** The fields the code accesses, on the little-endian target

    Offsets are relative to the structure named in the comment. *)

(** [struct pcie_tlp] *)
Definition tlp_type : field := Eval vm_compute in
  field_in "tlp_type" (layout LITTLE_ENDIAN (pcie_tlp_req32 LITTLE_ENDIAN)).
Definition tlp_fmt : field := Eval vm_compute in
  field_in "tlp_fmt" (layout LITTLE_ENDIAN (pcie_tlp_req32 LITTLE_ENDIAN)).
Definition tlp_length_hi : field := Eval vm_compute in
  field_in "tlp_length_hi" (layout LITTLE_ENDIAN (pcie_tlp_req32 LITTLE_ENDIAN)).
Definition tlp_length_lo : field := Eval vm_compute in
  field_in "tlp_length_lo" (layout LITTLE_ENDIAN (pcie_tlp_req32 LITTLE_ENDIAN)).
Definition r_tag : field := Eval vm_compute in
  field_in "r_tag" (layout LITTLE_ENDIAN (pcie_tlp_req32 LITTLE_ENDIAN)).
Definition r_first_be : field := Eval vm_compute in
  field_in "r_first_be" (layout LITTLE_ENDIAN (pcie_tlp_req32 LITTLE_ENDIAN)).
Definition r_last_be : field := Eval vm_compute in
  field_in "r_last_be" (layout LITTLE_ENDIAN (pcie_tlp_req32 LITTLE_ENDIAN)).
Definition r_address : nat := Eval vm_compute in
  f_byte (field_in "r_address32" (layout LITTLE_ENDIAN (pcie_tlp_req32 LITTLE_ENDIAN))).
Definition r_data32 : nat := Eval vm_compute in
  f_byte (field_in "r_data32" (layout LITTLE_ENDIAN (pcie_tlp_req32 LITTLE_ENDIAN))).
Definition r_data64 : nat := Eval vm_compute in
  f_byte (field_in "r_data64" (layout LITTLE_ENDIAN (pcie_tlp_req64 LITTLE_ENDIAN))).
Definition c_byte_count_hi : field := Eval vm_compute in
  field_in "c_byte_count_hi" (layout LITTLE_ENDIAN (pcie_tlp_cpl LITTLE_ENDIAN)).
Definition c_byte_count_lo : field := Eval vm_compute in
  field_in "c_byte_count_lo" (layout LITTLE_ENDIAN (pcie_tlp_cpl LITTLE_ENDIAN)).
Definition c_tag : field := Eval vm_compute in
  field_in "c_tag" (layout LITTLE_ENDIAN (pcie_tlp_cpl LITTLE_ENDIAN)).
Definition c_data : nat := Eval vm_compute in
  f_byte (field_in "c_data" (layout LITTLE_ENDIAN (pcie_tlp_cpl LITTLE_ENDIAN))).

(** [struct pcie_dllp] *)
Definition dl_type : field := Eval vm_compute in
  field_in "dl_type" (layout LITTLE_ENDIAN (pcie_dllp_type LITTLE_ENDIAN)).
Definition dl_nak : field := Eval vm_compute in
  field_in "dl_nak" (layout LITTLE_ENDIAN (pcie_dllp_acknak LITTLE_ENDIAN)).
Definition acknak_seqno_hi : field := Eval vm_compute in
  field_in "dl_seqno_hi" (layout LITTLE_ENDIAN (pcie_dllp_acknak LITTLE_ENDIAN)).
Definition acknak_seqno_lo : field := Eval vm_compute in
  field_in "dl_seqno_lo" (layout LITTLE_ENDIAN (pcie_dllp_acknak LITTLE_ENDIAN)).
Definition fc_type : field := Eval vm_compute in
  field_in "fc_type" (layout LITTLE_ENDIAN (pcie_dllp_fc LITTLE_ENDIAN)).
Definition fc_rsvd1 : field := Eval vm_compute in
  field_in "fc_rsvd1" (layout LITTLE_ENDIAN (pcie_dllp_fc LITTLE_ENDIAN)).
Definition dl_crc16 : nat := Eval vm_compute in
  f_byte (field_in "dl_crc16" (layout LITTLE_ENDIAN (pcie_dllp_acknak LITTLE_ENDIAN))).

(** [struct pcie_dltlp] *)
Definition dltlp_seqno_hi : field := Eval vm_compute in
  field_in "dl_seqno_hi" (layout LITTLE_ENDIAN (pcie_dltlp LITTLE_ENDIAN)).
Definition dltlp_seqno_lo : field := Eval vm_compute in
  field_in "dl_seqno_lo" (layout LITTLE_ENDIAN (pcie_dltlp LITTLE_ENDIAN)).
Definition dl_tlp : nat := Eval vm_compute in
  f_byte (field_in "__pad_for_crc32" (layout LITTLE_ENDIAN (pcie_dltlp LITTLE_ENDIAN))).

(** [struct warppipe_pcie_transport] *)
Definition t_proto : field := Eval vm_compute in
  field_in "t_proto" (layout LITTLE_ENDIAN (warppipe_pcie_transport LITTLE_ENDIAN)).
Definition t_tlp : nat := Eval vm_compute in
  f_byte (field_in "t_tlp" (layout LITTLE_ENDIAN (warppipe_pcie_transport LITTLE_ENDIAN))).
Definition sizeof_dllp : Z := Eval vm_compute in
  Z.of_nat (sizeof LITTLE_ENDIAN (pcie_dllp_acknak LITTLE_ENDIAN)).
Definition sizeof_transport : Z := Eval vm_compute in
  Z.of_nat (sizeof LITTLE_ENDIAN (warppipe_pcie_transport LITTLE_ENDIAN)).

(** ** Lemmas on fields *)

(** A field lies in one byte. *)
Definition field_wf (f : field) : bool := (0 <=? f_bit f) && (0 <? f_width f) && (f_bit f + f_width f <=? 8).

(** Two fields share no bit. *)
Definition disjoint (f g : field) : bool :=
  negb (Nat.eqb (f_byte f) (f_byte g)) || (f_bit f + f_width f <=? f_bit g)
  || (f_bit g + f_width g <=? f_bit f).

Lemma length_set (f : field) (v : Z) (p : list Z) : length (p.[f := v]) = length p.
Proof. apply length_wr. Qed.

Lemma set_bytes_ok (f : field) (v : Z) (p : list Z) : bytes_ok p -> bytes_ok (p.[f := v]).
Proof. apply wr_bytes_ok. Qed.

Lemma get_range (f : field) (p : list Z) :
  field_wf f = true -> 0 <= p.[f] < 2 ^ f_width f.
Proof.
  intros. unfold field_wf in *. unfold get. rewrite Z.land_ones by lia.
  apply (wrap_range (f_width f)). lia.
Qed.

Lemma field_wf_bounds (f : field) :
  field_wf f = true -> 0 <= f_bit f /\ 0 < f_width f /\ f_bit f + f_width f <= 8.
Proof. unfold field_wf. lia. Qed.

Lemma get_set_eq (f : field) (v : Z) (p : list Z) :
  field_wf f = true -> (f_byte f < length p)%nat -> p.[f := v].[f] = wrap (f_width f) v.
Proof.
  intros Hf%field_wf_bounds ?. destruct f as [i b w]; simpl in *.
  unfold get, set; simpl. rewrite rd_wr_eq by done. bitwise.
Qed.

Lemma get_set_ne (f g : field) (v : Z) (p : list Z) :
  field_wf f = true -> field_wf g = true -> disjoint f g = true ->
  (f_byte f < length p)%nat -> p.[f := v].[g] = p.[g].
Proof.
  intros Hf%field_wf_bounds Hg%field_wf_bounds Hd ?.
  destruct f as [i b w], g as [j c u]; unfold disjoint in Hd; simpl in *.
  unfold get, set; simpl. destruct (Nat.eqb_spec i j) as [->|]; simpl in Hd.
  - rewrite rd_wr_eq by done. apply orb_true_iff in Hd as [Hd%Z.leb_le|Hd%Z.leb_le]; bitwise.
  - by rewrite rd_wr_ne.
Qed.

Lemma rd_set_ne (f : field) (v : Z) (p : list Z) (i : nat) :
  f_byte f <> i -> rd (p.[f := v]) i = rd p i.
Proof. apply rd_wr_ne. Qed.

Lemma get_rd (f : field) (p q : list Z) : rd p (f_byte f) = rd q (f_byte f) -> p.[f] = q.[f].
Proof. intros H. unfold get. by rewrite H. Qed.

Lemma get_wr_bytes (f : field) (off : nat) (bs p : list Z) :
  (f_byte f < off \/ off + length bs <= f_byte f)%nat -> (wr_bytes off bs p).[f] = p.[f].
Proof. intros. by apply get_rd, rd_wr_bytes_out. Qed.

Lemma get_wr_bytes_lt (f : field) (off : nat) (bs p : list Z) :
  Nat.ltb (f_byte f) off = true -> (wr_bytes off bs p).[f] = p.[f].
Proof. intros ?%Nat.ltb_lt. apply get_wr_bytes. lia. Qed.

(** A field of eight bits is its byte. *)
Lemma get_byte (i : nat) (p : list Z) : bytes_ok p -> p.[Fld i 0 8] = rd p i.
Proof.
  intros H. unfold get; simpl. rewrite Z.shiftr_0_r, Z.land_ones by lia.
  apply Z.mod_small. by apply rd_byte_ok.
Qed.

Create Rewrite HintDb fields.
#[export] Hint Rewrite length_set : wp_len.
#[export] Hint Rewrite get_set_eq get_set_ne using
  first [ reflexivity | autorewrite with wp_len; simpl; lia ] : fields.
#[export] Hint Rewrite get_wr_bytes_lt using reflexivity : fields.
#[export] Hint Resolve set_bytes_ok : wp.

(** ** Checks of the declarations *)

(** The [static_assert]s of [proto.h]. *)
Example layout_static_asserts :
  sizeof LITTLE_ENDIAN (pcie_dllp_fc LITTLE_ENDIAN) = 6%nat /\
  sizeof LITTLE_ENDIAN (pcie_dllp_acknak LITTLE_ENDIAN) = 6%nat /\
  Nat.max (sizeof LITTLE_ENDIAN (pcie_tlp_req64 LITTLE_ENDIAN))
          (sizeof LITTLE_ENDIAN (pcie_tlp_cpl LITTLE_ENDIAN)) = 16%nat /\
  sizeof LITTLE_ENDIAN (warppipe_pcie_transport LITTLE_ENDIAN) = 23%nat /\
  sizeof LITTLE_ENDIAN pcie_configuration_space_header_type0 = 64%nat.
Proof. repeat split. Qed.

(** Names of the fields that the two byte orders put at different bits. *)
Definition endian_mismatch (ds : byte_order -> list member) : list string :=
  filter (fun n => field_in n (layout LITTLE_ENDIAN (ds LITTLE_ENDIAN))
                   <> field_in n (layout BIG_ENDIAN (ds BIG_ENDIAN)))
         ((layout LITTLE_ENDIAN (ds LITTLE_ENDIAN)).*1).

(** The two [__BYTE_ORDER] branches of [proto.h] describe one wire format
    for every structure except the TLP header: there the third byte declares
    seven bits ([tlp_at] is one bit wide, the wire format of
    [docs/source/library.md] gives it two), so a big-endian build puts
    [tlp_length_hi], [tlp_at], [tlp_attr_lo], [tlp_ep] and [tlp_td] one bit
    higher than a little-endian one. *)
Lemma wire_layouts_agree :
  endian_mismatch pcie_id = [] /\
  endian_mismatch pcie_dllp_type = [] /\
  endian_mismatch pcie_dllp_acknak = [] /\
  endian_mismatch pcie_dllp_fc = [] /\
  endian_mismatch pcie_dltlp = [] /\
  endian_mismatch warppipe_pcie_transport = [] /\
  endian_mismatch tlp_req = [] /\
  endian_mismatch tlp_cpl = [] /\
  endian_mismatch pcie_extended_capability = [] /\
  endian_mismatch pcie_tlp_header =
    ["tlp_length_hi"; "tlp_at"; "tlp_attr_lo"; "tlp_ep"; "tlp_td"]%string.
Proof. repeat split. Qed.
