(* ===== verification/Proto.v ===== *)
(** * TLP protocol helpers ([src/proto.c], enumerations of [proto.h])

    A [struct pcie_tlp] is the byte list that starts at its first byte. *)

From S2P Require Import Prelude Layout.

(** ** Enumerations *)

Definition PCIE_PROTO_DLLP : Z := 2.
Definition PCIE_PROTO_TLP : Z := 3.

Definition PCIE_DLLP_ACK : Z := 0x00.
Definition PCIE_DLLP_NAK : Z := 0x10.
Definition PCIE_DLLP_NOP : Z := 0x31.

Definition PCIE_TLP_FMT_3DW : Z := 0.
Definition PCIE_TLP_FMT_4DW : Z := 1.
Definition PCIE_TLP_FMT_NODATA : Z := 0.
Definition PCIE_TLP_FMT_DATA : Z := 2.
Definition PCIE_TLP_FMT_3DW_NODATA : Z := Z.lor PCIE_TLP_FMT_3DW PCIE_TLP_FMT_NODATA.
Definition PCIE_TLP_FMT_4DW_NODATA : Z := Z.lor PCIE_TLP_FMT_4DW PCIE_TLP_FMT_NODATA.
Definition PCIE_TLP_FMT_3DW_DATA : Z := Z.lor PCIE_TLP_FMT_3DW PCIE_TLP_FMT_DATA.
Definition PCIE_TLP_FMT_4DW_DATA : Z := Z.lor PCIE_TLP_FMT_4DW PCIE_TLP_FMT_DATA.
Definition PCIE_TLP_FMT_PREFIX : Z := 4.

Definition PCIE_TLP_MRD32 : Z := Z.lor (Z.shiftl PCIE_TLP_FMT_3DW_NODATA 5) 0x00.
Definition PCIE_TLP_MRD64 : Z := Z.lor (Z.shiftl PCIE_TLP_FMT_4DW_NODATA 5) 0x00.
Definition PCIE_TLP_MRDLK32 : Z := Z.lor (Z.shiftl PCIE_TLP_FMT_3DW_NODATA 5) 0x01.
Definition PCIE_TLP_MRDLK64 : Z := Z.lor (Z.shiftl PCIE_TLP_FMT_4DW_NODATA 5) 0x01.
Definition PCIE_TLP_MWR32 : Z := Z.lor (Z.shiftl PCIE_TLP_FMT_3DW_DATA 5) 0x00.
Definition PCIE_TLP_MWR64 : Z := Z.lor (Z.shiftl PCIE_TLP_FMT_4DW_DATA 5) 0x00.
Definition PCIE_TLP_IORD : Z := Z.lor (Z.shiftl PCIE_TLP_FMT_3DW_NODATA 5) 0x02.
Definition PCIE_TLP_IOWR : Z := Z.lor (Z.shiftl PCIE_TLP_FMT_3DW_DATA 5) 0x02.
Definition PCIE_TLP_CPL : Z := Z.lor (Z.shiftl PCIE_TLP_FMT_3DW_NODATA 5) 0x0a.
Definition PCIE_TLP_CPLD : Z := Z.lor (Z.shiftl PCIE_TLP_FMT_3DW_DATA 5) 0x0a.
Definition PCIE_TLP_CR0 : Z := Z.lor (Z.shiftl PCIE_TLP_FMT_3DW_NODATA 5) 0x04.
Definition PCIE_TLP_CW0 : Z := Z.lor (Z.shiftl PCIE_TLP_FMT_3DW_DATA 5) 0x04.
Definition PCIE_TLP_CR1 : Z := Z.lor (Z.shiftl PCIE_TLP_FMT_3DW_NODATA 5) 0x05.
Definition PCIE_TLP_CW1 : Z := Z.lor (Z.shiftl PCIE_TLP_FMT_3DW_DATA 5) 0x05.

(** ** Operations *)

Definition tlp_data_length (pkt : list Z) : Z :=
  let data_len := Z.lor (Z.shiftl (pkt.[tlp_length_hi]) 8) (pkt.[tlp_length_lo]) in
  Z.land (data_len - 1) 0x3FF + 1.

(** [x & mask] used as a condition. *)
Definition bit (x mask : Z) : bool := negb (Z.land x mask =? 0).

Definition tlp_data_length_bytes (pkt : list Z) : Z :=
  let data_len_bytes := tlp_data_length pkt * 4 in
  let last_be := if data_len_bytes =? 4 then pkt.[r_first_be] else pkt.[r_last_be] in
  let tail (data_len_bytes : Z) :=
    if bit last_be 8 then data_len_bytes
    else if bit last_be 4 then data_len_bytes - 1
    else if bit last_be 2 then data_len_bytes - 2
    else if bit last_be 1 then data_len_bytes - 3
    else -1 in
  if bit (pkt.[r_first_be]) 1 then tail (data_len_bytes - 0)
  else if bit (pkt.[r_first_be]) 2 then tail (data_len_bytes - 1)
  else if bit (pkt.[r_first_be]) 4 then tail (data_len_bytes - 2)
  else if bit (pkt.[r_first_be]) 8 then tail (data_len_bytes - 3)
  else if data_len_bytes =? 4 then 0 else -1.

Definition tlp_total_length (pkt : list Z) : Z :=
  let data_len := tlp_data_length pkt in
  let fmt := pkt.[tlp_fmt] in
  if fmt =? PCIE_TLP_FMT_3DW_NODATA then (3 + 0) * 4
  else if fmt =? PCIE_TLP_FMT_3DW_DATA then (3 + data_len) * 4
  else if fmt =? PCIE_TLP_FMT_4DW_NODATA then (4 + 0) * 4
  else if fmt =? PCIE_TLP_FMT_4DW_DATA then (4 + data_len) * 4
  else -1.

(** [addr] is a [uint64_t], [length] an [int].  The assignment of [4] to
    [length] in the zero-length case is dead in the source: [length] is
    overwritten before it is read.  The sums of [int]s, [length + align] and
    [length_with_align + 4], are those of the code for lengths up to [INT_MAX - 7];
    for greater ones the code overflows, which is not modelled. *)
Definition tlp_req_set_addr (pkt : list Z) (addr length : Z) : list Z :=
  let align := Z.land addr 0x3 in
  let length_with_align := length + align in
  let addr := Z.land addr (u64 (Z.lnot 3)) in
  let pkt := pkt.[r_first_be := Z.shiftl 0xf align] in
  let pkt := pkt.[r_last_be := Z.shiftr 0xf (Z.land (- length_with_align) 3)] in
  let pkt :=
    if length_with_align <=? 4 then
      let pkt := pkt.[r_first_be := Z.land (pkt.[r_first_be]) (pkt.[r_last_be])] in
      pkt.[r_last_be := 0x0]
    else pkt in
  let pkt := if length =? 0 then pkt.[r_first_be := 0] else pkt in
  let length := (length_with_align + 4 - 1) ÷ 4 in
  let pkt := pkt.[tlp_length_hi := Z.shiftr length 8] in
  let pkt := pkt.[tlp_length_lo := Z.land length 0xff] in
  if addr <? 0x100000000 then
    let pkt := pkt.[tlp_fmt := Z.land (pkt.[tlp_fmt]) (Z.lnot PCIE_TLP_FMT_4DW)] in
    wr_bytes r_address (be_bytes 4 addr) pkt
  else
    let pkt := pkt.[tlp_fmt := Z.lor (pkt.[tlp_fmt]) PCIE_TLP_FMT_4DW] in
    wr_bytes r_address (be_bytes 8 addr) pkt.

Definition tlp_req_get_addr (pkt : list Z) : Z :=
  if bit (pkt.[tlp_fmt]) PCIE_TLP_FMT_4DW
  then be_load 8 (fun i => rd pkt (r_address + i))
  else be_load 4 (fun i => rd pkt (r_address + i)).

(** The type of a TLP as the [switch]es of the client compute it. *)
Definition tlp_kind (pkt : list Z) : Z := Z.lor (Z.shiftl (pkt.[tlp_fmt]) 5) (pkt.[tlp_type]).

(** ** Lemmas *)

Lemma be_load_ext (n : nat) (p q : nat -> Z) :
  (forall i, (i < n)%nat -> p i = q i) -> be_load n p = be_load n q.
Proof.
  intros H. unfold be_load.
  assert (forall k acc, (forall i, i ∈ k -> (i < n)%nat) ->
    foldl (fun acc i => Z.lor acc (Z.shiftl (p i) (8 * (Z.of_nat n - Z.of_nat i - 1)))) acc k =
    foldl (fun acc i => Z.lor acc (Z.shiftl (q i) (8 * (Z.of_nat n - Z.of_nat i - 1)))) acc k)
    as Hk.
  { induction k as [|i k IH]; intros acc Hlt; simpl; [done|].
    rewrite H by (apply Hlt; set_solver). apply IH. set_solver. }
  apply Hk. intros i Hi%elem_of_seq. lia.
Qed.

(** One digit of the number, put back in its place. *)
Lemma testbit_digit (x k m : Z) :
  0 <= k -> 0 <= m ->
  Z.testbit (Z.shiftl (u8 (Z.shiftr x k)) k) m = (k <=? m) && (m <? k + 8) && Z.testbit x m.
Proof.
  intros. rewrite testbit_shiftl by lia. destruct (Z.leb_spec k m); simpl; [|done].
  rewrite testbit_wrap, Z.shiftr_spec by lia.
  replace (m - k + k) with m by lia. f_equal. lia.
Qed.

Ltac be_digits :=
  unfold be_load, be_bytes, rd; cbn -[Z.shiftr Z.shiftl Z.pow Z.lor];
  apply Z.bits_inj'; intros m Hm;
  rewrite !Z.lor_spec, Z.bits_0, !testbit_digit, testbit_mod_pow2 by lia;
  destruct (Z.testbit _ m); rewrite ?andb_false_r, ?andb_true_r; [|done];
  apply Bool.eq_iff_eq_true; rewrite ?orb_true_iff, ?andb_true_iff, ?Z.leb_le, ?Z.ltb_lt; lia.

Lemma be_load_bytes4 (x : Z) : be_load 4 (rd (be_bytes 4 x)) = x mod 2 ^ 32.
Proof. be_digits. Qed.

Lemma be_load_bytes8 (x : Z) : be_load 8 (rd (be_bytes 8 x)) = x mod 2 ^ 64.
Proof. be_digits. Qed.

Lemma length_tlp_req_set_addr (pkt : list Z) (addr len : Z) :
  length (tlp_req_set_addr pkt addr len) = length pkt.
Proof. unfold tlp_req_set_addr. case_goal; by autorewrite with wp_len. Qed.
#[export] Hint Rewrite length_tlp_req_set_addr : wp_len.

Lemma tlp_req_set_addr_bytes_ok (pkt : list Z) (addr len : Z) :
  bytes_ok pkt -> bytes_ok (tlp_req_set_addr pkt addr len).
Proof.
  intros. unfold tlp_req_set_addr. case_goal; auto 12 with wp.
Qed.
#[export] Hint Resolve tlp_req_set_addr_bytes_ok : wp.

(** The aligned address the packet carries. *)
Definition align4 (addr : Z) : Z := Z.land addr (u64 (Z.lnot 3)).
Definition is_32bit (addr : Z) : bool := align4 addr <? 0x100000000.

Lemma align4_spec (addr : Z) : 0 <= addr < 2 ^ 64 -> align4 addr = addr - addr mod 4.
Proof.
  intros Hr. unfold align4.
  replace (Z.land addr (u64 (Z.lnot 3))) with (Z.ldiff addr (Z.ones 2)).
  - rewrite Z.ldiff_ones_r, Z.shiftl_mul_pow2, Z.shiftr_div_pow2 by lia.
    change (2 ^ 2) with 4. pose proof (Z.div_mod addr 4). lia.
  - apply Z.bits_inj'; intros m Hm. change 3 with (Z.ones 2). autorewrite with bits.
    destruct (Z.ltb_spec m 64); simpl; [done|]. by rewrite (testbit_high addr 64) by lia.
Qed.

Lemma align4_range (addr : Z) : 0 <= addr < 2 ^ 64 -> 0 <= align4 addr < 2 ^ 64.
Proof.
  intros. rewrite align4_spec by done.
  pose proof (Z.mod_pos_bound addr 4). pose proof (Z.mod_le addr 4). lia.
Qed.

(** Enumeration of the values of a three-bit field. *)
Ltac enum_fmt f :=
  assert (f = 0 \/ f = 1 \/ f = 2 \/ f = 3 \/ f = 4 \/ f = 5 \/ f = 6 \/ f = 7) as Hf by lia;
  destruct Hf as [->|[->|[->|[->|[->|[->|[->| ->]]]]]]].

Lemma fmt_clear_4dw (f : Z) : 0 <= f < 8 -> wrap 3 (Z.land f (Z.lnot PCIE_TLP_FMT_4DW)) = Z.land f 6.
Proof. intros. enum_fmt f; done. Qed.

Lemma fmt_set_4dw (f : Z) : 0 <= f < 8 -> wrap 3 (Z.lor f PCIE_TLP_FMT_4DW) = Z.lor f 1.
Proof. intros. enum_fmt f; done. Qed.

(** A ten-bit length split over [tlp_length_hi] and [tlp_length_lo]. *)
Lemma split_length (n : Z) :
  Z.lor (Z.shiftl (wrap 2 (Z.shiftr n 8)) 8) (wrap 8 (Z.land n 255)) = n mod 1024.
Proof.
  change 1024 with (2 ^ 10). bitwise.
Qed.

Section SetAddr.
Context (pkt : list Z) (addr len : Z) (Hpkt : (16 <= length pkt)%nat).
#[local] Abbreviation p' := (tlp_req_set_addr pkt addr len).

Lemma set_addr_fmt :
  p'.[tlp_fmt] = if is_32bit addr then Z.land (pkt.[tlp_fmt]) 6 else Z.lor (pkt.[tlp_fmt]) 1.
Proof.
  unfold tlp_req_set_addr, is_32bit, align4.
  pose proof (get_range tlp_fmt pkt eq_refl) as Hf. simpl in Hf.
  case_goal; autorewrite with fields; simpl;
    first [by apply fmt_clear_4dw | by apply fmt_set_4dw].
Qed.

(** The fields outside the request's address, length and byte enables stay. *)
Lemma set_addr_keeps (f : field) :
  field_wf f = true -> (f_byte f < r_address)%nat ->
  disjoint r_first_be f = true -> disjoint r_last_be f = true ->
  disjoint tlp_length_hi f = true -> disjoint tlp_length_lo f = true ->
  disjoint tlp_fmt f = true ->
  p'.[f] = pkt.[f].
Proof.
  intros. unfold tlp_req_set_addr, r_address in *.
  case_goal; rewrite get_wr_bytes by lia;
    repeat rewrite get_set_ne by first [done | autorewrite with wp_len; simpl; lia]; done.
Qed.

Lemma set_addr_length_field :
  Z.lor (Z.shiftl (p'.[tlp_length_hi]) 8) (p'.[tlp_length_lo]) =
  ((len + addr mod 4 + 3) ÷ 4) mod 1024.
Proof.
  unfold tlp_req_set_addr.
  replace (Z.land addr 3) with (addr mod 4) by (symmetry; apply (Z.land_ones addr 2); lia).
  replace (len + addr mod 4 + 4 - 1) with (len + addr mod 4 + 3) by lia.
  case_goal; autorewrite with fields; apply split_length.
Qed.
End SetAddr.

Lemma set_addr_bit_4dw (pkt : list Z) (addr len : Z) :
  (16 <= length pkt)%nat ->
  bit ((tlp_req_set_addr pkt addr len).[tlp_fmt]) PCIE_TLP_FMT_4DW = negb (is_32bit addr).
Proof.
  intros. rewrite set_addr_fmt by done.
  pose proof (get_range tlp_fmt pkt eq_refl) as Hr. simpl in Hr.
  destruct (is_32bit addr); enum_fmt (pkt.[tlp_fmt]); done.
Qed.

(** The bytes of the address field after [tlp_req_set_addr]. *)
Lemma set_addr_address (pkt : list Z) (addr len : Z) (i : nat) :
  (16 <= length pkt)%nat -> (i < if is_32bit addr then 4 else 8)%nat ->
  rd (tlp_req_set_addr pkt addr len) (r_address + i) =
  rd (be_bytes (if is_32bit addr then 4 else 8) (align4 addr)) i.
Proof.
  intros Hp Hi. unfold is_32bit, align4 in *. unfold tlp_req_set_addr.
  case_goal; rewrite rd_wr_bytes_in;
    autorewrite with wp_len; unfold r_address; try lia; f_equal; lia.
Qed.

(** [tlp_data_length] decodes the ten-bit field, with [0] standing for 1024. *)
Lemma tlp_data_length_dec (pkt : list Z) :
  tlp_data_length pkt =
  (Z.lor (Z.shiftl (pkt.[tlp_length_hi]) 8) (pkt.[tlp_length_lo]) - 1) mod 1024 + 1.
Proof. unfold tlp_data_length. by rewrite (Z.land_ones _ 10) by lia. Qed.

Lemma tlp_data_length_range (pkt : list Z) : 1 <= tlp_data_length pkt <= 1024.
Proof. rewrite tlp_data_length_dec. pose proof (Z.mod_pos_bound (Z.lor (Z.shiftl (pkt.[tlp_length_hi]) 8) (pkt.[tlp_length_lo]) - 1) 1024). lia. Qed.

Lemma set_addr_data_length (pkt : list Z) (addr len : Z) :
  (16 <= length pkt)%nat ->
  tlp_data_length (tlp_req_set_addr pkt addr len) =
  ((len + addr mod 4 + 3) ÷ 4 - 1) mod 1024 + 1.
Proof.
  intros. rewrite tlp_data_length_dec, set_addr_length_field by done.
  by rewrite Zminus_mod_idemp_l.
Qed.

(** Number of double words of a request of [len] bytes at [addr]. *)
Lemma set_addr_data_length_small (pkt : list Z) (addr len : Z) :
  (16 <= length pkt)%nat -> 0 < len -> len + addr mod 4 <= 4096 ->
  tlp_data_length (tlp_req_set_addr pkt addr len) = (len + addr mod 4 + 3) / 4.
Proof.
  intros Hp Hl Hm. rewrite set_addr_data_length by done.
  pose proof (Z.mod_pos_bound addr 4).
  rewrite Z.quot_div_nonneg by lia.
  pose proof (Z.div_mod (len + addr mod 4 + 3) 4).
  pose proof (Z.mod_pos_bound (len + addr mod 4 + 3) 4).
  rewrite Z.mod_small by lia. lia.
Qed.

(** The byte enables [tlp_req_set_addr] stores. *)
Lemma set_addr_byte_enables (pkt : list Z) (addr len : Z) :
  (16 <= length pkt)%nat -> 0 < len ->
  let a := addr mod 4 in
  let k := (- (len + a)) mod 4 in
  (tlp_req_set_addr pkt addr len).[r_first_be] =
    (if len + a <=? 4 then Z.land (wrap 4 (Z.shiftl 15 a)) (Z.shiftr 15 k) else wrap 4 (Z.shiftl 15 a)) /\
  (tlp_req_set_addr pkt addr len).[r_last_be] = (if len + a <=? 4 then 0 else Z.shiftr 15 k).
Proof.
  intros Hp Hl a k.
  assert (Z.land addr 3 = a) as Ha by (apply (Z.land_ones addr 2); lia).
  assert (Z.land (- (len + a)) 3 = k) as Hk by (apply (Z.land_ones _ 2); lia).
  assert (0 <= a < 4) as Hra by (apply Z.mod_pos_bound; lia).
  assert (0 <= k < 4) as Hrk by (apply Z.mod_pos_bound; lia).
  unfold tlp_req_set_addr. rewrite Ha, Hk.
  destruct (Z.eqb_spec len 0); [lia|].
  clearbody a k. clear Ha Hk.
  assert (k = 0 \/ k = 1 \/ k = 2 \/ k = 3) as Hk4 by lia.
  assert (a = 0 \/ a = 1 \/ a = 2 \/ a = 3) as Ha4 by lia.
  destruct (len + a <=? 4), (Z.land addr (u64 (Z.lnot 3)) <? 4294967296);
    autorewrite with fields;
    destruct Hk4 as [->|[->|[->| ->]]], Ha4 as [->|[->|[->| ->]]]; done.
Qed.

(** [len + addr mod 4] bytes are [q] double words less [k] unused bytes. *)
Lemma dword_count (n : Z) : 0 < n -> n = 4 * ((n + 3) / 4) - (- n) mod 4.
Proof.
  intros. pose proof (Z.div_mod (n + 3) 4). pose proof (Z.mod_pos_bound (n + 3) 4).
  pose proof (Z.div_mod (- n) 4). pose proof (Z.mod_pos_bound (- n) 4). lia.
Qed.

Lemma set_addr_get_addr (pkt : list Z) (addr len : Z) :
  (16 <= length pkt)%nat -> 0 <= addr < 2 ^ 64 ->
  tlp_req_get_addr (tlp_req_set_addr pkt addr len) = addr - addr mod 4.
Proof.
  intros Hp Ha. unfold tlp_req_get_addr. rewrite set_addr_bit_4dw by done.
  pose proof (align4_range addr Ha).
  rewrite <-align4_spec by done. destruct (is_32bit addr) eqn:E; simpl;
    pose proof (set_addr_address pkt addr len) as Hrd; rewrite E in Hrd.
  - rewrite (be_load_ext 4 _ (rd (be_bytes 4 (align4 addr)))) by (intros; by apply Hrd).
    rewrite be_load_bytes4. apply Z.mod_small. unfold is_32bit in E. lia.
  - rewrite (be_load_ext 8 _ (rd (be_bytes 8 (align4 addr)))) by (intros; by apply Hrd).
    rewrite be_load_bytes8. by apply Z.mod_small.
Qed.

Lemma set_addr_data_length_bytes (pkt : list Z) (addr len : Z) :
  (16 <= length pkt)%nat -> 0 < len -> len + addr mod 4 <= 4096 ->
  tlp_data_length_bytes (tlp_req_set_addr pkt addr len) = len.
Proof.
  intros Hp Hl Hm. unfold tlp_data_length_bytes.
  rewrite set_addr_data_length_small by done.
  destruct (set_addr_byte_enables pkt addr len Hp Hl) as [-> ->].
  pose proof (Z.mod_pos_bound addr 4 ltac:(lia)) as Ha.
  pose proof (dword_count (len + addr mod 4) ltac:(lia)) as Hn.
  pose proof (Z.mod_pos_bound (- (len + addr mod 4)) 4 ltac:(lia)) as Hk.
  revert Ha Hn Hk Hm.
  generalize ((len + addr mod 4 + 3) / 4). intros q.
  generalize ((- (len + addr mod 4)) mod 4). intros k. generalize (addr mod 4).
  intros a Ha Hn Hk Hm.
  assert (k = 0 \/ k = 1 \/ k = 2 \/ k = 3) as Hk4 by lia.
  assert (a = 0 \/ a = 1 \/ a = 2 \/ a = 3) as Ha4 by lia.
  destruct (Z.leb_spec (len + a) 4), (Z.eqb_spec (q * 4) 4); try lia;
    destruct Hk4 as [->|[->|[->| ->]]], Ha4 as [->|[->|[->| ->]]]; simpl; lia.
Qed.

Lemma total_length_cases (pkt : list Z) :
  (tlp_total_length pkt = -1 /\ 4 <= pkt.[tlp_fmt]) \/
  (pkt.[tlp_fmt] < 4 /\ 12 <= tlp_total_length pkt <= 4112 /\
   tlp_total_length pkt =
     4 * ((if bit (pkt.[tlp_fmt]) PCIE_TLP_FMT_4DW then 4 else 3) +
          (if bit (pkt.[tlp_fmt]) PCIE_TLP_FMT_DATA then tlp_data_length pkt else 0))).
Proof.
  pose proof (get_range tlp_fmt pkt eq_refl) as Hr. simpl in Hr.
  pose proof (tlp_data_length_range pkt).
  unfold tlp_total_length. revert H Hr.
  generalize (tlp_data_length pkt), (pkt.[tlp_fmt]). intros d f H Hr.
  enum_fmt f; cbv -[Z.mul Z.add Z.le Z.lt]; [right|right|right|right|left|left|left|left]; lia.
Qed.

Lemma data_length_bytes_range (pkt : list Z) :
  -1 <= tlp_data_length_bytes pkt <= 4 * tlp_data_length pkt /\
  4 * tlp_data_length pkt <= 4096.
Proof.
  pose proof (tlp_data_length_range pkt). unfold tlp_data_length_bytes.
  destruct (Z.eqb_spec (tlp_data_length pkt * 4) 4); case_goal; first [lia | congruence].
Qed.

(** No length: an aligned request announces 1024 double words and has no valid
    byte count, an unaligned one announces one double word with no byte enabled. *)
Lemma set_addr_zero_length (pkt : list Z) (addr : Z) :
  (16 <= length pkt)%nat -> 0 <= addr ->
  let p := tlp_req_set_addr pkt addr 0 in
  tlp_data_length p = (if addr mod 4 =? 0 then 1024 else 1) /\
  tlp_data_length_bytes p = (if addr mod 4 =? 0 then -1 else 0).
Proof.
  intros Hp Ha p.
  assert (p.[r_first_be] = 0) as Hbe.
  { subst p. unfold tlp_req_set_addr. case_goal; by autorewrite with fields. }
  assert (tlp_data_length p = (if addr mod 4 =? 0 then 1024 else 1)) as Hdl.
  { subst p. rewrite set_addr_data_length by done. simpl.
    pose proof (Z.mod_pos_bound addr 4 ltac:(lia)) as Hr. revert Hr.
    generalize (addr mod 4). intros a Hr.
    assert (a = 0 \/ a = 1 \/ a = 2 \/ a = 3) as [->|[->|[->| ->]]] by lia; done. }
  split; [done|]. unfold tlp_data_length_bytes. rewrite Hbe, Hdl.
  by destruct (addr mod 4 =? 0).
Qed.

(** ** Properties of the protocol helpers *)

(** C24. A request carries its address and its length.  What [tlp_req_get_addr]
    decodes is the address given to [tlp_req_set_addr] rounded down to four
    bytes, in the 32-bit form below 4 GiB and in the 64-bit form above.  For
    every length that fits in one TLP, the byte count the receiver computes from
    the length field and the byte enables is the length given.  A zero-length
    request at an aligned address is encoded with length field 0, which means
    1024 double words, and has no valid byte count; at an unaligned address it
    is one double word with no byte enabled (the dead assignment [length = 4] in
    [tlp_req_set_addr] shows that one double word was meant in both cases). *)
Theorem tlp_req_roundtrip (pkt : list Z) (addr len : Z) :
  (16 <= length pkt)%nat -> 0 <= addr < 2 ^ 64 ->
  tlp_req_get_addr (tlp_req_set_addr pkt addr len) = addr - addr mod 4 /\
  (0 < len -> len + addr mod 4 <= 4096 ->
   tlp_data_length_bytes (tlp_req_set_addr pkt addr len) = len) /\
  (len = 0 ->
   tlp_data_length (tlp_req_set_addr pkt addr len) = (if addr mod 4 =? 0 then 1024 else 1) /\
   tlp_data_length_bytes (tlp_req_set_addr pkt addr len) = (if addr mod 4 =? 0 then -1 else 0)).
Proof.
  intros Hp Ha. split_and!.
  - by apply set_addr_get_addr.
  - by apply set_addr_data_length_bytes.
  - intros ->. apply set_addr_zero_length; [done|lia].
Qed.

Lemma tlp_req_roundtrip_witness :
  tlp_req_get_addr (tlp_req_set_addr (replicate 16 0) 0x200000007 9) = 0x200000004 /\
  tlp_data_length_bytes (tlp_req_set_addr (replicate 16 0) 0x200000007 9) = 9 /\
  tlp_data_length (tlp_req_set_addr (replicate 16 0) 0x1000 0) = 1024 /\
  tlp_data_length_bytes (tlp_req_set_addr (replicate 16 0) 0x1000 0) = -1.
Proof.
  destruct (tlp_req_roundtrip (replicate 16 0) 0x200000007 9) as (H1 & H2 & _); [simpl; lia|lia|].
  destruct (tlp_req_roundtrip (replicate 16 0) 0x1000 0) as (_ & _ & H3); [simpl; lia|lia|].
  split; [exact H1|]. split; [apply H2; [lia|by vm_compute]|]. exact (H3 eq_refl).
Defined.

(** The lengths that a header announces are bounded.  [tlp_total_length]
    rejects exactly the formats with the prefix bit; otherwise it is a whole
    number of double words between the bare three-word header and the four-word
    header with 1024 words of payload.  [tlp_data_length_bytes] never exceeds
    the payload that the length field announces, and is negative only as the
    error value [-1]. *)
Lemma tlp_length_bounds (pkt : list Z) :
  ((tlp_total_length pkt = -1 /\ 4 <= pkt.[tlp_fmt]) \/
   (pkt.[tlp_fmt] < 4 /\ 12 <= tlp_total_length pkt <= 4112 /\
    tlp_total_length pkt =
      4 * ((if bit (pkt.[tlp_fmt]) PCIE_TLP_FMT_4DW then 4 else 3) +
           (if bit (pkt.[tlp_fmt]) PCIE_TLP_FMT_DATA then tlp_data_length pkt else 0)))) /\
  -1 <= tlp_data_length_bytes pkt <= 4 * tlp_data_length pkt /\
  4 * tlp_data_length pkt <= 4096.
Proof. split; [apply total_length_cases|apply data_length_bytes_range]. Qed.
