(* ===== verification/Crc.v ===== *)
(** * CRCs of the data link layer ([src/crc.c], [inc/warppipe/crc.h])

    [crc32p] is the bit-serial, reflected CRC the sources use for both the
    16-bit CRC of DLLPs and the 32-bit LCRC of TLPs.  The theorems relate it to
    the shift register of the PCIe specification (most significant bit first,
    unreversed polynomial), show that a generated CRC is accepted, and that
    every error burst no longer than the CRC is rejected. *)

From S2P Require Import Prelude Layout Proto.

Definition DLLP_CRC16_POLY : Z := 0xd008.
Definition TLP_LCRC32_POLY : Z := 0xedb88320.

(** One iteration of the inner loop of [crc32p]. *)
Definition crc_bit (poly crc : Z) : Z :=
  if bit crc 1 then Z.lxor (Z.shiftr crc 1) poly else Z.shiftr crc 1.

(** One iteration of the outer loop: [crc ^ *data], then eight bits. *)
Definition crc_byte (poly crc data : Z) : Z := Nat.iter 8 (crc_bit poly) (Z.lxor crc data).

(** [data] is the memory from [start] to [end]. *)
Definition crc32p (data : list Z) (init poly : Z) : Z := foldl (crc_byte poly) init data.

(** The comparison loops of the [_valid] functions: [n] bytes at [off]. *)
Fixpoint crc_equals (n : nat) (off : nat) (crc : Z) (pkt : list Z) : bool :=
  match n with
  | O => true
  | S n =>
      if negb (rd pkt off =? Z.land crc 0xff) then false
      else crc_equals n (S off) (Z.shiftr crc 8) pkt
  end.

Definition dllp_crc (pkt : list Z) : Z :=
  u16 (u32 (Z.lnot (crc32p (take dl_crc16 pkt) 0xffff DLLP_CRC16_POLY))).

Definition pcie_crc16 (pkt : list Z) : list Z :=
  wr_bytes dl_crc16 (le_bytes 2 (dllp_crc pkt)) pkt.

Definition pcie_crc16_valid (pkt : list Z) : bool :=
  crc_equals 2 dl_crc16 (dllp_crc pkt) pkt.

(** Offset of the LCRC in a [struct pcie_dltlp]: [(uint8_t * )&pkt->dl_tlp + total_length]. *)
Definition lcrc_offset (pkt : list Z) : nat :=
  Z.to_nat (Z.of_nat dl_tlp + tlp_total_length (drop dl_tlp pkt)).

Definition tlp_lcrc (pkt : list Z) : Z :=
  u32 (Z.lnot (crc32p (take (lcrc_offset pkt) pkt) 0xffffffff TLP_LCRC32_POLY)).

Definition pcie_lcrc32 (pkt : list Z) : list Z :=
  wr_bytes (lcrc_offset pkt) (le_bytes 4 (tlp_lcrc pkt)) pkt.

Definition pcie_lcrc32_valid (pkt : list Z) : bool :=
  crc_equals 4 (lcrc_offset pkt) (tlp_lcrc pkt) pkt.

(** ** Reference: the shift register of the specification *)

(** Mirror image of the low [w] bits. *)
Fixpoint reflect (w : nat) (x : Z) : Z :=
  match w with
  | O => 0
  | S w => Z.lor (Z.shiftl (Z.b2z (Z.odd x)) (Z.of_nat w)) (reflect w (Z.shiftr x 1))
  end.

(** Shift in one message bit: the bit leaving the register, added to the
    message bit, decides whether the polynomial is added. *)
Definition lfsr_step (w : nat) (poly r : Z) (b : bool) : Z :=
  Z.lxor (wrap (Z.of_nat w) (Z.shiftl r 1))
         (if xorb (Z.testbit r (Z.of_nat w - 1)) b then poly else 0).

(** The bits of a byte in transmission order. *)
Definition byte_bits (b : Z) : list bool := Z.testbit b <$> seqZ 0 8.

Definition lfsr (w : nat) (poly r : Z) (msg : list Z) : Z :=
  foldl (lfsr_step w poly) r (msg ≫= byte_bits).

(** Bytes as one little-endian number ([^] is [|] on disjoint digits). *)
Definition le_number (l : list Z) : Z := foldr (fun b acc => Z.lxor b (Z.shiftl acc 8)) 0 l.

(** ** Lemmas *)

Section CrcBit.
Context (poly : Z).

Lemma bit1_testbit (x : Z) : bit x 1 = Z.testbit x 0.
Proof.
  unfold bit. change 1 with (Z.ones 1) at 1. rewrite Z.land_ones, Z.bit0_odd by lia.
  change (2 ^ 1) with 2. rewrite Zmod_odd. by destruct (Z.odd x).
Qed.

Lemma crc_bit_alt (x : Z) :
  crc_bit poly x = Z.lxor (Z.shiftr x 1) (if Z.testbit x 0 then poly else 0).
Proof. unfold crc_bit. rewrite bit1_testbit. destruct (Z.testbit x 0); [done|]. by rewrite Z.lxor_0_r. Qed.

Lemma crc_bit_lxor (x y : Z) :
  crc_bit poly (Z.lxor x y) = Z.lxor (crc_bit poly x) (crc_bit poly y).
Proof.
  rewrite !crc_bit_alt, Z.lxor_spec, Z.shiftr_lxor.
  destruct (Z.testbit x 0), (Z.testbit y 0); simpl; bitwise.
Qed.

Lemma crc_bit_double (y : Z) : crc_bit poly (Z.shiftl y 1) = y.
Proof.
  rewrite crc_bit_alt, testbit_shiftl by lia. simpl. rewrite Z.lxor_0_r.
  rewrite Z.shiftr_shiftl_l by lia. apply Z.shiftl_0_r.
Qed.

Lemma crc_iter_lxor (n : nat) (x y : Z) :
  Nat.iter n (crc_bit poly) (Z.lxor x y) =
  Z.lxor (Nat.iter n (crc_bit poly) x) (Nat.iter n (crc_bit poly) y).
Proof. induction n as [|n IH]; simpl; [done|]. by rewrite IH, crc_bit_lxor. Qed.

Lemma crc_iter_shiftl (n : nat) (y : Z) :
  Nat.iter n (crc_bit poly) (Z.shiftl y (Z.of_nat n)) = y.
Proof.
  induction n as [|n IH]; [apply Z.shiftl_0_r|].
  rewrite Nat.iter_succ_r.
  replace (Z.shiftl y (Z.of_nat (S n))) with (Z.shiftl (Z.shiftl y (Z.of_nat n)) 1)
    by (rewrite Z.shiftl_shiftl by lia; f_equal; lia).
  by rewrite crc_bit_double.
Qed.

(** Feeding a byte string is shifting the state, added to the string seen as
    one little-endian number. *)
Lemma crc_bytes_iter (l : list Z) (s : Z) :
  foldl (crc_byte poly) s l = Nat.iter (8 * length l) (crc_bit poly) (Z.lxor s (le_number l)).
Proof.
  revert s. induction l as [|b l IH]; intros s; cbn [foldl le_number foldr].
  { by rewrite Z.lxor_0_r. }
  rewrite IH. unfold crc_byte.
  replace (8 * length (b :: l))%nat with (8 * length l + 8)%nat by (simpl; lia).
  rewrite Nat.iter_add. f_equal.
  rewrite <-(Z.lxor_assoc s b), (crc_iter_lxor 8 (Z.lxor s b)).
  f_equal. symmetry. apply (crc_iter_shiftl 8).
Qed.
End CrcBit.

Section CrcWidth.
Context (w : Z) (poly : Z).
Context (Hw : 0 < w) (Hpoly : 0 <= poly < 2 ^ w) (Htop : Z.testbit poly (w - 1) = true).

Lemma crc_bit_range (x : Z) : 0 <= x < 2 ^ w -> 0 <= crc_bit poly x < 2 ^ w.
Proof.
  intros Hx. rewrite crc_bit_alt. apply lxor_range; [lia| |].
  - rewrite Z.shiftr_div_pow2 by lia. change (2 ^ 1) with 2.
    pose proof (Z.div_mod x 2). pose proof (Z.mod_pos_bound x 2). lia.
  - destruct (Z.testbit x 0); lia.
Qed.

Lemma crc_iter_range (n : nat) (x : Z) :
  0 <= x < 2 ^ w -> 0 <= Nat.iter n (crc_bit poly) x < 2 ^ w.
Proof. intros. induction n; simpl; [done|]. by apply crc_bit_range. Qed.

(** The register never loses information: its last bit is restored from the
    top bit of the polynomial. *)
Lemma crc_bit_zero (x : Z) : 0 <= x < 2 ^ w -> crc_bit poly x = 0 -> x = 0.
Proof.
  intros Hx H0. rewrite crc_bit_alt in H0. apply Z.lxor_eq in H0.
  assert (Z.testbit (Z.shiftr x 1) (w - 1) = false) as Hhi.
  { rewrite Z.shiftr_spec by lia. apply (testbit_high x w); lia. }
  destruct (Z.testbit x 0) eqn:Hlo; [congruence|].
  apply Z.bits_inj'; intros m Hm. rewrite Z.bits_0.
  destruct (Z.eq_dec m 0) as [->|]; [done|].
  replace m with (m - 1 + 1) by lia. rewrite <-Z.shiftr_spec, H0 by lia. apply Z.bits_0.
Qed.

Lemma crc_bit_inj (x y : Z) :
  0 <= x < 2 ^ w -> 0 <= y < 2 ^ w -> crc_bit poly x = crc_bit poly y -> x = y.
Proof.
  intros Hx Hy E. apply Z.lxor_eq, crc_bit_zero; [apply lxor_range; lia|].
  rewrite crc_bit_lxor, E. apply Z.lxor_nilpotent.
Qed.

Lemma crc_iter_inj (n : nat) (x y : Z) :
  0 <= x < 2 ^ w -> 0 <= y < 2 ^ w ->
  Nat.iter n (crc_bit poly) x = Nat.iter n (crc_bit poly) y -> x = y.
Proof.
  intros Hx Hy. induction n as [|n IH]; simpl; [done|]. intros E. apply IH.
  by apply crc_bit_inj in E; [..|by apply crc_iter_range|by apply crc_iter_range].
Qed.

(** From here on the register holds at least a byte. *)
Context (Hw8 : 8 <= w).

Lemma byte_range_w (b : Z) : byte_ok b -> 0 <= b < 2 ^ w.
Proof.
  intros [? ?]. pose proof (Z.pow_le_mono_r 2 8 w). change (2 ^ 8) with 256 in *. lia.
Qed.

Lemma crc32p_range (l : list Z) (init : Z) :
  bytes_ok l -> 0 <= init < 2 ^ w -> 0 <= crc32p l init poly < 2 ^ w.
Proof.
  unfold crc32p. intros Hl. revert init. induction Hl as [|b l Hb Hl IH]; intros; [done|].
  cbn [foldl]. apply IH, crc_iter_range, lxor_range; [lia|done|]. by apply byte_range_w.
Qed.

(** A byte string maps different registers to different registers. *)
Lemma crc32p_init_inj (l : list Z) (x y : Z) :
  bytes_ok l -> 0 <= x < 2 ^ w -> 0 <= y < 2 ^ w ->
  crc32p l x poly = crc32p l y poly -> x = y.
Proof.
  unfold crc32p. intros Hl. revert x y. induction Hl as [|b l Hb Hl IH]; intros x y Hx Hy E; [done|].
  pose proof (byte_range_w b Hb). cbn [foldl] in E.
  apply IH in E; [|by apply crc_iter_range, lxor_range; [lia|..] ..].
  apply crc_iter_inj in E; [|apply lxor_range; [lia|done..]..].
  apply (f_equal (fun z => Z.lxor z b)) in E.
  by rewrite !Z.lxor_assoc, Z.lxor_nilpotent, !Z.lxor_0_r in E.
Qed.

Lemma le_number_range (l : list Z) :
  bytes_ok l -> 0 <= le_number l < 2 ^ (8 * Z.of_nat (length l)).
Proof.
  induction 1 as [|b l Hb Hl IH]; [done|]. cbn [le_number foldr length].
  set (n := 8 * Z.of_nat (length l)) in *.
  replace (8 * Z.of_nat (S (length l))) with (8 + n) by lia.
  apply lxor_range; [lia| |].
  - destruct Hb. pose proof (Z.pow_le_mono_r 2 8 (8 + n)). change (2 ^ 8) with 256 in *. lia.
  - rewrite Z.shiftl_mul_pow2, Z.pow_add_r by lia. fold (le_number l). nia.
Qed.

Lemma le_number_inj (l k : list Z) :
  length l = length k -> bytes_ok l -> bytes_ok k -> le_number l = le_number k -> l = k.
Proof.
  revert k. induction l as [|a l IH]; intros [|b k] Hlen Hl Hk E; try done.
  cbn [le_number foldr] in E. fold (le_number l) in E. fold (le_number k) in E.
  inversion Hl as [|? ? Ha Hl']; inversion Hk as [|? ? Hb Hk']; subst.
  assert (a = b) as ->.
  { apply (f_equal (fun z => z mod 2 ^ 8)) in E.
    rewrite <-(Z.mod_small a 256), <-(Z.mod_small b 256) by done.
    change 256 with (2 ^ 8). rewrite <-!Z.land_ones in * by lia.
    assert (forall x y, Z.land (Z.lxor x (Z.shiftl y 8)) (Z.ones 8) = Z.land x (Z.ones 8)) as Hm
      by (intros; bitwise).
    by rewrite !Hm in E. }
  f_equal. apply IH; [by injection Hlen|done..|].
  apply (f_equal (fun z => Z.lxor b z)) in E.
  rewrite <-!Z.lxor_assoc, Z.lxor_nilpotent, !Z.lxor_0_l in E.
  apply (f_equal (fun z => Z.shiftr z 8)) in E.
  by rewrite !Z.shiftr_shiftl_l, !Z.shiftl_0_r in E by lia.
Qed.

(** Two strings that fit in the register give different registers. *)
Lemma crc32p_short_inj (e1 e2 : list Z) (init : Z) :
  length e1 = length e2 -> 8 * Z.of_nat (length e1) <= w -> bytes_ok e1 -> bytes_ok e2 ->
  0 <= init < 2 ^ w -> crc32p e1 init poly = crc32p e2 init poly -> e1 = e2.
Proof.
  intros Hlen Hshort H1 H2 Hi E. unfold crc32p in E. rewrite !crc_bytes_iter, Hlen in E.
  assert (forall e, bytes_ok e -> length e = length e2 -> 0 <= le_number e < 2 ^ w) as Hr.
  { intros e He Hl. pose proof (le_number_range e He).
    pose proof (Z.pow_le_mono_r 2 (8 * Z.of_nat (length e)) w). lia. }
  apply crc_iter_inj in E; [|apply lxor_range; [lia|done|by apply Hr]..].
  apply (f_equal (fun z => Z.lxor init z)) in E.
  rewrite <-!Z.lxor_assoc, Z.lxor_nilpotent, !Z.lxor_0_l in E.
  by apply le_number_inj in E.
Qed.
End CrcWidth.

Lemma testbit_reflect (w : nat) (x i : Z) :
  0 <= i -> Z.testbit (reflect w x) i = (i <? Z.of_nat w) && Z.testbit x (Z.of_nat w - 1 - i).
Proof.
  revert x. induction w as [|w IH]; intros x Hi; cbn [reflect].
  { rewrite Z.bits_0. by destruct (Z.ltb_spec i (Z.of_nat 0)); [lia|]. }
  rewrite Z.lor_spec, testbit_shiftl, IH by lia.
  replace (Z.of_nat (S w) - 1 - i) with (Z.of_nat w - i) by lia.
  destruct (Z.ltb_spec i (Z.of_nat (S w))), (Z.leb_spec (Z.of_nat w) i),
    (Z.ltb_spec i (Z.of_nat w)); simpl; try lia; rewrite ?orb_false_r.
  - assert (i = Z.of_nat w) as -> by lia. rewrite Z.sub_diag, !Z.bit0_odd.
    by destruct (Z.odd x).
  - rewrite Z.shiftr_spec by lia. f_equal. lia.
  - destruct (Z.odd x); simpl; [|apply Z.bits_0].
    change 1 with (2 ^ 0). apply Z.pow2_bits_false. lia.
Qed.
#[export] Hint Rewrite testbit_reflect using lia : bits.

(** One bit of the reflected implementation is one step of the register. *)
Lemma crc_bit_lfsr (w : nat) (poly r : Z) (b : bool) :
  (0 < w)%nat ->
  crc_bit (reflect w poly) (Z.lxor (reflect w r) (Z.b2z b)) =
  reflect w (lfsr_step w poly r b).
Proof.
  intros Hw. rewrite crc_bit_alt. unfold lfsr_step.
  assert (forall m, 0 < m -> Z.testbit (Z.b2z b) m = false) as Hb.
  { intros m Hm. destruct b; simpl; [|apply Z.bits_0]. change 1 with (2 ^ 0).
    apply Z.pow2_bits_false. lia. }
  assert (Z.testbit (Z.b2z b) 0 = b) as Hb0 by by destruct b.
  rewrite Z.lxor_spec, Hb0, testbit_reflect by lia.
  replace (0 <? Z.of_nat w) with true by lia. cbn [andb].
  rewrite Z.sub_0_r. set (t := xorb _ b).
  assert (forall m, Z.testbit (if t then reflect w poly else 0) m
    = t && Z.testbit (reflect w poly) m) as Ht.
  { intros. destruct t; [done|]. apply Z.bits_0. }
  assert (forall m, Z.testbit (if t then poly else 0) m = t && Z.testbit poly m) as Ht'.
  { intros. destruct t; [done|]. apply Z.bits_0. }
  apply Z.bits_inj'; intros m Hm.
  rewrite testbit_reflect, !Z.lxor_spec, Ht, Z.shiftr_spec, Z.lxor_spec, Hb,
    !testbit_reflect, xorb_false_r by lia.
  destruct (Z.ltb_spec m (Z.of_nat w)); cbn [andb].
  - rewrite Ht', testbit_wrap, testbit_shiftl by lia.
    replace (Z.of_nat w - 1 - m <? Z.of_nat w) with true by lia. cbn [andb].
    replace (Z.of_nat w - 1 - m - 1) with (Z.of_nat w - 1 - (m + 1)) by lia.
    replace (1 <=? Z.of_nat w - 1 - m) with (m + 1 <? Z.of_nat w) by lia. done.
  - replace (m + 1 <? Z.of_nat w) with false by lia. by destruct t.
Qed.

Lemma crc_byte_lfsr (w : nat) (poly r b : Z) :
  (0 < w)%nat -> byte_ok b ->
  crc_byte (reflect w poly) (reflect w r) b =
  reflect w (foldl (lfsr_step w poly) r (byte_bits b)).
Proof.
  intros Hw Hb. unfold crc_byte, byte_bits.
  assert (forall (n : nat) (k : Z) s, 0 <= k -> k + Z.of_nat n = 8 ->
    Nat.iter n (crc_bit (reflect w poly)) (Z.lxor (reflect w s) (Z.shiftr b k)) =
    reflect w (foldl (lfsr_step w poly) s (Z.testbit b <$> seqZ k (Z.of_nat n)))) as Hn.
  { induction n as [|n IH]; intros k s Hk Hk8.
    - replace (Z.shiftr b k) with 0; [by rewrite Z.lxor_0_r|].
      symmetry. bitwise. replace k with 8 by lia. apply (testbit_high b 8); [done|lia].
    - rewrite Nat.iter_succ_r, seqZ_cons by lia. cbn [fmap list_fmap foldl].
      replace (Z.pred (Z.of_nat (S n))) with (Z.of_nat n) by lia.
      rewrite <-IH, <-crc_bit_lfsr by lia. f_equal.
      replace (Z.shiftr b k)
        with (Z.lxor (Z.b2z (Z.testbit b k)) (Z.shiftl (Z.shiftr b (Z.succ k)) 1)).
      { by rewrite <-Z.lxor_assoc, crc_bit_lxor, crc_bit_double. }
      apply Z.bits_inj'; intros m Hm. rewrite Z.lxor_spec, testbit_shiftl, (Z.shiftr_spec b k) by lia.
      destruct (Z.leb_spec 1 m); cbn [andb].
      + rewrite Z.shiftr_spec by lia. replace (m - 1 + Z.succ k) with (m + k) by lia.
        destruct (Z.testbit b k); simpl; [|by rewrite Z.bits_0].
        change 1 with (2 ^ 0). by rewrite Z.pow2_bits_false, xorb_false_l by lia.
      + assert (m = 0) as -> by lia. rewrite xorb_false_r, Z.add_0_l. by destruct (Z.testbit b k). }
  apply (Hn 8%nat 0 r); lia.
Qed.

(** *** Comparison and storage of a CRC *)

Lemma crc_equals_spec (n off : nat) (crc : Z) (pkt : list Z) :
  crc_equals n off crc pkt = true <->
  forall i, (i < n)%nat -> rd pkt (off + i) = rd (le_bytes n crc) i.
Proof.
  revert off crc. induction n as [|n IH]; intros off crc; simpl; [split; [intros _ i Hi; lia|done]|].
  destruct (Z.eqb_spec (rd pkt off) (Z.land crc 255)) as [E|E]; simpl.
  - rewrite IH. split; intros H i Hi.
    + destruct i as [|i]; [by rewrite Nat.add_0_r|].
      rewrite <-Nat.add_succ_comm. apply H. lia.
    + rewrite Nat.add_succ_comm. apply (H (S i)). lia.
  - split; [done|]. intros H. specialize (H O ltac:(lia)). by rewrite Nat.add_0_r in H.
Qed.

Lemma crc_equals_wr_bytes (n off : nat) (crc : Z) (pkt : list Z) :
  (off + n <= length pkt)%nat -> crc_equals n off crc (wr_bytes off (le_bytes n crc) pkt) = true.
Proof.
  intros Hlen. apply crc_equals_spec. intros i Hi.
  rewrite rd_wr_bytes_in by (autorewrite with wp_len; lia). f_equal. lia.
Qed.

(** The CRC is computed over the bytes before it. *)
Lemma take_wr_bytes (off : nat) (bs pkt : list Z) : take off (wr_bytes off bs pkt) = take off pkt.
Proof.
  apply list_eq. intros i. destruct (decide (i < off)%nat).
  - rewrite !lookup_take_lt by done. by apply list_lookup_inserts_lt.
  - by rewrite !lookup_take_ge by lia.
Qed.

Lemma drop_wr_bytes (off k : nat) (bs pkt : list Z) :
  (k <= off)%nat -> drop k (wr_bytes off bs pkt) = wr_bytes (off - k) bs (drop k pkt).
Proof.
  intros. apply rd_ext.
  { rewrite length_drop, !length_wr_bytes. by rewrite length_drop. }
  intros i Hi. rewrite rd_drop. rewrite length_drop, length_wr_bytes in Hi.
  destruct (decide (off <= k + i < off + length bs)%nat).
  - unfold rd, wr_bytes.
    rewrite !list_lookup_inserts by (rewrite ?length_drop; lia). f_equal. f_equal. lia.
  - rewrite !rd_wr_bytes_out by lia. by rewrite rd_drop.
Qed.

(** The length of a TLP depends on its first four bytes only. *)
Lemma tlp_total_length_ext (p q : list Z) :
  (forall i, (i < 4)%nat -> rd p i = rd q i) -> tlp_total_length p = tlp_total_length q.
Proof.
  intros H. unfold tlp_total_length, tlp_data_length, get, tlp_fmt, tlp_length_hi, tlp_length_lo.
  cbn [f_byte f_bit f_width]. by rewrite !H by lia.
Qed.

Lemma lcrc_offset_bounds (pkt : list Z) :
  0 <= tlp_total_length (drop dl_tlp pkt) -> (14 <= lcrc_offset pkt <= 4114)%nat.
Proof.
  intros. unfold lcrc_offset, dl_tlp in *. destruct (total_length_cases (drop 2 pkt)); lia.
Qed.

Lemma lcrc_offset_wr_bytes (off : nat) (bs pkt : list Z) :
  (6 <= off)%nat -> lcrc_offset (wr_bytes off bs pkt) = lcrc_offset pkt.
Proof.
  intros. unfold lcrc_offset, dl_tlp. f_equal. f_equal. apply tlp_total_length_ext.
  intros i Hi. rewrite drop_wr_bytes by lia. apply rd_wr_bytes_out. lia.
Qed.

Lemma crc32p_lfsr (w : nat) (poly r : Z) (msg : list Z) :
  (0 < w)%nat -> bytes_ok msg ->
  crc32p msg (reflect w r) (reflect w poly) = reflect w (lfsr w poly r msg).
Proof.
  intros Hw Hm. unfold crc32p, lfsr. revert r. induction Hm as [|b msg Hb Hm IH]; intros r; [done|].
  cbn [foldl]. by rewrite crc_byte_lfsr, IH, <-foldl_app by done.
Qed.

(** Strings that differ in a window no wider than the register have different CRCs. *)
Lemma crc32p_burst (w poly init : Z) (p e1 e2 s : list Z) :
  8 <= w -> 0 <= poly < 2 ^ w -> Z.testbit poly (w - 1) = true -> 0 <= init < 2 ^ w ->
  bytes_ok p -> bytes_ok e1 -> bytes_ok e2 -> bytes_ok s ->
  length e1 = length e2 -> 8 * Z.of_nat (length e1) <= w ->
  crc32p (p ++ e1 ++ s) init poly = crc32p (p ++ e2 ++ s) init poly -> e1 = e2.
Proof.
  intros Hw Hpoly Htop Hi Hp He1 He2 Hs Hlen Hshort.
  assert (forall l k i, crc32p (l ++ k) i poly = crc32p k (crc32p l i poly) poly) as Happ.
  { intros. apply foldl_app. }
  assert (0 < w) as Hw0 by lia.
  pose proof (crc32p_range w poly Hw0 Hpoly Hw) as Hrange.
  rewrite !Happ. intros E.
  apply (crc32p_init_inj w) in E; auto.
  by apply (crc32p_short_inj w) in E; auto.
Qed.

(** Same CRC in both packets: the numbers the packets store are equal. *)
Lemma le_bytes_inj (n : nat) (x y : Z) :
  0 <= x < 2 ^ (8 * Z.of_nat n) -> 0 <= y < 2 ^ (8 * Z.of_nat n) ->
  (forall i, (i < n)%nat -> rd (le_bytes n x) i = rd (le_bytes n y) i) -> x = y.
Proof.
  revert x y. induction n as [|n IH]; intros x y Hx Hy H; [simpl in *; lia|].
  assert (Z.land x 255 = Z.land y 255) as Hlo by (apply (H O); lia).
  assert (Z.shiftr x 8 = Z.shiftr y 8) as Hhi.
  { replace (8 * Z.of_nat (S n)) with (8 * Z.of_nat n + 8) in * by lia.
    apply IH; [by apply shiftr_range; lia..|]. intros i Hi. apply (H (S i)). lia. }
  apply Z.bits_inj'; intros m Hm. destruct (Z.ltb_spec m 8).
  - apply (f_equal (fun z => Z.testbit z m)) in Hlo. autorewrite with bits in Hlo.
    replace (m <? 8) with true in Hlo by lia. by rewrite !andb_true_r in Hlo.
  - replace m with (m - 8 + 8) by lia. rewrite <-!Z.shiftr_spec by lia. by rewrite Hhi.
Qed.

Lemma wrap_lnot_inj (w x y : Z) :
  0 <= w -> 0 <= x < 2 ^ w -> 0 <= y < 2 ^ w ->
  wrap w (Z.lnot x) = wrap w (Z.lnot y) -> x = y.
Proof.
  intros Hw Hx Hy E. apply Z.bits_inj'; intros m Hm.
  destruct (Z.ltb_spec m w).
  - apply (f_equal (fun z => Z.testbit z m)) in E. autorewrite with bits in E.
    replace (m <? w) with true in E by lia. simpl in E.
    by apply negb_sym in E; rewrite negb_involutive in E.
  - by rewrite !(testbit_high _ w) by lia.
Qed.

Lemma lcrc32_store_valid (pkt : list Z) :
  (6 <= length pkt)%nat -> 0 <= tlp_total_length (drop dl_tlp pkt) ->
  (lcrc_offset pkt + 4 <= length pkt)%nat ->
  pcie_lcrc32_valid (pcie_lcrc32 pkt) = true /\
  take (lcrc_offset pkt) (pcie_lcrc32 pkt) = take (lcrc_offset pkt) pkt /\
  drop (lcrc_offset pkt + 4) (pcie_lcrc32 pkt) = drop (lcrc_offset pkt + 4) pkt.
Proof.
  intros H6 Ht Hlen. pose proof (lcrc_offset_bounds pkt Ht).
  unfold pcie_lcrc32_valid, pcie_lcrc32, tlp_lcrc.
  rewrite lcrc_offset_wr_bytes, take_wr_bytes by lia. split_and!; [|done|].
  - by apply crc_equals_wr_bytes.
  - rewrite wr_bytes_split by (autorewrite with wp_len; lia).
    rewrite length_le_bytes, app_assoc, drop_app_length'; [done|].
    rewrite length_app, length_take, length_le_bytes. lia.
Qed.

Lemma crc16_store_valid (pkt : list Z) :
  (6 <= length pkt)%nat ->
  pcie_crc16_valid (pcie_crc16 pkt) = true /\
  take dl_crc16 (pcie_crc16 pkt) = take dl_crc16 pkt /\
  drop 6 (pcie_crc16 pkt) = drop 6 pkt.
Proof.
  intros H6. unfold pcie_crc16_valid, pcie_crc16, dllp_crc, dl_crc16.
  rewrite take_wr_bytes. split_and!; [|done|].
  - by apply crc_equals_wr_bytes.
  - rewrite wr_bytes_split by (autorewrite with wp_len; lia).
    rewrite length_le_bytes, app_assoc, drop_app_length'; [done|].
    rewrite length_app, length_take, length_le_bytes. lia.
Qed.

(** ** Properties of the CRCs *)

(** C23. The reversed-polynomial loop computes the CRCs of the specification:
    [crc32p] with the constants of [crc.h] leaves the mirror image of the
    register that the shift register of the PCIe specification, with
    polynomials [04C1_1DB7h] and [100Bh] and all-ones seed, reaches on the
    same message. *)
Theorem crc32p_computes_spec_crc (msg : list Z) :
  bytes_ok msg ->
  crc32p msg 0xffffffff TLP_LCRC32_POLY = reflect 32 (lfsr 32 0x04C11DB7 0xffffffff msg) /\
  crc32p msg 0xffff DLLP_CRC16_POLY = reflect 16 (lfsr 16 0x100B 0xffff msg).
Proof.
  intros Hm. split.
  - apply (crc32p_lfsr 32 0x04C11DB7 0xffffffff); [lia|done].
  - apply (crc32p_lfsr 16 0x100B 0xffff); [lia|done].
Qed.

Lemma crc32p_computes_spec_crc_witness :
  bytes_ok [1; 2; 254] /\
  crc32p [1; 2; 254] 0xffffffff TLP_LCRC32_POLY
    = reflect 32 (lfsr 32 0x04C11DB7 0xffffffff [1; 2; 254]) /\
  crc32p [1; 2; 254] 0xffff DLLP_CRC16_POLY
    = reflect 16 (lfsr 16 0x100B 0xffff [1; 2; 254]).
Proof.
  assert (bytes_ok [1; 2; 254]) as H by (repeat constructor; unfold byte_ok; lia).
  split; [exact H|]. exact (crc32p_computes_spec_crc [1; 2; 254] H).
Defined.

(** What the CRC functions store, the CRC checks accept: a TLP on which
    [pcie_lcrc32] ran passes [pcie_lcrc32_valid], and only its four CRC bytes
    changed; a DLLP on which [pcie_crc16] ran passes [pcie_crc16_valid], and only
    its two CRC bytes changed. *)
Lemma crc_roundtrip (pkt : list Z) :
  (6 <= length pkt)%nat ->
  (0 <= tlp_total_length (drop dl_tlp pkt) -> (lcrc_offset pkt + 4 <= length pkt)%nat ->
   pcie_lcrc32_valid (pcie_lcrc32 pkt) = true /\
   take (lcrc_offset pkt) (pcie_lcrc32 pkt) = take (lcrc_offset pkt) pkt /\
   drop (lcrc_offset pkt + 4) (pcie_lcrc32 pkt) = drop (lcrc_offset pkt + 4) pkt) /\
  pcie_crc16_valid (pcie_crc16 pkt) = true /\
  take dl_crc16 (pcie_crc16 pkt) = take dl_crc16 pkt /\
  drop 6 (pcie_crc16 pkt) = drop 6 pkt.
Proof. intros H. split; [by apply lcrc32_store_valid|by apply crc16_store_valid]. Qed.

Definition sample_dllp : list Z := [0x10; 0; 3; 4; 0; 0].

Example crc_roundtrip_run :
  let pkt := [0; 1; 0x40; 0; 0; 1] ++ replicate 16 7 in
  pcie_lcrc32_valid (pcie_lcrc32 pkt) = true /\ pcie_crc16_valid (pcie_crc16 sample_dllp) = true.
Proof.
  intros pkt. split.
  - refine (proj1 (proj1 (crc_roundtrip pkt _) _ _)); [simpl; lia|vm_compute; discriminate|vm_compute; lia].
  - refine (proj1 (proj2 (crc_roundtrip sample_dllp _))). simpl. lia.
Qed.

(** The two CRC checks as one equation between what is stored and what the
    message gives. *)
Lemma crc_equals_same (n off : nat) (c1 c2 : Z) (p q : list Z) :
  0 <= c1 < 2 ^ (8 * Z.of_nat n) -> 0 <= c2 < 2 ^ (8 * Z.of_nat n) ->
  (forall i, (off <= i < off + n)%nat -> rd p i = rd q i) ->
  crc_equals n off c1 p = true -> crc_equals n off c2 q = true -> c1 = c2.
Proof.
  intros H1 H2 Hrd E1 E2. apply (le_bytes_inj n); [done..|]. intros i Hi.
  rewrite crc_equals_spec in E1, E2. rewrite <-E1, <-E2 by done. apply Hrd. lia.
Qed.

(** A burst in the protected bytes changes the CRC of the prefix [k]. *)
Lemma crc32p_take_burst (w poly init : Z) (k off : nat) (e pkt : list Z) :
  8 <= w -> 0 <= poly < 2 ^ w -> Z.testbit poly (w - 1) = true -> 0 <= init < 2 ^ w ->
  bytes_ok pkt -> bytes_ok e -> 8 * Z.of_nat (length e) <= w ->
  (off + length e <= k <= length pkt)%nat -> wr_bytes off e pkt <> pkt ->
  crc32p (take k (wr_bytes off e pkt)) init poly <> crc32p (take k pkt) init poly.
Proof.
  intros Hw Hpoly Htop Hi Hpkt He Hshort Hk Hne E. apply Hne.
  rewrite wr_bytes_split by lia.
  assert (pkt = take off pkt ++ take (length e) (drop off pkt) ++ drop (off + length e) pkt) as Hs.
  { by rewrite <-drop_drop, !take_drop. }
  assert (forall e', length e' = length e ->
    take k (take off pkt ++ e' ++ drop (off + length e) pkt) =
    take off pkt ++ e' ++ take (k - off - length e) (drop (off + length e) pkt)) as Htake.
  { intros e' He'. rewrite take_app_ge, take_app_ge; rewrite ?length_take; [|lia..].
    f_equal. f_equal. f_equal. lia. }
  rewrite wr_bytes_split in E by lia. rewrite Hs in E at 3.
  rewrite !Htake in E; [|rewrite length_take, length_drop; lia|done].
  apply (crc32p_burst w) in E; auto with wp; [|rewrite length_take, length_drop; lia].
  etrans; [|symmetry; exact Hs]. by rewrite E at 1.
Qed.

(** A TLP or DLLP that passes its check is rejected after a burst. *)
Lemma lcrc32_burst (pkt e : list Z) (off : nat) :
  bytes_ok pkt -> bytes_ok e -> (length e <= 4)%nat ->
  (lcrc_offset pkt + 4 <= length pkt)%nat -> (off + length e <= lcrc_offset pkt)%nat ->
  lcrc_offset (wr_bytes off e pkt) = lcrc_offset pkt ->
  pcie_lcrc32_valid pkt = true -> wr_bytes off e pkt <> pkt ->
  pcie_lcrc32_valid (wr_bytes off e pkt) = false.
Proof.
  intros Hpkt He Hlen Hend Hoff Hsame Hv Hne.
  destruct (pcie_lcrc32_valid (wr_bytes off e pkt)) eqn:Hv'; [exfalso|done].
  unfold pcie_lcrc32_valid, tlp_lcrc in *. rewrite Hsame in Hv'.
  refine (crc32p_take_burst 32 TLP_LCRC32_POLY 0xffffffff (lcrc_offset pkt) off e pkt
            _ _ eq_refl _ Hpkt He _ _ Hne _); try (unfold TLP_LCRC32_POLY; lia).
  apply (wrap_lnot_inj 32); [lia| | |].
  3: { eapply (crc_equals_same 4 _ _ _ (wr_bytes off e pkt) pkt); [..|exact Hv'|exact Hv];
       [apply (wrap_range 32); lia..|].
       intros i Hi. apply rd_wr_bytes_out. lia. }
  all: apply crc32p_range; auto with wp; unfold TLP_LCRC32_POLY; lia.
Qed.

Lemma crc16_burst (pkt e : list Z) (off : nat) :
  bytes_ok pkt -> bytes_ok e -> (length e <= 2)%nat -> (6 <= length pkt)%nat ->
  (off + length e <= dl_crc16)%nat ->
  pcie_crc16_valid pkt = true -> wr_bytes off e pkt <> pkt ->
  pcie_crc16_valid (wr_bytes off e pkt) = false.
Proof.
  intros Hpkt He Hlen Hend Hoff Hv Hne.
  destruct (pcie_crc16_valid (wr_bytes off e pkt)) eqn:Hv'; [exfalso|done].
  unfold pcie_crc16_valid, dllp_crc, dl_crc16 in *.
  assert (forall x, u16 (u32 x) = u16 x) as Hu by (intros; bitwise).
  rewrite Hu in Hv, Hv'.
  refine (crc32p_take_burst 16 DLLP_CRC16_POLY 0xffff 4 off e pkt
            _ _ eq_refl _ Hpkt He _ _ Hne _); try (unfold DLLP_CRC16_POLY; lia).
  apply (wrap_lnot_inj 16); [lia| | |].
  3: { eapply (crc_equals_same 2 _ _ _ (wr_bytes off e pkt) pkt); [..|exact Hv'|exact Hv];
       [apply (wrap_range 16); lia..|].
       intros i Hi. apply rd_wr_bytes_out. lia. }
  all: apply crc32p_range; auto with wp; unfold DLLP_CRC16_POLY; lia.
Qed.

(** C22. The CRCs detect bursts: a TLP that passes the check is rejected after any
    change of up to four consecutive protected bytes that leaves its length
    fields as they were, and a DLLP after any change of up to two consecutive
    bytes before its CRC. *)
Theorem crc_detects_burst (pkt e : list Z) (off : nat) :
  bytes_ok pkt -> bytes_ok e -> wr_bytes off e pkt <> pkt ->
  ((length e <= 4)%nat ->
   (lcrc_offset pkt + 4 <= length pkt)%nat -> (off + length e <= lcrc_offset pkt)%nat ->
   lcrc_offset (wr_bytes off e pkt) = lcrc_offset pkt ->
   pcie_lcrc32_valid pkt = true -> pcie_lcrc32_valid (wr_bytes off e pkt) = false) /\
  ((length e <= 2)%nat -> (6 <= length pkt)%nat -> (off + length e <= dl_crc16)%nat ->
   pcie_crc16_valid pkt = true -> pcie_crc16_valid (wr_bytes off e pkt) = false).
Proof. intros. split; intros; [by apply lcrc32_burst|by apply crc16_burst]. Qed.

(** A three-word memory write header with one payload word. *)
Definition sample_dltlp : list Z :=
  pcie_lcrc32 ([0; 1; 0x40; 0; 0; 1] ++ replicate 16 7 ++ [0; 0]).

Definition sample_dllp_ok : list Z := pcie_crc16 sample_dllp.

Lemma crc_detects_burst_witness :
  pcie_lcrc32_valid sample_dltlp = true /\
  pcie_lcrc32_valid (wr_bytes 8 [9; 9; 9; 9] sample_dltlp) = false /\
  pcie_crc16_valid sample_dllp_ok = true /\
  pcie_crc16_valid (wr_bytes 1 [9; 9] sample_dllp_ok) = false.
Proof.
  split; [vm_compute; reflexivity|]. split; [|split; [vm_compute; reflexivity|]].
  - refine (proj1 (crc_detects_burst sample_dltlp [9; 9; 9; 9] 8 _ _ _) _ _ _ _ _);
      first [apply bytes_ok_dec; vm_compute; reflexivity | vm_compute; first [lia | discriminate | reflexivity]].
  - refine (proj2 (crc_detects_burst sample_dllp_ok [9; 9] 1 _ _ _) _ _ _ _);
      first [apply bytes_ok_dec; vm_compute; reflexivity | vm_compute; first [lia | discriminate | reflexivity]].
Defined.
