(* ===== verification/World.v ===== *)
(** * Program state and effects

    The state the library's functions run in: the structures of
    [inc/warppipe/client.h] and [inc/warppipe/server.h], the operating system
    and the application behind the callbacks, and the monad in which the
    functions are written.

    Client structures live in a store indexed by their address, because the
    server, the library and the application share them through pointers and
    the server frees them.  The operating system and the application are
    parameters, used through the classes [SocketIO] and [Callbacks]. *)

From S2P Require Import Prelude Layout Proto.

(** ** [inc/warppipe/config.h] *)

Definition SERVER_PORT_NUM : string := "2115".
Definition SERVER_LISTEN_QUEUE_SIZE : Z := 64.
Definition CLIENT_MAX_PACKET_DATA_SIZE : Z := 4096.
Definition CLIENT_MAX_PACKET_HEADER_SIZE : Z := 21.
Definition CLIENT_BUFFER_SIZE : Z := CLIENT_MAX_PACKET_DATA_SIZE + CLIENT_MAX_PACKET_HEADER_SIZE.

(** ** Structures *)

(** Function and data pointers; [0] is [NULL]. *)
Definition ptr := Z.
Definition NULL : ptr := 0.

Record warppipe_client := mk_client {
  fd : Z;
  seqno : Z;
  active : bool;
  private_data : ptr;
  bar_read_cb : list ptr;
  bar_write_cb : list ptr;
  bar : list Z;
  bar_size : list Z;
  cfg0_read_cb : ptr;
  cfg0_write_cb : ptr;
  completion_cb : list ptr;
  read_tag : Z;
  buf : list Z;
}.

(** The list of clients is the queue of [struct warppipe_client_node]s, by the
    addresses of their clients; [read_fds] is the descriptor set; a [host] of
    [None] is [NULL]. *)
Record warppipe_server := mk_server {
  s_fd : Z;
  s_listen : bool;
  s_quit : bool;
  s_addr_family : Z;
  s_host : option string;
  s_port : string;
  s_max_fd : Z;
  s_read_fds : gset Z;
  s_clients : list ptr;
  s_private_data : ptr;
  s_accept_cb : ptr;
}.

(** Field updates. *)
Definition set_fd v c := mk_client v (seqno c) (active c) (private_data c) (bar_read_cb c) (bar_write_cb c) (bar c) (bar_size c) (cfg0_read_cb c) (cfg0_write_cb c) (completion_cb c) (read_tag c) (buf c).
Definition set_seqno v c := mk_client (fd c) v (active c) (private_data c) (bar_read_cb c) (bar_write_cb c) (bar c) (bar_size c) (cfg0_read_cb c) (cfg0_write_cb c) (completion_cb c) (read_tag c) (buf c).
Definition set_active v c := mk_client (fd c) (seqno c) v (private_data c) (bar_read_cb c) (bar_write_cb c) (bar c) (bar_size c) (cfg0_read_cb c) (cfg0_write_cb c) (completion_cb c) (read_tag c) (buf c).
Definition set_private_data v c := mk_client (fd c) (seqno c) (active c) v (bar_read_cb c) (bar_write_cb c) (bar c) (bar_size c) (cfg0_read_cb c) (cfg0_write_cb c) (completion_cb c) (read_tag c) (buf c).
Definition set_bars rcb wcb b s c := mk_client (fd c) (seqno c) (active c) (private_data c) rcb wcb b s (cfg0_read_cb c) (cfg0_write_cb c) (completion_cb c) (read_tag c) (buf c).
Definition set_cfg0_read_cb v c := mk_client (fd c) (seqno c) (active c) (private_data c) (bar_read_cb c) (bar_write_cb c) (bar c) (bar_size c) v (cfg0_write_cb c) (completion_cb c) (read_tag c) (buf c).
Definition set_cfg0_write_cb v c := mk_client (fd c) (seqno c) (active c) (private_data c) (bar_read_cb c) (bar_write_cb c) (bar c) (bar_size c) (cfg0_read_cb c) v (completion_cb c) (read_tag c) (buf c).
Definition set_completion_cb v c := mk_client (fd c) (seqno c) (active c) (private_data c) (bar_read_cb c) (bar_write_cb c) (bar c) (bar_size c) (cfg0_read_cb c) (cfg0_write_cb c) v (read_tag c) (buf c).
Definition set_read_tag v c := mk_client (fd c) (seqno c) (active c) (private_data c) (bar_read_cb c) (bar_write_cb c) (bar c) (bar_size c) (cfg0_read_cb c) (cfg0_write_cb c) (completion_cb c) v (buf c).
Definition set_buf v c := mk_client (fd c) (seqno c) (active c) (private_data c) (bar_read_cb c) (bar_write_cb c) (bar c) (bar_size c) (cfg0_read_cb c) (cfg0_write_cb c) (completion_cb c) (read_tag c) v.

Definition set_quit v s := mk_server (s_fd s) (s_listen s) v (s_addr_family s) (s_host s) (s_port s) (s_max_fd s) (s_read_fds s) (s_clients s) (s_private_data s) (s_accept_cb s).
Definition set_fds f m s := mk_server f (s_listen s) (s_quit s) (s_addr_family s) (s_host s) (s_port s) m (s_read_fds s) (s_clients s) (s_private_data s) (s_accept_cb s).
Definition set_max_fd v s := mk_server (s_fd s) (s_listen s) (s_quit s) (s_addr_family s) (s_host s) (s_port s) v (s_read_fds s) (s_clients s) (s_private_data s) (s_accept_cb s).
Definition set_read_fds v s := mk_server (s_fd s) (s_listen s) (s_quit s) (s_addr_family s) (s_host s) (s_port s) (s_max_fd s) v (s_clients s) (s_private_data s) (s_accept_cb s).
Definition set_clients v s := mk_server (s_fd s) (s_listen s) (s_quit s) (s_addr_family s) (s_host s) (s_port s) (s_max_fd s) (s_read_fds s) v (s_private_data s) (s_accept_cb s).
Definition set_listen v s := mk_server (s_fd s) v (s_quit s) (s_addr_family s) (s_host s) (s_port s) (s_max_fd s) (s_read_fds s) (s_clients s) (s_private_data s) (s_accept_cb s).
Definition set_address f h p s := mk_server (s_fd s) (s_listen s) (s_quit s) f h p (s_max_fd s) (s_read_fds s) (s_clients s) (s_private_data s) (s_accept_cb s).
Definition set_accept_cb v s := mk_server (s_fd s) (s_listen s) (s_quit s) (s_addr_family s) (s_host s) (s_port s) (s_max_fd s) (s_read_fds s) (s_clients s) (s_private_data s) v.

(** What the C types say of a client: array sizes and integer ranges. *)
Record client_wf (c : warppipe_client) : Prop := {
  wf_seqno : 0 <= seqno c <= INT_MAX;
  wf_bar_read_cb : length (bar_read_cb c) = 6%nat;
  wf_bar_write_cb : length (bar_write_cb c) = 6%nat;
  wf_bar : length (bar c) = 6%nat;
  wf_bar_ranges : Forall (fun b => 0 <= b < 2 ^ 32) (bar c);
  wf_bar_size : length (bar_size c) = 6%nat;
  wf_bar_size_ranges : Forall (fun b => 0 <= b < 2 ^ 32) (bar_size c);
  wf_completion_cb : length (completion_cb c) = 32%nat;
  wf_read_tag : 0 <= read_tag c < 32;
  wf_buf : length (buf c) = Z.to_nat CLIENT_BUFFER_SIZE;
  wf_buf_bytes : bytes_ok (buf c);
}.

(** ** The world *)

(** The static variables of [server.c], zero at the start: whether [pcie_server]
    points to the process's server, and [sigint_handler], where [SIG_DFL] is 0. *)
Record statics := mk_static {
  pcie_server : bool;
  sigint_handler : ptr;
}.
Definition static_init : statics := mk_static false NULL.

Record world {os app : Type} := mk_world {
  w_os : os;
  w_server : warppipe_server;
  w_clients : gmap ptr warppipe_client;
  w_app : app;
  w_static : statics;
}.
Arguments world : clear implicits.

(** [Aborted]: an [assert] failed. [Undefined]: the C program has no defined
    behaviour.  [NoFuel]: the bound on the iterations of a loop was reached. *)
Inductive outcome {W A : Type} :=
  | Ret (a : A) (w : W)
  | Aborted (w : W)
  | Undefined
  | NoFuel.
Arguments outcome : clear implicits.

Section Monad.
Context {W : Type}.
Definition M (A : Type) := W -> outcome W A.
Definition ret {A} (a : A) : M A := fun w => Ret a w.
Definition bind {A B} (m : M A) (k : A -> M B) : M B := fun w =>
  match m w with
  | Ret a w' => k a w'
  | Aborted w' => Aborted w'
  | Undefined => Undefined
  | NoFuel => NoFuel
  end.
Definition undefined {A} : M A := fun _ => Undefined.
Definition abort {A} : M A := fun w => Aborted w.
Definition no_fuel {A} : M A := fun _ => NoFuel.
End Monad.
Arguments M : clear implicits.

Declare Scope prog_scope.
Notation "'let!' x := m 'in' k" := (bind m (fun x => k))
  (at level 10, x pattern, m at level 100, k at level 200) : prog_scope.
Notation "m ;; k" := (bind m (fun _ => k)) (at level 100, right associativity) : prog_scope.
#[global] Open Scope prog_scope.

(** ** Operating system, as the client code uses it *)

Inductive errno := EAGAIN | EWOULDBLOCK | EOTHER.

(** [Received bs]: the call returned [length bs] ([0] at end of stream). *)
Inductive recv_result := Received (bs : list Z) | RecvError (e : errno).

Class SocketIO (os : Type) := {
  (** [recv(fd, buf, n, 0)] *)
  sys_recv : Z -> Z -> os -> recv_result * os;
  (** [send(fd, bytes, length, 0)]: the number it returns *)
  sys_send : Z -> list Z -> os -> Z * os;
  (** [malloc(n)]: [None] for [NULL], else the indeterminate contents *)
  sys_malloc : Z -> os -> option (list Z) * os;
}.

(** What POSIX and C say of them. *)
Class SocketLaws (os : Type) `{SocketIO os} : Prop := {
  recv_bound : forall f n o bs o',
    sys_recv f n o = (Received bs, o') -> Z.of_nat (length bs) <= n /\ bytes_ok bs;
  send_bound : forall f bs o n o',
    sys_send f bs o = (n, o') -> -1 <= n <= Z.of_nat (length bs);
  malloc_size : forall n o bs o',
    0 <= n -> sys_malloc n o = (Some bs, o') -> length bs = Z.to_nat n /\ bytes_ok bs;
}.

(** ** Application callbacks

    A callback is called through its address.  It may change the whole world,
    client structures included. *)
Class Callbacks (os app : Type) := {
  (** return value and the bytes stored from [data] on *)
  call_read_cb : ptr -> Z -> Z -> ptr -> M (world os app) (Z * list Z);
  (** [data]: the memory from the data pointer on *)
  call_write_cb : ptr -> Z -> list Z -> Z -> ptr -> M (world os app) unit;
  call_completion_cb : ptr -> Z -> list Z -> Z -> ptr -> M (world os app) unit;
}.

(** ** Primitive operations *)

Section Prim.
Context {os app : Type}.
#[local] Abbreviation P := (M (world os app)).

Definition with_clients (f : gmap ptr warppipe_client -> gmap ptr warppipe_client)
    (w : world os app) : world os app :=
  mk_world _ _ (w_os w) (w_server w) (f (w_clients w)) (w_app w) (w_static w).
Definition with_os (o : os) (w : world os app) : world os app :=
  mk_world _ _ o (w_server w) (w_clients w) (w_app w) (w_static w).
Definition with_server (s : warppipe_server) (w : world os app) : world os app :=
  mk_world _ _ (w_os w) s (w_clients w) (w_app w) (w_static w).

Definition with_statics (st : statics) (w : world os app) : world os app :=
  mk_world _ _ (w_os w) (w_server w) (w_clients w) (w_app w) st.

(** Access through a client pointer: defined while the client is allocated. *)
Definition load (c : ptr) : P warppipe_client := fun w =>
  match w_clients w !! c with Some cl => Ret cl w | None => Undefined end.
Definition store (c : ptr) (cl : warppipe_client) : P unit := fun w =>
  match w_clients w !! c with
  | Some _ => Ret tt (with_clients (insert c cl) w)
  | None => Undefined
  end.
Definition modify (c : ptr) (f : warppipe_client -> warppipe_client) : P unit :=
  let! cl := load c in store c (f cl).

Definition get_server : P warppipe_server := fun w => Ret (w_server w) w.
Definition put_server (s : warppipe_server) : P unit := fun w => Ret tt (with_server s w).
Definition get_statics : P statics := fun w => Ret (w_static w) w.
Definition put_statics (st : statics) : P unit := fun w => Ret tt (with_statics st w).

(** A system call. *)
Definition os_call {A} (f : os -> A * os) : P A := fun w =>
  let '(a, o) := f (w_os w) in Ret a (with_os o w).
End Prim.
