(* ===== verification/Client.v ===== *)
(** * One connection ([src/client.c], [inc/warppipe/client.h])

    Every function of [client.c], in the order of the source, as a program of
    the monad of [World].  A client is its address; [pkt] is the memory from
    the packet's first byte on.  Logging is left out. *)

From S2P Require Import Prelude Layout Proto Crc World.

Section Client.
Context {os app : Type} `{!SocketIO os} `{!Callbacks os app}.
#[local] Abbreviation P := (M (world os app)).

(** [(addr & ~(bar_size - 1)) == bar], the difference and the complement in
    [uint32_t], the conjunction in [uint64_t]. *)
Definition bar_match (addr bar size : Z) : bool :=
  Z.land addr (u32 (Z.lnot (u32 (size - 1)))) =? bar.

(** [for (i = 0; i < 6; i++)]; the arrays are given from index [i] on. *)
Fixpoint get_bar_idx_from (i : Z) (bars sizes : list Z) (addr : Z) : Z :=
  match bars, sizes with
  | b :: bars, s :: sizes =>
      if bar_match addr b s then i else get_bar_idx_from (i + 1) bars sizes addr
  | _, _ => -1
  end.
Definition get_bar_idx (client : warppipe_client) (addr : Z) : Z :=
  get_bar_idx_from 0 (bar client) (bar_size client) addr.

(** The three outcomes of [handle_dllp], which only logs. *)
Inductive dllp_event :=
  | AckNak (seqno : Z)
  | Credit
  | UnknownDllp (type : Z).

Definition handle_dllp (pkt : list Z) : dllp_event :=
  if (pkt.[dl_type] =? PCIE_DLLP_ACK) || (pkt.[dl_type] =? PCIE_DLLP_NAK) then
    AckNak (u16 (Z.lor (Z.shiftl (pkt.[acknak_seqno_hi]) 8) (pkt.[acknak_seqno_lo])))
  else if negb (pkt.[fc_type] =? 0) && (pkt.[fc_rsvd1] =? 0) then Credit
  else UnknownDllp (pkt.[dl_type]).

(** The tail of [client_send_pcie_transport]: [send] and its error path. *)
Definition send_packet (client : ptr) (packet_length : Z) (tport : list Z) : P Z :=
  let! cl := load client in
  let! n := os_call (sys_send (fd cl) (take (Z.to_nat packet_length) tport)) in
  if negb (n =? packet_length) then
    modify client (set_active false) ;;
    ret (-1)
  else ret n.

(** The packet as it is transmitted: sequence number and LCRC filled in. *)
Definition stamp_seqno (seqno : Z) (tlp : list Z) : list Z :=
  tlp.[dltlp_seqno_hi := Z.shiftr seqno 8].[dltlp_seqno_lo := Z.land seqno 0xff].

(** [pcie_lcrc32] reads and writes up to four bytes past the TLP: outside the
    packet's memory the behaviour is undefined.  So is the increment of
    [seqno] past [INT_MAX]. *)
Definition client_send_pcie_transport (client : ptr) (tport : list Z) : P Z :=
  let packet_length := 1 + sizeof_dllp in
  if tport.[t_proto] =? PCIE_PROTO_TLP then
    let! cl := load client in
    if seqno cl =? INT_MAX then undefined
    else
      modify client (set_seqno (seqno cl + 1)) ;;
      let tport := at_off t_tlp (stamp_seqno (seqno cl + 1)) tport in
      if (length tport <? t_tlp + lcrc_offset (drop t_tlp tport) + 4)%nat then undefined
      else
        let tport := at_off t_tlp pcie_lcrc32 tport in
        send_packet client
          (packet_length + tlp_total_length (drop (t_tlp + dl_tlp) tport)) tport
  else if tport.[t_proto] =? PCIE_PROTO_DLLP then
    if (length tport <? t_tlp + 6)%nat then undefined
    else send_packet client packet_length (at_off t_tlp pcie_crc16 tport)
  else send_packet client packet_length tport.

(** Offset of the first enabled byte, from [r_first_be]. *)
Definition first_be_offset (pkt : list Z) : Z :=
  if Z.land (pkt.[r_first_be]) 7 =? 0 then 3
  else if Z.land (pkt.[r_first_be]) 3 =? 0 then 2
  else if Z.land (pkt.[r_first_be]) 1 =? 0 then 1
  else 0.

Definition is_kind (pkt : list Z) (ks : list Z) : bool :=
  existsb (Z.eqb (tlp_kind pkt)) ks.

(** The [switch] of the two request handlers: callback and address. *)
Definition select_cb (cl : warppipe_client) (pkt : list Z) (mem_kinds : list Z)
    (cfg_kind : Z) (bar_cb : list ptr) (cfg_cb : ptr) : ptr * Z :=
  let addr := tlp_req_get_addr pkt in
  if is_kind pkt mem_kinds then
    let bar_idx := get_bar_idx cl addr in
    if negb (bar_idx =? -1) then
      (default NULL (bar_cb !! Z.to_nat bar_idx),
       Z.land addr (u32 (default 0 (bar_size cl !! Z.to_nat bar_idx) - 1)))
    else (NULL, addr)
  else if is_kind pkt [cfg_kind] then (cfg_cb, addr)
  else (NULL, addr).

(** The completion [handle_memory_read_request] builds in zeroed memory. *)
Definition completion_header (pkt tlp : list Z) : list Z :=
  let data_len_bytes := tlp_data_length_bytes pkt in
  tlp.[tlp_fmt := Z.shiftr PCIE_TLP_CPLD 5]
     .[tlp_type := Z.land PCIE_TLP_CPLD 0x1F]
     .[tlp_length_hi := pkt.[tlp_length_hi]]
     .[tlp_length_lo := pkt.[tlp_length_lo]]
     .[c_tag := pkt.[r_tag]]
     .[c_byte_count_hi := Z.shiftr data_len_bytes 8]
     .[c_byte_count_lo := Z.land data_len_bytes 0xFF].

Definition handle_memory_read_request (client : ptr) (pkt : list Z) : P unit :=
  let data_len := tlp_data_length pkt in
  let data_len_bytes := tlp_data_length_bytes pkt in
  let! cl := load client in
  let '(read_cb, addr) :=
    select_cb cl pkt [PCIE_TLP_IORD; PCIE_TLP_MRD32; PCIE_TLP_MRD64] PCIE_TLP_CR0
      (bar_read_cb cl) (cfg0_read_cb cl) in
  if read_cb =? NULL then ret tt
  else
    let size := sizeof_transport + data_len * 4 in
    let! mem := os_call (sys_malloc size) in
    match mem with
    | None => undefined
    | Some _ =>
        let tport := replicate (Z.to_nat size) 0 in
        let tport := tport.[t_proto := PCIE_PROTO_TLP] in
        let tport := at_off (t_tlp + dl_tlp) (completion_header pkt) tport in
        let addr := u64 (addr + first_be_offset pkt) in
        let! (read_error, bs) := call_read_cb read_cb addr data_len_bytes (private_data cl) in
        if (length tport <? t_tlp + dl_tlp + c_data + length bs)%nat then undefined
        else
          let tport := wr_bytes (t_tlp + dl_tlp + c_data) bs tport in
          let tport :=
            if negb (read_error =? 0) then
              at_off (t_tlp + dl_tlp)
                (fun tlp => tlp.[tlp_fmt := Z.land (tlp.[tlp_fmt]) (Z.lnot PCIE_TLP_FMT_DATA)]) tport
            else tport in
          client_send_pcie_transport client tport ;;
          ret tt
    end.

Definition handle_memory_write_request (client : ptr) (pkt : list Z) : P unit :=
  let data_len := tlp_data_length_bytes pkt in
  let! cl := load client in
  let '(write_cb, addr) :=
    select_cb cl pkt [PCIE_TLP_IOWR; PCIE_TLP_MWR32; PCIE_TLP_MWR64] PCIE_TLP_CW0
      (bar_write_cb cl) (cfg0_write_cb cl) in
  if write_cb =? NULL then ret tt
  else
    let data := if bit (pkt.[tlp_fmt]) PCIE_TLP_FMT_4DW then r_data64 else r_data32 in
    let off := first_be_offset pkt in
    call_write_cb write_cb (u64 (addr + off)) (drop (data + Z.to_nat off) pkt) data_len
      (private_data cl).

(** The TLP in the client's receive buffer. *)
Definition buffered_tlp (cl : warppipe_client) : list Z := drop (t_tlp + dl_tlp) (buf cl).

(** [completion_cb[tag]]: an access past the array's 32 entries is undefined.
    The packet lies in the client's buffer, which the callback may change
    before the tag is read again. *)
Definition handle_completion (client : ptr) (pkt : list Z) : P unit :=
  let! cl := load client in
  let tag := pkt.[c_tag] in
  match completion_cb cl !! Z.to_nat tag with
  | None => undefined
  | Some cb =>
      if cb =? NULL then ret tt
      else
        let data_len := Z.lor (Z.shiftl (pkt.[c_byte_count_hi]) 8) (pkt.[c_byte_count_lo]) in
        call_completion_cb cb 0 (drop c_data pkt) data_len (private_data cl) ;;
        let! cl := load client in
        let tag := (buffered_tlp cl).[c_tag] in
        if (Z.to_nat tag <? length (completion_cb cl))%nat then
          store client (set_completion_cb (<[Z.to_nat tag := NULL]> (completion_cb cl)) cl)
        else undefined
  end.

Definition handle_tlp (client : ptr) (pkt : list Z) : P unit :=
  if is_kind pkt [PCIE_TLP_IORD; PCIE_TLP_MRD32; PCIE_TLP_MRD64; PCIE_TLP_CR0] then
    handle_memory_read_request client pkt
  else if is_kind pkt [PCIE_TLP_IOWR; PCIE_TLP_MWR32; PCIE_TLP_MWR64; PCIE_TLP_CW0] then
    handle_memory_write_request client pkt
  else if is_kind pkt [PCIE_TLP_CPL] then ret tt
  else if is_kind pkt [PCIE_TLP_CPLD] then handle_completion client pkt
  else ret tt.

(** The DLLP [warppipe_ack] builds on its stack. *)
Definition acknak_packet (type seqno : Z) : list Z :=
  let tport := (replicate (Z.to_nat sizeof_transport) 0).[t_proto := PCIE_PROTO_DLLP] in
  at_off t_tlp
    (fun p => p.[dl_nak := type].[acknak_seqno_hi := Z.shiftr seqno 8]
               .[acknak_seqno_lo := Z.land seqno 0xff]) tport.

Definition warppipe_ack (client : ptr) (type seqno : Z) : P Z :=
  let! n := client_send_pcie_transport client (acknak_packet type seqno) in
  if n =? -1 then ret (-1) else ret 0.

(** The bytes [recv] stores at [off] of the receive buffer; storing past its end
    is undefined. *)
Definition recv_store (client : ptr) (off : nat) (bs : list Z) : P unit :=
  let! cl := load client in
  if (length (buf cl) <? off + length bs)%nat then undefined
  else store client (set_buf (wr_bytes off bs (buf cl)) cl).

(** [while (len < total)]: [true] when the packet is complete, [false] after
    the connection failed.  Every successful [recv] adds a byte at least. *)
Fixpoint recv_loop (fuel : nat) (client : ptr) (len total : Z) : P bool :=
  if len <? total then
    match fuel with
    | O => no_fuel
    | S fuel =>
        let! cl := load client in
        let! r := os_call (sys_recv (fd cl) (total - len)) in
        match r with
        | Received [] | RecvError _ =>
            modify client (set_active false) ;; ret false
        | Received bs =>
            recv_store client (Z.to_nat len) bs ;;
            recv_loop fuel client (len + Z.of_nat (length bs)) total
        end
    end
  else ret true.

(** The complete TLP: acknowledge it, then handle it if its CRC is right. *)
Definition receive_tlp (client : ptr) : P unit :=
  let! cl := load client in
  let dltlp := drop t_tlp (buf cl) in
  let crc_ok := pcie_lcrc32_valid dltlp in
  warppipe_ack client (if crc_ok then PCIE_DLLP_ACK else PCIE_DLLP_NAK)
    (u16 (Z.lor (Z.shiftl (dltlp.[dltlp_seqno_hi]) 8) (dltlp.[dltlp_seqno_lo]))) ;;
  if crc_ok then handle_tlp client (drop dl_tlp dltlp) else ret tt.

Definition warppipe_client_read (client : ptr) : P unit :=
  let! cl := load client in
  let! r := os_call (sys_recv (fd cl) (1 + sizeof_dllp)) in
  match r with
  | RecvError EAGAIN | RecvError EWOULDBLOCK => ret tt
  | RecvError EOTHER => modify client (set_active false)
  | Received bs =>
      recv_store client 0 bs ;;
      if negb (Z.of_nat (length bs) =? 1 + sizeof_dllp) then
        modify client (set_active false)
      else
        let! cl := load client in
        let tport := buf cl in
        let proto := tport.[t_proto] in
        if proto =? PCIE_PROTO_DLLP then
          if pcie_crc16_valid (drop t_tlp tport)
          then let _ := handle_dllp (drop t_tlp tport) in ret tt
          else ret tt
        else if proto =? PCIE_PROTO_TLP then
          let total := tlp_total_length (buffered_tlp cl) in
          if total <? 0 then modify client (set_active false)
          else
            let total := total + (1 + sizeof_dllp) in
            if negb (total <=? CLIENT_BUFFER_SIZE) then abort
            else
              let! complete := recv_loop (Z.to_nat total) client (1 + sizeof_dllp) total in
              if complete then receive_tlp client else ret tt
        else modify client (set_active false)
  end.

(** The fields [warppipe_client_create] does not mention ([private_data],
    [completion_cb], [buf]) keep what the memory holds. *)
Definition client_created (client_fd : Z) (cl : warppipe_client) : warppipe_client :=
  set_bars (replicate 6 NULL) (replicate 6 NULL) (replicate 6 0) (replicate 6 0)
    (set_read_tag 0 (set_cfg0_write_cb NULL (set_cfg0_read_cb NULL
      (set_active true (set_seqno 0 (set_fd client_fd cl)))))).

Definition warppipe_client_create (client : ptr) (client_fd : Z) : P unit :=
  modify client (client_created client_fd).

(** [bar] is a [uint64_t], stored in a [uint32_t] array.  An index outside
    the arrays is undefined. *)
Definition warppipe_register_bar (client : ptr) (bar_ : Z) (bar_size_ : Z) (bar_idx : Z)
    (read_cb write_cb : ptr) : P Z :=
  let! cl := load client in
  if (bar_idx <? 0) || (6 <=? bar_idx) then undefined
  else
    let i := Z.to_nat bar_idx in
    if negb (default 0 (bar cl !! i) =? 0) then ret (-1)
    else if (bar_size_ =? 0) || negb (Z.land bar_size_ (u32 (bar_size_ - 1)) =? 0) then ret (-1)
    else
      store client
        (set_bars (<[i := read_cb]> (bar_read_cb cl)) (<[i := write_cb]> (bar_write_cb cl))
           (<[i := u32 bar_]> (bar cl)) (<[i := bar_size_]> (bar_size cl)) cl) ;;
      ret 0.

Definition warppipe_register_config0_read_cb (client read_cb : ptr) : P unit :=
  modify client (set_cfg0_read_cb read_cb).

Definition warppipe_register_config0_write_cb (client write_cb : ptr) : P unit :=
  modify client (set_cfg0_write_cb write_cb).

(** The request [warppipe_read_imp] builds on its stack. *)
Definition read_request (tag addr length type : Z) : list Z :=
  let tport := (replicate (Z.to_nat sizeof_transport) 0).[t_proto := PCIE_PROTO_TLP] in
  at_off (t_tlp + dl_tlp)
    (fun tlp =>
       tlp_req_set_addr
         (tlp.[tlp_fmt := Z.shiftr type 5].[tlp_type := Z.land type 0x1F].[r_tag := tag])
         addr length) tport.

Definition warppipe_read_imp (client : ptr) (addr length : Z) (cb : ptr) (type : Z) : P Z :=
  let! cl := load client in
  let tag := read_tag cl in
  store client (set_read_tag (wrap 5 (read_tag cl + 1)) cl) ;;
  let! n := client_send_pcie_transport client (read_request tag addr length type) in
  if n =? -1 then ret (-1)
  else
    modify client (fun cl => set_completion_cb (<[Z.to_nat tag := cb]> (completion_cb cl)) cl) ;;
    ret 0.

(** Size of the payload memory: [(length + (addr & 3) + 3) & ~3], computed in
    [uint64_t]. *)
Definition write_size (addr length : Z) : Z :=
  u64 (sizeof_transport + Z.land (u64 (length + Z.land addr 3 + 3)) (u64 (Z.lnot 3))).

(** Offset of the payload in the transport packet. *)
Definition payload_offset (tport : list Z) : nat :=
  (t_tlp + dl_tlp +
   if bit ((drop (t_tlp + dl_tlp) tport).[tlp_fmt]) PCIE_TLP_FMT_4DW then r_data64 else r_data32)%nat.

(** The request [warppipe_write_imp] builds in the memory [mem] that [malloc]
    returned; what it does not store keeps the contents of [mem]. *)
Definition write_request (mem : list Z) (addr length type : Z) : list Z :=
  let tport := mem.[t_proto := PCIE_PROTO_TLP] in
  at_off (t_tlp + dl_tlp)
    (fun tlp =>
       tlp_req_set_addr
         (tlp.[tlp_fmt := Z.shiftr type 5].[tlp_type := Z.land type 0x1F]) addr length) tport.

(** [data] is the memory at the source pointer; [memcpy] reads [length] bytes
    of it.  Reading or writing past the memory is undefined. *)
Definition warppipe_write_imp (client : ptr) (addr : Z) (data : list Z) (length_ type : Z) : P Z :=
  let! mem := os_call (sys_malloc (write_size addr length_)) in
  match mem with
  | None => undefined
  | Some mem =>
      let tport := write_request mem addr length_ type in
      let off := (payload_offset tport + Z.to_nat (Z.land addr 3))%nat in
      if (length_ <? 0) || (length data <? Z.to_nat length_)%nat
         || (length tport <? off + Z.to_nat length_)%nat then undefined
      else
        let tport := wr_bytes off (take (Z.to_nat length_) data) tport in
        let! rc := client_send_pcie_transport client tport in
        ret (if 0 <? rc then 0 else rc)
  end.

(** [client->bar[bar_idx]], undefined outside the array. *)
Definition warppipe_read (client : ptr) (bar_idx addr length : Z) (cb : ptr) : P Z :=
  let! cl := load client in
  if (bar_idx <? 0) || (6 <=? bar_idx) then undefined
  else
    let b := default 0 (bar cl !! Z.to_nat bar_idx) in
    if b =? 0 then ret (-1)
    else warppipe_read_imp client (u64 (b + addr)) length cb PCIE_TLP_MRD64.

Definition warppipe_config0_read (client : ptr) (addr length : Z) (cb : ptr) : P Z :=
  warppipe_read_imp client addr length cb PCIE_TLP_CR0.

Definition warppipe_write (client : ptr) (bar_idx addr : Z) (data : list Z) (length : Z) : P Z :=
  let! cl := load client in
  if (bar_idx <? 0) || (6 <=? bar_idx) then undefined
  else
    let b := default 0 (bar cl !! Z.to_nat bar_idx) in
    if b =? 0 then ret (-1)
    else warppipe_write_imp client (u64 (b + addr)) data length PCIE_TLP_MWR64.

Definition warppipe_config0_write (client : ptr) (addr : Z) (data : list Z) (length : Z) : P Z :=
  warppipe_write_imp client addr data length PCIE_TLP_CW0.
End Client.
