(* ===== verification/Wire.v ===== *)
(** * Packets on the wire

    What one side transmits and the other side decodes: pure facts about the
    packets that [client.c] builds, stamps with a sequence number and a CRC,
    and takes apart again on reception.  No effects here; [ClientSpec] lifts
    these facts to the programs of [Client]. *)

From S2P Require Import Prelude Layout Proto Crc World Client.

(** ** What is transmitted *)

Definition tport_tlp (tport : list Z) : list Z := drop (t_tlp + dl_tlp) tport.
Definition tport_dltlp (tport : list Z) : list Z := drop t_tlp tport.

(** The TLP transport packet after [client_send_pcie_transport] filled in the
    sequence number [s] and the LCRC, and the bytes it hands to [send]. *)
Definition stamped (s : Z) (tport : list Z) : list Z :=
  at_off t_tlp pcie_lcrc32 (at_off t_tlp (stamp_seqno s) tport).
Definition packet_length (tport : list Z) : Z := 1 + sizeof_dllp + tlp_total_length (tport_tlp tport).
Definition transmitted (s : Z) (tport : list Z) : list Z :=
  take (Z.to_nat (packet_length tport)) (stamped s tport).

(** A transport packet whose memory holds the whole TLP and its CRC. *)
Record tport_ok (tport : list Z) : Prop := {
  tport_fmt : (tport_tlp tport).[tlp_fmt] < 4;
  tport_room : packet_length tport <= Z.of_nat (length tport);
}.

(** ** Agreement of two buffers on their first bytes *)

Definition agree (n : nat) (p q : list Z) : Prop := forall i, (i < n)%nat -> rd p i = rd q i.

Lemma agree_le (n m : nat) (p q : list Z) : (m <= n)%nat -> agree n p q -> agree m p q.
Proof. intros ? H i Hi. apply H. lia. Qed.

Lemma agree_sym (n : nat) (p q : list Z) : agree n p q -> agree n q p.
Proof. intros H i Hi. by rewrite H. Qed.

Lemma agree_trans (n : nat) (p q r : list Z) : agree n p q -> agree n q r -> agree n p r.
Proof. intros H1 H2 i Hi. by rewrite H1, H2. Qed.

Lemma agree_drop (n k : nat) (p q : list Z) : agree (k + n) p q -> agree n (drop k p) (drop k q).
Proof. intros H i Hi. rewrite !rd_drop. apply H. lia. Qed.

Lemma agree_get (n : nat) (p q : list Z) (f : field) :
  agree n p q -> (f_byte f < n)%nat -> p.[f] = q.[f].
Proof. intros H Hf. by apply get_rd, H. Qed.

Lemma agree_take (n : nat) (p q : list Z) :
  agree n p q -> (n <= length p)%nat -> (n <= length q)%nat -> take n p = take n q.
Proof.
  intros H Hp Hq. apply rd_ext; rewrite !length_take; [lia|].
  intros i Hi. rewrite !rd_take by lia. apply H. lia.
Qed.

Lemma agree_prefix (n : nat) (p q : list Z) : take n p = take n q -> agree n p q.
Proof. intros H i Hi. by rewrite <-(rd_take p n), <-(rd_take q n), H by done. Qed.

Lemma agree_total_length (p q : list Z) : agree 4 p q -> tlp_total_length p = tlp_total_length q.
Proof. apply tlp_total_length_ext. Qed.

Lemma agree_data_length (p q : list Z) : agree 4 p q -> tlp_data_length p = tlp_data_length q.
Proof.
  intros H. unfold tlp_data_length.
  by rewrite (agree_get 4 p q tlp_length_hi), (agree_get 4 p q tlp_length_lo) by (done || simpl; lia).
Qed.

Lemma agree_data_length_bytes (p q : list Z) :
  agree 8 p q -> tlp_data_length_bytes p = tlp_data_length_bytes q.
Proof.
  intros H. unfold tlp_data_length_bytes.
  by rewrite (agree_data_length p q), (agree_get 8 p q r_first_be), (agree_get 8 p q r_last_be)
    by (done || (simpl; lia) || by eapply agree_le; [|done]; lia).
Qed.

Lemma agree_kind (p q : list Z) : agree 1 p q -> tlp_kind p = tlp_kind q.
Proof.
  intros H. unfold tlp_kind.
  by rewrite (agree_get 1 p q tlp_fmt), (agree_get 1 p q tlp_type) by (done || simpl; lia).
Qed.

(** The address lies in the header: 12 bytes, or 16 with a four-word header. *)
Lemma agree_get_addr (p q : list Z) :
  agree (if bit (p.[tlp_fmt]) PCIE_TLP_FMT_4DW then 16 else 12) p q ->
  tlp_req_get_addr p = tlp_req_get_addr q.
Proof.
  intros H. unfold tlp_req_get_addr.
  assert (p.[tlp_fmt] = q.[tlp_fmt]) as <-.
  { eapply agree_get; [exact H|]. simpl. destruct (bit _ _); lia. }
  destruct (bit (p.[tlp_fmt]) PCIE_TLP_FMT_4DW); apply be_load_ext; intros i Hi; apply H;
    unfold r_address; lia.
Qed.

Lemma agree_first_be_offset (p q : list Z) : agree 8 p q -> first_be_offset p = first_be_offset q.
Proof. intros H. unfold first_be_offset. by rewrite (agree_get 8 p q) by (done || simpl; lia). Qed.

Lemma agree_lcrc_offset (p q : list Z) : agree 6 p q -> lcrc_offset p = lcrc_offset q.
Proof. intros H. unfold lcrc_offset. by rewrite (agree_total_length _ (drop dl_tlp q)) by by apply agree_drop. Qed.

Lemma agree_lcrc32_valid (p q : list Z) :
  (6 <= lcrc_offset p + 4)%nat ->
  agree (lcrc_offset p + 4) p q ->
  (lcrc_offset p + 4 <= length p)%nat -> (lcrc_offset p + 4 <= length q)%nat ->
  pcie_lcrc32_valid p = pcie_lcrc32_valid q.
Proof.
  intros H6 H Hp Hq. unfold pcie_lcrc32_valid, tlp_lcrc.
  rewrite <-(agree_lcrc_offset p q) by by eapply agree_le; [|exact H].
  rewrite (agree_take (lcrc_offset p) p q) by (first [lia | eapply agree_le; [|exact H]; lia]).
  apply eq_true_iff_eq. rewrite !crc_equals_spec.
  split; intros E i Hi; rewrite <-E by done; [symmetry|]; apply H; lia.
Qed.

Lemma agree_crc16_valid (p q : list Z) :
  agree 6 p q -> (6 <= length p)%nat -> (6 <= length q)%nat -> pcie_crc16_valid p = pcie_crc16_valid q.
Proof.
  intros H Hp Hq. unfold pcie_crc16_valid, dllp_crc, dl_crc16.
  rewrite (agree_take 4 p q) by (first [lia | eapply agree_le; [|exact H]; lia]).
  apply eq_true_iff_eq. rewrite !crc_equals_spec.
  split; intros E i Hi; rewrite <-E by done; [symmetry|]; apply H; lia.
Qed.

(** ** Stamping a packet *)

Lemma tport_tlp_dltlp (tport : list Z) : tport_tlp tport = drop dl_tlp (tport_dltlp tport).
Proof. unfold tport_tlp, tport_dltlp. by rewrite drop_drop. Qed.

Lemma stamp_seqno_agree (s : Z) (p : list Z) (i : nat) : (2 <= i)%nat -> rd (stamp_seqno s p) i = rd p i.
Proof. intros. unfold stamp_seqno. rewrite !rd_set_ne by (simpl; lia). done. Qed.

Lemma length_stamp_seqno (s : Z) (p : list Z) : length (stamp_seqno s p) = length p.
Proof. unfold stamp_seqno. by autorewrite with wp_len. Qed.

Lemma length_pcie_lcrc32 (p : list Z) : length (pcie_lcrc32 p) = length p.
Proof. unfold pcie_lcrc32. by autorewrite with wp_len. Qed.

Lemma length_pcie_crc16 (p : list Z) : length (pcie_crc16 p) = length p.
Proof. unfold pcie_crc16. by autorewrite with wp_len. Qed.
#[export] Hint Rewrite length_stamp_seqno length_pcie_lcrc32 length_pcie_crc16 : wp_len.

Lemma drop_stamp_seqno (s : Z) (p : list Z) : drop 2 (stamp_seqno s p) = drop 2 p.
Proof.
  apply rd_ext; rewrite !length_drop, ?length_stamp_seqno; [done|]. intros i Hi.
  rewrite !rd_drop. apply stamp_seqno_agree. lia.
Qed.

Lemma stamp_seqno_bytes_ok (s : Z) (p : list Z) : bytes_ok p -> bytes_ok (stamp_seqno s p).
Proof. intros. unfold stamp_seqno. auto with wp. Qed.
Lemma pcie_lcrc32_bytes_ok (p : list Z) : bytes_ok p -> bytes_ok (pcie_lcrc32 p).
Proof. intros. unfold pcie_lcrc32. auto with wp. Qed.
#[export] Hint Resolve stamp_seqno_bytes_ok pcie_lcrc32_bytes_ok at_off_bytes_ok : wp.

(** A sequence number split over its two fields keeps its low twelve bits. *)
Lemma split_seqno (n : Z) :
  Z.lor (Z.shiftl (wrap 4 (Z.shiftr n 8)) 8) (wrap 8 (Z.land n 255)) = n mod 4096.
Proof. change 4096 with (2 ^ 12). bitwise. Qed.

Section Stamped.
Context (s : Z) (tport : list Z) (Hok : tport_ok tport).
#[local] Abbreviation total := (tlp_total_length (tport_tlp tport)).
#[local] Abbreviation stamp := (stamp_seqno s (tport_dltlp tport)).

Lemma tport_total : 12 <= total <= 4112.
Proof. destruct Hok. destruct (total_length_cases (tport_tlp tport)); lia. Qed.

Lemma tport_length : (Z.to_nat (7 + total) <= length tport)%nat.
Proof. pose proof tport_total. destruct Hok as [_ Hr]. unfold packet_length, sizeof_dllp in Hr. lia. Qed.

Lemma stamped_length : length (stamped s tport) = length tport.
Proof. unfold stamped. rewrite !length_at_off; intros; by autorewrite with wp_len. Qed.

Lemma stamped_dltlp : tport_dltlp (stamped s tport) = pcie_lcrc32 stamp.
Proof.
  pose proof tport_length. pose proof tport_total. unfold stamped, tport_dltlp.
  rewrite !drop_at_off; [done|unfold t_tlp; lia|].
  rewrite length_at_off; [unfold t_tlp; lia|]. intros; by autorewrite with wp_len.
Qed.

Lemma stamped_lcrc_offset : lcrc_offset stamp = Z.to_nat (2 + total).
Proof.
  unfold lcrc_offset, dl_tlp. rewrite drop_stamp_seqno. unfold tport_dltlp, tport_tlp.
  by rewrite drop_drop.
Qed.

Lemma stamped_dltlp_agree : agree (Z.to_nat (2 + total)) (pcie_lcrc32 stamp) stamp.
Proof. intros i Hi. apply rd_wr_bytes_out. rewrite stamped_lcrc_offset. lia. Qed.

(** The TLP is transmitted as it was built. *)
Lemma stamped_tlp_agree : agree (Z.to_nat total) (tport_tlp (stamped s tport)) (tport_tlp tport).
Proof.
  pose proof tport_total. intros i Hi. rewrite tport_tlp_dltlp, stamped_dltlp, rd_drop.
  unfold dl_tlp. rewrite stamped_dltlp_agree, stamp_seqno_agree by lia.
  unfold tport_dltlp, tport_tlp. by rewrite !rd_drop.
Qed.

Lemma stamped_total : tlp_total_length (tport_tlp (stamped s tport)) = total.
Proof.
  pose proof tport_total. apply agree_total_length. eapply agree_le; [|apply stamped_tlp_agree]. lia.
Qed.

Lemma stamped_valid : pcie_lcrc32_valid (tport_dltlp (stamped s tport)) = true.
Proof.
  pose proof tport_total. pose proof tport_length. rewrite stamped_dltlp.
  assert (length (tport_dltlp tport) = length tport - 1)%nat as Hl by apply length_drop.
  apply lcrc32_store_valid; rewrite ?stamped_lcrc_offset, ?length_stamp_seqno; [lia| |lia].
  unfold dl_tlp. rewrite drop_stamp_seqno.
  change (0 <= tlp_total_length (drop dl_tlp (tport_dltlp tport))).
  rewrite <-tport_tlp_dltlp. lia.
Qed.

Lemma stamped_lcrc_offset_dltlp :
  lcrc_offset (tport_dltlp (stamped s tport)) = Z.to_nat (2 + total).
Proof.
  pose proof tport_total. rewrite <-stamped_lcrc_offset, stamped_dltlp.
  apply agree_lcrc_offset. eapply agree_le; [|apply stamped_dltlp_agree]. lia.
Qed.

Lemma stamped_seqno :
  Z.lor (Z.shiftl ((tport_dltlp (stamped s tport)).[dltlp_seqno_hi]) 8)
    ((tport_dltlp (stamped s tport)).[dltlp_seqno_lo]) = s mod 4096.
Proof.
  pose proof tport_total. pose proof tport_length. rewrite stamped_dltlp.
  rewrite !(agree_get _ _ stamp _ stamped_dltlp_agree) by (simpl; lia).
  unfold stamp_seqno.
  assert (2 <= length (tport_dltlp tport))%nat
    by (unfold tport_dltlp, t_tlp; rewrite length_drop; lia).
  autorewrite with fields. apply split_seqno.
Qed.

Lemma stamped_proto : (stamped s tport).[t_proto] = tport.[t_proto].
Proof.
  pose proof tport_length. pose proof tport_total. apply get_rd. simpl. unfold stamped.
  unfold at_off, t_tlp. destruct tport; simpl in *; [lia|done].
Qed.

Lemma transmitted_length : Z.of_nat (length (transmitted s tport)) = packet_length tport.
Proof.
  pose proof tport_length. pose proof tport_total. unfold transmitted, packet_length, sizeof_dllp.
  rewrite length_take, stamped_length. lia.
Qed.
End Stamped.

(** ** Requests *)

(** The byte enables tell the receiver the two low bits of the address. *)
Lemma set_addr_first_be_offset (pkt : list Z) (addr len : Z) :
  (16 <= length pkt)%nat -> 0 < len ->
  first_be_offset (tlp_req_set_addr pkt addr len) = addr mod 4.
Proof.
  intros Hp Hl. unfold first_be_offset.
  destruct (set_addr_byte_enables pkt addr len Hp Hl) as [-> _].
  pose proof (Z.mod_pos_bound addr 4 ltac:(lia)) as Ha.
  pose proof (dword_count (len + addr mod 4) ltac:(lia)) as Hn.
  pose proof (Z.mod_pos_bound (- (len + addr mod 4)) 4 ltac:(lia)) as Hk.
  revert Ha Hn Hk.
  generalize ((len + addr mod 4 + 3) / 4). intros q.
  generalize ((- (len + addr mod 4)) mod 4). intros k. generalize (addr mod 4).
  intros a Ha Hn Hk.
  assert (k = 0 \/ k = 1 \/ k = 2 \/ k = 3) as Hk4 by lia.
  assert (a = 0 \/ a = 1 \/ a = 2 \/ a = 3) as Ha4 by lia.
  destruct (Z.leb_spec (len + a) 4);
    destruct Hk4 as [->|[->|[->| ->]]], Ha4 as [->|[->|[->| ->]]]; first [reflexivity | lia].
Qed.

(** Memory requests take the 32-bit form below 4 GiB. *)
Lemma set_addr_kind (pkt : list Z) (addr len type : Z) :
  (16 <= length pkt)%nat -> pkt.[tlp_fmt] = Z.shiftr type 5 -> pkt.[tlp_type] = Z.land type 0x1F ->
  tlp_kind (tlp_req_set_addr pkt addr len) =
  Z.lor (Z.shiftl (if is_32bit addr then Z.land (Z.shiftr type 5) 6 else Z.lor (Z.shiftr type 5) 1) 5)
        (Z.land type 0x1F).
Proof.
  intros Hp Hf Ht. unfold tlp_kind. rewrite set_addr_fmt, Hf by done.
  rewrite set_addr_keeps, Ht by (done || (unfold r_address; simpl; lia)). done.
Qed.

(** The header as it is before the address is set. *)
Definition request_header (tag type : Z) (tlp : list Z) : list Z :=
  tlp.[tlp_fmt := Z.shiftr type 5].[tlp_type := Z.land type 0x1F].[r_tag := tag].

(** Types of requests the library issues: memory requests, which have the
    64-bit format until the address is known, and configuration requests. *)
Definition is_request (type addr : Z) : Prop :=
  type = PCIE_TLP_MRD64 \/ type = PCIE_TLP_MWR64 \/
  ((type = PCIE_TLP_CR0 \/ type = PCIE_TLP_CW0) /\ is_32bit addr = true).

Definition has_data (type : Z) : bool := (type =? PCIE_TLP_MWR64) || (type =? PCIE_TLP_CW0).

(** The kind the receiver sees. *)
Definition wire_kind (type addr : Z) : Z :=
  if type =? PCIE_TLP_MRD64 then if is_32bit addr then PCIE_TLP_MRD32 else PCIE_TLP_MRD64
  else if type =? PCIE_TLP_MWR64 then if is_32bit addr then PCIE_TLP_MWR32 else PCIE_TLP_MWR64
  else type.

(** Length of the header of a request. *)
Definition header_bytes (addr : Z) : nat := if is_32bit addr then 12 else 16.

(** What the receiver decodes of a request [tlp] for [len] bytes at [addr]. *)
Record decodes (tlp : list Z) (type addr len : Z) : Prop := {
  dec_kind : tlp_kind tlp = wire_kind type addr;
  dec_fmt : tlp.[tlp_fmt] < 4;
  dec_4dw : bit (tlp.[tlp_fmt]) PCIE_TLP_FMT_4DW = negb (is_32bit addr);
  dec_data : bit (tlp.[tlp_fmt]) PCIE_TLP_FMT_DATA = has_data type;
  dec_addr : tlp_req_get_addr tlp = addr - addr mod 4;
  dec_off : first_be_offset tlp = addr mod 4;
  dec_bytes : tlp_data_length_bytes tlp = len;
  dec_dwords : tlp_data_length tlp = (len + addr mod 4 + 3) / 4;
}.

Lemma set_addr_decodes (tlp : list Z) (type addr len : Z) :
  (16 <= length tlp)%nat -> 0 <= addr < 2 ^ 64 -> 0 < len -> len + addr mod 4 <= 4096 ->
  is_request type addr ->
  tlp.[tlp_fmt] = Z.shiftr type 5 -> tlp.[tlp_type] = Z.land type 0x1F ->
  decodes (tlp_req_set_addr tlp addr len) type addr len.
Proof.
  intros Hp Ha Hl Hm Ht Hfmt Htype. constructor.
  - rewrite (set_addr_kind _ _ _ type) by done. unfold wire_kind.
    destruct Ht as [->|[->|[[->| ->] ->]]]; simpl; by try destruct (is_32bit addr).
  - rewrite set_addr_fmt, Hfmt by done.
    destruct Ht as [->|[->|[[->| ->] ->]]]; simpl; by try destruct (is_32bit addr).
  - by apply set_addr_bit_4dw.
  - rewrite set_addr_fmt, Hfmt by done.
    destruct Ht as [->|[->|[[->| ->] ->]]]; simpl; by try destruct (is_32bit addr).
  - by apply set_addr_get_addr.
  - by apply set_addr_first_be_offset.
  - by apply set_addr_data_length_bytes.
  - by apply set_addr_data_length_small.
Qed.

Lemma decodes_total (tlp : list Z) (type addr len : Z) :
  decodes tlp type addr len ->
  tlp_total_length tlp =
  Z.of_nat (header_bytes addr) + (if has_data type then 4 * ((len + addr mod 4 + 3) / 4) else 0).
Proof.
  intros [_ Hf H4 Hd _ _ _ Hw]. destruct (total_length_cases tlp) as [|(_ & _ & ->)]; [lia|].
  rewrite H4, Hd, Hw. unfold header_bytes. destruct (is_32bit addr), (has_data type); simpl; lia.
Qed.

(** Decoding looks at the header only. *)
Lemma decodes_agree (p q : list Z) (type addr len : Z) :
  agree (header_bytes addr) p q -> decodes q type addr len -> decodes p type addr len.
Proof.
  intros Hpq [H1 H2 H3 H4 H5 H6 H7 H8]. pose proof (agree_sym _ _ _ Hpq) as Hqp.
  assert (12 <= header_bytes addr)%nat by (unfold header_bytes; destruct (is_32bit addr); lia).
  assert (p.[tlp_fmt] = q.[tlp_fmt]) as Hf by (eapply agree_get; [done|simpl; lia]).
  constructor; rewrite ?Hf; try done.
  - rewrite (agree_kind p q); [done|]. eapply agree_le; [|done]. lia.
  - rewrite <-(agree_get_addr q p); [done|]. rewrite H3. unfold header_bytes in Hqp.
    by destruct (is_32bit addr).
  - rewrite (agree_first_be_offset p q); [done|]. eapply agree_le; [|done]. lia.
  - rewrite (agree_data_length_bytes p q); [done|]. eapply agree_le; [|done]. lia.
  - rewrite (agree_data_length p q); [done|]. eapply agree_le; [|done]. lia.
Qed.

(** *** Write requests *)

Lemma land_3 (x : Z) : Z.land x 3 = x mod 4.
Proof. apply (Z.land_ones x 2). lia. Qed.

Lemma write_size_spec (addr len : Z) :
  0 <= len <= 4096 -> write_size addr len = 23 + 4 * ((len + addr mod 4 + 3) / 4).
Proof.
  intros Hl. pose proof (Z.mod_pos_bound addr 4 ltac:(lia)). unfold write_size, sizeof_transport.
  rewrite land_3, (wrap_small 64 (len + _ + 3)) by lia.
  change (Z.land (len + addr mod 4 + 3) (u64 (Z.lnot 3))) with (align4 (len + addr mod 4 + 3)).
  rewrite align4_spec by lia.
  pose proof (Z.div_mod (len + addr mod 4 + 3) 4). pose proof (Z.mod_pos_bound (len + addr mod 4 + 3) 4).
  rewrite wrap_small by lia. lia.
Qed.

(** The packet [warppipe_write_imp] hands to [client_send_pcie_transport]. *)
Definition write_tport (mem : list Z) (addr : Z) (data : list Z) (len type : Z) : list Z :=
  let tport := write_request mem addr len type in
  wr_bytes (payload_offset tport + Z.to_nat (Z.land addr 3)) (take (Z.to_nat len) data) tport.

Section WriteRequest.
Context (mem : list Z) (addr : Z) (data : list Z) (len type : Z).
Context (Hmem : length mem = Z.to_nat (write_size addr len)) (Haddr : 0 <= addr < 2 ^ 64).
Context (Hlen : 0 < len) (Hmax : len + addr mod 4 <= 4096).
Context (Hdata : (Z.to_nat len <= length data)%nat).
Context (Htype : is_request type addr) (Hwr : has_data type = true).
#[local] Abbreviation dwords := ((len + addr mod 4 + 3) / 4).
#[local] Abbreviation t := (write_tport mem addr data len type).

Lemma write_dwords : 4 * dwords - 3 <= len + addr mod 4 <= 4 * dwords /\ 0 <= addr mod 4 < 4.
Proof.
  pose proof (Z.div_mod (len + addr mod 4 + 3) 4).
  pose proof (Z.mod_pos_bound (len + addr mod 4 + 3) 4). pose proof (Z.mod_pos_bound addr 4). lia.
Qed.

Lemma write_mem_length : length mem = Z.to_nat (23 + 4 * dwords).
Proof. pose proof write_dwords. rewrite Hmem, write_size_spec by lia. done. Qed.

Lemma write_request_tlp :
  tport_tlp (write_request mem addr len type) =
  tlp_req_set_addr
    ((tport_tlp (mem.[t_proto := PCIE_PROTO_TLP])).[tlp_fmt := Z.shiftr type 5]
       .[tlp_type := Z.land type 0x1F]) addr len.
Proof.
  pose proof write_dwords. pose proof write_mem_length.
  unfold write_request, tport_tlp. rewrite drop_at_off; [done|].
  rewrite length_set. unfold t_tlp, dl_tlp. lia.
Qed.

Lemma write_request_length : length (write_request mem addr len type) = length mem.
Proof.
  unfold write_request. rewrite length_at_off; [by autorewrite with wp_len|].
  intros. by autorewrite with wp_len.
Qed.

Lemma write_request_decodes : decodes (tport_tlp (write_request mem addr len type)) type addr len.
Proof.
  pose proof write_dwords. pose proof write_mem_length. rewrite write_request_tlp.
  assert (16 <= length (tport_tlp (mem.[t_proto := PCIE_PROTO_TLP])))%nat as H16.
  { unfold tport_tlp, t_tlp, dl_tlp. rewrite length_drop, length_set. lia. }
  apply set_addr_decodes; try done.
  - by autorewrite with wp_len.
  - autorewrite with fields. by destruct Htype as [->|[->|[[->| ->] _]]].
  - autorewrite with fields. by destruct Htype as [->|[->|[[->| ->] _]]].
Qed.

Lemma write_payload_offset :
  payload_offset (write_request mem addr len type) = (3 + header_bytes addr)%nat.
Proof.
  unfold payload_offset. fold (tport_tlp (write_request mem addr len type)).
  rewrite (dec_4dw _ _ _ _ write_request_decodes). unfold header_bytes.
  by destruct (is_32bit addr).
Qed.

Lemma write_tport_length : length t = length mem.
Proof. unfold write_tport. by rewrite length_wr_bytes, write_request_length. Qed.

Lemma write_tport_agree :
  agree (header_bytes addr) (tport_tlp t) (tport_tlp (write_request mem addr len type)).
Proof.
  intros i Hi. unfold tport_tlp. rewrite !rd_drop. unfold write_tport.
  apply rd_wr_bytes_out. rewrite write_payload_offset. unfold t_tlp, dl_tlp. lia.
Qed.

Lemma write_tport_decodes : decodes (tport_tlp t) type addr len.
Proof. eapply decodes_agree; [apply write_tport_agree|apply write_request_decodes]. Qed.

Lemma write_tport_total : tlp_total_length (tport_tlp t) = Z.of_nat (header_bytes addr) + 4 * dwords.
Proof. rewrite (decodes_total _ _ _ _ write_tport_decodes), Hwr. done. Qed.

Lemma write_tport_ok : tport_ok t.
Proof.
  pose proof write_dwords. split; [apply (dec_fmt _ _ _ _ write_tport_decodes)|].
  unfold packet_length. rewrite write_tport_total, write_tport_length, write_mem_length.
  unfold sizeof_dllp, header_bytes. destruct (is_32bit addr); lia.
Qed.

(** The payload is where the receiver looks for it. *)
Lemma write_tport_payload (i : nat) :
  (i < Z.to_nat len)%nat ->
  rd (tport_tlp t) (header_bytes addr + Z.to_nat (addr mod 4) + i) = rd data i.
Proof.
  intros Hi. pose proof write_dwords. unfold tport_tlp. rewrite rd_drop. unfold write_tport.
  assert (length (take (Z.to_nat len) data) = Z.to_nat len) as Hl by (rewrite length_take; lia).
  rewrite land_3, rd_wr_bytes_in; rewrite ?Hl, write_payload_offset; unfold t_tlp, dl_tlp.
  - rewrite rd_take by lia. f_equal. lia.
  - rewrite write_request_length, write_mem_length. unfold header_bytes.
    destruct (is_32bit addr); lia.
  - lia.
Qed.

Lemma write_tport_proto : t.[t_proto] = PCIE_PROTO_TLP.
Proof.
  pose proof write_dwords. pose proof write_mem_length. unfold write_tport.
  rewrite get_wr_bytes by (rewrite write_payload_offset; simpl; lia).
  unfold write_request.
  etrans; [apply (get_rd _ _ (mem.[t_proto := PCIE_PROTO_TLP]))|].
  - unfold at_off. unfold rd. rewrite lookup_app_l; [by rewrite lookup_take_lt by (simpl; lia)|].
    rewrite length_take, length_set. unfold t_tlp, dl_tlp. cbn [f_byte t_proto]. lia.
  - rewrite get_set_eq by (done || simpl; lia). done.
Qed.
End WriteRequest.

(** *** Read requests *)

Section ReadRequest.
Context (tag addr len type : Z).
Context (Haddr : 0 <= addr < 2 ^ 64) (Hlen : 0 < len) (Hmax : len + addr mod 4 <= 4096).
Context (Htype : is_request type addr) (Hrd : has_data type = false) (Htag : 0 <= tag < 32).
#[local] Abbreviation t := (read_request tag addr len type).

Lemma read_request_tlp :
  tport_tlp t = tlp_req_set_addr (request_header tag type (replicate 20 0)) addr len.
Proof. reflexivity. Qed.

Lemma read_request_decodes : decodes (tport_tlp t) type addr len.
Proof.
  rewrite read_request_tlp. unfold request_header. apply set_addr_decodes; try done.
  - autorewrite with wp_len. simpl. lia.
  - autorewrite with fields. by destruct Htype as [->|[->|[[->| ->] _]]].
  - autorewrite with fields. by destruct Htype as [->|[->|[[->| ->] _]]].
Qed.

Lemma read_request_tag : (tport_tlp t).[r_tag] = tag.
Proof.
  rewrite read_request_tlp. unfold request_header.
  rewrite set_addr_keeps by first [done | autorewrite with wp_len; unfold r_address; simpl; lia].
  autorewrite with fields. apply wrap_small. simpl. lia.
Qed.

Lemma read_request_total : tlp_total_length (tport_tlp t) = Z.of_nat (header_bytes addr).
Proof. rewrite (decodes_total _ _ _ _ read_request_decodes), Hrd. lia. Qed.

Lemma read_request_ok : tport_ok t.
Proof.
  split; [apply (dec_fmt _ _ _ _ read_request_decodes)|].
  unfold packet_length. rewrite read_request_total. unfold read_request.
  rewrite length_at_off by (intros; by autorewrite with wp_len).
  unfold sizeof_dllp, header_bytes, sizeof_transport. autorewrite with wp_len.
  rewrite length_replicate. destruct (is_32bit addr); simpl; lia.
Qed.
End ReadRequest.

(** *** Completions *)

(** The packet [handle_memory_read_request] sends: the callback's bytes [bs],
    without payload when the callback reported an error. *)
Definition completion_tport (pkt bs : list Z) (read_error : Z) : list Z :=
  let tport :=
    (replicate (Z.to_nat (sizeof_transport + tlp_data_length pkt * 4)) 0).[t_proto := PCIE_PROTO_TLP] in
  let tport := at_off (t_tlp + dl_tlp) (completion_header pkt) tport in
  let tport := wr_bytes (t_tlp + dl_tlp + c_data) bs tport in
  if negb (read_error =? 0) then
    at_off (t_tlp + dl_tlp)
      (fun tlp => tlp.[tlp_fmt := Z.land (tlp.[tlp_fmt]) (Z.lnot PCIE_TLP_FMT_DATA)]) tport
  else tport.

(** What [completion_header] leaves in the header. *)
Lemma completion_header_fields (pkt tlp : list Z) :
  (12 <= length tlp)%nat ->
  let hdr := completion_header pkt tlp in
  hdr.[tlp_fmt] = 2 /\ hdr.[tlp_type] = 10 /\ hdr.[c_tag] = pkt.[r_tag] /\
  Z.lor (Z.shiftl (hdr.[c_byte_count_hi]) 8) (hdr.[c_byte_count_lo]) =
    tlp_data_length_bytes pkt mod 4096 /\
  tlp_data_length hdr = tlp_data_length pkt.
Proof.
  intros Hl. cbv zeta. unfold tlp_data_length, completion_header. autorewrite with fields.
  repeat split.
  - apply wrap_small, (get_range r_tag). reflexivity.
  - apply split_seqno.
  - by rewrite !wrap_small by (apply get_range; reflexivity).
Qed.

Section Completion.
Context (pkt bs : list Z) (read_error : Z).
Context (Hbs : Z.of_nat (length bs) <= 4 * tlp_data_length pkt + 8).
#[local] Abbreviation n := (tlp_data_length pkt).
#[local] Abbreviation t := (completion_tport pkt bs read_error).
#[local] Abbreviation hdr := (completion_header pkt (replicate (Z.to_nat (20 + n * 4)) 0)).

Lemma completion_tlp :
  tport_tlp t =
  let tlp := wr_bytes c_data bs hdr in
  if negb (read_error =? 0)
  then tlp.[tlp_fmt := Z.land (tlp.[tlp_fmt]) (Z.lnot PCIE_TLP_FMT_DATA)] else tlp.
Proof.
  pose proof (tlp_data_length_range pkt).
  assert (forall g : list Z -> list Z,
    drop 3 (at_off 3 g ((replicate (Z.to_nat (23 + n * 4)) 0).[t_proto := PCIE_PROTO_TLP])) =
    g (replicate (Z.to_nat (20 + n * 4)) 0)) as Hd.
  { intros g. rewrite drop_at_off by (rewrite length_set, length_replicate; lia). f_equal.
    apply rd_ext.
    { rewrite length_drop, length_set, !length_replicate. lia. }
    intros i Hi. rewrite rd_drop, rd_set_ne by (simpl; lia). unfold rd.
    rewrite length_drop, length_set, length_replicate in Hi.
    by rewrite !lookup_replicate_2 by lia. }
  unfold completion_tport, tport_tlp, sizeof_transport, t_tlp, dl_tlp. simpl (1 + 2)%nat.
  assert (forall g : list Z -> list Z, (forall l, length (g l) = length l) ->
    (3 <= length (at_off 3 g ((replicate (Z.to_nat (23 + n * 4)) 0%Z).[t_proto := PCIE_PROTO_TLP%Z])))%nat) as Hl.
  { intros g Hg. rewrite length_at_off, length_set, length_replicate by done. lia. }
  assert (forall l, length (completion_header pkt l) = length l) as Hh.
  { intros. unfold completion_header. by autorewrite with wp_len. }
  case_goal; rewrite ?drop_at_off; rewrite ?length_wr_bytes; auto;
    rewrite drop_wr_bytes, Hd by lia; done.
Qed.

Lemma completion_length : length t = Z.to_nat (23 + n * 4).
Proof.
  unfold completion_tport, sizeof_transport.
  case_goal; rewrite ?length_at_off, ?length_wr_bytes, ?length_at_off, ?length_set, ?length_replicate;
    try done; intros; unfold completion_header; by autorewrite with wp_len.
Qed.

Lemma length_hdr : length hdr = Z.to_nat (20 + n * 4).
Proof. unfold completion_header. autorewrite with wp_len. apply length_replicate. Qed.

(** The payload and the header do not overlap. *)
Lemma completion_agree : agree 12 (wr_bytes c_data bs hdr) hdr.
Proof. intros i Hi. apply rd_wr_bytes_out. unfold c_data. lia. Qed.

Lemma completion_get (f : field) :
  field_wf f = true -> Nat.ltb (f_byte f) 12 = true -> disjoint tlp_fmt f = true ->
  (tport_tlp t).[f] = hdr.[f].
Proof.
  intros Hw Hf%Nat.ltb_lt Hd. pose proof (tlp_data_length_range pkt). pose proof length_hdr.
  rewrite completion_tlp. cbv zeta. rewrite <-(agree_get _ _ _ f completion_agree Hf).
  case_goal; [|done]. rewrite get_set_ne by (done || rewrite length_wr_bytes; simpl; lia). done.
Qed.

Lemma completion_hdr :
  hdr.[tlp_fmt] = 2 /\ hdr.[tlp_type] = 10 /\ hdr.[c_tag] = pkt.[r_tag] /\
  Z.lor (Z.shiftl (hdr.[c_byte_count_hi]) 8) (hdr.[c_byte_count_lo]) =
    tlp_data_length_bytes pkt mod 4096 /\
  tlp_data_length hdr = n.
Proof.
  pose proof (tlp_data_length_range pkt).
  apply completion_header_fields. rewrite length_replicate. lia.
Qed.

Lemma completion_fmt : (tport_tlp t).[tlp_fmt] = if read_error =? 0 then 2 else 0.
Proof.
  pose proof (tlp_data_length_range pkt). pose proof length_hdr.
  destruct completion_hdr as [Hf _]. rewrite completion_tlp. cbv zeta.
  destruct (read_error =? 0); simpl negb; cbv iota.
  - by rewrite (agree_get 12 _ _ tlp_fmt completion_agree) by (simpl; lia).
  - rewrite get_set_eq by (done || rewrite length_wr_bytes; simpl; lia).
    by rewrite (agree_get 12 _ _ tlp_fmt completion_agree), Hf by (simpl; lia).
Qed.

Lemma completion_kind :
  tlp_kind (tport_tlp t) = if read_error =? 0 then PCIE_TLP_CPLD else PCIE_TLP_CPL.
Proof.
  unfold tlp_kind. rewrite completion_fmt, completion_get by done.
  destruct completion_hdr as (_ & -> & _). by destruct (read_error =? 0).
Qed.

Lemma completion_tag : (tport_tlp t).[c_tag] = pkt.[r_tag].
Proof. rewrite completion_get by done. apply completion_hdr. Qed.

Lemma completion_count :
  Z.lor (Z.shiftl ((tport_tlp t).[c_byte_count_hi]) 8) ((tport_tlp t).[c_byte_count_lo]) =
  tlp_data_length_bytes pkt mod 4096.
Proof. rewrite !completion_get by done. apply completion_hdr. Qed.

Lemma completion_dwords : tlp_data_length (tport_tlp t) = n.
Proof.
  unfold tlp_data_length at 1. rewrite !completion_get by done.
  destruct completion_hdr as (_ & _ & _ & _ & H). exact H.
Qed.

Lemma completion_total :
  tlp_total_length (tport_tlp t) = 12 + (if read_error =? 0 then 4 * n else 0).
Proof.
  pose proof completion_fmt as Hf.
  destruct (total_length_cases (tport_tlp t)) as [[_ H]|(_ & _ & ->)].
  - rewrite Hf in H. by destruct (read_error =? 0).
  - rewrite Hf, completion_dwords. destruct (read_error =? 0); simpl; lia.
Qed.

Lemma completion_ok : tport_ok t.
Proof.
  pose proof (tlp_data_length_range pkt). split.
  - rewrite completion_fmt. by destruct (read_error =? 0).
  - unfold packet_length, sizeof_dllp. rewrite completion_total, completion_length.
    destruct (read_error =? 0); lia.
Qed.

Lemma completion_payload (i : nat) : (i < length bs)%nat -> rd (tport_tlp t) (c_data + i) = rd bs i.
Proof.
  intros Hi. pose proof length_hdr. rewrite completion_tlp. cbv zeta.
  assert (rd (wr_bytes c_data bs hdr) (c_data + i) = rd bs i) as E.
  { rewrite rd_wr_bytes_in; [f_equal; lia|unfold c_data; lia..]. }
  case_goal; [|done]. rewrite rd_set_ne; [done|]. unfold c_data. simpl. lia.
Qed.

Lemma completion_proto : t.[t_proto] = PCIE_PROTO_TLP.
Proof.
  pose proof (tlp_data_length_range pkt).
  assert (forall g (l : list Z), (0 < length l)%nat -> (at_off 3 g l).[t_proto] = l.[t_proto]) as Ha.
  { intros g l Hl. apply get_rd. simpl. unfold at_off. by destruct l; simpl in *; [lia|]. }
  unfold completion_tport, t_tlp, dl_tlp, sizeof_transport. simpl (1 + 2)%nat.
  set (l0 := replicate _ 0). assert (0 < length l0)%nat by (unfold l0; rewrite length_replicate; lia).
  assert (length (at_off 3 (completion_header pkt) (l0.[t_proto := PCIE_PROTO_TLP])) = length l0).
  { rewrite length_at_off; [by autorewrite with wp_len|].
    intros. unfold completion_header. by autorewrite with wp_len. }
  set (l1 := at_off 3 (completion_header pkt) _) in *.
  assert ((wr_bytes (3 + c_data) bs l1).[t_proto] = PCIE_PROTO_TLP) as E.
  { rewrite get_wr_bytes by (simpl; lia). unfold l1. rewrite Ha by (rewrite length_set; lia).
    by rewrite get_set_eq by (done || simpl; lia). }
  case_goal; [|exact E]. rewrite Ha; [exact E|]. rewrite length_wr_bytes. lia.
Qed.
End Completion.

(** ** Acknowledgements *)

(** The bytes of a DLLP on the wire. *)
Definition transmitted_dllp (tport : list Z) : list Z := take 7 (at_off t_tlp pcie_crc16 tport).

Section Acknak.
Context (type s : Z).
#[local] Abbreviation t := (acknak_packet type s).
#[local] Abbreviation dllp := (drop t_tlp (transmitted_dllp t)).
#[local] Abbreviation body :=
  ((replicate 22 0).[dl_nak := type].[acknak_seqno_hi := Z.shiftr s 8]
                   .[acknak_seqno_lo := Z.land s 0xff]).

Lemma acknak_length : length t = 23%nat.
Proof. done. Qed.

Lemma acknak_proto : t.[t_proto] = PCIE_PROTO_DLLP.
Proof. done. Qed.

Lemma acknak_dllp : dllp = take 6 (pcie_crc16 body).
Proof. reflexivity. Qed.

Lemma acknak_agree : agree 4 dllp body.
Proof.
  intros i Hi. rewrite acknak_dllp, rd_take by lia. unfold pcie_crc16.
  apply rd_wr_bytes_out. unfold dl_crc16. lia.
Qed.

Lemma acknak_valid : pcie_crc16_valid dllp = true.
Proof.
  rewrite acknak_dllp, (agree_crc16_valid _ (pcie_crc16 body)).
  - apply crc16_store_valid. autorewrite with wp_len. simpl. lia.
  - intros i Hi. by rewrite rd_take.
  - rewrite length_take. autorewrite with wp_len. simpl. lia.
  - autorewrite with wp_len. simpl. lia.
Qed.

(** The receiver decodes the acknowledged sequence number. *)
Lemma acknak_decoded :
  type = PCIE_DLLP_ACK \/ type = PCIE_DLLP_NAK -> handle_dllp dllp = AckNak (s mod 4096).
Proof.
  intros Ht. unfold handle_dllp.
  rewrite !(agree_get 4 dllp body) by (apply acknak_agree || simpl; lia).
  assert (body.[dl_type] = wrap 8 type) as -> by (by autorewrite with fields).
  autorewrite with fields. simpl (f_width _). rewrite split_seqno.
  rewrite (wrap_small 16) by (pose proof (Z.mod_pos_bound s 4096); lia).
  by destruct Ht as [-> | ->].
Qed.

Lemma transmitted_acknak_length : length (transmitted_dllp t) = 7%nat.
Proof. done. Qed.
End Acknak.
