(* ===== verification/Logic.v ===== *)
(** * Reasoning about programs

    Equations for the primitive operations of [World], a weakest-precondition
    predicate with its rules, and the promises of the operating system about
    byte streams that the end-to-end properties rely on. *)

From S2P Require Import Prelude World.

(** ** Running the primitives *)

Section Run.
Context {os app : Type}.
#[local] Abbreviation W := (world os app).

(** The world with the client at [c] replaced. *)
Definition upd (c : ptr) (cl : warppipe_client) (w : W) : W := with_clients (insert c cl) w.

Lemma bind_assoc {A B C} (m : M W A) (f : A -> M W B) (g : B -> M W C) w :
  bind (bind m f) g w = bind m (fun a => bind (f a) g) w.
Proof. unfold bind. by destruct (m w). Qed.

Lemma bind_Ret {A B} (m : M W A) (k : A -> M W B) w a w' :
  m w = Ret a w' -> bind m k w = k a w'.
Proof. intros H. unfold bind. by rewrite H. Qed.

Lemma bind_ext {A B} (m : M W A) (f g : A -> M W B) w :
  (forall a w', f a w' = g a w') -> bind m f w = bind m g w.
Proof. intros H. unfold bind. destruct (m w); auto. Qed.

Lemma run_load c cl (w : W) : w_clients w !! c = Some cl -> load c w = Ret cl w.
Proof. intros H. unfold load. by rewrite H. Qed.

Lemma run_store c cl cl' (w : W) :
  w_clients w !! c = Some cl -> store c cl' w = Ret tt (upd c cl' w).
Proof. intros H. unfold store. by rewrite H. Qed.

Lemma run_modify c f cl (w : W) :
  w_clients w !! c = Some cl -> modify c f w = Ret tt (upd c (f cl) w).
Proof. intros H. unfold modify, bind. by rewrite (run_load _ cl), (run_store _ cl). Qed.

Lemma run_os_call {A} (f : os -> A * os) a o (w : W) :
  f (w_os w) = (a, o) -> os_call f w = Ret a (with_os o w).
Proof. intros H. unfold os_call. by rewrite H. Qed.

Lemma lookup_upd c cl (w : W) : w_clients (upd c cl w) !! c = Some cl.
Proof. apply lookup_insert_eq. Qed.

Lemma lookup_with_os c o (w : W) : w_clients (with_os o w) !! c = w_clients w !! c.
Proof. done. Qed.

Lemma upd_upd c cl cl' (w : W) : upd c cl' (upd c cl w) = upd c cl' w.
Proof. unfold upd, with_clients. simpl. by rewrite insert_insert_eq. Qed.

Lemma upd_with_os c cl o (w : W) : upd c cl (with_os o w) = with_os o (upd c cl w).
Proof. done. Qed.

Lemma upd_id c cl (w : W) : w_clients w !! c = Some cl -> upd c cl w = w.
Proof. intros H. unfold upd, with_clients. destruct w; simpl in *. by rewrite insert_id. Qed.

Lemma with_os_with_os o o' (w : W) : with_os o (with_os o' w) = with_os o w.
Proof. done. Qed.

Lemma with_os_id (w : W) : with_os (w_os w) w = w.
Proof. by destruct w. Qed.
End Run.

(** Symbolic execution: runs the primitives at the head of the program, given
    what the store and the system calls return. *)
Ltac lookup_client :=
  first [ eassumption | apply lookup_upd | rewrite lookup_with_os; lookup_client ].
Ltac run1 :=
  first
    [ rewrite bind_assoc
    | erewrite (bind_Ret (load _)) by (apply run_load; lookup_client)
    | erewrite (bind_Ret (store _ _)) by (eapply run_store; lookup_client)
    | erewrite (bind_Ret (modify _ _)) by (eapply run_modify; lookup_client)
    | erewrite (bind_Ret (os_call _)) by (eapply run_os_call; eassumption)
    | erewrite (bind_Ret (ret _)) by reflexivity
    | erewrite run_modify by lookup_client ].
Ltac run := repeat (run1; cbv beta iota).

(** ** Weakest preconditions

    [wp U m Q w]: run from [w], [m] ends (no loop exceeds its bound), a normal
    result satisfies [Q], and the behaviour is undefined only if [U] holds.
    [U = True] gives invariants of all executions, [U = False] safety. *)
Section Wp.
Context {os app : Type} (U : Prop).
#[local] Abbreviation W := (world os app).

Definition wp {A} (m : M W A) (Q : A -> W -> Prop) (w : W) : Prop :=
  match m w with
  | Ret a w' => Q a w'
  | Aborted _ => True
  | Undefined => U
  | NoFuel => False
  end.

Lemma wp_ret {A} (a : A) (Q : A -> W -> Prop) w : Q a w -> wp (ret a) Q w.
Proof. done. Qed.

Lemma wp_bind {A B} (m : M W A) (k : A -> M W B) Q w :
  wp m (fun a => wp (k a) Q) w -> wp (bind m k) Q w.
Proof. unfold wp, bind. by destruct (m w). Qed.

Lemma wp_mono {A} (m : M W A) (Q Q' : A -> W -> Prop) w :
  (forall a w', Q a w' -> Q' a w') -> wp m Q w -> wp m Q' w.
Proof. unfold wp. destruct (m w); auto. Qed.

Lemma wp_undefined {A} (Q : A -> W -> Prop) w : U -> wp undefined Q w.
Proof. done. Qed.

Lemma wp_abort {A} (Q : A -> W -> Prop) w : wp abort Q w.
Proof. done. Qed.

Lemma wp_os_call {A} (f : os -> A * os) (Q : A -> W -> Prop) w :
  (forall a o, f (w_os w) = (a, o) -> Q a (with_os o w)) -> wp (os_call f) Q w.
Proof. unfold wp, os_call. intros H. destruct (f (w_os w)) eqn:E. by apply H. Qed.

Lemma wp_load c (Q : warppipe_client -> W -> Prop) w :
  is_Some (w_clients w !! c) ->
  (forall cl, w_clients w !! c = Some cl -> Q cl w) -> wp (load c) Q w.
Proof. intros [cl Hc] H. unfold wp. rewrite (run_load c cl) by done. by apply H. Qed.

Lemma wp_store c cl (Q : unit -> W -> Prop) w :
  is_Some (w_clients w !! c) -> Q tt (upd c cl w) -> wp (store c cl) Q w.
Proof. intros [cl' Hc] H. unfold wp. by rewrite (run_store c cl'). Qed.
End Wp.

Lemma wp_weaken {os app A : Type} (U : Prop) (m : M (world os app) A) Q w : wp False m Q w -> wp U m Q w.
Proof. unfold wp. by destruct (m w). Qed.

Lemma wp_undef_mono {os app A : Type} (U U' : Prop) (m : M (world os app) A) Q w :
  (U -> U') -> wp U m Q w -> wp U' m Q w.
Proof. unfold wp. destruct (m w); auto. Qed.

(** ** Byte streams

    What the operating system promises of a connected stream socket: [pending]
    is what the peer sent and [recv] has not returned yet, [sent] what [send]
    accepted. *)
Class SocketStreams (os : Type) := {
  pending : Z -> os -> list Z;
  sent : Z -> os -> list Z;
}.

Class StreamLaws (os : Type) `{SocketIO os} `{SocketStreams os} : Prop := {
  (** [recv] returns the next bytes of the stream, at most as many as asked,
      and at least one when there is one. *)
  recv_stream : forall f n o bs o',
    sys_recv f n o = (Received bs, o') -> pending f o = bs ++ pending f o';
  recv_atmost : forall f n o bs o',
    sys_recv f n o = (Received bs, o') -> Z.of_nat (length bs) <= n;
  recv_progress : forall f n o,
    0 < n -> pending f o <> [] ->
    exists bs o', sys_recv f n o = (Received bs, o') /\ bs <> [];
  recv_sent : forall f g n o r o', sys_recv f n o = (r, o') -> sent g o' = sent g o;
  (** [send] appends what it accepts and leaves the input alone. *)
  send_stream : forall f bs o k o',
    sys_send f bs o = (k, o') -> 0 <= k -> sent f o' = sent f o ++ take (Z.to_nat k) bs;
  send_pending : forall f g bs o k o', sys_send f bs o = (k, o') -> pending g o' = pending g o;
  malloc_streams : forall g n o m o',
    sys_malloc n o = (m, o') -> pending g o' = pending g o /\ sent g o' = sent g o;
}.

(** The operating system moves by one of these calls. *)
Inductive io_step {os : Type} `{SocketIO os} : os -> os -> Prop :=
  | io_recv f n o r o' : sys_recv f n o = (r, o') -> io_step o o'
  | io_send f bs o k o' : sys_send f bs o = (k, o') -> io_step o o'
  | io_malloc n o m o' : sys_malloc n o = (m, o') -> io_step o o'.
Notation io_steps := (rtc io_step).

Create HintDb io.
#[export] Hint Resolve io_recv io_send io_malloc : io.
#[export] Hint Resolve rtc_refl rtc_once : io.
#[export] Hint Extern 3 (io_steps _ _) => (etrans; [eassumption|]) : io.
#[export] Hint Extern 2 (io_steps _ _) => (eapply rtc_l; [solve [eauto using io_recv, io_send, io_malloc]|]) : io.

(** Between [o] and [o'], an attempt to send [bs] on [f] failed or sent less. *)
Definition send_fails {os : Type} `{SocketIO os} (f : Z) (bs : list Z) (o o' : os) : Prop :=
  exists o1 k o2, io_steps o o1 /\ sys_send f bs o1 = (k, o2) /\ k <> Z.of_nat (length bs) /\ io_steps o2 o'.

(** Memory is never exhausted. *)
Definition malloc_succeeds (os : Type) `{SocketIO os} : Prop :=
  forall n (o : os), 0 <= n -> exists m o', sys_malloc n o = (Some m, o').
