(* ===== verification/Aborts.v ===== *)
(** * When a process aborts

    The library has one [assert], on the length of a TLP about to be received.
    So a function of the client aborts only in a callback of the application, or
    with the header of a TLP that does not fit in the buffer of a connection. *)

From S2P Require Import Prelude Layout Proto World Client Logic.

(** The buffer holds the header of a TLP that is larger than the buffer. *)
Definition oversized (cl : warppipe_client) : Prop :=
  (buf cl).[t_proto] = PCIE_PROTO_TLP /\ CLIENT_BUFFER_SIZE < tlp_total_length (buffered_tlp cl) + (1 + sizeof_dllp).

Create HintDb aborts.

Section Aborts.
Context {os app : Type} `{!SocketIO os} `{!Callbacks os app}.
#[local] Abbreviation W := (world os app).

(** A callback aborted in the world [w']. *)
Inductive callback_aborted (w' : W) : Prop :=
  | read_cb_aborted cb addr len p w : call_read_cb cb addr len p w = Aborted w' -> callback_aborted w'
  | write_cb_aborted cb addr data len p w : call_write_cb cb addr data len p w = Aborted w' -> callback_aborted w'
  | completion_cb_aborted cb st data len p w :
      call_completion_cb cb st data len p w = Aborted w' -> callback_aborted w'.

(** Aborts of [m] have a cause [U]. *)
Definition aborts {A} (U : W -> Prop) (m : M W A) : Prop := forall w w', m w = Aborted w' -> U w'.

(** The causes in the client's functions. *)
Definition abort_cause (w' : W) : Prop :=
  callback_aborted w' \/ exists c cl, w_clients w' !! c = Some cl /\ oversized cl.

Context (U : W -> Prop).

Lemma aborts_bind {A B} (m : M W A) (k : A -> M W B) :
  aborts U m -> (forall a, aborts U (k a)) -> aborts U (bind m k).
Proof. intros Hm Hk w w'. unfold bind. destruct (m w) eqn:E; intros; simplify_eq; [by eapply Hk|by eapply Hm]. Qed.

Lemma aborts_ret {A} (a : A) : aborts U (ret a).
Proof. done. Qed.
Lemma aborts_undefined {A} : aborts U (undefined : M W A).
Proof. done. Qed.
Lemma aborts_no_fuel {A} : aborts U (no_fuel : M W A).
Proof. done. Qed.
Lemma aborts_load c : aborts U (load c).
Proof. intros w w'. unfold load. by case_match. Qed.
Lemma aborts_store c cl : aborts U (store c cl).
Proof. intros w w'. unfold store. by case_match. Qed.
Lemma aborts_os_call {A} (f : os -> A * os) : aborts U (os_call f).
Proof. intros w w'. unfold os_call. by destruct (f _). Qed.
Lemma aborts_get_server : aborts U get_server.
Proof. done. Qed.
Lemma aborts_put_server s : aborts U (put_server s).
Proof. done. Qed.
Lemma aborts_get_statics : aborts U get_statics.
Proof. done. Qed.
Lemma aborts_put_statics st : aborts U (put_statics st).
Proof. done. Qed.
Lemma aborts_modify c f : aborts U (modify c f).
Proof. apply aborts_bind; [apply aborts_load|intros; apply aborts_store]. Qed.
End Aborts.
#[export] Hint Resolve aborts_ret aborts_undefined aborts_no_fuel aborts_load aborts_store aborts_os_call
  aborts_get_server aborts_put_server aborts_get_statics aborts_put_statics aborts_modify : aborts.

(** Follows the program to its calls. *)
Ltac aborts :=
  repeat first
    [ solve [auto with aborts] | apply aborts_bind; [|intros] | case_match
    | progress cbv zeta ].

Section ClientAborts.
Context {os app : Type} `{!SocketIO os} `{!Callbacks os app}.
Context (U : world os app -> Prop) (Hcb : forall w', callback_aborted w' -> U w').

Lemma aborts_read_cb cb addr len p : aborts U (call_read_cb cb addr len p).
Proof. intros w w' E. eapply Hcb, read_cb_aborted, E. Qed.
Lemma aborts_write_cb cb addr data len p : aborts U (call_write_cb cb addr data len p).
Proof. intros w w' E. eapply Hcb, write_cb_aborted, E. Qed.
Lemma aborts_completion_cb cb st data len p : aborts U (call_completion_cb cb st data len p).
Proof. intros w w' E. eapply Hcb, completion_cb_aborted, E. Qed.
#[local] Hint Resolve aborts_read_cb aborts_write_cb aborts_completion_cb : aborts.

Lemma aborts_send c tport : aborts U (client_send_pcie_transport c tport).
Proof. unfold client_send_pcie_transport, send_packet. aborts. Qed.
#[local] Hint Resolve aborts_send : aborts.

Lemma aborts_receive c : aborts U (receive_tlp c).
Proof.
  unfold receive_tlp, warppipe_ack, handle_tlp, handle_memory_read_request, handle_memory_write_request,
    handle_completion. aborts.
Qed.

Lemma aborts_recv_store c off bs : aborts U (recv_store c off bs).
Proof. unfold recv_store. aborts. Qed.
#[local] Hint Resolve aborts_receive aborts_recv_store : aborts.

Lemma aborts_recv_loop fuel c : forall len total, aborts U (recv_loop fuel c len total).
Proof. induction fuel; intros; simpl; aborts. Qed.
#[local] Hint Resolve aborts_recv_loop : aborts.

Lemma aborts_register_bar c b s i rcb wcb : aborts U (warppipe_register_bar c b s i rcb wcb).
Proof. unfold warppipe_register_bar. aborts. Qed.
End ClientAborts.

Lemma aborts_client_read {os app : Type} `{!SocketIO os} `{!Callbacks os app} c :
  aborts (os := os) (app := app) abort_cause (warppipe_client_read c).
Proof.
  assert (forall w' : world os app, callback_aborted w' -> abort_cause w') as Hcb by by left.
  pose proof (aborts_receive abort_cause Hcb c). pose proof (aborts_recv_loop (os := os) (app := app) abort_cause).
  pose proof (aborts_recv_store (os := os) (app := app) abort_cause).
  unfold warppipe_client_read. apply aborts_bind; [auto with aborts|]. intros cl0.
  apply aborts_bind; [auto with aborts|]. intros [bs|[]]; [|auto with aborts..].
  apply aborts_bind; [auto|]. intros _. case_match; [auto with aborts|].
  intros w w' E. unfold bind, load in E. destruct (w_clients w !! c) as [cl|] eqn:Hc; [|discriminate E].
  revert w' E. destruct (_ =? PCIE_PROTO_DLLP); [intros; by case_match|].
  destruct (Z.eqb_spec ((buf cl).[t_proto]) PCIE_PROTO_TLP) as [Hp|]; [|intros w' E; by eapply aborts_modify].
  destruct (_ <? 0); [intros w' E; by eapply aborts_modify|]. 
  destruct (Z.leb_spec (tlp_total_length (buffered_tlp cl) + (1 + sizeof_dllp)) CLIENT_BUFFER_SIZE) as [|Hfit]; intros w' E;
    cbn [negb] in E.
  - revert E. apply (aborts_bind abort_cause (recv_loop _ _ _ _)); [auto|]. intros []; auto with aborts.
  - unfold abort in E. simplify_eq. right. by exists c, cl.
Qed.
