(* ===== verification/Bars.v ===== *)
(** * Address decoding

    Which base address register (BAR) of a client an address falls into:
    [get_bar_idx], the registration of BARs, and the offset that the callbacks
    receive. *)

From S2P Require Import Prelude Layout Proto Crc World Client Logic.

(** A BAR of [size] bytes at [base]; only the low 32 bits of an address count.
    A BAR that was never registered has size 0, and covers everything. *)
Definition bar_covers (base size addr : Z) : bool :=
  if size =? 0 then base =? 0
  else (base <=? addr mod 2 ^ 32) && (addr mod 2 ^ 32 <? base + size).

(** What registration establishes: unregistered, or a power of two. The caller
    aligns the base to the size. *)
Definition bar_ok (base size : Z) : Prop :=
  (base = 0 /\ size = 0) \/
  exists k, 0 <= k < 32 /\ size = 2 ^ k /\ 0 <= base < 2 ^ 32 /\ base mod 2 ^ k = 0.

Lemma u32_pow2_pred (k : Z) : 0 <= k < 32 -> u32 (2 ^ k - 1) = 2 ^ k - 1.
Proof.
  intros Hk. apply wrap_small.
  pose proof (Z.pow_pos_nonneg 2 k). pose proof (Z.pow_lt_mono_r 2 k 32). lia.
Qed.

Lemma land_pow2_pred (addr k : Z) : 0 <= k < 32 -> Z.land addr (u32 (2 ^ k - 1)) = addr mod 2 ^ k.
Proof.
  intros Hk. rewrite u32_pow2_pred by done. rewrite Z.sub_1_r, <-Z.ones_equiv. apply Z.land_ones. lia.
Qed.

Lemma land_pow2_mask (addr k : Z) :
  0 <= k < 32 ->
  Z.land addr (u32 (Z.lnot (u32 (2 ^ k - 1)))) = 2 ^ k * ((addr mod 2 ^ 32) / 2 ^ k).
Proof.
  intros Hk. rewrite u32_pow2_pred, Z.sub_1_r, <-Z.ones_equiv by done.
  rewrite Z.mul_comm, <-Z.shiftr_div_pow2, <-Z.shiftl_mul_pow2 by lia.
  change (addr mod 2 ^ 32) with (u32 addr). bitwise.
Qed.

(** What registration establishes whatever the base: the size is a power of two. *)
Definition bar_shape (base size : Z) : Prop :=
  (base = 0 /\ size = 0) \/ exists k, 0 <= k < 32 /\ size = 2 ^ k /\ 0 <= base < 2 ^ 32.

(** The addresses such a BAR matches: those it covers, if its base is a multiple of
    its size, and else none at all. *)
Definition bar_decodes (base size addr : Z) : bool :=
  ((size =? 0) || (base mod size =? 0)) && bar_covers base size addr.

Lemma bar_match_decodes (addr base size : Z) :
  bar_shape base size -> bar_match addr base size = bar_decodes base size addr.
Proof.
  intros [[-> ->]|(k & Hk & -> & Hb)]; unfold bar_match, bar_decodes, bar_covers.
  - by replace (u32 (Z.lnot (u32 (0 - 1)))) with 0 by reflexivity; rewrite Z.land_0_r.
  - rewrite land_pow2_mask by done. pose proof (Z.pow_pos_nonneg 2 k ltac:(lia) ltac:(lia)).
    rewrite (proj2 (Z.eqb_neq (2 ^ k) 0)) by lia. simpl.
    pose proof (Z.mod_pos_bound addr (2 ^ 32) ltac:(lia)).
    generalize dependent (addr mod 2 ^ 32). intros a Ha.
    pose proof (Z.div_mod a (2 ^ k) ltac:(lia)). pose proof (Z.mod_pos_bound a (2 ^ k) ltac:(lia)).
    pose proof (Z.div_mod base (2 ^ k) ltac:(lia)) as Hd.
    apply eq_true_iff_eq. rewrite !andb_true_iff, !Z.eqb_eq, Z.leb_le, Z.ltb_lt. split.
    + intros <-. rewrite Z.mul_comm, Z.mod_mul by lia. lia.
    + intros (Hm & ? & ?). rewrite Hm in Hd. assert (a / 2 ^ k = base / 2 ^ k) by nia. lia.
Qed.

Lemma bar_match_covers (addr base size : Z) :
  bar_ok base size -> bar_match addr base size = bar_covers base size addr.
Proof.
  intros Hok. rewrite bar_match_decodes.
  - unfold bar_decodes. destruct Hok as [[-> ->]|(k & Hk & -> & Hb & ->)]; [done|]. by rewrite orb_true_r.
  - destruct Hok as [|(k & ? & ? & ? & _)]; [by left|right; by exists k].
Qed.

(** ** [get_bar_idx] *)

Lemma get_bar_idx_from_spec (bars sizes : list Z) (addr i : Z) :
  length bars = length sizes ->
  (get_bar_idx_from i bars sizes addr = -1 /\
   forall j b s, bars !! j = Some b -> sizes !! j = Some s -> bar_match addr b s = false) \/
  (exists j b s, get_bar_idx_from i bars sizes addr = i + Z.of_nat j /\
     bars !! j = Some b /\ sizes !! j = Some s /\ bar_match addr b s = true /\
     forall j' b' s', (j' < j)%nat -> bars !! j' = Some b' -> sizes !! j' = Some s' ->
       bar_match addr b' s' = false).
Proof.
  revert sizes i. induction bars as [|b bars IH]; intros [|s sizes] i Hl; simplify_eq/=.
  - left. split; [done|]. intros. by rewrite lookup_nil in *.
  - destruct (bar_match addr b s) eqn:E.
    + right. exists 0%nat, b, s. split_and!; try done; [lia|]. intros. lia.
    + destruct (IH sizes (i + 1)) as [[H1 H2]|(j & b' & s' & H1 & H2 & H3 & H4 & H5)]; [done| |].
      * left. split; [done|]. intros [|j] b' s' Hb Hs; simplify_eq/=; [done|]. by apply (H2 j).
      * right. exists (S j), b', s'. split_and!; try done; [lia|].
        intros [|j'] ? ? ? ? ?; simplify_eq/=; [done|]. apply (H5 j'); lia || done.
Qed.

(** The first BAR that matches. *)
Lemma get_bar_idx_first (cl : warppipe_client) (addr b s : Z) (i : nat) :
  length (bar cl) = length (bar_size cl) ->
  bar cl !! i = Some b -> bar_size cl !! i = Some s -> bar_match addr b s = true ->
  (forall j b' s', (j < i)%nat -> bar cl !! j = Some b' -> bar_size cl !! j = Some s' ->
     bar_match addr b' s' = false) ->
  get_bar_idx cl addr = Z.of_nat i.
Proof.
  intros Hl Hb Hs Hm Hn. unfold get_bar_idx.
  destruct (get_bar_idx_from_spec (bar cl) (bar_size cl) addr 0 Hl)
    as [[_ H2]|(j & b' & s' & -> & H2 & H3 & H4 & H5)].
  - by rewrite (H2 i b s) in Hm.
  - destruct (Nat.lt_trichotomy i j) as [Hij|[->|Hij]]; [|done|].
    + by rewrite (H5 i b s) in Hm.
    + by rewrite (Hn j b' s') in H4.
Qed.

(** Every BAR of the client is unregistered or well formed. *)
Definition bars_ok (cl : warppipe_client) : Prop :=
  length (bar cl) = 6%nat /\ length (bar_size cl) = 6%nat /\
  forall i b s, bar cl !! i = Some b -> bar_size cl !! i = Some s -> bar_ok b s.

(** Every BAR is unregistered or was registered: the size is a power of two, the base
    any number of 32 bits. *)
Definition bars_shaped (cl : warppipe_client) : Prop :=
  length (bar cl) = 6%nat /\ length (bar_size cl) = 6%nat /\
  forall i b s, bar cl !! i = Some b -> bar_size cl !! i = Some s -> bar_shape b s.

Lemma bars_ok_shaped cl : bars_ok cl -> bars_shaped cl.
Proof.
  intros (? & ? & Hok). split_and!; [done..|]. intros i b s Hb Hs.
  destruct (Hok i b s Hb Hs) as [|(k & ? & ? & ? & _)]; [by left|right; by exists k].
Qed.

Lemma created_shaped f cl : bars_shaped (client_created f cl).
Proof.
  split_and!; [done..|]. intros i b s Hb Hs. simpl in Hb, Hs.
  do 6 (destruct i as [|i]; [simpl in Hb, Hs; simplify_eq; by left|]). done.
Qed.

(** C36. [get_bar_idx] on a client whose BARs were registered with whatever bases:
    it returns the index of the first BAR that decodes the address, and [-1] exactly
    if none does.  A BAR of size [s] at a base [b] that is a multiple of [s] decodes
    the addresses whose low 32 bits lie in [b, b + s); one at any other base, which
    [warppipe_register_bar] accepts, decodes no address; an unregistered one decodes
    all of them. *)
Theorem get_bar_idx_spec (cl : warppipe_client) (addr : Z) :
  bars_shaped cl ->
  (get_bar_idx cl addr = -1 /\
   forall j b s, bar cl !! j = Some b -> bar_size cl !! j = Some s -> bar_decodes b s addr = false) \/
  (exists i b s, get_bar_idx cl addr = Z.of_nat i /\ (i < 6)%nat /\
     bar cl !! i = Some b /\ bar_size cl !! i = Some s /\ bar_decodes b s addr = true /\
     forall j b' s', (j < i)%nat -> bar cl !! j = Some b' -> bar_size cl !! j = Some s' ->
       bar_decodes b' s' addr = false).
Proof.
  intros (Hl & Hl' & Hok).
  destruct (get_bar_idx_from_spec (bar cl) (bar_size cl) addr 0) as [[H1 H2]|(i & b & s & H1 & H2 & H3 & H4 & H5)];
    [congruence|left|right].
  - split; [done|]. intros. rewrite <-bar_match_decodes by eauto. eauto.
  - exists i, b, s. rewrite <-bar_match_decodes by eauto. split_and!; try done.
    + rewrite <-Hl. by eapply lookup_lt_Some.
    + intros. rewrite <-bar_match_decodes by eauto. eauto.
Qed.

(** A client for the examples: BAR 0 and BAR 1 registered. *)
Definition example_client : warppipe_client :=
  mk_client 3 0 true NULL
    [101; 103; NULL; NULL; NULL; NULL] [102; 104; NULL; NULL; NULL; NULL]
    [0xff000000; 0x1000; 0; 0; 0; 0] [0x1000; 0x800; 0; 0; 0; 0]
    105 106 (replicate 32 NULL) 0 (replicate (Z.to_nat CLIENT_BUFFER_SIZE) 0).

Lemma example_bars_ok : bars_ok example_client.
Proof.
  split_and!; [done..|]. intros i b s Hb Hs.
  do 6 (destruct i as [|i];
    [simpl in Hb, Hs; simplify_eq; first [by left
     | right; exists 12; split_and!; (done || lia)
     | right; exists 11; split_and!; (done || lia)]|]).
  done.
Qed.

Lemma example_client_wf : client_wf example_client.
Proof.
  constructor;
    cbn [seqno bar_read_cb bar_write_cb bar bar_size completion_cb read_tag buf example_client];
    lazymatch goal with
    | |- bytes_ok _ => by apply Forall_replicate
    | |- length (replicate _ _) = _ => by rewrite length_replicate
    | |- Forall _ _ => repeat constructor; lia
    | |- length _ = _ => reflexivity
    | _ => unfold INT_MAX; lia
    end.
Qed.

(** BAR 0 is at a base that is no multiple of its size, BAR 1 at one that is. *)
Definition askew_client : warppipe_client :=
  set_bars (bar_read_cb example_client) (bar_write_cb example_client)
    [0x1400; 0x1000; 0; 0; 0; 0] [0x1000; 0x800; 0; 0; 0; 0] example_client.

Lemma get_bar_idx_spec_witness :
  bars_shaped askew_client /\ get_bar_idx askew_client 0x17ff = 1 /\
  bar_decodes 0x1000 0x800 0x17ff = true /\ bar_decodes 0x1400 0x1000 0x17ff = false /\
  bar_covers 0x1400 0x1000 0x17ff = true.
Proof.
  assert (bars_shaped askew_client) as Hok.
  { split_and!; [done..|]. intros i b s Hb Hs.
    do 6 (destruct i as [|i];
      [simpl in Hb, Hs; simplify_eq; first [by left
       | right; exists 12; split_and!; (done || lia)
       | right; exists 11; split_and!; (done || lia)]|]).
    done. }
  split; [exact Hok|].
  assert (get_bar_idx askew_client 0x17ff = 1) as E by (by vm_compute).
  destruct (get_bar_idx_spec askew_client 0x17ff Hok)
    as [[H _]|(i & b & s & H & Hi & Hb & Hs & Hc & Hn)]; rewrite E in H; [done|].
  split_and!; [done| | |by vm_compute].
  - assert (i = 1%nat) as -> by lia. simpl in Hb, Hs. by simplify_eq.
  - apply (Hn 0%nat); [|done..]. lia.
Defined.

(** ** Registration *)

Lemma pow2_test (s : Z) :
  0 < s < 2 ^ 32 -> (Z.land s (u32 (s - 1)) = 0 <-> s = 2 ^ Z.log2 s).
Proof.
  intros Hs. rewrite (wrap_small 32) by lia. pose proof (Z.log2_spec s ltac:(lia)) as Hl.
  pose proof (Z.log2_nonneg s). split.
  - intros Hz. destruct (Z.eq_dec s (2 ^ Z.log2 s)); [done|exfalso].
    assert (Z.testbit (Z.land s (s - 1)) (Z.log2 s) = true) as Ht; [|by rewrite Hz, Z.bits_0 in Ht].
    rewrite Z.land_spec, Z.bit_log2 by lia.
    assert (Z.log2 (s - 1) = Z.log2 s) as <- by (apply Z.log2_unique; lia).
    apply Z.bit_log2. pose proof (Z.pow_pos_nonneg 2 (Z.log2 s)). lia.
  - intros ->. generalize dependent (Z.log2 s). intros k _ Hk.
    rewrite Z.sub_1_r, <-Z.ones_equiv, Z.land_ones by done. apply Z.mod_same.
    pose proof (Z.pow_pos_nonneg 2 k). lia.
Qed.

Section Register.
Context {os app : Type}.

(** A registration that succeeds leaves the BARs in shape, whatever its arguments. *)
Lemma register_bar_shaped (c : ptr) (cl : warppipe_client) (w : world os app) base size idx rcb wcb r w' cl' :
  w_clients w !! c = Some cl -> bars_shaped cl -> 0 <= size < 2 ^ 32 ->
  warppipe_register_bar c base size idx rcb wcb w = Ret r w' -> w_clients w' !! c = Some cl' -> bars_shaped cl'.
Proof.
  intros Hc Hok Hs E Hc'. unfold warppipe_register_bar in E. rewrite (bind_Ret _ _ _ _ _ (run_load c cl w Hc)) in E.
  destruct (_ || _); [done|]. destruct (negb _); [injection E as _ <-; congruence|].
  destruct (Z.eqb_spec size 0); [injection E as _ <-; congruence|]. simpl in E.
  destruct (Z.eqb_spec (Z.land size (u32 (size - 1))) 0) as [Hp|]; [|injection E as _ <-; congruence]. simpl in E.
  unfold bind in E. rewrite (run_store c cl) in E by done. injection E as _ <-.
  rewrite lookup_upd in Hc'. injection Hc' as <-. destruct Hok as (Hl & Hl' & Hok).
  split_and!; simpl; rewrite ?length_insert; try done. intros j b s Hj Hj'.
  apply list_lookup_insert_Some in Hj as [(Hj & <- & _)|[? Hj]];
    apply list_lookup_insert_Some in Hj' as [(Hj2 & <- & _)|[? Hj']]; try congruence; [|eauto].
  right. exists (Z.log2 size). apply pow2_test in Hp; [|lia].
  split_and!; [apply Z.log2_nonneg|apply Z.log2_lt_pow2; lia|done|apply (wrap_range 32); lia..].
Qed.

(** The client after BAR [i] was registered. *)
Definition with_bar (i : nat) (base size : Z) (rcb wcb : ptr) (cl : warppipe_client) :=
  set_bars (<[i := rcb]> (bar_read_cb cl)) (<[i := wcb]> (bar_write_cb cl))
    (<[i := base]> (bar cl)) (<[i := size]> (bar_size cl)) cl.

Definition is_pow2 (s : Z) : bool := (0 <? s) && (s =? 2 ^ Z.log2 s).

Lemma with_bar_ok (i : nat) (base size : Z) (rcb wcb : ptr) (cl : warppipe_client) :
  bars_ok cl -> bar_ok base size -> bars_ok (with_bar i base size rcb wcb cl).
Proof.
  intros (Hl & Hl' & Hok) Hb. split_and!; simpl; rewrite ?length_insert; try done.
  intros j b s Hj Hj'.
  apply list_lookup_insert_Some in Hj as [(-> & -> & ?)|[? Hj]];
    apply list_lookup_insert_Some in Hj' as [(? & <- & ?)|[? Hj']]; try done. eauto.
Qed.

Lemma register_bar_cases (c : ptr) (cl : warppipe_client) (w : world os app)
    (base size idx : Z) (rcb wcb : ptr) :
  w_clients w !! c = Some cl -> bars_ok cl -> 0 <= idx < 6 -> 0 <= size < 2 ^ 32 ->
  (default 0 (bar cl !! Z.to_nat idx) <> 0 \/ is_pow2 size = false ->
   warppipe_register_bar c base size idx rcb wcb w = Ret (-1) w) /\
  (default 0 (bar cl !! Z.to_nat idx) = 0 -> is_pow2 size = true ->
   let cl' := with_bar (Z.to_nat idx) (u32 base) size rcb wcb cl in
   warppipe_register_bar c base size idx rcb wcb w = Ret 0 (upd c cl' w) /\
   (0 <= base < 2 ^ 32 -> base mod size = 0 -> bars_ok cl')).
Proof.
  intros Hc Hok Hi Hs. unfold warppipe_register_bar, is_pow2. run.
  rewrite (proj2 (Z.ltb_ge idx 0)), (proj2 (Z.leb_gt 6 idx)) by lia. simpl.
  destruct (Z.eqb_spec (default 0 (bar cl !! Z.to_nat idx)) 0) as [Hb|Hb]; simpl; [|by split].
  destruct (Z.eqb_spec size 0) as [->|Hz]; simpl; [by split|].
  rewrite (proj2 (Z.ltb_lt 0 size)) by lia. simpl. pose proof (pow2_test size ltac:(lia)) as Hp.
  destruct (Z.eqb_spec (Z.land size (u32 (size - 1))) 0) as [Hl|Hl];
    destruct (Z.eqb_spec size (2 ^ Z.log2 size)) as [Hq|Hq]; try (exfalso; tauto); simpl.
  - split; [intros [|]; congruence|]. intros _ _. run. split; [done|].
    intros Hbase Hm. rewrite wrap_small by done. apply with_bar_ok; [done|]. right.
    exists (Z.log2 size). rewrite <-Hq. split_and!; try lia; [apply Z.log2_nonneg|].
    apply Z.log2_lt_pow2; lia.
  - split; [done|]. intros _ H. done.
Qed.

(** [warppipe_register_bar] installs a BAR exactly if its slot is free and
    its size is a power of two, with the low 32 bits of the base; otherwise
    it returns [-1] and changes nothing.  With a base that fits in 32 bits
    and is aligned to the size, every BAR of the client stays well formed. *)
Lemma register_bar_spec (c : ptr) (cl : warppipe_client) (w : world os app)
    (base size idx : Z) (rcb wcb : ptr) :
  w_clients w !! c = Some cl -> bars_ok cl -> 0 <= idx < 6 -> 0 <= size < 2 ^ 32 ->
  (default 0 (bar cl !! Z.to_nat idx) <> 0 \/ is_pow2 size = false ->
   warppipe_register_bar c base size idx rcb wcb w = Ret (-1) w) /\
  (default 0 (bar cl !! Z.to_nat idx) = 0 -> is_pow2 size = true ->
   let cl' := with_bar (Z.to_nat idx) (u32 base) size rcb wcb cl in
   warppipe_register_bar c base size idx rcb wcb w = Ret 0 (upd c cl' w) /\
   (0 <= base < 2 ^ 32 -> base mod size = 0 -> bars_ok cl')).
Proof. apply register_bar_cases. Qed.
End Register.

(** A process with that one client. *)
Definition example_world : world unit unit :=
  mk_world _ _ tt (mk_server 4 false false 0 None "2115" 5 ∅ [7] NULL NULL) {[7 := example_client]} tt static_init.

Example register_bar_spec_run :
  let w0 := example_world in
  warppipe_register_bar 7 0x20000000 0x10000 3 111 112 w0 =
    Ret 0 (upd 7 (with_bar 3 0x20000000 0x10000 111 112 example_client) w0) /\
  warppipe_register_bar 7 0x20000000 0x10001 3 111 112 w0 = Ret (-1) w0.
Proof.
  assert (w_clients example_world !! 7 = Some example_client) as Hl by done. split.
  - destruct (register_bar_spec 7 example_client _ 0x20000000 0x10000 3 111 112 Hl example_bars_ok)
      as [_ H]; [lia..|]. by apply H.
  - apply (register_bar_spec 7 example_client _ 0x20000000 0x10001 3 111 112 Hl example_bars_ok);
      [lia..|by right].
Qed.

(** ** Requests that fall into a BAR *)

(** Byte [addr] lies in BAR [i] of the client, at base [b] and of [2 ^ k >= 4]
    bytes, and in no BAR before it. *)
Record in_bar (cl : warppipe_client) (i : nat) (b k addr : Z) : Prop := {
  in_bars_ok : bars_ok cl;
  in_bar_base : bar cl !! i = Some b;
  in_bar_size : bar_size cl !! i = Some (2 ^ k);
  in_bar_k : 2 <= k < 32;
  in_bar_range : b <= addr < b + 2 ^ k;
  in_bar_first : forall j b' s', (j < i)%nat -> bar cl !! j = Some b' -> bar_size cl !! j = Some s' ->
    bar_covers b' s' (addr - addr mod 4) = false;
}.

Section InBar.
Context (cl : warppipe_client) (i : nat) (b k addr : Z) (H : in_bar cl i b k addr).

Lemma in_bar_pow : 2 ^ k = 4 * 2 ^ (k - 2) /\ 0 < 2 ^ (k - 2).
Proof.
  destruct H. split; [|apply Z.pow_pos_nonneg; lia].
  change 4 with (2 ^ 2). rewrite <-Z.pow_add_r by lia. f_equal. lia.
Qed.

Lemma in_bar_aligned : 0 <= b < 2 ^ 32 /\ b mod 2 ^ k = 0 /\ b + 2 ^ k <= 2 ^ 32.
Proof.
  pose proof in_bar_pow. destruct H as [(_ & _ & Hok) Hb Hs Hk _ _].
  destruct (Hok _ _ _ Hb Hs) as [[_ ?]|(k' & Hk' & Heq & Hr & Hm)]; [lia|].
  rewrite <-Heq in Hm. split_and!; try lia.
  pose proof (Z.div_mod b (2 ^ k) ltac:(lia)) as Hd. rewrite Hm in Hd.
  assert (2 ^ 32 = 2 ^ k * 2 ^ (32 - k)) as He by (rewrite <-Z.pow_add_r by lia; f_equal; lia).
  assert (b / 2 ^ k < 2 ^ (32 - k)) by nia. nia.
Qed.

(** The bytes of a double word share a BAR. *)
Lemma in_bar_dword :
  b <= addr - addr mod 4 /\ addr mod 2 ^ k = addr - b /\ (addr - addr mod 4) mod 2 ^ k + addr mod 4 = addr - b.
Proof.
  destruct in_bar_pow as [Hp Hp']. destruct in_bar_aligned as (Hr & Hm & _).
  destruct H as [_ _ _ Hk Ha _]. pose proof (Z.div_mod b (2 ^ k) ltac:(lia)) as Hd. rewrite Hm in Hd.
  set (q := b / 2 ^ k) in *. pose proof (Z.div_mod addr 4 ltac:(lia)).
  pose proof (Z.mod_pos_bound addr 4 ltac:(lia)).
  assert (b <= addr - addr mod 4) by nia. split_and!; [done| |].
  - symmetry. apply Z.mod_unique with q; lia.
  - assert ((addr - addr mod 4) mod 2 ^ k = addr - addr mod 4 - b); [|lia].
    symmetry. apply Z.mod_unique with q; lia.
Qed.

Lemma in_bar_idx : get_bar_idx cl (addr - addr mod 4) = Z.of_nat i.
Proof.
  pose proof in_bar_pow. destruct in_bar_aligned as (Hr & Hm & Hu). pose proof in_bar_dword as [Hd _].
  destruct H as [(Hl & Hl' & Hok) Hb Hs Hk Ha Hn].
  pose proof (Z.mod_pos_bound addr 4 ltac:(lia)).
  apply get_bar_idx_first with b (2 ^ k); try done; [congruence| |].
  - rewrite bar_match_covers by eauto. unfold bar_covers.
    rewrite (proj2 (Z.eqb_neq (2 ^ k) 0)) by lia. rewrite Z.mod_small by lia. lia.
  - intros. rewrite bar_match_covers by eauto. eauto.
Qed.

(** The selection of the callback: the offset in the BAR, up to the two low
    bits, which the byte enables carry. *)
Lemma in_bar_select (pkt : list Z) (kinds : list Z) (cfg : Z) (cbs : list ptr) (cfg_cb : ptr) :
  is_kind pkt kinds = true -> tlp_req_get_addr pkt = addr - addr mod 4 ->
  select_cb cl pkt kinds cfg cbs cfg_cb =
  (default NULL (cbs !! i), (addr - addr mod 4) mod 2 ^ k).
Proof.
  intros Hk Ha. unfold select_cb. rewrite Hk, Ha, in_bar_idx.
  rewrite (proj2 (Z.eqb_neq _ _)) by lia. simpl. rewrite Nat2Z.id.
  destruct H as [_ _ -> Hk' _ _]. simpl. by rewrite land_pow2_pred by lia.
Qed.
End InBar.
