(* ===== verification/Sim.v ===== *)
(** * A concrete environment

    An operating system and an application on which the programs run: sockets
    with a segmented input and a recorded output, callbacks that record their
    calls.  It satisfies the laws of [World] and [Logic], so the theorems that
    assume those laws apply to it; the examples of the development run on it. *)

From S2P Require Import Prelude Layout Proto Crc World Client Logic Bars.

(** ** Operating system *)

Record sim_os := mk_sim {
  inbox : gmap Z (list (list Z));   (** segments that wait to be received *)
  outbox : gmap Z (list Z);         (** bytes sent *)
  broken : gset Z;                  (** descriptors on which [send] fails *)
  junk : Z;                         (** contents of fresh memory *)
}.

Definition to_byte (z : Z) : Z := u8 z.

(** At most [n] bytes of the first non-empty segment, and what is left. *)
Fixpoint next_segment (n : nat) (segs : list (list Z)) : list Z * list (list Z) :=
  match segs with
  | [] => ([], [])
  | [] :: segs => next_segment n segs
  | seg :: segs => (take n seg, drop n seg :: segs)
  end.

Definition segments (f : Z) (o : sim_os) : list (list Z) := default [] (inbox o !! f).
Definition written (f : Z) (o : sim_os) : list Z := default [] (outbox o !! f).

#[export] Instance sim_io : SocketIO sim_os := {|
  sys_recv f n o :=
    if n <? 0 then (RecvError EOTHER, o)
    else let '(bs, segs) := next_segment (Z.to_nat n) (segments f o) in
         (Received (to_byte <$> bs), mk_sim (<[f := segs]> (inbox o)) (outbox o) (broken o) (junk o));
  sys_send f bs o :=
    if decide (f ∈ broken o) then (-1, o)
    else (Z.of_nat (length bs),
          mk_sim (inbox o) (<[f := written f o ++ bs]> (outbox o)) (broken o) (junk o));
  sys_malloc n o := (Some (replicate (Z.to_nat n) (u8 (junk o))), o);
|}.

#[export] Instance sim_streams : SocketStreams sim_os := {|
  pending f o := to_byte <$> concat (segments f o);
  sent := written;
|}.

Lemma next_segment_spec (n : nat) (segs : list (list Z)) :
  let '(bs, segs') := next_segment n segs in
  concat segs = bs ++ concat segs' /\ (length bs <= n)%nat /\
  ((0 < n)%nat -> concat segs <> [] -> bs <> []).
Proof.
  induction segs as [|[|x seg] segs IH]; simpl; [by split_and!; try lia|done|].
  split_and!.
  - rewrite app_assoc, take_drop. done.
  - rewrite length_take. lia.
  - intros Hn _. by destruct n; [lia|].
Qed.

Lemma sim_recv (f n : Z) (o : sim_os) :
  0 <= n -> exists bs o', sys_recv f n o = (Received bs, o') /\
    pending f o = bs ++ pending f o' /\ Z.of_nat (length bs) <= n /\ bytes_ok bs /\
    (0 < n -> pending f o <> [] -> bs <> []).
Proof.
  intros Hn. simpl. rewrite (proj2 (Z.ltb_ge _ _)) by lia.
  pose proof (next_segment_spec (Z.to_nat n) (segments f o)) as H.
  destruct (next_segment _ _) as [bs segs]. destruct H as (H1 & H2 & H3).
  eexists _, _. split; [done|]. simpl. unfold segments at 2. simpl. rewrite lookup_insert_eq. simpl.
  rewrite H1, fmap_app, length_fmap. split_and!; [done|lia| |].
  - apply Forall_fmap. apply Forall_true. intros. apply u8_byte_ok.
  - intros ? Hne Hb%fmap_nil_inv. apply H3; [lia| |done].
    rewrite H1. intros E. apply Hne. by rewrite <-fmap_app, E.
Qed.

#[export] Instance sim_socket_laws : SocketLaws sim_os.
Proof.
  constructor.
  - intros f n o bs o' E. destruct (Z.ltb_spec n 0).
    + simpl in E. by rewrite (proj2 (Z.ltb_lt _ _)) in E.
    + destruct (sim_recv f n o) as (bs' & o'' & E' & ? & ? & ? & ?); [done|].
      rewrite E in E'. by simplify_eq.
  - intros f bs o n o' E. simpl in E. case_decide; simplify_eq; lia.
  - intros n o bs o' Hn E. simpl in E. simplify_eq. rewrite length_replicate. split; [done|].
    apply Forall_replicate, u8_byte_ok.
Qed.

#[export] Instance sim_stream_laws : StreamLaws sim_os.
Proof.
  constructor.
  1,2: intros f n o bs o' E; destruct (Z.ltb_spec n 0);
    [simpl in E; by rewrite (proj2 (Z.ltb_lt _ _)) in E
    |destruct (sim_recv f n o) as (bs' & o'' & E' & ? & ? & ? & ?); [done|]; rewrite E in E'; by simplify_eq].
  - intros f n o Hn Hp. destruct (sim_recv f n o) as (bs & o' & ? & ? & ? & ? & ?); [lia|]. eauto 10.
  - intros f g n o r o' E. simpl in E. destruct (n <? 0); [by simplify_eq|].
    destruct (next_segment _ _). by simplify_eq.
  - intros f bs o k o' E Hk. simpl in *. case_decide; simplify_eq; [lia|]. unfold written at 1. simpl.
    rewrite lookup_insert_eq. simpl. by rewrite Nat2Z.id, firstn_all.
  - intros f g bs o k o' E. simpl in *. by case_decide; simplify_eq.
  - intros g n o m o' E. simpl in E. by simplify_eq.
Qed.

Lemma sim_malloc_succeeds : malloc_succeeds sim_os.
Proof. intros n o Hn. by eexists _, _. Qed.

(** ** Application *)

Inductive event :=
  | ReadCalled (cb addr len : Z)
  | WriteCalled (cb addr : Z) (data : list Z)
  | Completed (cb status : Z) (data : list Z)
  | Accepted (cb client : Z).

(** Read callbacks with addresses from 900 on fail; the others return the bytes
    [addr], [addr + 1], ... *)
#[export] Instance sim_callbacks : Callbacks sim_os (list event) := {|
  call_read_cb cb addr len _ := fun w =>
    Ret (if 900 <=? cb then (1, []) else (0, (fun i => u8 (addr + i)) <$> seqZ 0 len))
      (mk_world _ _ (w_os w) (w_server w) (w_clients w) (w_app w ++ [ReadCalled cb addr len]) (w_static w));
  call_write_cb cb addr data len _ := fun w =>
    Ret tt (mk_world _ _ (w_os w) (w_server w) (w_clients w)
              (w_app w ++ [WriteCalled cb addr (take (Z.to_nat len) data)]) (w_static w));
  call_completion_cb cb status data len _ := fun w =>
    Ret tt (mk_world _ _ (w_os w) (w_server w) (w_clients w)
              (w_app w ++ [Completed cb status (take (Z.to_nat len) data)]) (w_static w));
|}.

(** A process with one client whose socket delivers [segs]. *)
Definition sim_world (segs : list (list Z)) : world sim_os (list event) :=
  mk_world _ _ (mk_sim {[3 := segs]} ∅ ∅ 0xa5) (w_server example_world) {[7 := example_client]} [] (w_static example_world).
