(* ===== verification/ClientSpec.v ===== *)
(** * What the client operations do

    The effect of every operation of [Client], one branch at a time, in terms
    of the packets of [Wire]. *)

From S2P Require Import Prelude Layout Proto Crc World Client Wire Logic Bars.

Section Spec.
Context {os app : Type} `{!SocketIO os} `{!Callbacks os app}.
#[local] Abbreviation W := (world os app).
Implicit Types (w : W) (c : ptr) (cl : warppipe_client).

(** ** Sending *)

(** The contract of a transmission: [bs] is handed to [send] once; unless all
    of it is accepted the connection is marked for removal. *)
Definition transmit (c : ptr) (cl : warppipe_client) (bs : list Z) : M W Z := fun w =>
  let '(k, o) := sys_send (fd cl) bs (w_os w) in
  if k =? Z.of_nat (length bs)
  then Ret k (with_os o (upd c cl w))
  else Ret (-1) (with_os o (upd c (set_active false cl) w)).

Lemma send_packet_transmit c cl w (n : Z) (tport : list Z) :
  w_clients w !! c = Some cl -> 0 <= n <= Z.of_nat (length tport) ->
  send_packet c n tport w = transmit c cl (take (Z.to_nat n) tport) w.
Proof.
  intros Hc Hn. unfold send_packet, transmit.
  destruct (sys_send _ _ _) as [k o] eqn:E. run.
  rewrite length_take. replace (Z.of_nat _) with n by lia.
  destruct (Z.eqb_spec k n); simpl.
  - by rewrite upd_id.
  - run. by rewrite upd_with_os.
Qed.

Lemma send_tlp c cl w (tport : list Z) :
  w_clients w !! c = Some cl -> seqno cl <> INT_MAX ->
  tport.[t_proto] = PCIE_PROTO_TLP -> tport_ok tport ->
  client_send_pcie_transport c tport w =
  transmit c (set_seqno (seqno cl + 1) cl) (transmitted (seqno cl + 1) tport) w.
Proof.
  intros Hc Hs Hp Hok. pose proof (tport_total _ Hok). pose proof (tport_length _ Hok).
  unfold client_send_pcie_transport. rewrite Hp. simpl (_ =? _). cbv iota.
  run. rewrite (proj2 (Z.eqb_neq _ _) Hs). run.
  set (t1 := at_off t_tlp (stamp_seqno _) tport).
  assert (length t1 = length tport) as Hl
    by (unfold t1; apply length_at_off; intros; by autorewrite with wp_len).
  assert (lcrc_offset (drop t_tlp t1) = Z.to_nat (2 + tlp_total_length (tport_tlp tport))) as Ho.
  { unfold t1. rewrite drop_at_off by (unfold t_tlp; lia). unfold lcrc_offset, dl_tlp.
    rewrite drop_stamp_seqno, drop_drop. done. }
  rewrite Ho, Hl. unfold t_tlp at 1.
  rewrite (proj2 (Nat.ltb_ge _ _)) by lia.
  change (at_off t_tlp pcie_lcrc32 t1) with (stamped (seqno cl + 1) tport).
  change (drop (t_tlp + dl_tlp) (stamped (seqno cl + 1) tport))
    with (tport_tlp (stamped (seqno cl + 1) tport)).
  rewrite stamped_total by done.
  erewrite send_packet_transmit; [|apply lookup_upd|].
  - unfold transmit, transmitted, packet_length. simpl. by rewrite !upd_upd.
  - rewrite stamped_length. destruct Hok as [_ Hr]. unfold packet_length, sizeof_dllp in *. lia.
Qed.

Lemma send_dllp c cl w (tport : list Z) :
  w_clients w !! c = Some cl -> tport.[t_proto] = PCIE_PROTO_DLLP -> (7 <= length tport)%nat ->
  client_send_pcie_transport c tport w = transmit c cl (transmitted_dllp tport) w.
Proof.
  intros Hc Hp Hl. unfold client_send_pcie_transport. rewrite Hp. simpl (_ =? _). cbv iota.
  rewrite (proj2 (Nat.ltb_ge _ _)) by (unfold t_tlp; lia).
  rewrite (send_packet_transmit _ cl); [done..|].
  rewrite length_at_off by (intros; by autorewrite with wp_len). unfold sizeof_dllp. lia.
Qed.

Lemma transmit_shape c cl bs w :
  exists (k : Z) (o : os) (b : bool),
    transmit c cl bs w = Ret k (with_os o (upd c (set_active b cl) w)) /\
    (b = active cl \/ b = false /\ k = -1).
Proof.
  unfold transmit. destruct (sys_send _ _ _) as [k o]. case_goal.
  - exists k, o, (active cl). split; [|by left]. by destruct cl.
  - exists (-1), o, false. auto.
Qed.

Lemma ack_transmit c cl w (type s : Z) :
  w_clients w !! c = Some cl ->
  warppipe_ack c type s w =
  bind (transmit c cl (transmitted_dllp (acknak_packet type s)))
    (fun n => if n =? -1 then ret (-1) else ret 0) w.
Proof.
  intros Hc. unfold warppipe_ack, bind. by rewrite (send_dllp c cl) by (done || rewrite acknak_length; lia).
Qed.

Lemma ack_shape c cl w (type s : Z) :
  w_clients w !! c = Some cl ->
  exists (r : Z) (o : os) (b : bool),
    warppipe_ack c type s w = Ret r (with_os o (upd c (set_active b cl) w)) /\
    ((r = 0 /\ b = active cl) \/ (r = -1 /\ b = false)) /\
    (exists k, sys_send (fd cl) (transmitted_dllp (acknak_packet type s)) (w_os w) = (k, o) /\
       (r = 0 <-> k = 7)).
Proof.
  intros Hc. rewrite (ack_transmit c cl) by done. unfold transmit, bind.
  rewrite transmitted_acknak_length.
  destruct (sys_send _ _ _) as [k o] eqn:E. destruct (Z.eqb_spec k (Z.of_nat 7)) as [->|Hk].
  - exists 0, o, (active cl). split_and!; [by destruct cl|by left|]. by exists 7.
  - exists (-1), o, false. split_and!; [done|by right|]. exists k. by split.
Qed.

(** ** Receiving a complete packet *)

(** The receive buffer starts with the transmitted packet. *)
Definition holds (cl : warppipe_client) (bs : list Z) : Prop := take (length bs) (buf cl) = bs.

Section Received.
Context (cl : warppipe_client) (s : Z) (tport : list Z).
Context (Hok : tport_ok tport) (Hbuf : holds cl (transmitted s tport)).
#[local] Abbreviation total := (tlp_total_length (tport_tlp tport)).

Lemma received_agree : agree (Z.to_nat (7 + total)) (buf cl) (stamped s tport).
Proof.
  pose proof (transmitted_length s _ Hok) as Hl. pose proof (tport_total _ Hok).
  unfold packet_length, sizeof_dllp in Hl.
  apply agree_prefix. unfold holds in Hbuf.
  replace (length (transmitted s tport)) with (Z.to_nat (7 + total)) in Hbuf by lia.
  rewrite Hbuf. done.
Qed.

Lemma received_length : (Z.to_nat (7 + total) <= length (buf cl))%nat.
Proof.
  pose proof (transmitted_length s _ Hok) as Hl. pose proof (tport_total _ Hok).
  unfold packet_length, sizeof_dllp in Hl. unfold holds in Hbuf.
  apply (f_equal length) in Hbuf. rewrite length_take in Hbuf. lia.
Qed.

Lemma received_tlp : agree (Z.to_nat total) (buffered_tlp cl) (tport_tlp tport).
Proof.
  pose proof (tport_total _ Hok). eapply agree_trans; [|by apply (stamped_tlp_agree s)].
  apply (agree_drop _ 3). eapply agree_le; [|apply received_agree]. lia.
Qed.

Lemma received_valid : pcie_lcrc32_valid (drop t_tlp (buf cl)) = true.
Proof.
  pose proof (tport_total _ Hok). pose proof (tport_length _ Hok). pose proof received_length.
  pose proof (stamped_lcrc_offset_dltlp s _ Hok) as Ho.
  rewrite <-(stamped_valid s tport Hok). symmetry.
  apply agree_lcrc32_valid; rewrite ?Ho; unfold tport_dltlp, t_tlp;
    rewrite ?length_drop, ?stamped_length; try lia.
  apply (agree_drop _ 1). apply agree_sym. eapply agree_le; [|apply received_agree]. lia.
Qed.

Lemma received_seqno :
  Z.lor (Z.shiftl ((drop t_tlp (buf cl)).[dltlp_seqno_hi]) 8)
    ((drop t_tlp (buf cl)).[dltlp_seqno_lo]) = s mod 4096.
Proof.
  pose proof (tport_total _ Hok). rewrite <-(stamped_seqno s tport Hok).
  assert (agree 2 (drop t_tlp (buf cl)) (tport_dltlp (stamped s tport))) as Ha.
  { apply (agree_drop _ 1). eapply agree_le; [|apply received_agree]. lia. }
  by rewrite !(agree_get _ _ _ _ Ha) by (simpl; lia).
Qed.

(** A packet that arrives as it was sent is acknowledged and handled. *)
Lemma receive_tlp_valid c w :
  w_clients w !! c = Some cl ->
  receive_tlp c w =
  bind (warppipe_ack c PCIE_DLLP_ACK (s mod 4096)) (fun _ => handle_tlp c (buffered_tlp cl)) w.
Proof.
  intros Hc. unfold receive_tlp. run. rewrite received_valid, received_seqno.
  rewrite (wrap_small 16) by (pose proof (Z.mod_pos_bound s 4096); lia).
  rewrite drop_drop. done.
Qed.
End Received.

(** ** Requests *)

(** Where a request for [addr] goes: the callback, and the address the
    callback is given. *)
Inductive routes (cl : warppipe_client) (type addr : Z) (cb : ptr) : Z -> Prop :=
  | route_bar i b k :
      type = PCIE_TLP_MRD64 \/ type = PCIE_TLP_MWR64 ->
      in_bar cl i b k addr ->
      (if has_data type then bar_write_cb cl else bar_read_cb cl) !! i = Some cb ->
      routes cl type addr cb (addr - b)
  | route_cfg :
      type = PCIE_TLP_CR0 \/ type = PCIE_TLP_CW0 ->
      0 <= addr < 2 ^ 32 ->
      (if has_data type then cfg0_write_cb cl else cfg0_read_cb cl) = cb ->
      routes cl type addr cb addr.

Lemma routes_addr cl type addr cb off : routes cl type addr cb off -> 0 <= addr < 2 ^ 32.
Proof.
  intros [i b k _ Hin _|? Hr _]; [|done].
  destruct (in_bar_aligned _ _ _ _ _ Hin) as (? & _ & ?). destruct Hin. lia.
Qed.

Lemma is_32bit_small (addr : Z) : 0 <= addr < 2 ^ 32 -> is_32bit addr = true.
Proof.
  intros. unfold is_32bit. rewrite align4_spec by lia. pose proof (Z.mod_pos_bound addr 4). lia.
Qed.

Lemma routes_request cl type addr cb off : routes cl type addr cb off -> is_request type addr.
Proof.
  intros Hr. pose proof (is_32bit_small _ (routes_addr _ _ _ _ _ Hr)).
  destruct Hr as [? ? ? [-> | ->] _ _|[-> | ->] _ _]; unfold is_request; auto.
Qed.

(** The switch of the request handlers finds the route. *)
Lemma routes_select cl type addr cb off pkt len :
  routes cl type addr cb off -> decodes pkt type addr len ->
  exists addr',
    (if has_data type
     then select_cb cl pkt [PCIE_TLP_IOWR; PCIE_TLP_MWR32; PCIE_TLP_MWR64] PCIE_TLP_CW0
            (bar_write_cb cl) (cfg0_write_cb cl)
     else select_cb cl pkt [PCIE_TLP_IORD; PCIE_TLP_MRD32; PCIE_TLP_MRD64] PCIE_TLP_CR0
            (bar_read_cb cl) (cfg0_read_cb cl)) = (cb, addr') /\
    u64 (addr' + first_be_offset pkt) = off.
Proof.
  intros Hr Hd. pose proof (routes_addr _ _ _ _ _ Hr) as Ha.
  pose proof (is_32bit_small _ Ha) as H32. destruct Hd as [Hkind _ _ _ Haddr -> _ _].
  destruct Hr as [i b k Ht Hin Hcb|Ht _ Hcb].
  - exists ((addr - addr mod 4) mod 2 ^ k). destruct (in_bar_dword _ _ _ _ _ Hin) as (_ & _ & E).
    split; [|destruct (in_bar_aligned _ _ _ _ _ Hin) as (? & _ & _), Hin; rewrite E; apply wrap_small; lia].
    unfold wire_kind in Hkind. rewrite H32 in Hkind.
    destruct Ht as [-> | ->]; simpl in Hcb, Hkind |- *;
      rewrite (in_bar_select _ _ _ _ _ Hin) by (done || unfold is_kind; rewrite Hkind; done);
      by rewrite Hcb.
  - exists (addr - addr mod 4). split; [|pose proof (Z.mod_pos_bound addr 4); rewrite wrap_small by lia; lia].
    destruct Ht as [-> | ->]; simpl in Hcb, Hkind |- *; unfold select_cb, is_kind; rewrite Hkind; simpl;
      by rewrite Haddr, Hcb.
Qed.

Lemma decodes_handler type addr pkt len :
  decodes pkt type addr len -> is_request type addr ->
  forall c w, handle_tlp c pkt w =
    if has_data type then handle_memory_write_request c pkt w else handle_memory_read_request c pkt w.
Proof.
  intros [Hkind _ _ _ _ _ _ _] Ht c w. unfold handle_tlp, is_kind. rewrite Hkind.
  destruct Ht as [->|[->|[[->| ->] _]]]; unfold wire_kind; simpl; try done; by destruct (is_32bit addr).
Qed.

(** A write request ends in the callback it is routed to, with the address,
    length and payload of the request. *)
Lemma handle_write c cl w type addr cb off pkt len :
  w_clients w !! c = Some cl -> routes cl type addr cb off -> has_data type = true -> cb <> NULL ->
  decodes pkt type addr len ->
  handle_tlp c pkt w =
  call_write_cb cb off (drop (12 + Z.to_nat (addr mod 4)) pkt) len (private_data cl) w.
Proof.
  intros Hc Hr Hw Hcb Hd. pose proof (is_32bit_small _ (routes_addr _ _ _ _ _ Hr)) as H32.
  rewrite (decodes_handler _ _ _ _ Hd (routes_request _ _ _ _ _ Hr)), Hw.
  destruct (routes_select _ _ _ _ _ _ _ Hr Hd) as (addr' & Hsel & Hoff). rewrite Hw in Hsel.
  unfold handle_memory_write_request. run. rewrite Hsel.
  rewrite (proj2 (Z.eqb_neq _ _) Hcb). destruct Hd as [_ _ -> _ _ Hbe -> _].
  rewrite H32, Hoff, Hbe. done.
Qed.

Lemma handle_read c cl w type addr cb off pkt len m o :
  w_clients w !! c = Some cl -> routes cl type addr cb off -> has_data type = false -> cb <> NULL ->
  decodes pkt type addr len ->
  sys_malloc (sizeof_transport + tlp_data_length pkt * 4) (w_os w) = (Some m, o) ->
  handle_tlp c pkt w =
  bind (call_read_cb cb off len (private_data cl)) (fun r =>
    if (Z.to_nat (8 + tlp_data_length pkt * 4) <? length r.2)%nat then undefined
    else bind (client_send_pcie_transport c (completion_tport pkt r.2 r.1)) (fun _ => ret tt))
    (with_os o w).
Proof.
  intros Hc Hr Hw Hcb Hd Hm.
  rewrite (decodes_handler _ _ _ _ Hd (routes_request _ _ _ _ _ Hr)), Hw.
  destruct (routes_select _ _ _ _ _ _ _ Hr Hd) as (addr' & Hsel & Hoff). rewrite Hw in Hsel.
  unfold handle_memory_read_request. run. rewrite Hsel.
  rewrite (proj2 (Z.eqb_neq _ _) Hcb). run. rewrite Hoff.
  rewrite (dec_bytes _ _ _ _ Hd). apply bind_ext. intros [err bs] w'. cbn [fst snd].
  rewrite length_at_off by (intros; unfold completion_header; by autorewrite with wp_len).
  rewrite length_set, length_replicate. pose proof (tlp_data_length_range pkt).
  replace (Z.to_nat (8 + tlp_data_length pkt * 4) <? length bs)%nat
    with (Z.to_nat (sizeof_transport + tlp_data_length pkt * 4) <? t_tlp + dl_tlp + c_data + length bs)%nat;
    [done|].
  unfold sizeof_transport, t_tlp, dl_tlp, c_data.
  apply eq_true_iff_eq. rewrite !Nat.ltb_lt. lia.
Qed.
(** [warppipe_write_imp] fills the memory that [malloc] returned and sends it. *)
Lemma write_imp_run c w addr data len type mem o :
  sys_malloc (write_size addr len) (w_os w) = (Some mem, o) ->
  length mem = Z.to_nat (write_size addr len) ->
  0 <= addr < 2 ^ 64 -> 0 < len -> len + addr mod 4 <= 4096 -> (Z.to_nat len <= length data)%nat ->
  is_request type addr -> has_data type = true ->
  warppipe_write_imp c addr data len type w =
  bind (client_send_pcie_transport c (write_tport mem addr data len type))
    (fun rc => ret (if 0 <? rc then 0 else rc)) (with_os o w).
Proof.
  intros Hm Hlen Ha Hl Hmax Hd Hreq Ht.
  pose proof (write_dwords mem addr data len Hlen Hl Hd) as Hdw.
  pose proof (write_mem_length mem addr data len Hlen Hl Hmax Hd) as Hml.
  unfold warppipe_write_imp. run.
  rewrite (write_payload_offset mem addr data), write_request_length, Hml, land_3 by done.
  rewrite (proj2 (Z.ltb_ge len 0)), (proj2 (Nat.ltb_ge (length data) _)), (proj2 (Nat.ltb_ge _ _));
    [|unfold header_bytes; destruct (is_32bit addr); lia|lia..]. simpl (_ || _).
  unfold write_tport. by rewrite (write_payload_offset mem addr data), land_3 by done.
Qed.
End Spec.
