(* ===== verification/Receive.v ===== *)
(** * Receiving packets

    [warppipe_client_read] takes packets off a byte stream: how the stream was
    cut into segments does not matter past the seven bytes of the header, the
    loop ends, and every malformed header has its defined outcome. *)

From S2P Require Import Prelude Layout Proto Crc World Client Wire Logic Bars Sim ClientSpec.

Section Receive.
Context {os app : Type} `{!SocketIO os} `{!Callbacks os app}.
#[local] Abbreviation W := (world os app).
Implicit Types (w : W) (c : ptr) (cl : warppipe_client).

(** [cl] with [bs] stored at [off] of its buffer. *)
Definition filled (off : nat) (bs : list Z) (cl : warppipe_client) : warppipe_client :=
  set_buf (wr_bytes off bs (buf cl)) cl.

Lemma recv_store_bind {A} c cl w off bs (k : unit -> M W A) :
  w_clients w !! c = Some cl -> (off + length bs <= length (buf cl))%nat ->
  bind (recv_store c off bs) k w = k tt (upd c (filled off bs cl) w).
Proof.
  intros Hc Hl. apply bind_Ret. unfold recv_store. run.
  rewrite (proj2 (Nat.ltb_ge _ _)) by done. by apply run_store with cl.
Qed.

(** ** Streams *)
Context `{!SocketStreams os} `{!StreamLaws os}.

(** Whatever the segments, the loop stores the next [total - len] bytes of the
    stream behind the [len] received before. *)
Lemma recv_loop_stream fuel c cl len total w (bs rest : list Z) :
  w_clients w !! c = Some cl -> 0 <= len ->
  Z.of_nat (length bs) = total - len -> (length bs <= fuel)%nat ->
  (Z.to_nat len + length bs <= length (buf cl))%nat -> pending (fd cl) (w_os w) = bs ++ rest ->
  exists o, recv_loop fuel c len total w = Ret true (with_os o (upd c (filled (Z.to_nat len) bs cl) w)) /\
    pending (fd cl) o = rest /\ (forall g, sent g o = sent g (w_os w)) /\ io_steps (w_os w) o.
Proof.
  revert cl len w bs. induction fuel as [|fuel IH]; intros cl len w bs Hc Hlen Hbs Hf Hb Hp.
  { destruct bs; simpl in *; [|lia]. exists (w_os w). rewrite (proj2 (Z.ltb_ge _ _)) by lia.
    unfold filled. split_and!; [|done..]. simpl. rewrite upd_id; [by rewrite with_os_id|]. by destruct cl. }
  simpl. destruct (Z.ltb_spec len total) as [Hl|Hl].
  2: { destruct bs; simpl in *; [|lia]. exists (w_os w). unfold filled. split_and!; [|done..].
       simpl. rewrite upd_id; [by rewrite with_os_id|]. by destruct cl. }
  destruct (recv_progress (fd cl) (total - len) (w_os w)) as (b1 & o & Hr & Hne);
    [lia|destruct bs; simpl in *; [lia|]; by rewrite Hp|].
  pose proof (recv_stream _ _ _ _ _ Hr) as Hs. pose proof (recv_atmost _ _ _ _ _ Hr) as Hm.
  rewrite Hp in Hs.
  assert (exists b2, bs = b1 ++ b2 /\ pending (fd cl) o = b2 ++ rest) as (b2 & -> & Hp').
  { exists (drop (length b1) bs).
    apply (f_equal (take (length b1))) in Hs as Ht. apply (f_equal (drop (length b1))) in Hs as Hd.
    rewrite take_app_le, take_app_length in Ht by lia. rewrite drop_app_le, drop_app_length in Hd by lia.
    split; [|done]. rewrite <-Ht at 1. by rewrite take_drop. }
  rewrite length_app in Hbs, Hf, Hb.
  run. destruct b1 as [|x b1]; [done|].
  rewrite (recv_store_bind c cl) by (done || lia). simpl length in Hbs, Hf, Hb |- *.
  destruct (IH (filled (Z.to_nat len) (x :: b1) cl) (len + Z.of_nat (S (length b1)))
    (upd c (filled (Z.to_nat len) (x :: b1) cl) (with_os o w)) b2) as (o' & Ho' & Hp'' & Hs'' & Hio);
    [apply lookup_upd|lia..| |exact Hp'|].
  { unfold filled. simpl. rewrite length_wr_bytes. lia. }
  exists o'. split_and!; [|exact Hp''|intros g; rewrite Hs''; by eapply recv_sent|eauto with io].
  unfold filled in *. rewrite Ho', upd_upd, upd_with_os, with_os_with_os.
  rewrite <-(wr_bytes_app _ (x :: b1)).
  by replace (Z.to_nat (len + Z.of_nat (S (length b1))))
    with (Z.to_nat len + length (x :: b1))%nat by (simpl; lia).
Qed.

Lemma filled_holds bs cl : (length bs <= length (buf cl))%nat -> holds (filled 0 bs cl) bs.
Proof.
  intros Hl. unfold holds, filled. simpl. rewrite wr_bytes_split by lia. simpl.
  by rewrite take_app_length.
Qed.

Lemma filled_filled bs1 bs2 cl :
  filled (length bs1) bs2 (filled 0 bs1 cl) = filled 0 (bs1 ++ bs2) cl.
Proof. unfold filled. by rewrite <-(wr_bytes_app 0 bs1 bs2). Qed.

(** The header of the next packet arrives in one piece. *)
Definition header_whole (f : Z) (o : os) : Prop :=
  exists hdr o', sys_recv f (1 + sizeof_dllp) o = (Received hdr, o') /\ length hdr = 7%nat.

Lemma header_whole_stream f o (p rest : list Z) :
  header_whole f o -> pending f o = p ++ rest -> (7 <= length p)%nat ->
  exists o', sys_recv f (1 + sizeof_dllp) o = (Received (take 7 p), o') /\
    pending f o' = drop 7 p ++ rest /\ (forall g, sent g o' = sent g o) /\ io_steps o o'.
Proof.
  intros (hdr & o' & Hr & Hl) Hp H7. pose proof (recv_stream _ _ _ _ _ Hr) as Hs. rewrite Hp in Hs.
  exists o'. apply (f_equal (take 7)) in Hs as Ht. apply (f_equal (drop 7)) in Hs as Hd.
  rewrite take_app_le, take_app_length' in Ht by lia.
  rewrite drop_app_le, drop_app_length' in Hd by lia. rewrite Ht.
  split_and!; [done..|intros g; by eapply recv_sent|eauto with io].
Qed.

(** The head of [warppipe_client_read] on a TLP header. *)
Lemma client_read_header c cl w hdr o :
  w_clients w !! c = Some cl -> (7 <= length (buf cl))%nat ->
  sys_recv (fd cl) (1 + sizeof_dllp) (w_os w) = (Received hdr, o) -> length hdr = 7%nat ->
  let cl' := filled 0 hdr cl in
  let total := tlp_total_length (buffered_tlp cl') in
  (buf cl').[t_proto] = PCIE_PROTO_TLP -> 0 <= total ->
  warppipe_client_read c w =
  (if negb (total + 7 <=? CLIENT_BUFFER_SIZE) then abort
   else bind (recv_loop (Z.to_nat (total + 7)) c 7 (total + 7))
          (fun complete => if complete then receive_tlp c else ret tt))
    (with_os o (upd c cl' w)).
Proof.
  intros Hc Hb Hr Hl cl' total Hp Ht. unfold warppipe_client_read. run.
  rewrite (recv_store_bind c cl) by (done || lia). fold cl'. rewrite Hl. simpl (negb _). cbv iota. run. rewrite Hp. simpl (_ =? _). cbv iota. fold total.
  rewrite (proj2 (Z.ltb_ge _ _)) by lia. simpl (1 + sizeof_dllp). done.
Qed.

Lemma client_read_oversized c cl w hdr o :
  w_clients w !! c = Some cl -> (7 <= length (buf cl))%nat ->
  sys_recv (fd cl) (1 + sizeof_dllp) (w_os w) = (Received hdr, o) -> length hdr = 7%nat ->
  let cl' := filled 0 hdr cl in
  (buf cl').[t_proto] = PCIE_PROTO_TLP ->
  CLIENT_BUFFER_SIZE < tlp_total_length (buffered_tlp cl') + 7 ->
  warppipe_client_read c w = Aborted (with_os o (upd c cl' w)).
Proof.
  intros Hc Hb Hr Hl cl' Hp Ht. change CLIENT_BUFFER_SIZE with 4117 in Ht.
  rewrite (client_read_header c cl w hdr o) by (done || fold cl'; lia). fold cl'.
  rewrite (proj2 (Z.leb_gt _ _)); [done|]. change CLIENT_BUFFER_SIZE with 4117. lia.
Qed.

(** The header alone determines the packet's length and protocol. *)
Lemma received_header cl s tport :
  tport_ok tport -> (7 <= length (buf cl))%nat ->
  let cl' := filled 0 (take 7 (transmitted s tport)) cl in
  agree 7 (buf cl') (stamped s tport) /\
  tlp_total_length (buffered_tlp cl') = tlp_total_length (tport_tlp tport) /\
  (buf cl').[t_proto] = tport.[t_proto].
Proof.
  intros Hok Hb cl'. pose proof (tport_total _ Hok). pose proof (transmitted_length s _ Hok) as Hl.
  unfold packet_length, sizeof_dllp in Hl.
  assert (agree 7 (buf cl') (stamped s tport)) as Ha.
  { intros i Hi. unfold cl', filled. simpl. rewrite rd_wr_bytes_in; rewrite ?length_take; try lia.
    rewrite Nat.sub_0_r, rd_take by lia. unfold transmitted. rewrite rd_take; [done|].
    unfold packet_length, sizeof_dllp. lia. }
  split_and!; [done| |].
  - rewrite <-(stamped_total s) by done. apply agree_total_length, (agree_drop 4 3), Ha.
  - rewrite (agree_get 7 _ _ _ Ha) by (simpl; lia). by rewrite stamped_proto.
Qed.

(** Framing: a transmitted packet at the head of the stream is taken off it
    exactly, stored in the buffer, and handled as a received TLP. *)
Lemma client_read_packet c cl w s tport rest :
  w_clients w !! c = Some cl -> length (buf cl) = Z.to_nat CLIENT_BUFFER_SIZE ->
  tport_ok tport -> tport.[t_proto] = PCIE_PROTO_TLP -> packet_length tport <= CLIENT_BUFFER_SIZE ->
  pending (fd cl) (w_os w) = transmitted s tport ++ rest -> header_whole (fd cl) (w_os w) ->
  exists o, pending (fd cl) o = rest /\ (forall g, sent g o = sent g (w_os w)) /\ io_steps (w_os w) o /\
    warppipe_client_read c w =
    receive_tlp c (with_os o (upd c (filled 0 (transmitted s tport) cl) w)).
Proof.
  intros Hc Hb Hok Hp Hmax Hpend Hw. pose proof (tport_total _ Hok) as Ht.
  pose proof (transmitted_length s _ Hok) as Hl. set (P := transmitted s tport) in *.
  change CLIENT_BUFFER_SIZE with 4117 in *. unfold packet_length, sizeof_dllp in Hmax, Hl.
  destruct (header_whole_stream _ _ _ _ Hw Hpend) as (o & Hr & Hpend' & Hsent & Hio); [lia|].
  destruct (received_header cl s tport) as (Ha & Htot & Hproto); [done|lia|]. fold P in Ha, Htot, Hproto.
  rewrite (client_read_header c cl w (take 7 P) o); try done.
  - change CLIENT_BUFFER_SIZE with 4117. rewrite Htot, (proj2 (Z.leb_le _ _)) by lia. simpl (negb _). cbv iota.
    destruct (recv_loop_stream (Z.to_nat (tlp_total_length (tport_tlp tport) + 7)) c
      (filled 0 (take 7 P) cl) 7 (tlp_total_length (tport_tlp tport) + 7)
      (with_os o (upd c (filled 0 (take 7 P) cl) w)) (drop 7 P) rest) as (o' & E & Ho' & Hs' & Hio');
      [apply lookup_upd|lia|rewrite length_drop; lia..| |done|].
    { unfold filled. simpl. rewrite length_wr_bytes, length_drop. lia. }
    exists o'. split_and!; [done|intros g; by rewrite Hs', <-Hsent|by etrans|]. unfold bind. rewrite E, upd_with_os, with_os_with_os, upd_upd.
    change (Z.to_nat 7) with 7%nat.
    assert (length (take 7 P) = 7%nat) as H7 by (rewrite length_take; lia).
    rewrite <-H7 at 1. by rewrite filled_filled, take_drop.
  - lia.
  - rewrite length_take. lia.
  - congruence.
  - rewrite Htot. lia.
Qed.

(** A DLLP changes the receive buffer only. *)
Lemma client_read_dllp c cl w hdr o :
  w_clients w !! c = Some cl -> (7 <= length (buf cl))%nat ->
  sys_recv (fd cl) (1 + sizeof_dllp) (w_os w) = (Received hdr, o) -> length hdr = 7%nat ->
  (buf (filled 0 hdr cl)).[t_proto] = PCIE_PROTO_DLLP ->
  warppipe_client_read c w = Ret tt (with_os o (upd c (filled 0 hdr cl) w)).
Proof.
  intros Hc Hb Hr H7 Hp. unfold warppipe_client_read. run. rewrite (recv_store_bind c cl) by (done || lia).
  rewrite H7. simpl (negb _). cbv iota. run.
  rewrite Hp. simpl. by destruct (pcie_crc16_valid _).
Qed.

(** ** Properties *)

(** C11. Framing: when the stream starts with a transmitted packet whose
    header arrives in one piece, [warppipe_client_read] takes exactly that
    packet off the stream, however the rest of it is segmented, and handles
    it from a buffer that holds it byte for byte. *)
Theorem client_read_takes_packet c cl w s tport rest :
  w_clients w !! c = Some cl -> length (buf cl) = Z.to_nat CLIENT_BUFFER_SIZE ->
  tport_ok tport -> tport.[t_proto] = PCIE_PROTO_TLP -> packet_length tport <= CLIENT_BUFFER_SIZE ->
  pending (fd cl) (w_os w) = transmitted s tport ++ rest -> header_whole (fd cl) (w_os w) ->
  exists o cl',
    warppipe_client_read c w = receive_tlp c (with_os o (upd c cl' w)) /\
    pending (fd cl) o = rest /\ take (length (transmitted s tport)) (buf cl') = transmitted s tport /\
    drop (length (transmitted s tport)) (buf cl') = drop (length (transmitted s tport)) (buf cl).
Proof.
  intros Hc Hb Hok Hp Hmax Hpend Hh.
  destruct (client_read_packet c cl w s tport rest) as (o & Ho & _ & _ & E); try done.
  exists o, (filled 0 (transmitted s tport) cl). pose proof (transmitted_length s _ Hok).
  split_and!; [done..| |].
  - apply filled_holds. lia.
  - unfold filled. simpl. rewrite wr_bytes_split by lia. simpl. by rewrite drop_app_length.
Qed.

(** C32. Every other header has a defined outcome.  Nothing available: nothing
    happens.  An error, the end of the stream, a short header, an unknown
    protocol or TLP format: the connection is marked for removal.  A DLLP,
    intact or not: only the receive buffer changes.  A TLP that does not fit
    the buffer (four header words and 1024 data words): the process aborts. *)
Theorem client_read_outcomes c cl w r o :
  w_clients w !! c = Some cl -> length (buf cl) = Z.to_nat CLIENT_BUFFER_SIZE ->
  sys_recv (fd cl) (1 + sizeof_dllp) (w_os w) = (r, o) ->
  match r with
  | RecvError EOTHER => warppipe_client_read c w = Ret tt (with_os o (upd c (set_active false cl) w))
  | RecvError _ => warppipe_client_read c w = Ret tt (with_os o w)
  | Received hdr =>
      let cl' := filled 0 hdr cl in
      let proto := (buf cl').[t_proto] in
      let total := tlp_total_length (buffered_tlp cl') in
      (length hdr <> 7%nat \/ (proto <> PCIE_PROTO_DLLP /\ proto <> PCIE_PROTO_TLP) \/
       (proto = PCIE_PROTO_TLP /\ total = -1) ->
       warppipe_client_read c w = Ret tt (with_os o (upd c (set_active false cl') w))) /\
      (length hdr = 7%nat -> proto = PCIE_PROTO_DLLP ->
       warppipe_client_read c w = Ret tt (with_os o (upd c cl' w))) /\
      (length hdr = 7%nat -> proto = PCIE_PROTO_TLP -> total = 4112 ->
       warppipe_client_read c w = Aborted (with_os o (upd c cl' w)))
  end.
Proof.
  intros Hc Hb Hr. change (Z.to_nat CLIENT_BUFFER_SIZE) with 4117%nat in Hb.
  destruct r as [hdr|[]]; [|unfold warppipe_client_read; by run..].
  assert (length hdr <= 7)%nat by (apply recv_atmost in Hr; unfold sizeof_dllp in Hr; lia).
  cbv zeta. split_and!.
  - intros H7. unfold warppipe_client_read. run. rewrite (recv_store_bind c cl) by (done || lia).
    destruct (Z.eqb_spec (Z.of_nat (length hdr)) (1 + sizeof_dllp)) as [H7'|]; cbn [negb]; cbv iota.
    2: { run. by rewrite upd_upd. }
    unfold sizeof_dllp in H7'. run.
    destruct H7 as [?|[[H1 H2]|[-> ->]]]; [lia| |simpl; run; by rewrite upd_upd].
    rewrite (proj2 (Z.eqb_neq _ _) H1), (proj2 (Z.eqb_neq _ _) H2). run. by rewrite upd_upd.
  - intros H7 Hp. apply client_read_dllp; try done. lia.
  - intros H7 Hp Ht. apply client_read_oversized; try done; [lia|by rewrite Ht].
Qed.

(** C33. A TLP whose CRC is wrong is answered with a NAK for its sequence
    number and otherwise ignored: no callback runs, and the client changes
    only if the NAK cannot be sent.  The seven bytes of the NAK pass the CRC check
    of whoever receives them, who decodes the twelve-bit sequence number. *)
Theorem corrupt_tlp_discarded c cl w :
  w_clients w !! c = Some cl -> pcie_lcrc32_valid (drop t_tlp (buf cl)) = false ->
  let s := u16 (Z.lor (Z.shiftl ((drop t_tlp (buf cl)).[dltlp_seqno_hi]) 8)
                      ((drop t_tlp (buf cl)).[dltlp_seqno_lo])) in
  let nak := transmitted_dllp (acknak_packet PCIE_DLLP_NAK s) in
  (exists k o act,
    sys_send (fd cl) nak (w_os w) = (k, o) /\
    receive_tlp c w = Ret tt (with_os o (upd c (set_active act cl) w)) /\
    act = if k =? 7 then active cl else false) /\
  length nak = 7%nat /\ pcie_crc16_valid (drop t_tlp nak) = true /\
  handle_dllp (drop t_tlp nak) = AckNak (s mod 4096).
Proof.
  intros Hc Hv s nak. split; [|split_and!; [done|apply acknak_valid|apply acknak_decoded; by right]].
  unfold receive_tlp. run. rewrite Hv. fold s.
  destruct (ack_shape c cl w PCIE_DLLP_NAK s) as (r & o & b & E & Hr & k & Hk & Hk7); [done|].
  exists k, o, b. unfold bind. rewrite E. split_and!; [done..|].
  destruct (Z.eqb_spec k 7); destruct Hr as [[-> ->]|[-> ->]]; intuition congruence.
Qed.

(** A completion is never matched outside the 32 tags in a defined way:
    the tag of a received completion is not checked, so one of 32 or more
    reads past the callback table; one that is not in use is dropped. *)
Lemma completion_tags c cl w pkt :
  w_clients w !! c = Some cl -> length (completion_cb cl) = 32%nat -> tlp_kind pkt = PCIE_TLP_CPLD ->
  (32 <= pkt.[c_tag] -> handle_tlp c pkt w = Undefined) /\
  (completion_cb cl !! Z.to_nat (pkt.[c_tag]) = Some NULL -> handle_tlp c pkt w = Ret tt w).
Proof.
  intros Hc Hl Hk. unfold handle_tlp, is_kind. rewrite Hk. simpl. unfold handle_completion. run. split.
  - intros Ht. case_match eqn:E; [|done]. apply lookup_lt_Some in E. unfold ptr in *. lia.
  - intros E. case_match eqn:E'; unfold ptr in *; rewrite E in E'; by simplify_eq.
Qed.
End Receive.

(** ** The properties on the concrete environment *)

Definition example_request : list Z := read_request 0 0x1013 5 PCIE_TLP_MRD64.
Definition example_packet : list Z := transmitted 1 example_request.

Lemma example_request_ok : tport_ok example_request.
Proof. apply read_request_ok; (lia || done || by left). Qed.

Lemma client_read_takes_packet_witness :
  let w := sim_world [take 7 example_packet; drop 7 example_packet ++ [1; 2]] in
  exists o cl',
    warppipe_client_read 7 w = receive_tlp 7 (with_os o (upd 7 cl' w)) /\
    pending 3 o = [1; 2] /\ take (length example_packet) (buf cl') = example_packet /\
    drop (length example_packet) (buf cl') = drop (length example_packet) (buf example_client).
Proof.
  apply (client_read_takes_packet 7 example_client
    (sim_world [take 7 example_packet; drop 7 example_packet ++ [1; 2]]) 1 example_request [1; 2]);
    first [exact example_request_ok | done | vm_compute; done | idtac].
  eexists _, _. split; [vm_compute; reflexivity|done].
Defined.

Lemma client_read_outcomes_witness :
  exists o, warppipe_client_read 7 (sim_world [[1; 2; 3]]) =
    Ret tt (with_os o (upd 7 (set_active false (filled 0 [1; 2; 3] example_client)) (sim_world [[1; 2; 3]]))).
Proof.
  eexists. apply (client_read_outcomes 7 example_client (sim_world [[1; 2; 3]]) (Received [1; 2; 3])
    (sys_recv 3 7 (w_os (sim_world [[1; 2; 3]]))).2); [done|reflexivity|reflexivity|by left].
Defined.

Lemma corrupt_tlp_discarded_witness :
  let nak := transmitted_dllp (acknak_packet PCIE_DLLP_NAK 0) in
  (exists k o act,
    sys_send 3 nak (w_os (sim_world [])) = (k, o) /\
    receive_tlp 7 (sim_world []) = Ret tt (with_os o (upd 7 (set_active act example_client) (sim_world []))) /\
    act = if k =? 7 then true else false) /\
  length nak = 7%nat /\ pcie_crc16_valid (drop t_tlp nak) = true /\ handle_dllp (drop t_tlp nak) = AckNak 0.
Proof.
  apply (corrupt_tlp_discarded 7 example_client (sim_world [])); vm_compute; reflexivity.
Defined.

Definition example_completion (tag : Z) : list Z :=
  (replicate 20 0).[tlp_fmt := 2].[tlp_type := 0x0A].[c_tag := tag].

Example completion_tags_run :
  handle_tlp 7 (example_completion 32) (sim_world []) = Undefined /\
  handle_tlp 7 (example_completion 31) (sim_world []) = Ret tt (sim_world []).
Proof.
  split.
  - by apply (completion_tags 7 example_client (sim_world []) (example_completion 32)).
  - by apply (completion_tags 7 example_client (sim_world []) (example_completion 31)).
Qed.
