(* ===== verification/EndToEnd.v ===== *)
(** * From one application to the other

    A request of one side, the packet it puts on the wire, what the other side
    makes of it, and the completion that comes back.  The two sides are two
    worlds; the packet that leaves one is the head of the stream the other
    receives, cut into any segments behind its header. *)

From S2P Require Import Prelude Layout Proto Crc World Client Wire Logic Bars ClientSpec Receive Sim.

Section EndToEnd.
Context {os app : Type} `{!SocketIO os} `{!Callbacks os app} `{!SocketStreams os}.
#[local] Abbreviation W := (world os app).
Implicit Types (w : W) (c : ptr) (cl : warppipe_client).

(** ** Both ends of a transmission *)

(** What a sender observes: all of [bs] was sent and the operation returns
    [ok] in the world [w'], or sending failed, it returns [ko] and the client
    [c] is marked for disconnection.  The operating system is used through
    the calls of a connection only. *)
Definition sends {A} (result : outcome W A) (c : ptr) (cl : warppipe_client) (bs : list Z)
    (ok ko : A) (w w' : W) : Prop :=
  (exists o, result = Ret ok (with_os o w') /\ sent (fd cl) o = sent (fd cl) (w_os w) ++ bs /\
     pending (fd cl) o = pending (fd cl) (w_os w) /\ io_steps (w_os w) o) \/
  (exists o cl', result = Ret ko (with_os o (upd c cl' w)) /\ active cl' = false /\ send_fails (fd cl) bs (w_os w) o).

(** The acknowledgement of the packet with sequence number [s] went out, or
    that failed and the client was marked for disconnection. *)
Definition acked (cl : warppipe_client) (s : Z) (o o' : os) (act : bool) : Prop :=
  let ack := transmitted_dllp (acknak_packet PCIE_DLLP_ACK (s mod 4096)) in
  io_steps o o' /\
  ((act = active cl /\ sent (fd cl) o' = sent (fd cl) o ++ ack) \/
   (act = false /\ send_fails (fd cl) ack o o')).

(** The client at [c] is about to receive [packet], then [rest].  The header of the
    packet arrives in one piece: [warppipe_client_read] takes a shorter [recv] for the
    end of the connection ([client_read_outcomes]). *)
Record receiving (c : ptr) (cl : warppipe_client) (w : W) (packet rest : list Z) : Prop := {
  rcv_client : w_clients w !! c = Some cl;
  rcv_buf : length (buf cl) = Z.to_nat CLIENT_BUFFER_SIZE;
  rcv_pending : pending (fd cl) (w_os w) = packet ++ rest;
  rcv_header : header_whole (fd cl) (w_os w);
}.

(** The client with the packet in its buffer, after the acknowledgement. *)
Definition after_packet (packet : list Z) (act : bool) (cl : warppipe_client) : warppipe_client :=
  set_active act (filled 0 packet cl).

Lemma buffered_length packet act cl :
  length (buf cl) = Z.to_nat CLIENT_BUFFER_SIZE -> length (buffered_tlp (after_packet packet act cl)) = 4114%nat.
Proof.
  intros Hb. unfold buffered_tlp, t_tlp, dl_tlp, after_packet, filled. rewrite length_drop. simpl.
  rewrite length_wr_bytes, Hb. done.
Qed.

Context `{!StreamLaws os}.

Lemma packet_handled c cl w s tport rest :
  tport_ok tport -> tport.[t_proto] = PCIE_PROTO_TLP -> packet_length tport <= CLIENT_BUFFER_SIZE ->
  receiving c cl w (transmitted s tport) rest ->
  exists o act,
    let cl' := after_packet (transmitted s tport) act cl in
    warppipe_client_read c w = handle_tlp c (buffered_tlp cl') (with_os o (upd c cl' w)) /\
    agree (Z.to_nat (tlp_total_length (tport_tlp tport))) (buffered_tlp cl') (tport_tlp tport) /\
    pending (fd cl) o = rest /\ acked cl s (w_os w) o act.
Proof.
  intros Hok Hp Hmax [Hc Hb Hpend Hh].
  destruct (client_read_packet c cl w s tport rest) as (o & Ho & Hsent & Hio & ->); try done.
  pose proof (transmitted_length s _ Hok) as Hl.
  set (cl1 := filled 0 (transmitted s tport) cl).
  assert (holds cl1 (transmitted s tport)) as Hholds by (apply filled_holds; lia).
  rewrite (receive_tlp_valid cl1 s tport) by (done || apply lookup_upd).
  destruct (ack_shape c cl1 (with_os o (upd c cl1 w)) PCIE_DLLP_ACK (s mod 4096))
    as (r & o' & act & Hack & Hr & k & Hsend & Hk); [apply lookup_upd|].
  exists o', act. cbv zeta. split_and!.
  - unfold bind. rewrite Hack, upd_with_os, with_os_with_os, upd_upd. done.
  - by apply (received_tlp cl1 s tport).
  - by rewrite (send_pending _ _ _ _ _ _ Hsend).
  - split; [by eapply rtc_r; [|eapply io_send]|].
    destruct Hr as [[-> ->]|[-> ->]]; [left|right]; (split; [done|]).
    + destruct Hk as [Hk _]. rewrite Hk in Hsend by done. apply send_stream in Hsend; [|lia].
      simpl fd in Hsend. rewrite Hsend. simpl w_os. rewrite Hsent. done.
    + eexists o, k, o'. split_and!; [exact Hio|exact Hsend| |done]. intros E. by apply Hk in E.
Qed.

Lemma transmit_sends c cl w bs :
  sends (transmit c cl bs w) c cl bs (Z.of_nat (length bs)) (-1) w (upd c cl w).
Proof.
  unfold sends, transmit. destruct (sys_send _ _ _) as [k o] eqn:E.
  destruct (Z.eqb_spec k (Z.of_nat (length bs))) as [->|].
  - left. exists o. split; [done|]. split_and!; [|by eapply send_pending|eauto with io].
    apply send_stream in E; [|lia]. by rewrite Nat2Z.id, firstn_all in E.
  - right. exists o, (set_active false cl). split_and!; [done..|]. by exists (w_os w), k, o.
Qed.

(** ** Writes *)

(** Whoever receives [packet] calls the callback that the write request for
    [len] bytes at [addr] is routed to, with those bytes. *)
Definition delivers_write (packet : list Z) (s type addr : Z) (data : list Z) (len : Z) : Prop :=
  forall c cl w cb off rest,
    receiving c cl w packet rest -> routes cl type addr cb off -> cb <> NULL ->
    exists mem o act,
      warppipe_client_read c w =
        call_write_cb cb off mem len (private_data cl)
          (with_os o (upd c (after_packet packet act cl) w)) /\
      take (Z.to_nat len) mem = take (Z.to_nat len) data /\
      pending (fd cl) o = rest /\ acked cl s (w_os w) o act.

Lemma routes_after packet act cl type addr cb off :
  routes cl type addr cb off -> routes (after_packet packet act cl) type addr cb off.
Proof.
  intros [i b k Ht Hin Hcb|Ht Ha Hcb]; [eapply (route_bar _ _ _ _ i b k)|apply route_cfg]; try done.
  destruct Hin. by constructor.
Qed.

Lemma write_packet_delivered mem addr data len type s :
  length mem = Z.to_nat (write_size addr len) -> 0 <= addr < 2 ^ 64 ->
  0 < len -> len + addr mod 4 <= 4096 -> (Z.to_nat len <= length data)%nat ->
  has_data type = true ->
  delivers_write (transmitted s (write_tport mem addr data len type)) s type addr data len.
Proof.
  intros Hm Ha Hl Hmax Hd Ht c cl w cb off rest Hrcv Hr Hcb.
  set (t := write_tport mem addr data len type) in *.
  pose proof (routes_request _ _ _ _ _ Hr) as Hreq.
  pose proof (is_32bit_small _ (routes_addr _ _ _ _ _ Hr)) as H32.
  pose proof (write_tport_ok mem addr data len type Hm Ha Hl Hmax Hd Hreq Ht) as Hok.
  pose proof (write_dwords mem addr data len Hm Hl Hd) as Hdw.
  pose proof (write_tport_total mem addr data len type Hm Ha Hl Hmax Hd Hreq Ht) as Htot. fold t in Htot.
  unfold header_bytes in Htot. rewrite H32 in Htot.
  destruct (packet_handled c cl w s t rest) as (o & act & E & Hag & Hp & Hack); try done.
  { by apply write_tport_proto. }
  { unfold packet_length, sizeof_dllp. change CLIENT_BUFFER_SIZE with 4117. lia. }
  cbv zeta in E. set (cl' := after_packet (transmitted s t) act cl) in *.
  pose proof (decodes_agree (buffered_tlp cl') (tport_tlp t) type addr len) as Hdec.
  rewrite E, (handle_write c cl' _ type addr cb off _ len); try done.
  - eexists _, o, act. split_and!; try done. 
    assert (Z.to_nat (12 + 4 * ((len + addr mod 4 + 3) / 4)) <= length (buffered_tlp cl'))%nat as Hlen.
    { unfold cl'. rewrite (buffered_length _ _ _ (rcv_buf _ _ _ _ _ Hrcv)). lia. }
    apply rd_ext; rewrite !length_take; rewrite ?length_drop; [lia|].
    intros i Hi. rewrite !rd_take, rd_drop by lia. rewrite Hag by lia.
    rewrite <-(write_tport_payload mem addr data len type Hm Ha Hl Hmax Hd Hreq Ht) by lia.
    unfold header_bytes. by rewrite H32.
  - apply lookup_upd.
  - by apply routes_after.
  - apply Hdec; [|by apply write_tport_decodes]. unfold header_bytes. rewrite H32.
    eapply agree_le; [|exact Hag]. lia.
Qed.

Lemma write_imp_sends_mem c cl w addr data len type mem o :
  w_clients w !! c = Some cl -> seqno cl <> INT_MAX ->
  sys_malloc (write_size addr len) (w_os w) = (Some mem, o) ->
  length mem = Z.to_nat (write_size addr len) ->
  0 <= addr < 2 ^ 64 -> 0 < len -> len + addr mod 4 <= 4096 -> (Z.to_nat len <= length data)%nat ->
  is_request type addr -> has_data type = true ->
  sends (warppipe_write_imp c addr data len type w) c cl
    (transmitted (seqno cl + 1) (write_tport mem addr data len type)) 0 (-1) w
    (upd c (set_seqno (seqno cl + 1) cl) w).
Proof.
  intros Hc Hs Hm Hlen Ha Hl Hmax Hd Hreq Ht. set (t := write_tport mem addr data len type).
  assert (warppipe_write_imp c addr data len type w =
    bind (transmit c (set_seqno (seqno cl + 1) cl) (transmitted (seqno cl + 1) t))
      (fun rc => ret (if 0 <? rc then 0 else rc)) (with_os o w)) as E.
  { rewrite (write_imp_run c w addr data len type mem o) by done. unfold bind.
    by rewrite <-(send_tlp c cl (with_os o w) t) by (done || (by apply write_tport_proto) || by apply write_tport_ok). }
  destruct (malloc_streams (fd cl) _ _ _ _ Hm) as [Hpm Hsm].
  pose proof (transmitted_length (seqno cl + 1) t (write_tport_ok _ _ _ _ _ Hlen Ha Hl Hmax Hd Hreq Ht)) as Htl.
  pose proof (tport_total t (write_tport_ok _ _ _ _ _ Hlen Ha Hl Hmax Hd Hreq Ht)) as Htt.
  unfold packet_length, sizeof_dllp in Htl.
  unfold sends. rewrite E. unfold bind.
  destruct (transmit_sends c (set_seqno (seqno cl + 1) cl) (with_os o w) (transmitted (seqno cl + 1) t))
    as [(o' & -> & Hsent & Hp & Hio)|(o' & cl' & -> & Hact & Hf)]; [left|right].
  - exists o'. rewrite (proj2 (Z.ltb_lt _ _)) by lia. split; [done|]. simpl fd in Hsent, Hp. rewrite Hsent, Hp.
    simpl w_os. rewrite Hsm, Hpm. split_and!; [done..|]. eapply rtc_l; [by eapply io_malloc|exact Hio].
  - exists o', cl'. split_and!; [done..|]. destruct Hf as (o1 & k & o2 & Hio & Hf). exists o1, k, o2.
    split; [eapply rtc_l; [by eapply io_malloc|exact Hio]|exact Hf].
Qed.

Lemma write_imp_sends `{!SocketLaws os} c cl w addr data len type mem o :
  w_clients w !! c = Some cl -> seqno cl <> INT_MAX ->
  sys_malloc (write_size addr len) (w_os w) = (Some mem, o) ->
  0 <= addr < 2 ^ 64 -> 0 < len -> len + addr mod 4 <= 4096 -> (Z.to_nat len <= length data)%nat ->
  is_request type addr -> has_data type = true ->
  length mem = Z.to_nat (write_size addr len) /\
  sends (warppipe_write_imp c addr data len type w) c cl
    (transmitted (seqno cl + 1) (write_tport mem addr data len type)) 0 (-1) w
    (upd c (set_seqno (seqno cl + 1) cl) w).
Proof.
  intros Hc Hs Hm Ha Hl Hmax Hd Hreq Ht.
  assert (length mem = Z.to_nat (write_size addr len)) as Hlen.
  { pose proof (Z.mod_pos_bound addr 4 ltac:(lia)).
    pose proof (Z.div_pos (len + addr mod 4 + 3) 4 ltac:(lia) ltac:(lia)).
    eapply malloc_size; [|exact Hm]. rewrite write_size_spec by lia. lia. }
  split; [done|]. by apply (write_imp_sends_mem _ _ _ _ _ _ _ _ o).
Qed.

(** ** Reads *)

(** Whoever receives the completion [packet] for [tag] calls the callback that
    waits for [tag] with the [len] bytes [bs] and releases the tag.  The
    length has the twelve bits of the byte count; the bytes lie in the receive
    buffer, with the rest of it behind them.  A completion without data
    (the read failed) is dropped: no callback, and the tag stays taken. *)
Definition delivers_completion (packet : list Z) (s : Z) (tag : nat) (err : Z) (bs : list Z) (len : Z) : Prop :=
  forall c cl w cb rest,
    receiving c cl w packet rest -> completion_cb cl !! tag = Some cb -> cb <> NULL ->
    exists mem o act,
      let cl1 := after_packet packet act cl in
      let w1 := with_os o (upd c cl1 w) in
      pending (fd cl) o = rest /\ acked cl s (w_os w) o act /\
      (err <> 0 -> warppipe_client_read c w = Ret tt w1) /\
      (err = 0 -> take (length bs) mem = bs /\ (4096 <= length mem)%nat /\
         forall w2 cl2,
           call_completion_cb cb 0 mem (len mod 4096) (private_data cl) w1 = Ret tt w2 ->
           w_clients w2 !! c = Some cl2 -> buf cl2 = buf cl1 -> length (completion_cb cl2) = 32%nat ->
           warppipe_client_read c w =
           Ret tt (upd c (set_completion_cb (<[tag := NULL]> (completion_cb cl2)) cl2) w2)).

(** Whoever receives the read request [packet] calls the callback it is routed
    to and answers with a completion. *)
Definition delivers_read (packet : list Z) (s type addr : Z) (tag : nat) (len : Z) : Prop :=
  forall c cl w cb off rest,
    receiving c cl w packet rest -> routes cl type addr cb off -> cb <> NULL ->
    exists o act,
      let w1 := with_os o (upd c (after_packet packet act cl) w) in
      pending (fd cl) o = rest /\ acked cl s (w_os w) o act /\
      forall err bs w2 cl2,
        call_read_cb cb off len (private_data cl) w1 = Ret (err, bs) w2 ->
        Z.of_nat (length bs) <= len ->
        w_clients w2 !! c = Some cl2 -> seqno cl2 <> INT_MAX ->
        exists cpl,
          sends (warppipe_client_read c w) c cl2 cpl tt tt w2 (upd c (set_seqno (seqno cl2 + 1) cl2) w2) /\
          delivers_completion cpl (seqno cl2 + 1) tag err bs len.

Lemma handle_tlp_completion c pkt w :
  tlp_kind pkt = PCIE_TLP_CPLD -> handle_tlp c pkt w = handle_completion c pkt w.
Proof. intros H. unfold handle_tlp, is_kind. by rewrite H. Qed.

Lemma handle_tlp_cpl c pkt w : tlp_kind pkt = PCIE_TLP_CPL -> handle_tlp c pkt w = Ret tt w.
Proof. intros H. unfold handle_tlp, is_kind. by rewrite H. Qed.

Lemma completion_packet_delivered pkt bs err len tag s :
  tlp_data_length_bytes pkt = len -> pkt.[r_tag] = Z.of_nat tag ->
  Z.of_nat (length bs) <= len -> (tag < 32)%nat ->
  delivers_completion (transmitted s (completion_tport pkt bs err)) s tag err bs len.
Proof.
  intros Hb Htag Hlen H32 c cl w cb rest Hrcv Hcb Hne.
  pose proof (tlp_data_length_range pkt) as Hn.
  assert (len <= 4 * tlp_data_length pkt) as Hmax
    by (rewrite <-Hb; apply data_length_bytes_range).
  assert (Z.of_nat (length bs) <= 4 * tlp_data_length pkt + 8) as Hbs by lia.
  set (t := completion_tport pkt bs err) in *.
  pose proof (completion_ok pkt bs err Hbs) as Hok. fold t in Hok.
  pose proof (completion_total pkt bs err Hbs) as Htot. fold t in Htot.
  destruct (packet_handled c cl w s t rest) as (o & act & E & Hag & Hp & Hack); try done.
  { by apply completion_proto. }
  { unfold packet_length, sizeof_dllp. change CLIENT_BUFFER_SIZE with 4117. case_match; lia. }
  cbv zeta in E. set (cl' := after_packet (transmitted s t) act cl) in *.
  exists (drop c_data (buffered_tlp cl')), o, act. cbv zeta. split_and!; [done..| |].
  - intros Herr. rewrite E, handle_tlp_cpl; [done|].
    rewrite (agree_kind _ (tport_tlp t)) by (eapply agree_le; [|exact Hag]; case_match; lia).
    unfold t. rewrite completion_kind by done. by rewrite (proj2 (Z.eqb_neq _ _) Herr).
  - intros ->. simpl in Htot.
    assert (Z.to_nat (12 + 4 * tlp_data_length pkt) <= length (buffered_tlp cl'))%nat as Hl.
    { unfold cl'. rewrite (buffered_length _ _ _ (rcv_buf _ _ _ _ _ Hrcv)). lia. }
    split.
    + apply rd_ext; rewrite length_take, ?length_drop; unfold c_data in *; [lia|].
      intros i Hi. rewrite rd_take, rd_drop, Hag by lia. apply (completion_payload pkt bs 0 Hbs). lia.
    + split.
      { rewrite length_drop. unfold cl'. rewrite (buffered_length _ _ _ (rcv_buf _ _ _ _ _ Hrcv)). unfold c_data. lia. }
      intros w2 cl2 Hcall Hc2 Hbuf Hl32. rewrite E.
      assert (agree 12 (buffered_tlp cl') (tport_tlp t)) as H12 by (eapply agree_le; [|exact Hag]; lia).
      assert ((buffered_tlp cl').[c_tag] = Z.of_nat tag) as Ht.
      { rewrite (agree_get 12 _ _ _ H12) by (simpl; lia). unfold t. by rewrite completion_tag. }
      rewrite handle_tlp_completion.
      2: { rewrite (agree_kind _ (tport_tlp t)) by (eapply agree_le; [|exact Hag]; lia).
           unfold t. by rewrite completion_kind. }
      unfold handle_completion. run. rewrite Ht, Nat2Z.id.
      replace (completion_cb cl' !! tag) with (Some cb) by done.
      rewrite (proj2 (Z.eqb_neq _ _) Hne).
      rewrite !(agree_get 12 _ _ _ H12) by (simpl; lia).
      unfold t. rewrite completion_count, Hb by done.
      erewrite bind_Ret by exact Hcall. run.
      replace (buffered_tlp cl2) with (buffered_tlp cl') by (unfold buffered_tlp; by rewrite Hbuf).
      rewrite Ht, Nat2Z.id, Hl32.
      rewrite (proj2 (Nat.ltb_lt _ _)) by done. by rewrite (run_store c cl2).
Qed.

(** The answer to a read request, as a packet. *)
Lemma read_packet_answered tag addr len type s c cl w cb off rest :
  malloc_succeeds os -> (tag < 32)%nat ->
  0 <= addr < 2 ^ 64 -> 0 < len -> len + addr mod 4 <= 4096 -> has_data type = false ->
  let packet := transmitted s (read_request (Z.of_nat tag) addr len type) in
  receiving c cl w packet rest -> routes cl type addr cb off -> cb <> NULL ->
  exists o act pkt,
    let w1 := with_os o (upd c (after_packet packet act cl) w) in
    pending (fd cl) o = rest /\ acked cl s (w_os w) o act /\
    tlp_data_length_bytes pkt = len /\ pkt.[r_tag] = Z.of_nat tag /\
    forall err bs w2 cl2,
      call_read_cb cb off len (private_data cl) w1 = Ret (err, bs) w2 ->
      Z.of_nat (length bs) <= len ->
      w_clients w2 !! c = Some cl2 -> seqno cl2 <> INT_MAX ->
      sends (warppipe_client_read c w) c cl2 (transmitted (seqno cl2 + 1) (completion_tport pkt bs err))
        tt tt w2 (upd c (set_seqno (seqno cl2 + 1) cl2) w2).
Proof.
  intros Hmal Htag Ha Hl Hmax Ht packet Hrcv Hr Hcb.
  pose proof (routes_request _ _ _ _ _ Hr) as Hreq.
  pose proof (is_32bit_small _ (routes_addr _ _ _ _ _ Hr)) as H32.
  pose proof (read_request_ok (Z.of_nat tag) addr len type Ha Hl Hmax Hreq Ht) as Hok.
  pose proof (read_request_total (Z.of_nat tag) addr len type Ha Hl Hmax Hreq Ht) as Htot.
  unfold header_bytes in Htot. rewrite H32 in Htot.
  pose proof (read_request_decodes (Z.of_nat tag) addr len type Ha Hl Hmax Hreq Ht) as Hdec.
  pose proof (read_request_tag (Z.of_nat tag) addr len type ltac:(lia)) as Hrtag.
  set (t := read_request (Z.of_nat tag) addr len type) in *.
  destruct (packet_handled c cl w s t rest) as (o & act & E & Hag & Hp & Hack); try done.
  { unfold packet_length, sizeof_dllp. change CLIENT_BUFFER_SIZE with 4117. lia. }
  cbv zeta in E. set (cl' := after_packet (transmitted s t) act cl) in *.
  rewrite Htot in Hag. change (Z.to_nat (Z.of_nat 12)) with 12%nat in Hag.
  apply (decodes_agree (buffered_tlp cl')) in Hdec; [|unfold header_bytes; by rewrite H32].
  pose proof (tlp_data_length_range (buffered_tlp cl')) as Hn.
  destruct (Hmal (sizeof_transport + tlp_data_length (buffered_tlp cl') * 4) o) as (m & o' & Hm);
    [unfold sizeof_transport; lia|].
  destruct (malloc_streams (fd cl) _ _ _ _ Hm) as [Hpm Hsm].
  exists o', act, (buffered_tlp cl'). cbv zeta.
  split_and!; [congruence| |apply (dec_bytes _ _ _ _ Hdec)| |].
  { destruct Hack as [Hio Hack]. split; [by eapply rtc_r; [|eapply io_malloc]|].
    rewrite Hsm. destruct Hack as [?|(? & o1 & k & o2 & H1 & H2 & H3 & H4)]; [by left|right]. split; [done|].
    exists o1, k, o2. split_and!; [done..|]. by eapply rtc_r; [|eapply io_malloc]. }
  { by rewrite (agree_get 12 _ (tport_tlp t)) by (done || simpl; lia). }
  intros err bs w2 cl2 Hcall Hbs Hc2 Hs2.
  assert (Z.of_nat (length bs) <= 4 * tlp_data_length (buffered_tlp cl') + 8) as Hroom.
  { pose proof (data_length_bytes_range (buffered_tlp cl')).
    pose proof (dec_bytes _ _ _ _ Hdec). lia. }
  rewrite E, (handle_read c cl' (with_os o (upd c cl' w)) type addr cb off (buffered_tlp cl') len m o');
    [|apply lookup_upd|by apply routes_after|done..].
  rewrite with_os_with_os. erewrite bind_Ret by exact Hcall. cbn [fst snd].
  rewrite (proj2 (Nat.ltb_ge _ _)) by lia. unfold bind.
  rewrite (send_tlp c cl2) by (done || by apply completion_ok || by apply completion_proto).
  destruct (transmit_sends c (set_seqno (seqno cl2 + 1) cl2) w2
    (transmitted (seqno cl2 + 1) (completion_tport (buffered_tlp cl') bs err)))
    as [(o2 & -> & Hsent)|(o2 & cl3 & -> & Hact)]; [left|right]; eauto.
Qed.

Lemma read_packet_delivered tag addr len type s :
  malloc_succeeds os -> (tag < 32)%nat ->
  0 <= addr < 2 ^ 64 -> 0 < len -> len + addr mod 4 <= 4096 -> has_data type = false ->
  delivers_read (transmitted s (read_request (Z.of_nat tag) addr len type)) s type addr tag len.
Proof.
  intros Hmal Htag Ha Hl Hmax Ht c cl w cb off rest Hrcv Hr Hcb.
  destruct (read_packet_answered tag addr len type s c cl w cb off rest)
    as (o & act & pkt & Hp & Hack & Hb & Hpt & Hs); try done.
  exists o, act. cbv zeta. split_and!; [done..|]. intros err bs w2 cl2 Hcall Hbs Hc2 Hs2.
  exists (transmitted (seqno cl2 + 1) (completion_tport pkt bs err)).
  split; [by apply Hs|]. by apply completion_packet_delivered.
Qed.

(** The requester after it issued a read: the tag is taken by [cb]. *)
Definition read_issued (cb : ptr) (cl : warppipe_client) : warppipe_client :=
  set_completion_cb (<[Z.to_nat (read_tag cl) := cb]> (completion_cb cl))
    (set_seqno (seqno cl + 1) (set_read_tag (wrap 5 (read_tag cl + 1)) cl)).

Lemma read_imp_sends c cl w addr len cb type :
  w_clients w !! c = Some cl -> seqno cl <> INT_MAX ->
  0 <= addr < 2 ^ 64 -> 0 < len -> len + addr mod 4 <= 4096 ->
  is_request type addr -> has_data type = false ->
  sends (warppipe_read_imp c addr len cb type w) c cl
    (transmitted (seqno cl + 1) (read_request (read_tag cl) addr len type)) 0 (-1) w
    (upd c (read_issued cb cl) w).
Proof.
  intros Hc Hs Ha Hl Hmax Hreq Ht. unfold warppipe_read_imp, sends. run. unfold bind.
  set (t := read_request (read_tag cl) addr len type).
  set (cl1 := set_read_tag (wrap 5 (read_tag cl + 1)) cl).
  pose proof (read_request_ok (read_tag cl) addr len type Ha Hl Hmax Hreq Ht) as Hok. fold t in Hok.
  pose proof (transmitted_length (seqno cl + 1) t Hok) as Htl. pose proof (tport_total t Hok).
  unfold packet_length, sizeof_dllp in Htl.
  rewrite (send_tlp c cl1) by (done || apply lookup_upd).
  change (seqno cl1) with (seqno cl).
  destruct (transmit_sends c (set_seqno (seqno cl + 1) cl1) (upd c cl1 w) (transmitted (seqno cl + 1) t))
    as [(o & -> & Hsent)|(o & cl' & -> & Hact)]; [left|right].
  - exists o. rewrite (proj2 (Z.eqb_neq _ _)) by lia. split; [|exact Hsent].
    erewrite run_modify by lookup_client. by rewrite upd_with_os, !upd_upd.
  - exists o, cl'. split; [|exact Hact]. simpl. by rewrite upd_upd.
Qed.

(** ** Offsets in a BAR *)
Section Offset.
Context (c : ptr) (cl : warppipe_client) (w : W) (i : nat) (base off : Z).
Context (Hc : w_clients w !! c = Some cl) (Hi : (i < 6)%nat) (Hb : bar cl !! i = Some base).
Context (H0 : 0 < base) (Ha : 0 <= base + off < 2 ^ 64).

Lemma warppipe_write_imp_eq data len :
  warppipe_write c (Z.of_nat i) off data len w =
  warppipe_write_imp c (base + off) data len PCIE_TLP_MWR64 w.
Proof.
  unfold warppipe_write. run. rewrite (proj2 (Z.ltb_ge _ _)), (proj2 (Z.leb_gt _ _)) by lia.
  simpl (_ || _). rewrite Nat2Z.id, Hb. change (default 0 (Some base)) with base.
  by rewrite (proj2 (Z.eqb_neq base 0)), wrap_small by lia.
Qed.

Lemma warppipe_read_imp_eq len cb :
  warppipe_read c (Z.of_nat i) off len cb w =
  warppipe_read_imp c (base + off) len cb PCIE_TLP_MRD64 w.
Proof.
  unfold warppipe_read. run. rewrite (proj2 (Z.ltb_ge _ _)), (proj2 (Z.leb_gt _ _)) by lia.
  simpl (_ || _). rewrite Nat2Z.id, Hb. change (default 0 (Some base)) with base.
  by rewrite (proj2 (Z.eqb_neq base 0)), wrap_small by lia.
Qed.
End Offset.

(** ** Tags of reads in flight *)

(** A batch of configuration reads; ends at the first that fails. *)
Fixpoint issue_reads (c : ptr) (reqs : list (Z * Z * ptr)) : M W bool :=
  match reqs with
  | [] => ret true
  | (addr, len, cb) :: reqs =>
      let! r := warppipe_config0_read c addr len cb in
      if r =? 0 then issue_reads c reqs else ret false
  end.

Definition valid_read (r : Z * Z * ptr) : Prop :=
  let '(addr, len, _) := r in 0 <= addr < 2 ^ 32 /\ 0 < len /\ len + addr mod 4 <= 4096.

(** The client after the batch. *)
Definition reads_issued (reqs : list (Z * Z * ptr)) (cl : warppipe_client) : warppipe_client :=
  foldl (fun cl r => read_issued r.2 cl) cl reqs.

Lemma issue_reads_spec c reqs : forall cl w w',
  w_clients w !! c = Some cl -> 0 <= seqno cl -> seqno cl + Z.of_nat (length reqs) <= INT_MAX ->
  Forall valid_read reqs -> issue_reads c reqs w = Ret true w' ->
  w_clients w' !! c = Some (reads_issued reqs cl).
Proof.
  induction reqs as [|[[addr len] cb] reqs IH]; intros cl w w' Hc Hs0 Hs Hv E.
  { simpl in E. unfold ret in E. by simplify_eq. }
  apply Forall_cons_1 in Hv as [(Ha & Hl & Hmax) Hv]. simpl length in Hs.
  simpl in E. unfold bind, warppipe_config0_read in E.
  destruct (read_imp_sends c cl w addr len cb PCIE_TLP_CR0) as [(o & E' & _)|(o & cl' & E' & _)];
    try (done || lia); [right; right; auto using is_32bit_small| |]; rewrite E' in E; simpl in E.
  - eapply (IH _ _ w') in E; [exact E|apply lookup_upd|simpl; lia..|done].
  - unfold ret in E. by simplify_eq.
Qed.

Lemma reads_issued_tags reqs : forall cl i addr len cb,
  0 <= read_tag cl < 32 -> length (completion_cb cl) = 32%nat -> (length reqs <= 32)%nat ->
  reqs !! i = Some (addr, len, cb) ->
  completion_cb (reads_issued reqs cl) !! Z.to_nat ((read_tag cl + Z.of_nat i) mod 32) = Some cb.
Proof.
  induction reqs as [|r reqs IH] using rev_ind; intros cl i addr len cb Ht Hl Hn Hi; [done|].
  rewrite length_app in Hn. simpl in Hn.
  assert (read_tag (reads_issued reqs cl) = (read_tag cl + Z.of_nat (length reqs)) mod 32) as Htag.
  { clear -Ht. unfold reads_issued. induction reqs as [|r reqs IH] using rev_ind.
    - simpl. rewrite Z.add_0_r, Z.mod_small; lia.
    - rewrite foldl_app. simpl. unfold wrap. rewrite IH, length_app. change (2 ^ 5) with 32.
      rewrite Zplus_mod_idemp_l. simpl. f_equal. lia. }
  assert (length (completion_cb (reads_issued reqs cl)) = 32%nat) as Hlen.
  { clear -Hl. unfold reads_issued. induction reqs as [|r reqs IH] using rev_ind; [done|].
    rewrite foldl_app. simpl. by rewrite length_insert. }
  unfold reads_issued. rewrite foldl_app. fold (reads_issued reqs cl). simpl. rewrite Htag.
  pose proof (Z.mod_pos_bound (read_tag cl + Z.of_nat (length reqs)) 32 ltac:(lia)) as Hm.
  apply lookup_app_Some in Hi as [Hi|[Hge Hi]].
  - pose proof (lookup_lt_Some _ _ _ Hi). rewrite list_lookup_insert_ne; [eapply IH; eauto; lia|].
    intros E%Z2Nat.inj; [|lia|apply Z.mod_pos_bound; lia].
    pose proof (Z.div_mod (read_tag cl + Z.of_nat (length reqs)) 32 ltac:(lia)).
    pose proof (Z.div_mod (read_tag cl + Z.of_nat i) 32 ltac:(lia)). lia.
  - apply list_lookup_singleton_Some in Hi as [Hi ->]. assert (i = length reqs) as -> by lia.
    simpl. apply list_lookup_insert_eq. lia.
Qed.

(** ** Properties *)

Context `{!SocketLaws os}.

(** C4. A write reaches the other application.  [warppipe_write] of [len]
    bytes at offset [off] of a registered BAR either sends one packet and
    returns 0, or returns [-1] and marks the connection for removal.  Whoever
    receives that packet on a client whose BAR covers the address and has a write
    callback acknowledges its sequence number (or fails to send that, and marks the
    connection for removal) and calls that callback once, with the offset in the BAR,
    the length and exactly the bytes written.  The first [recv] has to return the
    seven bytes of the header at once ([rcv_header]); the rest of the packet may come
    in any pieces. *)
Theorem write_end_to_end c cl w (i : nat) base off data len mem o :
  w_clients w !! c = Some cl -> seqno cl <> INT_MAX ->
  (i < 6)%nat -> bar cl !! i = Some base -> 0 < base -> 0 <= base + off < 2 ^ 64 ->
  0 < len -> len + (base + off) mod 4 <= 4096 -> (Z.to_nat len <= length data)%nat ->
  sys_malloc (write_size (base + off) len) (w_os w) = (Some mem, o) ->
  exists packet,
    sends (warppipe_write c (Z.of_nat i) off data len w) c cl packet 0 (-1) w
      (upd c (set_seqno (seqno cl + 1) cl) w) /\
    delivers_write packet (seqno cl + 1) PCIE_TLP_MWR64 (base + off) data len.
Proof.
  intros Hc Hs Hi Hb H0 Ha Hl Hmax Hd Hm.
  destruct (write_imp_sends c cl w (base + off) data len PCIE_TLP_MWR64 mem o) as [Hlen Hsend];
    try done; [by right; left|].
  exists (transmitted (seqno cl + 1) (write_tport mem (base + off) data len PCIE_TLP_MWR64)). split.
  - by rewrite (warppipe_write_imp_eq c cl w i base) by (done || lia).
  - by apply write_packet_delivered.
Qed.

Lemma config0_write_arrives c cl w addr data len mem o :
  w_clients w !! c = Some cl -> seqno cl <> INT_MAX -> 0 <= addr < 2 ^ 32 ->
  0 < len -> len + addr mod 4 <= 4096 -> (Z.to_nat len <= length data)%nat ->
  sys_malloc (write_size addr len) (w_os w) = (Some mem, o) ->
  exists packet,
    sends (warppipe_config0_write c addr data len w) c cl packet 0 (-1) w
      (upd c (set_seqno (seqno cl + 1) cl) w) /\
    delivers_write packet (seqno cl + 1) PCIE_TLP_CW0 addr data len.
Proof.
  intros Hc Hs Ha Hl Hmax Hd Hm.
  assert (is_request PCIE_TLP_CW0 addr) by (right; right; auto using is_32bit_small).
  destruct (write_imp_sends c cl w addr data len PCIE_TLP_CW0 mem o) as [Hlen Hsend]; try done; [lia|].
  exists (transmitted (seqno cl + 1) (write_tport mem addr data len PCIE_TLP_CW0)). split; [done|].
  apply write_packet_delivered; (done || lia).
Qed.

(** C3. A read comes back.  [warppipe_read] sends a request under the next
    tag and registers the completion callback for it (or returns [-1] and
    marks the connection for removal).  Whoever receives the request calls
    the read callback its address is routed to and sends one completion.
    When that completion arrives, the callback waiting for the tag is called
    with the bytes that the read callback returned and the tag is released;
    if the read callback failed, nobody is called and the tag stays taken.  Of each
    packet the seven bytes of the header have to arrive at once, the rest may come in
    any pieces. *)
Theorem read_end_to_end c cl w (i : nat) base off len cb :
  malloc_succeeds os -> w_clients w !! c = Some cl -> seqno cl <> INT_MAX -> 0 <= read_tag cl < 32 ->
  (i < 6)%nat -> bar cl !! i = Some base -> 0 < base -> 0 <= base + off < 2 ^ 64 ->
  0 < len -> len + (base + off) mod 4 <= 4096 ->
  exists packet,
    sends (warppipe_read c (Z.of_nat i) off len cb w) c cl packet 0 (-1) w (upd c (read_issued cb cl) w) /\
    delivers_read packet (seqno cl + 1) PCIE_TLP_MRD64 (base + off) (Z.to_nat (read_tag cl)) len.
Proof.
  intros Hmal Hc Hs Ht Hi Hb H0 Ha Hl Hmax.
  exists (transmitted (seqno cl + 1) (read_request (read_tag cl) (base + off) len PCIE_TLP_MRD64)). split.
  - rewrite (warppipe_read_imp_eq c cl w i base) by (done || lia).
    apply read_imp_sends; try done. by left.
  - replace (read_tag cl) with (Z.of_nat (Z.to_nat (read_tag cl))) at 1 by lia.
    apply read_packet_delivered; try done. lia.
Qed.

Lemma config0_read_returns c cl w addr len cb :
  malloc_succeeds os -> w_clients w !! c = Some cl -> seqno cl <> INT_MAX -> 0 <= read_tag cl < 32 ->
  0 <= addr < 2 ^ 32 -> 0 < len -> len + addr mod 4 <= 4096 ->
  exists packet,
    sends (warppipe_config0_read c addr len cb w) c cl packet 0 (-1) w (upd c (read_issued cb cl) w) /\
    delivers_read packet (seqno cl + 1) PCIE_TLP_CR0 addr (Z.to_nat (read_tag cl)) len.
Proof.
  intros Hmal Hc Hs Ht Ha Hl Hmax.
  exists (transmitted (seqno cl + 1) (read_request (read_tag cl) addr len PCIE_TLP_CR0)). split.
  - apply read_imp_sends; try (done || lia). right; right; auto using is_32bit_small.
  - replace (read_tag cl) with (Z.of_nat (Z.to_nat (read_tag cl))) at 1 by lia.
    apply read_packet_delivered; try (done || lia).
Qed.

(** C19. The same for configuration space: a [warppipe_config0_write] of a
    32-bit address reaches the configuration write callback of the receiver with
    that address, the length and the bytes, and a [warppipe_config0_read] comes
    back through its configuration read callback.  Again the headers of the packets
    have to arrive in one piece. *)
Theorem config0_end_to_end c cl w addr len :
  w_clients w !! c = Some cl -> seqno cl <> INT_MAX -> 0 <= addr < 2 ^ 32 ->
  0 < len -> len + addr mod 4 <= 4096 ->
  (forall data mem o, (Z.to_nat len <= length data)%nat ->
     sys_malloc (write_size addr len) (w_os w) = (Some mem, o) ->
     exists packet,
       sends (warppipe_config0_write c addr data len w) c cl packet 0 (-1) w
         (upd c (set_seqno (seqno cl + 1) cl) w) /\
       delivers_write packet (seqno cl + 1) PCIE_TLP_CW0 addr data len) /\
  (forall cb, malloc_succeeds os -> 0 <= read_tag cl < 32 ->
     exists packet,
       sends (warppipe_config0_read c addr len cb w) c cl packet 0 (-1) w (upd c (read_issued cb cl) w) /\
       delivers_read packet (seqno cl + 1) PCIE_TLP_CR0 addr (Z.to_nat (read_tag cl)) len).
Proof.
  intros Hc Hs Ha Hl Hmax.
  split; [intros data mem o Hd Hm; by eapply config0_write_arrives
         |intros cb Hmal Ht; by apply config0_read_returns].
Qed.

(** C35. The largest write does not arrive: [warppipe_write] accepts 4096
    aligned bytes for an address of 4 GiB or more and sends them in one
    packet of 4119 bytes, two more than [CLIENT_BUFFER_SIZE]; whoever receives
    its header fails the assertion of [warppipe_client_read]. *)
Theorem oversized_write_aborts_receiver c cl w (i : nat) base off data mem o :
  w_clients w !! c = Some cl -> seqno cl <> INT_MAX ->
  (i < 6)%nat -> bar cl !! i = Some base -> 0 < base -> 2 ^ 32 <= base + off < 2 ^ 64 ->
  (base + off) mod 4 = 0 -> 4096 <= Z.of_nat (length data) ->
  sys_malloc (write_size (base + off) 4096) (w_os w) = (Some mem, o) ->
  exists packet,
    sends (warppipe_write c (Z.of_nat i) off data 4096 w) c cl packet 0 (-1) w
      (upd c (set_seqno (seqno cl + 1) cl) w) /\
    Z.of_nat (length packet) = 4119 /\
    forall c' cl' w' rest, receiving c' cl' w' packet rest ->
      exists w'', warppipe_client_read c' w' = Aborted w''.
Proof.
  remember 4096 as len eqn:Hlen4096. intros Hc Hs Hi Hb H0 Ha Hal Hd Hm.
  assert (is_request PCIE_TLP_MWR64 (base + off)) as Hreq by (by right; left).
  assert (Z.to_nat len <= length data)%nat as Hd' by lia.
  destruct (write_imp_sends c cl w (base + off) data len PCIE_TLP_MWR64 mem o) as [Hlen Hsend];
    try done; try lia.
  pose proof (write_tport_ok mem (base + off) data len PCIE_TLP_MWR64
    Hlen ltac:(lia) ltac:(lia) ltac:(lia) Hd' Hreq eq_refl) as Hok.
  pose proof (write_tport_total mem (base + off) data len PCIE_TLP_MWR64
    Hlen ltac:(lia) ltac:(lia) ltac:(lia) Hd' Hreq eq_refl) as Htot.
  set (t := write_tport mem (base + off) data len PCIE_TLP_MWR64) in *.
  assert (is_32bit (base + off) = false) as H32.
  { unfold is_32bit. rewrite align4_spec, Hal by lia. lia. }
  rewrite Hal in Htot. unfold header_bytes in Htot. rewrite H32 in Htot.
  rewrite Hlen4096 in Htot. change (Z.of_nat 16 + 4 * ((4096 + 0 + 3) / 4)) with 4112 in Htot.
  assert (packet_length t = 4119) as Hpl by (unfold packet_length, sizeof_dllp; lia).
  pose proof (transmitted_length (seqno cl + 1) t Hok) as Hl. rewrite Hpl in Hl.
  exists (transmitted (seqno cl + 1) t). split_and!.
  - by rewrite (warppipe_write_imp_eq c cl w i base) by (done || lia).
  - lia.
  - intros c' cl' w' rest [Hc' Hb' Hp' Hh']. change CLIENT_BUFFER_SIZE with 4117 in Hb'.
    destruct (header_whole_stream _ _ _ _ Hh' Hp') as (o' & Hr & _ & _ & _); [lia|].
    destruct (received_header cl' (seqno cl + 1) t) as (_ & Ht & Hproto); [done|rewrite Hb'; lia|].
    rewrite Htot in Ht. eexists.
    unshelve eapply (fun H => client_read_oversized c' cl' w' _ o' Hc' H Hr); [lia|rewrite length_take; lia| |by rewrite Ht].
    rewrite Hproto. apply write_tport_proto; done || lia.
Qed.

End EndToEnd.

(** ** The properties on the concrete environment *)

Lemma write_end_to_end_witness :
  exists packet,
    sends (warppipe_write 7 1 0x13 [10; 20; 30; 40; 50] 5 (sim_world [])) 7 example_client packet 0 (-1)
      (sim_world []) (upd 7 (set_seqno 1 example_client) (sim_world [])) /\
    delivers_write (os := sim_os) (app := list event) packet 1 PCIE_TLP_MWR64 0x1013 [10; 20; 30; 40; 50] 5.
Proof.
  apply (write_end_to_end 7 example_client (sim_world []) 1 0x1000 0x13 [10; 20; 30; 40; 50] 5
    (replicate 31 0xa5) (w_os (sim_world []))); first [done | simpl; lia | vm_compute; done].
Defined.

Lemma read_end_to_end_witness :
  exists packet,
    sends (warppipe_read 7 1 0x13 5 200 (sim_world [])) 7 example_client packet 0 (-1)
      (sim_world []) (upd 7 (read_issued 200 example_client) (sim_world [])) /\
    delivers_read (os := sim_os) (app := list event) packet 1 PCIE_TLP_MRD64 0x1013 0 5.
Proof.
  apply (read_end_to_end 7 example_client (sim_world []) 1 0x1000 0x13 5 200 sim_malloc_succeeds);
    first [done | simpl; lia | vm_compute; done].
Defined.

Lemma config0_end_to_end_witness :
  (exists packet,
    sends (warppipe_config0_write 7 0x10 [1; 2; 3; 4] 4 (sim_world [])) 7 example_client packet 0 (-1)
      (sim_world []) (upd 7 (set_seqno 1 example_client) (sim_world [])) /\
    delivers_write (os := sim_os) (app := list event) packet 1 PCIE_TLP_CW0 0x10 [1; 2; 3; 4] 4) /\
  (exists packet,
    sends (warppipe_config0_read 7 0x10 4 200 (sim_world [])) 7 example_client packet 0 (-1)
      (sim_world []) (upd 7 (read_issued 200 example_client) (sim_world [])) /\
    delivers_read (os := sim_os) (app := list event) packet 1 PCIE_TLP_CR0 0x10 0 4).
Proof.
  destruct (config0_end_to_end 7 example_client (sim_world []) 0x10 4 eq_refl) as [H1 H2];
    [vm_compute; discriminate|lia|lia|by vm_compute|].
  split.
  - apply (H1 [1; 2; 3; 4] (replicate 27 0xa5) (w_os (sim_world []))); first [simpl; lia | vm_compute; done].
  - apply (H2 200 sim_malloc_succeeds). simpl. lia.
Defined.

(** Both ends of a write and of a read, run on the concrete environment. *)
Definition sim_sent (r : outcome (world sim_os (list event)) Z) : list Z :=
  match r with Ret 0 w => written 3 (w_os w) | _ => [] end.
Definition sim_receive (w0 : world sim_os (list event)) (p : list Z) : world sim_os (list event) :=
  let o := mk_sim {[3 := [take 7 p; take 5 (drop 7 p); drop 12 p]]} ∅ ∅ 0xa5 in
  match warppipe_client_read 7 (with_os o w0) with Ret _ w => w | _ => w0 end.

Example write_run :
  w_app (sim_receive (sim_world []) (sim_sent (warppipe_write 7 1 0x13 [10; 20; 30; 40; 50] 5 (sim_world []))))
  = [WriteCalled 104 0x13 [10; 20; 30; 40; 50]].
Proof. vm_compute. reflexivity. Qed.

Example read_run :
  match warppipe_read 7 1 0x13 5 200 (sim_world []) with
  | Ret 0 wa =>
      let wb := sim_receive (sim_world []) (written 3 (w_os wa)) in
      let wa' := sim_receive wa (drop 7 (written 3 (w_os wb))) in
      (w_app wb, w_app wa') = ([ReadCalled 103 0x13 5], [Completed 200 0 [0x13; 0x14; 0x15; 0x16; 0x17]])
  | _ => False
  end.
Proof. vm_compute. reflexivity. Qed.

Lemma oversized_write_aborts_receiver_witness :
  exists packet,
    sends (warppipe_write 7 1 (2 ^ 32) (replicate 4096 1) 4096 (sim_world [])) 7 example_client packet 0 (-1)
      (sim_world []) (upd 7 (set_seqno 1 example_client) (sim_world [])) /\
    Z.of_nat (length packet) = 4119 /\
    forall c cl (w : world sim_os (list event)) rest, receiving c cl w packet rest ->
      exists w', warppipe_client_read c w = Aborted w'.
Proof.
  apply (oversized_write_aborts_receiver 7 example_client (sim_world []) 1 0x1000 (2 ^ 32) (replicate 4096 1)
    (replicate 4119 0xa5) (w_os (sim_world [])));
    first [done | lia | rewrite length_replicate; lia | vm_compute; reflexivity].
Defined.

Definition example_reads : list (Z * Z * ptr) := [(0, 4, 201); (4, 2, 202); (0x10, 4, 203)].

