(* ===== verification/ClientInv.v ===== *)
(** * Invariant and safety of the client operations

    Every operation keeps the client structures well formed.  With arguments in range
    and callbacks that are safe, the operations of the application have defined
    behaviour, and so has the reception of arbitrary bytes, but for packets that
    mislead the client. *)

From S2P Require Import Prelude Layout Proto Crc World Client Wire Logic Aborts Bars Sim ClientSpec Receive.

(** ** Field updates keep a client well formed *)

(** A well-formed client on descriptor [f]. *)
Definition client_ok (f : Z) (cl : warppipe_client) : Prop := client_wf cl /\ fd cl = f.

Lemma client_ok_wf f cl : client_ok f cl -> client_wf cl.
Proof. by intros []. Qed.

Section Updates.
Context (f : Z) (cl : warppipe_client) (Hok : client_ok f cl).

Lemma set_active_ok b : client_ok f (set_active b cl).
Proof. by destruct Hok as [[] ?]. Qed.
Lemma set_seqno_ok n : 0 <= n <= INT_MAX -> client_ok f (set_seqno n cl).
Proof. by destruct Hok as [[] ?]. Qed.
Lemma set_read_tag_ok n : client_ok f (set_read_tag (wrap 5 n) cl).
Proof. destruct Hok as [[] ?]. split; [|done]. constructor; simpl; try done. by apply (wrap_range 5). Qed.
Lemma set_completion_cb_ok i cb : client_ok f (set_completion_cb (<[i := cb]> (completion_cb cl)) cl).
Proof. destruct Hok as [[] ?]. split; [|done]. constructor; simpl; try done. by rewrite length_insert. Qed.
Lemma set_cfg0_read_cb_ok cb : client_ok f (set_cfg0_read_cb cb cl).
Proof. by destruct Hok as [[] ?]. Qed.
Lemma set_cfg0_write_cb_ok cb : client_ok f (set_cfg0_write_cb cb cl).
Proof. by destruct Hok as [[] ?]. Qed.
Lemma filled_ok off bs : bytes_ok bs -> client_ok f (filled off bs cl).
Proof.
  intros Hbs. destruct Hok as [[] ?]. split; [|done].
  constructor; simpl; try done; [by rewrite length_wr_bytes|]. by apply wr_bytes_bytes_ok.
Qed.
Lemma with_bar_wf i base size rcb wcb :
  0 <= size < 2 ^ 32 -> client_ok f (with_bar i (u32 base) size rcb wcb cl).
Proof.
  intros Hs. destruct Hok as [[] ?]. split; [|done].
  constructor; simpl; rewrite ?length_insert; try done; apply Forall_insert; try done.
  by apply (wrap_range 32).
Qed.
End Updates.
#[export] Hint Resolve set_active_ok set_seqno_ok set_read_tag_ok set_completion_cb_ok
  set_cfg0_read_cb_ok set_cfg0_write_cb_ok filled_ok with_bar_wf client_ok_wf : wp.

(** ** Invariants of the client operations *)

(** An invariant [I] of the program that the operations on the client at [c]
    maintain: the client is allocated, well formed and on descriptor [f], and
    may be replaced by any other such client. *)
Class ClientInvariant {os app : Type} (c : ptr) (f : Z) (I : world os app -> Prop) : Prop := {
  ci_client : forall w, I w -> exists cl, w_clients w !! c = Some cl /\ client_ok f cl;
  ci_upd : forall w cl, I w -> client_ok f cl -> I (upd c cl w);
  ci_os : forall w o, I w -> I (with_os o w);
}.

(** Every allocated client is well formed; the client at [c] is on [f]. *)
Definition inv {os app : Type} (c : ptr) (f : Z) (w : world os app) : Prop :=
  map_Forall (fun _ => client_wf) (w_clients w) /\
  exists cl, w_clients w !! c = Some cl /\ fd cl = f.

#[export] Instance inv_client {os app : Type} (c : ptr) (f : Z) :
  ClientInvariant c f (inv (os := os) (app := app) c f).
Proof.
  constructor.
  - intros w [Hw (cl & Hc & Hf)]. exists cl. split; [done|]. split; [|done]. by apply (Hw c).
  - intros w cl [Hw _] [Hcl Hf]. split; [by apply map_Forall_insert_2|]. exists cl. by rewrite lookup_upd.
  - done.
Qed.

Section Inv.
Context {os app : Type} `{!SocketIO os} `{!Callbacks os app}.
#[local] Abbreviation W := (world os app).
Implicit Types (w : W) (cl : warppipe_client).
Context (U : Prop) (I : W -> Prop).

(** [m] keeps [I]; it is undefined only under [U]. *)
Definition keeps {A} (m : M W A) : Prop := forall w, I w -> wp U m (fun _ => I) w.

Lemma keeps_ret {A} (a : A) : keeps (ret a).
Proof. by intros w Hw. Qed.
Lemma keeps_bind {A B} (m : M W A) (k : A -> M W B) :
  keeps m -> (forall a, keeps (k a)) -> keeps (bind m k).
Proof. intros Hm Hk w Hw. apply wp_bind. eapply wp_mono; [|by apply Hm]. intros. by apply Hk. Qed.
Lemma keeps_undefined {A} : U -> keeps (A := A) undefined.
Proof. by intros HU w Hw. Qed.
Lemma keeps_abort {A} : keeps (A := A) abort.
Proof. by intros w Hw. Qed.
Lemma keeps_if {A} (b : bool) (m n : M W A) :
  (b = true -> keeps m) -> (b = false -> keeps n) -> keeps (if b then m else n).
Proof. destruct b; auto. Qed.

Context (c : ptr) (f : Z) `{!ClientInvariant c f I}.

Lemma keeps_load {A} (k : warppipe_client -> M W A) :
  (forall cl, client_ok f cl -> keeps (k cl)) -> keeps (bind (load c) k).
Proof.
  intros Hk w Hw. destruct (ci_client _ Hw) as (cl & Hc & Hok).
  apply wp_bind, wp_load; [by exists cl|]. intros cl' Hc'. simplify_eq. by apply Hk.
Qed.
Lemma keeps_store cl : client_ok f cl -> keeps (store c cl).
Proof.
  intros Hcl w Hw. destruct (ci_client _ Hw) as (cl' & Hc & _).
  apply wp_store; [by exists cl'|]. by apply ci_upd.
Qed.
Lemma keeps_modify g : (forall cl, client_ok f cl -> client_ok f (g cl)) -> keeps (modify c g).
Proof. intros Hg. apply keeps_load. intros. by apply keeps_store, Hg. Qed.
Lemma keeps_recv_store off bs :
  bytes_ok bs -> ((off + length bs <= Z.to_nat CLIENT_BUFFER_SIZE)%nat \/ U) -> keeps (recv_store c off bs).
Proof.
  intros Hbs Hl. apply keeps_load. intros cl Hcl. apply keeps_if; intros Hb.
  - apply keeps_undefined. apply Nat.ltb_lt in Hb. destruct Hl as [Hl|]; [|done].
    rewrite (wf_buf _ (proj1 Hcl)) in Hb. lia.
  - by apply keeps_store, filled_ok.
Qed.
Lemma keeps_os_call {A B} (g : os -> A * os) (k : A -> M W B) :
  (forall a o o', g o = (a, o') -> keeps (k a)) -> keeps (bind (os_call g) k).
Proof.
  intros Hk w Hw. apply wp_bind, wp_os_call. intros a o E. eapply Hk; [exact E|].
  by apply (ci_os (c := c) (f := f)).
Qed.
End Inv.

(** One step of the symbolic execution behind [keeps]. *)
Ltac keeps_step :=
  lazymatch goal with
  | |- keeps _ _ (ret _) => apply keeps_ret
  | |- keeps _ _ undefined => apply keeps_undefined
  | |- keeps _ _ abort => apply keeps_abort
  | |- keeps _ _ (store _ _) => eapply keeps_store; [eassumption|auto with wp]
  | |- keeps _ _ (modify _ _) => eapply keeps_modify; [eassumption|intros; auto with wp]
  | |- keeps _ _ (bind (load _) _) => eapply keeps_load; [eassumption|intros]
  | |- keeps _ _ (bind (os_call _) _) => eapply keeps_os_call; [eassumption|intros]
  | |- keeps _ _ (bind _ _) => apply keeps_bind; [|intros]
  | |- keeps _ _ (match ?x with _ => _ end) =>
      lazymatch type of x with bool => apply keeps_if; intros | _ => destruct x end
  end.

(** What the application promises: its callbacks keep the invariant. *)
Class CallbacksKeep {os app : Type} `{Callbacks os app} (I : world os app -> Prop) : Prop := {
  read_cb_keeps : forall cb addr len p, keeps True I (call_read_cb cb addr len p);
  write_cb_keeps : forall cb addr data len p, keeps True I (call_write_cb cb addr data len p);
  completion_cb_keeps : forall cb st data len p, keeps True I (call_completion_cb cb st data len p);
}.

(** The operations of the application on a connection. *)
Inductive api :=
  | Read (bar_idx addr len : Z) (cb : ptr)
  | Write (bar_idx addr : Z) (data : list Z) (len : Z)
  | Config0Read (addr len : Z) (cb : ptr)
  | Config0Write (addr : Z) (data : list Z) (len : Z)
  | RegisterBar (bar_ size idx : Z) (rcb wcb : ptr)
  | RegisterConfig0Read (cb : ptr)
  | RegisterConfig0Write (cb : ptr)
  | Ack (type s : Z).

(** [uint32_t] arguments in range. *)
Definition api_ok (a : api) : Prop :=
  match a with RegisterBar _ size _ _ _ => 0 <= size < 2 ^ 32 | _ => True end.

(** Arguments in range: a BAR index below 6, a length of 1 to 4093 bytes, which fits
    in 1024 dwords at any alignment, and as many bytes at the source of a write;
    configuration addresses of 32 bits. *)
Definition length_ok (len : Z) : Prop := 0 < len <= 4093.
Definition args_ok (a : api) : Prop :=
  match a with
  | Read i _ len _ => 0 <= i < 6 /\ length_ok len
  | Write i _ data len => 0 <= i < 6 /\ length_ok len /\ (Z.to_nat len <= length data)%nat
  | Config0Read addr len _ => 0 <= addr < 2 ^ 32 /\ length_ok len
  | Config0Write addr data len => 0 <= addr < 2 ^ 32 /\ length_ok len /\ (Z.to_nat len <= length data)%nat
  | RegisterBar _ size i _ _ => 0 <= size < 2 ^ 32 /\ 0 <= i < 6
  | RegisterConfig0Read _ | RegisterConfig0Write _ | Ack _ _ => True
  end.

Definition call {os app : Type} `{!SocketIO os} (c : ptr) (a : api) : M (world os app) Z :=
  match a with
  | Read i addr len cb => warppipe_read c i addr len cb
  | Write i addr data len => warppipe_write c i addr data len
  | Config0Read addr len cb => warppipe_config0_read c addr len cb
  | Config0Write addr data len => warppipe_config0_write c addr data len
  | RegisterBar b size idx rcb wcb => warppipe_register_bar c b size idx rcb wcb
  | RegisterConfig0Read cb => warppipe_register_config0_read_cb c cb ;; ret 0
  | RegisterConfig0Write cb => warppipe_register_config0_write_cb c cb ;; ret 0
  | Ack type s => warppipe_ack c type s
  end.

Section Preserve.
Context {os app : Type} `{!SocketIO os} `{!SocketLaws os}.
#[local] Abbreviation W := (world os app).
Context (I : W -> Prop) (c : ptr) (f : Z) (HI : ClientInvariant c f I).
#[local] Abbreviation keeps := (keeps (os := os) (app := app) True I).

Lemma send_packet_keeps n t : keeps (send_packet c n t).
Proof. unfold send_packet. repeat keeps_step. Qed.

Lemma send_keeps t : keeps (client_send_pcie_transport c t).
Proof.
  unfold client_send_pcie_transport.
  repeat first [done | apply send_packet_keeps | keeps_step].
  match goal with Hok : client_ok _ ?cl |- context [seqno ?cl] =>
    pose proof (wf_seqno cl (client_ok_wf _ _ Hok)) end.
  apply set_seqno_ok; [done|]. lia.
Qed.

Lemma ack_keeps type s : keeps (warppipe_ack c type s).
Proof. unfold warppipe_ack. repeat first [apply send_keeps | keeps_step]. Qed.

Lemma read_imp_keeps addr len cb type : keeps (warppipe_read_imp c addr len cb type).
Proof. unfold warppipe_read_imp. repeat first [apply send_keeps | keeps_step]. Qed.

Lemma write_imp_keeps addr data len type : keeps (warppipe_write_imp c addr data len type).
Proof. unfold warppipe_write_imp. repeat first [done | apply send_keeps | keeps_step]. Qed.

Lemma call_keeps a : api_ok a -> keeps (call c a).
Proof.
  destruct a; simpl; intros Ha;
    unfold warppipe_read, warppipe_write, warppipe_config0_read, warppipe_config0_write,
      warppipe_register_bar, warppipe_register_config0_read_cb, warppipe_register_config0_write_cb;
    repeat first [done | apply read_imp_keeps | apply write_imp_keeps | apply ack_keeps | keeps_step].
  by apply with_bar_wf.
Qed.

Context `{!Callbacks os app} `{!CallbacksKeep I}.

Lemma handle_tlp_keeps pkt : keeps (handle_tlp c pkt).
Proof.
  unfold handle_tlp, handle_memory_read_request, handle_memory_write_request, handle_completion.
  repeat first [ done | apply send_keeps | apply read_cb_keeps | apply write_cb_keeps
               | apply completion_cb_keeps | keeps_step ].
Qed.

Lemma recv_loop_keeps fuel len total :
  (Z.to_nat (total - len) <= fuel)%nat -> keeps (recv_loop fuel c len total).
Proof.
  revert len. induction fuel as [|fuel IH]; intros len Hf; simpl.
  - destruct (Z.ltb_spec len total); [lia|]. apply keeps_ret.
  - destruct (Z.ltb_spec len total) as [Hl|]; [|apply keeps_ret].
    keeps_step. eapply keeps_os_call; [eassumption|]. intros r o o' E.
    destruct r as [[|b bs]|]; [repeat keeps_step| |repeat keeps_step].
    apply recv_bound in E as [Hb Hok]. apply keeps_bind.
    + eapply keeps_recv_store; [eassumption|done|by right].
    + intros _. apply IH. simpl length in *. lia.
Qed.

Lemma client_read_keeps : keeps (warppipe_client_read c).
Proof.
  unfold warppipe_client_read, receive_tlp. keeps_step. eapply keeps_os_call; [eassumption|].
  intros r o o' E. destruct r as [bs|[]]; [|repeat keeps_step..].
  apply recv_bound in E as [_ Hok]. apply keeps_bind.
  { eapply keeps_recv_store; [eassumption|done|by right]. }
  intros _. repeat first [ apply handle_tlp_keeps | apply ack_keeps | keeps_step
               | apply recv_loop_keeps; unfold sizeof_dllp; lia ].
Qed.
End Preserve.

Lemma aborts_call {os app : Type} `{!SocketIO os} `{!Callbacks os app} (c : ptr) (x : api) (U : world os app -> Prop) :
  aborts U (call c x).
Proof.
  pose proof (aborts_send U) as Hs. pose proof (aborts_register_bar U) as Hr.
  destruct x; simpl; unfold warppipe_register_config0_read_cb, warppipe_register_config0_write_cb, warppipe_read,
    warppipe_write, warppipe_config0_read, warppipe_config0_write, warppipe_read_imp, warppipe_write_imp, warppipe_ack; aborts.
Qed.

(** ** Safety *)

(** The callback that the handling of a packet calls, [Some NULL] for none, and
    [None] where the tag of a completion is outside the table. *)
Definition called_cb (cl : warppipe_client) (pkt : list Z) : option ptr :=
  if is_kind pkt [PCIE_TLP_IORD; PCIE_TLP_MRD32; PCIE_TLP_MRD64; PCIE_TLP_CR0] then
    Some (select_cb cl pkt [PCIE_TLP_IORD; PCIE_TLP_MRD32; PCIE_TLP_MRD64] PCIE_TLP_CR0
            (bar_read_cb cl) (cfg0_read_cb cl)).1
  else if is_kind pkt [PCIE_TLP_IOWR; PCIE_TLP_MWR32; PCIE_TLP_MWR64; PCIE_TLP_CW0] then
    Some (select_cb cl pkt [PCIE_TLP_IOWR; PCIE_TLP_MWR32; PCIE_TLP_MWR64] PCIE_TLP_CW0
            (bar_write_cb cl) (cfg0_write_cb cl)).1
  else if is_kind pkt [PCIE_TLP_CPLD] then completion_cb cl !! Z.to_nat (pkt.[c_tag])
  else Some NULL.

(** The client [cl] has received a packet that makes it misbehave: a completion with
    data whose tag is 32 or more, or a packet for a callback that is neither [NULL]
    nor the address of a function ([callable]), such as an entry of [completion_cb]
    that was never set. *)
Definition misleads (callable : ptr -> bool) (cl : warppipe_client) : Prop :=
  (tlp_kind (buffered_tlp cl) = PCIE_TLP_CPLD /\ 32 <= (buffered_tlp cl).[c_tag]) \/
  (exists p, called_cb cl (buffered_tlp cl) = Some p /\ p <> NULL /\ callable p = false).

(** The connection at [c] has the receive buffer [b], and a sequence number of at
    most [n]. *)
Definition steady {os app : Type} (I : world os app -> Prop) (c : ptr) (b : list Z) (n : Z)
    (w : world os app) : Prop :=
  I w /\ exists cl, w_clients w !! c = Some cl /\ buf cl = b /\ seqno cl <= n.
Definition upto {os app : Type} (I : world os app -> Prop) (c : ptr) (n : Z) (w : world os app) : Prop :=
  I w /\ exists cl, w_clients w !! c = Some cl /\ seqno cl <= n.

(** What safety needs of the functions at [callable] addresses: defined behaviour,
    and that they leave the receive buffer of the connection alone; they may send up
    to [room] TLPs on it; a read callback stores no more bytes than it was asked
    for.  A call through any other pointer is undefined. *)
Class CallbacksSafe {os app : Type} `{Callbacks os app} (I : world os app -> Prop) (c : ptr)
    (callable : ptr -> bool) (room : Z) : Prop := {
  room_nonneg : 0 <= room;
  read_cb_safe : forall b n cb addr len p w,
    callable cb = true -> steady I c b n w ->
    wp False (call_read_cb cb addr len p)
      (fun r w' => steady I c b (n + room) w' /\ Z.of_nat (length r.2) <= Z.max 0 len) w;
  write_cb_safe : forall b n cb addr data len p w,
    callable cb = true -> steady I c b n w ->
    wp False (call_write_cb cb addr data len p) (fun _ => steady I c b (n + room)) w;
  completion_cb_safe : forall b n cb st data len p w,
    callable cb = true -> steady I c b n w ->
    wp False (call_completion_cb cb st data len p) (fun _ => steady I c b (n + room)) w;
  no_read_cb : forall cb addr len p w, callable cb = false -> call_read_cb cb addr len p w = Undefined;
  no_write_cb : forall cb addr data len p w, callable cb = false -> call_write_cb cb addr data len p w = Undefined;
  no_completion_cb : forall cb st data len p w, callable cb = false -> call_completion_cb cb st data len p w = Undefined;
}.

Section Safe.
Context {os app : Type} `{!SocketIO os} `{!SocketLaws os} `{!Callbacks os app}.
Context (Hmalloc : malloc_succeeds os).
#[local] Abbreviation W := (world os app).
Context (I : W -> Prop) (c : ptr) (f : Z) (HI : ClientInvariant c f I).
Context (callable : ptr -> bool) (room : Z) `{!CallbacksSafe I c callable room}.
Implicit Types (w : W) (cl : warppipe_client).

Lemma steady_upto b n w : steady I c b n w -> upto I c n w.
Proof. intros [? (cl & ? & _ & ?)]. split; [done|by exists cl]. Qed.
Lemma upto_mono n n' w : n <= n' -> upto I c n w -> upto I c n' w.
Proof. intros Hn [? (cl & ? & ?)]. split; [done|]. exists cl. split; [done|lia]. Qed.
Lemma upto_upd n cl w o : I w -> client_ok f cl -> seqno cl <= n -> upto I c n (with_os o (upd c cl w)).
Proof.
  intros Hw Hcl Hn. split; [by apply (ci_os (c := c) (f := f)), (ci_upd (f := f))|]. exists cl.
  by rewrite lookup_with_os, lookup_upd.
Qed.

Lemma inv_lookup w cl : I w -> w_clients w !! c = Some cl -> client_ok f cl.
Proof. intros Hw Hc. destruct (ci_client _ Hw) as (cl' & Hc' & Hok). by simplify_eq. Qed.

Lemma transmit_upto n cl bs w : I w -> client_ok f cl -> seqno cl <= n -> wp False (transmit c cl bs) (fun _ => upto I c n) w.
Proof.
  intros Hw Hcl Hn. destruct (transmit_shape c cl bs w) as (k & o & b & E & _).
  unfold wp. rewrite E. apply upto_upd; [done|by apply set_active_ok|done].
Qed.

Lemma send_upto n w tport :
  upto I c n w -> n < INT_MAX -> tport.[t_proto] = PCIE_PROTO_TLP -> tport_ok tport ->
  wp False (client_send_pcie_transport c tport) (fun _ => upto I c (n + 1)) w.
Proof.
  intros [Hw (cl & Hc & Hs)] Hn Hp Ht. pose proof (inv_lookup _ _ Hw Hc) as Hok.
  pose proof (wf_seqno _ (client_ok_wf _ _ Hok)).
  unfold wp at 1. rewrite (send_tlp c cl) by (done || lia).
  apply (transmit_upto (n + 1) (set_seqno (seqno cl + 1) cl)); [done|apply set_seqno_ok; [done|lia]|simpl; lia].
Qed.

Context (U : Prop).

Lemma handle_read_safe b n cl pkt w :
  steady I c b n w -> w_clients w !! c = Some cl -> n + room < INT_MAX ->
  (forall p, p = (select_cb cl pkt [PCIE_TLP_IORD; PCIE_TLP_MRD32; PCIE_TLP_MRD64] PCIE_TLP_CR0
     (bar_read_cb cl) (cfg0_read_cb cl)).1 -> p <> NULL -> callable p = false -> U) ->
  wp U (handle_memory_read_request c pkt) (fun _ => upto I c (n + room + 1)) w.
Proof.
  intros Hs Hc Hn Hcall. pose proof (room_nonneg (I := I) (c := c)). unfold handle_memory_read_request.
  apply wp_bind. unfold wp at 1. rewrite (run_load c cl) by done.
  destruct (select_cb _ _ _ _ _ _) as [cb addr].
  destruct (Z.eqb_spec cb NULL) as [|Hcb].
  { apply wp_ret. eapply upto_mono; [|by eapply steady_upto]. lia. }
  specialize (Hcall cb eq_refl Hcb).
  pose proof (tlp_data_length_range pkt) as Hr. pose proof (data_length_bytes_range pkt) as Hb.
  apply wp_bind, wp_os_call. intros m o Hm.
  destruct (Hmalloc (sizeof_transport + tlp_data_length pkt * 4) (w_os w)) as (m' & o' & Hm');
    [unfold sizeof_transport; lia|].
  rewrite Hm' in Hm. simplify_eq.
  apply wp_bind. destruct (callable cb) eqn:Hcb'; [|unfold wp; rewrite no_read_cb by done; auto].
  eapply wp_mono; [|apply wp_weaken, (read_cb_safe b n); [exact Hcb'|]].
  2: { destruct Hs as [Hs Hcl]. split; [by apply (ci_os (c := c) (f := f))|done]. }
  intros [err bs] w' [Hs' Hlen]. cbn [fst snd] in Hlen |- *.
  rewrite length_at_off by (intros; unfold completion_header; by autorewrite with wp_len).
  rewrite length_set, length_replicate. unfold sizeof_transport, t_tlp, dl_tlp, c_data.
  rewrite (proj2 (Nat.ltb_ge _ _)) by lia.
  assert (Z.of_nat (length bs) <= 4 * tlp_data_length pkt + 8) by lia.
  apply wp_bind. change (if negb (err =? 0) then _ else _) with (completion_tport pkt bs err).
  eapply wp_mono; [|apply wp_weaken, (send_upto (n + room)); [by eapply steady_upto|done|by apply completion_proto|by apply completion_ok]].
  done.
Qed.

Lemma handle_write_safe b n cl pkt w :
  steady I c b n w -> w_clients w !! c = Some cl ->
  (forall p, p = (select_cb cl pkt [PCIE_TLP_IOWR; PCIE_TLP_MWR32; PCIE_TLP_MWR64] PCIE_TLP_CW0
     (bar_write_cb cl) (cfg0_write_cb cl)).1 -> p <> NULL -> callable p = false -> U) ->
  wp U (handle_memory_write_request c pkt) (fun _ => upto I c (n + room)) w.
Proof.
  intros Hs Hc Hcall. pose proof (room_nonneg (I := I) (c := c)). unfold handle_memory_write_request.
  apply wp_bind. unfold wp at 1. rewrite (run_load c cl) by done.
  destruct (select_cb _ _ _ _ _ _) as [cb addr].
  destruct (Z.eqb_spec cb NULL) as [|Hcb].
  { apply wp_ret. eapply upto_mono; [|by eapply steady_upto]. lia. }
  specialize (Hcall cb eq_refl Hcb).
  destruct (callable cb) eqn:Hcb'; [|unfold wp; rewrite no_write_cb by done; auto].
  eapply wp_mono; [|by apply wp_weaken, (write_cb_safe b n)]. intros ? w'. apply steady_upto.
Qed.

Lemma handle_completion_safe b n cl w :
  steady I c b n w -> w_clients w !! c = Some cl ->
  (32 <= (drop 3 b).[c_tag] -> U) ->
  (forall p, completion_cb cl !! Z.to_nat ((drop 3 b).[c_tag]) = Some p -> p <> NULL -> callable p = false -> U) ->
  wp U (handle_completion c (drop 3 b)) (fun _ => upto I c (n + room)) w.
Proof.
  intros Hs Hc HU HU'. pose proof (room_nonneg (I := I) (c := c)).
  pose proof (get_range c_tag (drop 3 b) eq_refl) as Hr. unfold handle_completion.
  apply wp_bind. unfold wp at 1. rewrite (run_load c cl) by done.
  pose proof (wf_completion_cb cl (client_ok_wf _ _ (inv_lookup _ _ (proj1 Hs) Hc))) as Hl.
  destruct (completion_cb cl !! Z.to_nat _) as [cb|] eqn:Hcb;
    [|apply wp_undefined, HU; apply lookup_ge_None in Hcb; unfold ptr in *; lia].
  assert (cb <> NULL -> callable cb = false -> U) as HU2 by (by apply HU').
  apply lookup_lt_Some in Hcb.
  destruct (Z.eqb_spec cb NULL) as [|Hne].
  { apply wp_ret. eapply upto_mono; [|by eapply steady_upto]. lia. }
  apply wp_bind. destruct (callable cb) eqn:Hcall; [|unfold wp; rewrite no_completion_cb by done; auto]. eapply wp_mono; [|by apply wp_weaken, (completion_cb_safe b n)].
  intros _ w' [Hinv (cl' & Hc' & Hbuf & Hsq)]. apply wp_bind, wp_load; [by exists cl'|].
  intros cl2 Hc2. rewrite Hc' in Hc2. injection Hc2 as <-. pose proof (inv_lookup _ _ Hinv Hc') as Hok.
  change (buffered_tlp cl') with (drop 3 (buf cl')). rewrite Hbuf.
  pose proof (wf_completion_cb _ (client_ok_wf _ _ Hok)).
  rewrite (proj2 (Nat.ltb_lt _ _)) by (unfold ptr in *; lia).
  apply wp_store; [by exists cl'|]. rewrite <-(with_os_id (upd _ _ _)).
  apply upto_upd; [done|by apply set_completion_cb_ok|done].
Qed.

Lemma handle_tlp_safe b n cl w :
  steady I c b n w -> w_clients w !! c = Some cl -> n + room < INT_MAX ->
  (tlp_kind (drop 3 b) = PCIE_TLP_CPLD -> 32 <= (drop 3 b).[c_tag] -> U) ->
  (forall p, called_cb cl (drop 3 b) = Some p -> p <> NULL -> callable p = false -> U) ->
  wp U (handle_tlp c (drop 3 b)) (fun _ => upto I c (n + room + 1)) w.
Proof.
  intros Hs Hc Hn HU HU'. pose proof (room_nonneg (I := I) (c := c)). unfold handle_tlp, called_cb in *.
  destruct (is_kind _ [_; _; _; PCIE_TLP_CR0]).
  { eapply handle_read_safe; [done..|]. intros p Hp. apply HU'. by rewrite Hp. }
  assert (upto I c (n + room + 1) w) as Hup by (eapply upto_mono; [|by eapply steady_upto]; lia).
  destruct (is_kind _ [_; _; _; PCIE_TLP_CW0]).
  { eapply wp_mono; [|eapply handle_write_safe; [done..|intros p Hp; apply HU'; by rewrite Hp]].
    intros ? w'; apply upto_mono. lia. }
  destruct (is_kind _ [PCIE_TLP_CPL]); [by apply wp_ret|].
  destruct (is_kind _ [PCIE_TLP_CPLD]) eqn:Hk; [|by apply wp_ret].
  unfold is_kind in Hk. simpl in Hk. rewrite orb_false_r in Hk. apply Z.eqb_eq in Hk.
  eapply wp_mono; [|eapply handle_completion_safe; eauto]. intros ? w'; apply upto_mono. lia.
Qed.

Lemma receive_tlp_safe n cl w :
  I w -> w_clients w !! c = Some cl -> seqno cl <= n -> n + room < INT_MAX -> (misleads callable cl -> U) ->
  wp U (receive_tlp c) (fun _ => upto I c (n + room + 1)) w.
Proof.
  intros Hinv Hc Hs Hn HU. pose proof (room_nonneg (I := I) (c := c)). unfold receive_tlp. apply wp_bind.
  unfold wp at 1. rewrite (run_load c cl) by done. apply wp_bind.
  destruct (ack_shape c cl w (if pcie_lcrc32_valid (drop t_tlp (buf cl)) then PCIE_DLLP_ACK else PCIE_DLLP_NAK)
    (u16 (Z.lor (Z.shiftl ((drop t_tlp (buf cl)).[dltlp_seqno_hi]) 8)
                ((drop t_tlp (buf cl)).[dltlp_seqno_lo])))) as (r & o & act & E & _); [done|].
  unfold wp at 1. rewrite E. pose proof (inv_lookup _ _ Hinv Hc) as Hok.
  assert (upto I c n (with_os o (upd c (set_active act cl) w))) as Hup
    by (apply upto_upd; [done|by apply set_active_ok|done]).
  case_match; [|apply wp_ret; eapply upto_mono; [|done]; lia].
  rewrite drop_drop. apply (handle_tlp_safe (buf cl) n (set_active act cl)); try done.
  - split; [apply Hup|]. exists (set_active act cl). by rewrite lookup_with_os, lookup_upd.
  - by rewrite lookup_with_os, lookup_upd.
  - intros H1 H2. apply HU. by left.
  - intros p H1 H2 H3. apply HU. right. by exists p.
Qed.

(** *** The operations of the application *)

Lemma read_imp_safe n addr len cb type w :
  upto I c n w -> n < INT_MAX -> 0 <= addr < 2 ^ 64 -> 0 < len -> len + addr mod 4 <= 4096 ->
  is_request type addr -> has_data type = false ->
  wp False (warppipe_read_imp c addr len cb type) (fun _ => upto I c (n + 1)) w.
Proof.
  intros [Hw (cl & Hc & Hs)] Hn Ha Hl Hmax Hreq Ht. pose proof (inv_lookup _ _ Hw Hc) as Hok.
  unfold warppipe_read_imp. apply wp_bind. unfold wp at 1. rewrite (run_load c cl) by done.
  apply wp_bind, wp_store; [by exists cl|]. apply wp_bind.
  eapply wp_mono; [|apply (send_upto n); [|done|reflexivity|by apply read_request_ok]].
  2: { rewrite <-(with_os_id (upd _ _ _)). apply upto_upd; [done|by apply set_read_tag_ok|done]. }
  intros k w' [Hw' (cl' & Hc' & Hs')]. case_match; [by split; [|exists cl']|].
  apply wp_bind. unfold wp at 1. erewrite run_modify by done. apply wp_ret.
  rewrite <-(with_os_id (upd _ _ _)). apply upto_upd; [done| |done].
  by apply set_completion_cb_ok, (inv_lookup w').
Qed.

Lemma write_imp_safe n addr data len type w :
  upto I c n w -> n < INT_MAX -> 0 <= addr < 2 ^ 64 -> 0 < len -> len + addr mod 4 <= 4096 ->
  (Z.to_nat len <= length data)%nat -> is_request type addr -> has_data type = true ->
  wp False (warppipe_write_imp c addr data len type) (fun _ => upto I c (n + 1)) w.
Proof.
  intros [Hw Hcl] Hn Ha Hl Hmax Hd Hreq Ht. pose proof (Z.mod_pos_bound addr 4 ltac:(lia)).
  pose proof (Z.div_pos (len + addr mod 4 + 3) 4 ltac:(lia) ltac:(lia)).
  assert (0 <= write_size addr len) as Hsz by (rewrite write_size_spec; lia).
  destruct (Hmalloc _ (w_os w) Hsz) as (mem & o & Hm). pose proof (malloc_size _ _ _ _ Hsz Hm) as [Hlen _].
  unfold wp at 1. rewrite (write_imp_run c w addr data len type mem o) by (done || lia). apply wp_bind.
  eapply wp_mono; [|apply (send_upto n); [|done|by apply write_tport_proto|by apply write_tport_ok]].
  - intros k w' Hup. by apply wp_ret.
  - split; [by apply (ci_os (c := c) (f := f))|done].
Qed.

Lemma call_safe n a w :
  upto I c n w -> n < INT_MAX -> args_ok a -> wp False (call c a) (fun _ => upto I c (n + 1)) w.
Proof.
  intros Hup Hn Ha. assert (upto I c (n + 1) w) as Hup' by (eapply upto_mono; [|done]; lia).
  pose proof Hup as [Hw (cl & Hc & Hs)]. pose proof (inv_lookup _ _ Hw Hc) as Hok.
  assert (forall cl' (w' : W), w' = upd c cl' w -> client_ok f cl' -> seqno cl' = seqno cl -> upto I c (n + 1) w') as Hupd.
  { intros cl' w' -> ? ?. rewrite <-(with_os_id (upd _ _ _)). apply upto_upd; [done..|lia]. }
  assert (forall x m : Z, 0 < m <= 4093 -> m + x mod 4 <= 4096) as Hmax
    by (intros x m ?; pose proof (Z.mod_pos_bound x 4); lia).
  assert (forall x : Z, 0 <= x < 2 ^ 32 -> is_request PCIE_TLP_CR0 x /\ is_request PCIE_TLP_CW0 x) as Hcfg
    by (intros x ?%is_32bit_small; unfold is_request; auto 10).
  destruct a as [i addr len cb|i addr data len|addr len cb|addr data len|b size i rcb wcb|cb|cb|type s];
    simpl in Ha |- *; unfold length_ok in Ha.
  - unfold warppipe_read. apply wp_bind. unfold wp at 1. rewrite (run_load c cl) by done.
    rewrite (proj2 (Z.ltb_ge i 0)), (proj2 (Z.leb_gt 6 i)) by lia. simpl (_ || _). cbv iota. destruct (_ =? 0); [done|].
    apply read_imp_safe; try done; [by apply (wrap_range 64)|lia|apply Hmax; lia|by left].
  - unfold warppipe_write. apply wp_bind. unfold wp at 1. rewrite (run_load c cl) by done.
    rewrite (proj2 (Z.ltb_ge i 0)), (proj2 (Z.leb_gt 6 i)) by lia. simpl (_ || _). cbv iota. destruct (_ =? 0); [done|].
    apply write_imp_safe; try done; [by apply (wrap_range 64)|lia|apply Hmax; lia|lia|by right; left].
  - destruct (Hcfg addr ltac:(lia)). apply read_imp_safe; try done; [lia|lia|apply Hmax; lia].
  - destruct (Hcfg addr ltac:(lia)). apply write_imp_safe; try done; [lia|lia|apply Hmax; lia|lia].
  - unfold warppipe_register_bar. apply wp_bind. unfold wp at 1. rewrite (run_load c cl) by done.
    rewrite (proj2 (Z.ltb_ge i 0)), (proj2 (Z.leb_gt 6 i)) by lia. simpl (_ || _). cbv iota.
    destruct (negb _); [done|]. destruct (_ || _); [done|]. apply wp_bind, wp_store; [by exists cl|]. apply wp_ret.
    eapply Hupd; [done| |done]. apply with_bar_wf; [done|lia].
  - apply wp_bind. unfold wp at 1, warppipe_register_config0_read_cb. erewrite run_modify by done.
    apply wp_ret. by eapply Hupd; [done|apply set_cfg0_read_cb_ok|].
  - apply wp_bind. unfold wp at 1, warppipe_register_config0_write_cb. erewrite run_modify by done.
    apply wp_ret. by eapply Hupd; [done|apply set_cfg0_write_cb_ok|].
  - destruct (ack_shape c cl w type s) as (r & o & act & E & _); [done|].
    unfold wp. rewrite E. apply upto_upd; [done|by apply set_active_ok|simpl; lia].
Qed.
End Safe.

Section Cases.
Context {os app : Type} `{!SocketIO os} `{!SocketLaws os} `{!Callbacks os app}.
Implicit Types (w : world os app) (c : ptr) (cl : warppipe_client).

(** Reception changes neither the registrations nor the pending completions. *)
Definition tables (cl : warppipe_client) : list (list ptr) * list (list Z) * list ptr * Z :=
  ([bar_read_cb cl; bar_write_cb cl; [cfg0_read_cb cl]; [cfg0_write_cb cl]], [bar cl; bar_size cl],
   completion_cb cl, seqno cl).

(** How far the loop gets. *)
Lemma recv_loop_result fuel c cl len total w :
  w_clients w !! c = Some cl -> client_ok (fd cl) cl -> (Z.to_nat (total - len) <= fuel)%nat ->
  0 <= len -> total <= CLIENT_BUFFER_SIZE ->
  exists o cl' r, recv_loop fuel c len total w = Ret r (with_os o (upd c cl' w)) /\
    client_ok (fd cl) cl' /\ tables cl' = tables cl.
Proof.
  revert cl len w. induction fuel as [|fuel IH]; intros cl len w Hc Hwf Hf H0 Hmax; simpl.
  { destruct (Z.ltb_spec len total); [lia|]. exists (w_os w), cl, true.
    by rewrite upd_id, with_os_id. }
  destruct (Z.ltb_spec len total) as [Hl|].
  2: { exists (w_os w), cl, true. by rewrite upd_id, with_os_id. }
  destruct (sys_recv (fd cl) (total - len) (w_os w)) as [r o] eqn:E. run.
  destruct r as [[|x bs]|]; run.
  1,3: exists o, (set_active false cl), false; by split_and!; [|apply set_active_ok|].
  apply recv_bound in E as [Hb Hok]. pose proof (wf_buf _ (proj1 Hwf)) as Hl'.
  rewrite (recv_store_bind c cl) by (done || lia).
  destruct (IH (filled (Z.to_nat len) (x :: bs) cl) (len + Z.of_nat (length (x :: bs)))
    (upd c (filled (Z.to_nat len) (x :: bs) cl) (with_os o w))) as (o' & cl' & r & E' & Hwf' & Hs');
    [apply lookup_upd|by apply filled_ok|simpl length in *; lia|lia|done|].
  exists o', cl', r. split_and!; [|done..]. rewrite E'.
  by rewrite upd_upd, upd_with_os, with_os_with_os.
Qed.

(** Receiving bytes ends in one of three ways. *)
Lemma client_read_cases c cl w :
  w_clients w !! c = Some cl -> client_ok (fd cl) cl ->
  exists o cl', client_ok (fd cl) cl' /\ tables cl' = tables cl /\
    (warppipe_client_read c w = Ret tt (with_os o (upd c cl' w)) \/
     (warppipe_client_read c w = Aborted (with_os o (upd c cl' w)) /\ oversized cl') \/
     warppipe_client_read c w = receive_tlp c (with_os o (upd c cl' w))).
Proof.
  intros Hc Hwf. unfold warppipe_client_read.
  destruct (sys_recv (fd cl) (1 + sizeof_dllp) (w_os w)) as [r o] eqn:E. run.
  destruct r as [bs|[]]; run.
  2,3: exists o, cl; split_and!; [done..|left; by rewrite upd_id].
  2: exists o, (set_active false cl); by split_and!; [apply set_active_ok| |left].
  apply recv_bound in E as [Hbs Hok]. pose proof (wf_buf _ (proj1 Hwf)) as Hl'.
  unfold sizeof_dllp in Hbs. change CLIENT_BUFFER_SIZE with 4117 in Hl'.
  rewrite !(recv_store_bind c cl) by (done || lia). set (cl1 := filled 0 bs cl).
  assert (client_ok (fd cl) cl1) as Hwf1 by (by apply filled_ok).
  assert (exists o' cl', client_ok (fd cl) cl' /\ tables cl' = tables cl /\
    modify c (set_active false) (upd c cl1 (with_os o w)) = Ret tt (with_os o' (upd c cl' w))) as Hoff.
  { exists o, (set_active false cl1). run. rewrite upd_upd. by split_and!; [apply set_active_ok|..]. }
  assert (exists o' cl', client_ok (fd cl) cl' /\ tables cl' = tables cl /\
    Ret tt (upd c cl1 (with_os o w)) = Ret (A := unit) tt (with_os o' (upd c cl' w))) as Hstay
    by by exists o, cl1.
  destruct Hoff as (o1 & cl2 & ? & ? & Hoff), Hstay as (o3 & cl3 & ? & ? & Hstay).
  case_match; [exists o1, cl2; auto|]. run. fold cl1.
  case_match; [exists o3, cl3; split_and!; [done..|left]; by case_match|].
  case_match eqn:Hp; [|exists o1, cl2; auto]. apply Z.eqb_eq in Hp. case_match; [exists o1, cl2; auto|].
  case_match eqn:Hfit.
  { exists o, cl1. apply negb_true_iff, Z.leb_gt in Hfit. split_and!; [done..|]. right. left. by repeat split. }
  apply negb_false_iff, Z.leb_le in Hfit.
  destruct (recv_loop_result (Z.to_nat (tlp_total_length (buffered_tlp cl1) + (1 + sizeof_dllp))) c cl1
    (1 + sizeof_dllp) (tlp_total_length (buffered_tlp cl1) + (1 + sizeof_dllp))
    (upd c cl1 (with_os o w))) as (o' & cl' & r & E' & Hwf' & Hs');
    [apply lookup_upd|done|unfold sizeof_dllp; lia|unfold sizeof_dllp; lia|done|].
  exists o', cl'. split_and!; [done..|]. unfold bind. rewrite E', upd_upd, upd_with_os, with_os_with_os.
  destruct r; auto.
Qed.

(** The reception at [w] ends with a packet that misleads the client. *)
Definition misled (callable : ptr -> bool) c w : Prop :=
  exists o cl cl', w_clients w !! c = Some cl /\ tables cl' = tables cl /\
    warppipe_client_read c w = receive_tlp c (with_os o (upd c cl' w)) /\ misleads callable cl'.

(** A reception that starts at [w] aborts in [w']: in a callback, or because it has
    received the header of a TLP that does not fit in the buffer. *)
Definition read_aborted c w (w' : world os app) : Prop :=
  callback_aborted w' \/
  exists o cl cl', w_clients w !! c = Some cl /\ tables cl' = tables cl /\ oversized cl' /\ w' = with_os o (upd c cl' w).
End Cases.

Lemma tables_seqno cl cl' : tables cl' = tables cl -> seqno cl' = seqno cl.
Proof. by intros [=]. Qed.

(** What the application does with a connection. *)
Inductive operation := Call (a : api) | Receive.
Definition operation_ok (x : operation) : Prop := match x with Call a => args_ok a | Receive => True end.

Section Operations.
Context {os app : Type} `{!SocketIO os} `{!Callbacks os app}.

Definition run_operation (c : ptr) (x : operation) : M (world os app) unit :=
  match x with Call a => call c a ;; ret tt | Receive => warppipe_client_read c end.
Fixpoint run_operations (c : ptr) (xs : list operation) : M (world os app) unit :=
  match xs with [] => ret tt | x :: xs => run_operation c x ;; run_operations c xs end.
End Operations.

Section Reception.
Context {os app : Type} `{!SocketIO os} `{!SocketLaws os} `{!Callbacks os app}.
Context (Hmalloc : malloc_succeeds os).
Context (I : world os app -> Prop) (c : ptr) (f : Z) (HI : ClientInvariant c f I).
Context (callable : ptr -> bool) (room : Z) `{!CallbacksSafe I c callable room}.
Implicit Types (w : world os app) (cl : warppipe_client).

Lemma client_read_defined cl w :
  I w -> w_clients w !! c = Some cl -> seqno cl + room < INT_MAX ->
  match warppipe_client_read c w with
  | Ret _ w' => upto I c (seqno cl + room + 1) w'
  | Aborted w' => read_aborted c w w'
  | NoFuel => False
  | Undefined => misled callable c w
  end.
Proof.
  intros Hinv Hc Hs. pose proof (inv_lookup I c f HI _ _ Hinv Hc) as Hok.
  pose proof (room_nonneg (I := I) (c := c) (callable := callable) (room := room)).
  assert (fd cl = f) as <- by apply Hok.
  destruct (client_read_cases c cl w Hc Hok) as (o & cl' & Hok' & Ht & [E|[[E Hov]|E]]).
  - rewrite E. apply (upto_upd I c (fd cl) HI); [done..|]. rewrite (tables_seqno _ _ Ht). lia.
  - rewrite E. right. by exists o, cl, cl'.
  - assert (upto I c (seqno cl) (with_os o (upd c cl' w))) as Hup
      by (apply (upto_upd I c (fd cl) HI); [done..|]; by rewrite (tables_seqno _ _ Ht)).
    pose proof (receive_tlp_safe Hmalloc I c (fd cl) HI callable room (misleads callable cl') (seqno cl) cl'
      (with_os o (upd c cl' w)) (proj1 Hup) (lookup_upd _ _ _)
      ltac:(rewrite (tables_seqno _ _ Ht); lia) ltac:(done) ltac:(done)) as Hsafe.
    unfold wp in Hsafe. destruct (warppipe_client_read c w) eqn:E'; rewrite <-E in Hsafe; try done.
    + left. eapply (aborts_receive callback_aborted); [done|]. by rewrite <-E.
    + exists o, cl, cl'. by rewrite E'.
Qed.

Lemma run_operation_safe n x w :
  upto I c n w -> n + room < INT_MAX -> operation_ok x ->
  match run_operation c x w with
  | Ret _ w' => upto I c (n + (room + 1)) w'
  | Aborted w' => x = Receive /\ read_aborted c w w'
  | NoFuel => False
  | Undefined => x = Receive /\ misled callable c w
  end.
Proof.
  intros Hup Hn Hx. pose proof (room_nonneg (I := I) (c := c) (callable := callable) (room := room)).
  pose proof Hup as [Hw (cl & Hc & Hs)]. destruct x as [a|]; simpl.
  - pose proof (call_safe Hmalloc I c f HI n a w Hup ltac:(lia) Hx) as Hcall. unfold wp in Hcall.
    pose proof (aborts_call c a (fun _ => False) w) as Hab. unfold bind.
    destruct (call c a w); try done; [|by destruct (Hab _ eq_refl)]. eapply upto_mono; [|done]. lia.
  - pose proof (client_read_defined cl w Hw Hc ltac:(lia)) as Hread.
    destruct (warppipe_client_read c w); try done. eapply upto_mono; [|done]. lia.
Qed.

(** The first operation that does not return is a reception. *)
Lemma run_operations_safe xs : forall n w,
  upto I c n w -> n + Z.of_nat (length xs) * (room + 1) <= INT_MAX -> Forall operation_ok xs ->
  match run_operations c xs w with
  | Ret _ w' => I w'
  | Aborted w' => exists pre post w1, xs = pre ++ Receive :: post /\
      run_operations c pre w = Ret tt w1 /\ I w1 /\ read_aborted c w1 w'
  | NoFuel => False
  | Undefined => exists pre post w1, xs = pre ++ Receive :: post /\
      run_operations c pre w = Ret tt w1 /\ I w1 /\ misled callable c w1
  end.
Proof.
  pose proof (room_nonneg (I := I) (c := c) (callable := callable) (room := room)).
  induction xs as [|x xs IH]; intros n w Hup Hn Hx; [apply Hup|].
  apply Forall_cons_1 in Hx as [Hx Hxs]. simpl length in Hn. simpl run_operations.
  pose proof (run_operation_safe n x w Hup ltac:(lia) Hx) as H1. unfold bind.
  destruct (run_operation c x w) as [[] w1|w1| |] eqn:E; try done.
  - specialize (IH _ _ H1 ltac:(lia) Hxs).
    destruct (run_operations c xs w1); try done; destruct IH as (pre & post & w2 & -> & E2 & Hi & Ha);
      exists (x :: pre), post, w2; simpl; unfold bind; rewrite E; by split_and!.
  - destruct H1 as [-> H1]. exists [], xs, w. split_and!; [done..|apply Hup|done].
  - destruct H1 as [-> H1]. exists [], xs, w. split_and!; [done..|apply Hup|done].
Qed.
End Reception.

(** C5. Whatever bytes arrive, [warppipe_client_read] on a well-formed client ends,
    keeps it well formed and uses at most [room + 1] sequence numbers.  It aborts in a
    callback, or with the header of a TLP that is larger than the buffer, stored
    before anything else changed.  It is undefined in one case: the packet it received
    is a completion with data whose tag is 32 or more, or goes to a callback pointer
    that was never set.  This holds where [malloc] succeeds, [room + 1] sequence
    numbers are left below [INT_MAX], and the callbacks have defined behaviour, leave
    the receive buffer alone, store no more bytes than they were asked for and send no
    more than [room] TLPs on the connection. *)
Theorem client_read_safe {os app : Type} `{!SocketIO os} `{!SocketLaws os} `{!Callbacks os app}
    (c : ptr) (f : Z) (callable : ptr -> bool) (room : Z)
    `{!CallbacksSafe (inv (os := os) (app := app) c f) c callable room}
    (cl : warppipe_client) (w : world os app) :
  malloc_succeeds os -> inv c f w -> w_clients w !! c = Some cl -> seqno cl + room < INT_MAX ->
  match warppipe_client_read c w with
  | Ret _ w' => upto (inv c f) c (seqno cl + room + 1) w'
  | Aborted w' => read_aborted c w w'
  | NoFuel => False
  | Undefined => misled callable c w
  end.
Proof. intros Hm Hinv Hc Hs. by apply (client_read_defined Hm (inv c f) c f _). Qed.

(** C7. Any sequence of calls of the application and receptions on a connection keeps
    its client well formed and ends, as long as the arguments are in range, [malloc]
    succeeds, the callbacks are safe (as for [client_read_safe]) and the sequence
    numbers last.  Calls of the application are always defined and never abort.  What
    stops a sequence is a reception that starts with a well-formed client: it aborts,
    or a packet misleads it, in the ways of [client_read_safe]. *)
Theorem client_invariant {os app : Type} `{!SocketIO os} `{!SocketLaws os} `{!Callbacks os app}
    (c : ptr) (f : Z) (callable : ptr -> bool) (room : Z)
    `{!CallbacksSafe (inv (os := os) (app := app) c f) c callable room}
    (xs : list operation) (cl : warppipe_client) (w : world os app) :
  malloc_succeeds os -> inv c f w -> w_clients w !! c = Some cl ->
  seqno cl + Z.of_nat (length xs) * (room + 1) <= INT_MAX -> Forall operation_ok xs ->
  match run_operations c xs w with
  | Ret _ w' => inv c f w'
  | Aborted w' => exists pre post w1, xs = pre ++ Receive :: post /\
      run_operations c pre w = Ret tt w1 /\ inv c f w1 /\ read_aborted c w1 w'
  | NoFuel => False
  | Undefined => exists pre post w1, xs = pre ++ Receive :: post /\
      run_operations c pre w = Ret tt w1 /\ inv c f w1 /\ misled callable c w1
  end.
Proof.
  intros Hm Hinv Hc Hs Hx. apply (run_operations_safe Hm (inv c f) c f _ callable room _ (seqno cl)); [|done..].
  split; [done|by exists cl].
Qed.

(** ** The properties on the concrete environment *)

#[export] Instance sim_callbacks_keep (c : ptr) (f : Z) :
  CallbacksKeep (inv (os := sim_os) (app := list event) c f).
Proof. constructor; intros; intros w Hw; exact Hw. Qed.

(** Every pointer of the concrete application can be called, and none sends. *)
#[export] Instance sim_callbacks_safe (c : ptr) (f : Z) :
  CallbacksSafe (inv (os := sim_os) (app := list event) c f) c (fun _ => true) 0.
Proof.
  constructor; intros; try done; rewrite ?Z.add_0_r; try assumption.
  unfold wp. simpl. split; [assumption|].
  destruct (900 <=? cb); simpl; [lia|]. rewrite length_fmap, length_seqZ. lia.
Qed.

Lemma sim_inv segs : inv 7 3 (sim_world segs).
Proof.
  split; [|by exists example_client]. unfold sim_world. cbn [w_clients].
  apply map_Forall_singleton, example_client_wf.
Qed.

Lemma sim_client segs : w_clients (sim_world segs) !! 7 = Some example_client.
Proof. done. Qed.

(** A read and a write of the application between two receptions. *)
Definition example_operations : list operation :=
  [Call (Read 1 0x13 5 200); Receive; Call (Write 1 0x10 [1; 2; 3] 3); Receive].

Lemma client_invariant_witness :
  match run_operations 7 example_operations (sim_world [example_packet]) with
  | Ret _ w' => inv 7 3 w'
  | Aborted w' => exists pre post w1, example_operations = pre ++ Receive :: post /\
      run_operations 7 pre (sim_world [example_packet]) = Ret tt w1 /\ inv 7 3 w1 /\ read_aborted 7 w1 w'
  | NoFuel => False
  | Undefined => exists pre post w1, example_operations = pre ++ Receive :: post /\
      run_operations 7 pre (sim_world [example_packet]) = Ret tt w1 /\ inv 7 3 w1 /\ misled (fun _ => true) 7 w1
  end.
Proof.
  apply (client_invariant 7 3 (fun _ => true) 0 example_operations example_client (sim_world [example_packet])
    sim_malloc_succeeds); [apply sim_inv|apply sim_client|vm_compute; discriminate|].
  repeat (constructor; [first [exact I | simpl; unfold length_ok; lia]|]). constructor.
Defined.

Lemma client_read_safe_witness :
  match warppipe_client_read 7 (sim_world [example_packet]) with
  | Ret _ w' => upto (inv 7 3) 7 1 w'
  | Aborted w' => read_aborted 7 (sim_world [example_packet]) w'
  | NoFuel => False
  | Undefined => misled (fun _ => true) 7 (sim_world [example_packet])
  end.
Proof.
  apply (client_read_safe 7 3 (fun _ => true) 0 example_client (sim_world [example_packet]) sim_malloc_succeeds);
    [apply sim_inv|apply sim_client|reflexivity].
Defined.
