(* ===== verification/Server.v ===== *)
(** * The server ([src/server.c], [inc/warppipe/server.h])

    Connections of a process: accepting them, multiplexing over [select],
    removing the ones marked for removal.  Every function of [server.c], in
    the order of the source.  The operating system's part is the class
    [ServerIO].  Logging is left out. *)

From S2P Require Import Prelude Layout Proto Crc World Client Wire Logic Bars Sim ClientSpec Receive ClientInv.

(** [FD_SETSIZE] *)
Definition FD_SETSIZE : Z := 1024.
(** [sizeof(struct warppipe_client_node)]: three pointers. *)
Definition sizeof_client_node : Z := 24.

(** An entry of the list that [getaddrinfo] returns. *)
Definition addrinfo := Z.

Inductive sockopt := SO_REUSEADDR | SO_REUSEPORT | TCP_NODELAY.

(** System calls that return an [int]; [Signal h] is [signal(SIGINT, h)], which returns
    the previous disposition. *)
Inductive syscall :=
  | Accept (fd : Z)
  | Getnameinfo (fd : Z)
  | Close (fd : Z)
  | Socket (rp : addrinfo)
  | Setsockopt (fd : Z) (opt : sockopt)
  | Bind (fd : Z) (rp : addrinfo)
  | Connect (fd : Z) (rp : addrinfo)
  | Listen (fd backlog : Z)
  | Getsockname (fd : Z)
  | Getpeername (fd : Z)
  | SetNonblock (fd : Z)
  | Signal (handler : ptr).

Class ServerIO (os : Type) := {
  sys : syscall -> os -> Z * os;
  (** [getaddrinfo(host, port, {family, passive})]: [None] on failure *)
  sys_getaddrinfo : option string -> string -> Z -> bool -> os -> option (list addrinfo) * os;
  (** [select(nfds, set, NULL, NULL, 1s)]: the set it leaves *)
  sys_select : Z -> gset Z -> os -> gset Z * os;
  (** [malloc(sizeof(struct warppipe_client))], given the addresses in use:
      the address and the indeterminate contents *)
  sys_new_client : gset ptr -> os -> option (ptr * warppipe_client) * os;
}.

Class ServerCallbacks (os app : Type) := {
  call_accept_cb : ptr -> ptr -> ptr -> M (world os app) unit;
}.

(** Dispositions of a signal; the last stands for the address of [handle_sigint]. *)
Definition SIG_DFL : ptr := 0.
Definition SIG_IGN : ptr := 1.
Definition HANDLE_SIGINT : ptr := 2.

(** What [handle_sigint] ends with: nothing, raising the signal again under its
    default action, which ends the process, or a call of the previous handler. *)
Inductive sigint_end := Ignored | Raised | Called (handler : ptr).

Section Server.
Context {os app : Type} `{!SocketIO os} `{!Callbacks os app}
  `{!ServerIO os} `{!ServerCallbacks os app}.
#[local] Abbreviation P := (M (world os app)).

Definition modify_server (f : warppipe_server -> warppipe_server) : P unit :=
  let! s := get_server in put_server (f s).

(** [free(client)] *)
Definition free_client (c : ptr) : P unit := fun w => Ret tt (with_clients (delete c) w).

Definition track_max_fd (new_fd : Z) : P unit :=
  let! s := get_server in
  if s_max_fd s <? new_fd then put_server (set_max_fd new_fd s) else ret tt.

Definition should_disconnect_client (client : warppipe_client) : bool := negb (active client).

(** The loop over the nodes; [TAILQ_NEXT] is read before the node is freed. *)
Fixpoint disconnect_from (condition : option (warppipe_client -> bool)) (nodes : list ptr) : P unit :=
  match nodes with
  | [] => ret tt
  | i :: tmp =>
      let! client := load i in
      (if match condition with None => true | Some f => f client end then
         os_call (sys (Close (fd client))) ;;
         free_client i ;;
         modify_server (fun s => set_clients (filter (fun j => j <> i) (s_clients s)) s) ;;
         let! s := get_server in
         if negb (s_listen s) then put_server (set_quit true s) else ret tt
       else ret tt) ;;
      disconnect_from condition tmp
  end.

Definition warppipe_server_disconnect_clients (condition : option (warppipe_client -> bool)) : P unit :=
  let! s := get_server in disconnect_from condition (s_clients s).

Definition handle_sigint : P sigint_end :=
  let! st := get_statics in
  if sigint_handler st =? SIG_IGN then ret Ignored
  else
    (if pcie_server st then
       modify_server (set_quit true) ;;
       warppipe_server_disconnect_clients None ;;
       let! s := get_server in
       os_call (sys (Close (s_fd s))) ;; ret tt
     else ret tt) ;;
    if sigint_handler st =? SIG_DFL then os_call (sys (Signal SIG_DFL)) ;; ret Raised
    else ret (Called (sigint_handler st)).

(** A signal with the calls that follow: the previous handler is [handle_sigint]
    itself when a server was created twice.  Any other handler is not in [src]. *)
Fixpoint deliver_sigint (fuel : nat) : P sigint_end :=
  match fuel with
  | O => no_fuel
  | S fuel =>
      let! e := handle_sigint in
      match e with
      | Called handler => if handler =? HANDLE_SIGINT then deliver_sigint fuel else ret e
      | _ => ret e
      end
  end.

(** [FD_ISSET] and [FD_SET], undefined outside the set. *)
Definition fd_isset (f : Z) : P bool :=
  let! s := get_server in
  if (f <? 0) || (FD_SETSIZE <=? f) then undefined else ret (bool_decide (f ∈ s_read_fds s)).
Definition fd_set (f : Z) : P unit :=
  if (f <? 0) || (FD_SETSIZE <=? f) then undefined
  else modify_server (fun s => set_read_fds ({[f]} ∪ s_read_fds s) s).

(** The successor of a node in the queue as it is now; a node that left the
    queue was freed. *)
Fixpoint tailq_next (i : ptr) (nodes : list ptr) : option (option ptr) :=
  match nodes with
  | [] => None
  | j :: nodes => if i =? j then Some (head nodes) else tailq_next i nodes
  end.

(** [TAILQ_FOREACH]: the callbacks that a read runs may change the queue. *)
Fixpoint server_read_from (fuel : nat) (node : option ptr) : P unit :=
  match node with
  | None => ret tt
  | Some i =>
      match fuel with
      | O => no_fuel
      | S fuel =>
          let! client := load i in
          let! b := fd_isset (fd client) in
          (if b then warppipe_client_read i else ret tt) ;;
          let! s := get_server in
          match tailq_next i (s_clients s) with
          | None => undefined
          | Some next => server_read_from fuel next
          end
      end
  end.

Definition server_read : P unit :=
  let! s := get_server in server_read_from (length (s_clients s)) (head (s_clients s)).

(** Allocation of a client: a new address in the store. *)
Definition new_client : P (option ptr) := fun w =>
  let '(r, o) := sys_new_client (dom (w_clients w)) (w_os w) in
  match r with
  | None => Ret None (with_os o w)
  | Some (p, cl) => Ret (Some p) (upd p cl (with_os o w))
  end.

(** The descriptor of the next connection, or [-1]. *)
Definition accept_fd : P Z :=
  let! s := get_server in
  if s_listen s then
    let! f := os_call (sys (Accept (s_fd s))) in
    if f =? -1 then ret (-1)
    else
      let! r := os_call (sys (Getnameinfo f)) in
      if negb (r =? 0) then ret (-1) else ret f
  else
    if negb (bool_decide (s_clients s = [])) then ret (-1) else ret (s_fd s).

Definition server_accept : P Z :=
  let! f := accept_fd in
  if f =? -1 then ret (-1)
  else
    let! c := new_client in
    match c with
    | None => ret (-1)
    | Some c =>
        let! node := os_call (sys_malloc sizeof_client_node) in
        match node with
        | None => free_client c ;; ret (-1)
        | Some _ =>
            warppipe_client_create c f ;;
            modify_server (fun s => set_clients (s_clients s ++ [c]) s) ;;
            let! s := get_server in
            (if negb (s_accept_cb s =? NULL)
             then call_accept_cb (s_accept_cb s) c (s_private_data s) else ret tt) ;;
            track_max_fd f ;;
            ret 0
        end
    end.

Definition warppipe_server_register_accept_cb (cb : ptr) : P unit := modify_server (set_accept_cb cb).

(** One entry of the address list. [Some (Some fd)]: connected or bound;
    [Some None]: try the next; [None]: give up with [-1]. *)
Definition try_address (rp : addrinfo) : P (option (option Z)) :=
  let! s := get_server in
  let! sfd := os_call (sys (Socket rp)) in
  if sfd =? -1 then ret (Some None)
  else
    let! r := os_call (sys (Setsockopt sfd SO_REUSEADDR)) in
    if negb (r =? 0) then ret None
    else
      let! r := os_call (sys (Setsockopt sfd SO_REUSEPORT)) in
      if negb (r =? 0) then ret None
      else
        os_call (sys (Setsockopt sfd TCP_NODELAY)) ;;
        let! r := os_call (sys (if s_listen s then Bind sfd rp else Connect sfd rp)) in
        if negb (r =? -1) then
          let! r := if s_listen s then os_call (sys (Listen sfd SERVER_LISTEN_QUEUE_SIZE)) else ret 0 in
          if s_listen s && (r =? -1) then ret None
          else
            let! r := os_call (sys (if s_listen s then Getsockname sfd else Getpeername sfd)) in
            if negb (r =? 0) then ret None
            else
              let! r := os_call (sys (Getnameinfo sfd)) in
              if negb (r =? 0) then ret None else ret (Some (Some sfd))
        else
          os_call (sys (Close sfd)) ;;
          ret (Some None).

Fixpoint try_addresses (rps : list addrinfo) : P (option Z) :=
  match rps with
  | [] => ret None
  | rp :: rps =>
      let! r := try_address rp in
      match r with
      | None => ret None
      | Some (Some sfd) => ret (Some sfd)
      | Some None => try_addresses rps
      end
  end.

Definition warppipe_server_create : P Z :=
  let! st := get_statics in
  put_statics (mk_static true (sigint_handler st)) ;;
  let! s := get_server in
  let! result := os_call (sys_getaddrinfo (s_host s) (s_port s) (s_addr_family s) (s_listen s)) in
  match result with
  | None => ret (-1)
  | Some rps =>
      let! r := try_addresses rps in
      match r with
      | None => ret (-1)
      | Some sfd =>
          modify_server (set_fds sfd sfd) ;;
          os_call (sys (SetNonblock sfd)) ;;
          modify_server (set_clients []) ;;
          (if negb (s_listen s) then server_accept ;; ret tt else ret tt) ;;
          let! handler := os_call (sys (Signal HANDLE_SIGINT)) in
          let! st := get_statics in
          put_statics (mk_static (pcie_server st) handler) ;;
          ret 0
      end
  end.

Fixpoint set_client_fds (nodes : list ptr) : P unit :=
  match nodes with
  | [] => ret tt
  | i :: nodes => let! client := load i in fd_set (fd client) ;; set_client_fds nodes
  end.

Definition warppipe_server_loop : P unit :=
  modify_server (set_read_fds ∅) ;;
  let! s := get_server in
  fd_set (s_fd s) ;;
  set_client_fds (s_clients s) ;;
  let! s := get_server in
  let! fds := os_call (sys_select (s_max_fd s + 1) (s_read_fds s)) in
  modify_server (set_read_fds fds) ;;
  let! b := fd_isset (s_fd s) in
  (if b then server_accept ;; ret tt else ret tt) ;;
  server_read ;;
  warppipe_server_disconnect_clients (Some should_disconnect_client).
End Server.
