(* ===== verification/ServerSpec.v ===== *)
(** * Correctness of the server

    The list of connections, the heap of client structures and the descriptor
    bookkeeping stay consistent through accepting, reading and disconnecting,
    and an iteration of the loop leaves no dead connection behind. *)

From S2P Require Import Prelude Layout Proto Crc World Client Wire Logic Aborts Bars Sim ClientSpec Receive ClientInv Server.

(** ** Invariant *)

(** The nodes are distinct and are exactly the allocated clients; these are well
    formed; [max_fd] bounds every descriptor that [select] has to watch, except
    that of the client [e] that is being accepted, and descriptors fit in an
    [fd_set]. *)
Record server_inv_but {os app : Type} (e : option ptr) (w : world os app) : Prop := {
  si_nodup : NoDup (s_clients (w_server w));
  si_heap : forall c, (c ∈ s_clients (w_server w)) <-> is_Some (w_clients w !! c);
  si_wf : map_Forall (fun _ => client_wf) (w_clients w);
  si_fds : map_Forall (fun c cl => 0 <= fd cl < FD_SETSIZE /\
             (e <> Some c -> fd cl <= s_max_fd (w_server w))) (w_clients w);
  si_fd : 0 <= s_fd (w_server w) <= s_max_fd (w_server w);
  si_max : s_max_fd (w_server w) < FD_SETSIZE;
}.
Definition server_inv {os app : Type} (w : world os app) : Prop := server_inv_but None w.

(** What the C types say of the memory of a fresh client. *)
Record client_memory (cl : warppipe_client) : Prop := {
  mem_completion_cb : length (completion_cb cl) = 32%nat;
  mem_buf : length (buf cl) = Z.to_nat CLIENT_BUFFER_SIZE;
  mem_buf_bytes : bytes_ok (buf cl);
}.

(** What the operating system promises: descriptors of accepted connections fit
    in an [fd_set] (the process's limit is 1024), so do those of sockets, and [malloc] returns memory
    that is not in use. *)
Class ServerLaws (os : Type) `{ServerIO os} : Prop := {
  accept_range : forall f o r o', sys (Accept f) o = (r, o') -> r = -1 \/ 0 <= r < FD_SETSIZE;
  socket_range : forall rp o r o', sys (Socket rp) o = (r, o') -> r = -1 \/ 0 <= r < FD_SETSIZE;
  new_client_fresh : forall used o p cl o',
    sys_new_client used o = (Some (p, cl), o') -> (p ∉ used) /\ client_memory cl;
}.

Lemma client_created_ok f cl : client_memory cl -> client_ok f (client_created f cl).
Proof.
  intros []. split; [|done].
  constructor; simpl; first [done | unfold INT_MAX; lia | repeat constructor; lia].
Qed.

Section ServerSpec.
Context {os app : Type} `{!SocketIO os} `{!Callbacks os app}
  `{!ServerIO os} `{!ServerCallbacks os app}.
#[local] Abbreviation W := (world os app).
Implicit Types (w : W) (c : ptr) (cl : warppipe_client).

(** ** Disconnecting *)

Definition doomed (condition : option (warppipe_client -> bool)) (w : W) (c : ptr) : bool :=
  match w_clients w !! c with
  | Some cl => match condition with None => true | Some f => f cl end
  | None => false
  end.

(** The descriptors of these clients, closed in order. *)
Definition close_all (w : W) (cs : list ptr) : os :=
  foldl (fun o c => match w_clients w !! c with Some cl => (sys (Close (fd cl)) o).2 | None => o end)
    (w_os w) cs.

(** The world after the clients among [nodes] that meet the condition are gone. *)
Definition disconnected (condition : option (warppipe_client -> bool)) (nodes : list ptr) (w : W) : W :=
  let gone := filter (fun c => doomed condition w c = true) nodes in
  let s := w_server w in
  mk_world _ _ (close_all w gone)
    (set_quit (s_quit s || (negb (s_listen s) && negb (bool_decide (gone = []))))
      (set_clients (filter (fun c => c ∉ gone) (s_clients s)) s))
    (filter (fun '(c, _) => c ∉ gone) (w_clients w)) (w_app w) (w_static w).

Lemma filter_ext_elem {A} (P Q : A -> Prop) `{!forall x, Decision (P x), !forall x, Decision (Q x)}
    (l : list A) :
  (forall x, x ∈ l -> (P x <-> Q x)) -> filter P l = filter Q l.
Proof.
  induction l as [|x l IH]; intros HPQ; [done|].
  destruct (decide (P x)) as [Hx|Hx].
  - rewrite !filter_cons_True; [|apply HPQ; [by left|done]|done]. rewrite IH; [done|].
    intros y Hy. apply HPQ. by right.
  - rewrite !filter_cons_False; [|rewrite <-HPQ; [done|by left]|done]. apply IH.
    intros y Hy. apply HPQ. by right.
Qed.

Lemma filter_all {A} (P : A -> Prop) `{!forall x, Decision (P x)} (l : list A) :
  (forall x, P x) -> filter P l = l.
Proof. intros HP. induction l as [|x l IH]; [done|]. by rewrite filter_cons_True, IH. Qed.

(** The world after the node [i] of client [cl] is gone. *)
Definition disconnect1 (i : ptr) (cl : warppipe_client) (w : W) : W :=
  let s := set_clients (filter (fun j => j <> i) (s_clients (w_server w))) (w_server w) in
  mk_world _ _ (sys (Close (fd cl)) (w_os w)).2
    (if negb (s_listen s) then set_quit true s else s) (delete i (w_clients w)) (w_app w) (w_static w).

Lemma disconnected_cons condition i nodes cl w :
  i ∉ nodes -> w_clients w !! i = Some cl -> doomed condition w i = true ->
  disconnected condition nodes (disconnect1 i cl w) = disconnected condition (i :: nodes) w.
Proof.
  intros Hi Hc Hd. unfold disconnected.
  assert (filter (fun c => doomed condition (disconnect1 i cl w) c = true) nodes =
          filter (fun c => doomed condition w c = true) nodes) as ->.
  { apply filter_ext_elem. intros c Hin. unfold doomed, disconnect1. simpl.
    by rewrite lookup_delete_ne by set_solver. }
  rewrite filter_cons_True by done.
  set (gone := filter (fun c => doomed condition w c = true) nodes).
  assert (forall c, c ∈ gone -> c <> i) as Hg.
  { intros c Hin. apply list_elem_of_filter in Hin as [_ Hin]. set_solver. }
  f_equal.
  - unfold close_all. simpl. rewrite Hc. generalize (sys (Close (fd cl)) (w_os w)).2. intros o.
    clear -Hg. revert o. induction gone as [|c gone IH]; intros o; [done|]. simpl.
    rewrite lookup_delete_ne by (apply not_eq_sym, Hg; by left). apply IH.
    intros c' Hc'. apply Hg. by right.
  - unfold disconnect1, set_quit, set_clients. simpl. destruct (s_listen (w_server w)) eqn:E; simpl;
      rewrite list_filter_filter, ?E; simpl; rewrite ?orb_true_r; f_equal;
      apply list_filter_iff; intros x; rewrite not_elem_of_cons; tauto.
  - apply map_eq. intros k. apply option_eq. intros x. unfold disconnect1. simpl.
    rewrite !map_lookup_filter_Some, lookup_delete_Some, not_elem_of_cons. naive_solver.
Qed.

Lemma disconnect_from_spec condition nodes : forall w,
  NoDup nodes -> (forall c, c ∈ nodes -> is_Some (w_clients w !! c)) ->
  disconnect_from condition nodes w = Ret tt (disconnected condition nodes w).
Proof.
  induction nodes as [|i nodes IH]; intros w Hnd Hal.
  - unfold disconnected, ret. simpl. f_equal. destruct w as [o s m a t], s; simpl.
    unfold ret, close_all, set_quit, set_clients. simpl. f_equal.
    + rewrite filter_all by (intros; apply not_elem_of_nil). by rewrite andb_false_r, orb_false_r.
    + symmetry. apply map_filter_id. intros. apply not_elem_of_nil.
  - pose proof (NoDup_cons_1_1 _ _ Hnd) as Hi. pose proof (NoDup_cons_1_2 _ _ Hnd) as Hnd'.
    destruct (Hal i) as [cl Hc]; [by left|]. simpl. run.
    destruct (doomed condition w i) eqn:Hd; pose proof Hd as Hd'; unfold doomed in Hd'; rewrite Hc in Hd'.
    + rewrite Hd'. destruct (sys (Close (fd cl)) (w_os w)) as [r o] eqn:E.
      rewrite <-(disconnected_cons condition i nodes cl w) by done.
      rewrite <-IH; [|done|].
      * unfold disconnect1. rewrite E. simpl. run. unfold bind, free_client, modify_server, get_server, put_server. simpl.
        by destruct (s_listen (w_server w)).
      * intros c Hin. unfold disconnect1. simpl. rewrite lookup_delete_ne by set_solver.
        apply Hal. by right.
    + rewrite Hd'. erewrite bind_Ret by reflexivity.
      rewrite IH; [|done|intros c Hin; apply Hal; by right].
      unfold disconnected. rewrite filter_cons_False; [done|]. by rewrite Hd.
Qed.
Lemma doomed_gone condition (nodes : list ptr) w c :
  c ∈ nodes -> ((c ∉ filter (fun c => doomed condition w c = true) nodes) <-> doomed condition w c = false).
Proof.
  intros Hc. rewrite list_elem_of_filter. destruct (doomed condition w c); naive_solver.
Qed.

Lemma disconnect_clients_eq condition w :
  server_inv w ->
  warppipe_server_disconnect_clients condition w =
  Ret tt (disconnected condition (s_clients (w_server w)) w).
Proof.
  intros [Hnd Hh _ _ _ _]. unfold warppipe_server_disconnect_clients.
  erewrite bind_Ret by reflexivity. apply disconnect_from_spec; [done|]. intros c. apply Hh.
Qed.

Lemma disconnected_lookup condition w c cl :
  server_inv w ->
  (w_clients (disconnected condition (s_clients (w_server w)) w) !! c = Some cl <->
   w_clients w !! c = Some cl /\ doomed condition w c = false).
Proof.
  intros [_ Hh _ _ _ _]. simpl. rewrite map_lookup_filter_Some.
  split; intros [Hc Hg]; (split; [done|]); eapply doomed_gone; try done; apply Hh; by exists cl.
Qed.

Lemma disconnected_inv condition w :
  server_inv w -> server_inv (disconnected condition (s_clients (w_server w)) w).
Proof.
  intros Hw. pose proof (disconnected_lookup condition w) as Hl. destruct Hw as [Hnd Hh Hwf Hfds Hfd Hmax].
  constructor; simpl; try done.
  - by apply list.NoDup_filter.
  - intros c. rewrite list_elem_of_filter, Hh. unfold is_Some.
    split; [intros [Hg [cl Hc]]; exists cl; by apply map_lookup_filter_Some|].
    intros [cl [Hc Hg]%map_lookup_filter_Some]. split; [done|by exists cl].
  - intros c cl [Hc _]%map_lookup_filter_Some. by eapply Hwf.
  - intros c cl [Hc _]%map_lookup_filter_Some. by eapply Hfds.
Qed.

(** C25. [warppipe_server_disconnect_clients] removes exactly the clients that
    meet the condition: the queue keeps the others in order, the store keeps
    exactly their structures, unchanged, the descriptors of the removed ones
    are closed once each, in order, and a process that is not listening is
    told to quit exactly if something was removed. *)
Theorem disconnect_clients_spec condition w :
  server_inv w ->
  exists w', warppipe_server_disconnect_clients condition w = Ret tt w' /\ server_inv w' /\
    s_clients (w_server w') = filter (fun c => doomed condition w c = false) (s_clients (w_server w)) /\
    (forall c cl, w_clients w' !! c = Some cl <->
       w_clients w !! c = Some cl /\ doomed condition w c = false) /\
    w_os w' = close_all w (filter (fun c => doomed condition w c = true) (s_clients (w_server w))) /\
    (s_quit (w_server w') = true <->
       s_quit (w_server w) = true \/
       (s_listen (w_server w) = false /\ exists c, c ∈ s_clients (w_server w) /\ doomed condition w c = true)).
Proof.
  intros Hw. exists (disconnected condition (s_clients (w_server w)) w).
  split_and!; [by apply disconnect_clients_eq|by apply disconnected_inv| | |done|].
  - simpl. apply filter_ext_elem. intros c Hc. by apply doomed_gone.
  - intros. by apply disconnected_lookup.
  - simpl. set (gone := filter _ (s_clients (w_server w))).
    rewrite orb_true_iff, andb_true_iff, !negb_true_iff, bool_decide_eq_false.
    assert (gone <> [] <-> exists c, (c ∈ s_clients (w_server w)) /\ doomed condition w c = true) as ->; [|done].
    split.
    + intros Hne. destruct gone as [|c l] eqn:E; [done|]. exists c.
      assert (c ∈ gone) as [Hc Hd]%list_elem_of_filter by (rewrite E; left). done.
    + intros (c & Hc & Hd) E. assert (c ∈ gone) as Hin by (by apply list_elem_of_filter).
      rewrite E in Hin. by apply not_elem_of_nil in Hin.
Qed.

Lemma disconnect_all w :
  server_inv w ->
  let w' := disconnected None (s_clients (w_server w)) w in
  s_clients (w_server w') = [] /\ w_clients w' = ∅ /\ w_os w' = close_all w (s_clients (w_server w)).
Proof.
  intros Hw. assert (forall c, c ∈ s_clients (w_server w) -> doomed None w c = true) as Hd.
  { intros c Hc. apply (si_heap _ _ Hw) in Hc as [cl Hc]. unfold doomed. by rewrite Hc. }
  assert (filter (fun c => doomed None w c = true) (s_clients (w_server w)) = s_clients (w_server w)) as Hall.
  { rewrite (filter_ext_elem _ (fun _ => True)); [by apply filter_all|]. intros c Hc. by rewrite Hd. }
  cbv zeta. split_and!.
  - simpl. rewrite Hall. apply list.elem_of_nil_inv. intros c [? ?]%list_elem_of_filter. done.
  - apply map_eq. intros c. rewrite lookup_empty. apply eq_None_not_Some. intros [cl Hc].
    apply disconnected_lookup in Hc as [Hc Hn]; [|done]. unfold doomed in Hn. by rewrite Hc in Hn.
  - simpl. by rewrite Hall.
Qed.

(** What [handle_sigint] leaves of a process with a server. *)
Definition sigint_closed w : W :=
  let w1 := disconnected None (s_clients (w_server w)) (with_server (set_quit true (w_server w)) w) in
  with_os (sys (Close (s_fd (w_server w))) (w_os w1)).2 w1.

Lemma handle_sigint_run w :
  server_inv w -> sigint_handler (w_static w) <> SIG_IGN -> pcie_server (w_static w) = true ->
  handle_sigint w =
    (if sigint_handler (w_static w) =? SIG_DFL then os_call (sys (Signal SIG_DFL)) ;; ret Raised
     else ret (Called (sigint_handler (w_static w)))) (sigint_closed w) /\
  server_inv (sigint_closed w) /\
  s_quit (w_server (sigint_closed w)) = true /\ s_clients (w_server (sigint_closed w)) = [] /\
  w_clients (sigint_closed w) = ∅ /\
  w_os (sigint_closed w) = (sys (Close (s_fd (w_server w))) (close_all w (s_clients (w_server w)))).2.
Proof.
  intros Hw Hh Hp. set (w0 := with_server (set_quit true (w_server w)) w).
  assert (server_inv w0) as Hw0 by (by destruct Hw).
  destruct (disconnect_all w0 Hw0) as (H1 & H2 & H3).
  pose proof (disconnected_inv None w0 Hw0) as Hinv. unfold sigint_closed. fold w0.
  change (s_clients (w_server w)) with (s_clients (w_server w0)) in *.
  set (w1 := disconnected None (s_clients (w_server w0)) w0) in *. split_and!.
  - unfold handle_sigint. erewrite bind_Ret by reflexivity. rewrite Hp, (proj2 (Z.eqb_neq _ _) Hh).
    erewrite bind_Ret; [reflexivity|]. unfold modify_server, bind at 1 2, get_server, put_server. fold w0.
    unfold bind at 1. rewrite (disconnect_clients_eq None w0 Hw0). fold w1. unfold bind, os_call.
    change (s_fd (w_server w1)) with (s_fd (w_server w)). by destruct (sys _ (w_os w1)).
  - by destruct Hinv.
  - done.
  - exact H1.
  - exact H2.
  - cbn [w_os with_os]. by rewrite H3.
Qed.

Lemma handle_sigint_again w :
  server_inv w -> sigint_handler (w_static w) = HANDLE_SIGINT ->
  exists w', handle_sigint w = Ret (Called HANDLE_SIGINT) w' /\ server_inv w' /\
    sigint_handler (w_static w') = HANDLE_SIGINT.
Proof.
  intros Hw Hh. destruct (pcie_server (w_static w)) eqn:Hp.
  - destruct (handle_sigint_run w Hw) as (E & Hinv & _); [by rewrite Hh|done|].
    rewrite Hh in E. by exists (sigint_closed w).
  - exists w. split_and!; [|done..]. unfold handle_sigint. erewrite bind_Ret by reflexivity.
    by rewrite Hh, Hp.
Qed.


(** ** Reading and accepting *)

(** [J]: an invariant of the application's own state, and of the accept callback it
    registered. *)
Context (J : ptr -> app -> Prop).
#[local] Abbreviation JW w := (J (s_accept_cb (w_server w)) (w_app w)).

(** The invariant while the queue is [l]. *)
Definition srv (l : list ptr) (w : W) : Prop :=
  server_inv w /\ JW w /\ s_clients (w_server w) = l.

(** The invariant while the client at [c], on descriptor [f], is operated on;
    [e] as in [server_inv_but]. *)
Definition sclient (e : option ptr) (l : list ptr) (c : ptr) (f : Z) (w : W) : Prop :=
  server_inv_but e w /\ (JW w /\ s_clients (w_server w) = l) /\ exists cl, w_clients w !! c = Some cl /\ fd cl = f.

#[export] Instance sclient_invariant e l c f : ClientInvariant c f (sclient e l c f).
Proof.
  constructor.
  - intros w (Hw & _ & cl & Hc & Hf). exists cl. split; [done|]. split; [|done]. by apply (si_wf _ _ Hw c).
  - intros w cl ([Hnd Hh Hwf Hfds Hfd Hmax] & [HJ Hl] & cl0 & Hc & Hf) [Hok Hf']. split_and!; [|done..|].
    + constructor; simpl; try done.
      * intros c'. rewrite Hh. destruct (decide (c = c')) as [<-|].
        -- rewrite lookup_insert_eq, Hc. by split; eexists.
        -- by rewrite lookup_insert_ne.
      * by apply map_Forall_insert_2.
      * apply map_Forall_insert_2; [|done]. rewrite Hf', <-Hf. by apply (Hfds c).
    + exists cl. by rewrite lookup_upd.
  - intros w o ([] & [] & ?). by split_and!.
Qed.

(** What the application promises: callbacks leave the queue alone and keep
    the invariants; the accept callback has defined behaviour. *)
Class ServerCallbacksKeep : Prop := {
  client_callbacks_keep :: forall l c f, CallbacksKeep (sclient None l c f);
  accept_cb_keeps : forall e l c f p w, sclient e l c f w ->
    wp False (call_accept_cb (s_accept_cb (w_server w)) c p) (fun _ => sclient e l c f) w;
}.

(** A pass over these connections: each that [select] reported is read from. *)
Definition read_ready (c : ptr) : M W unit :=
  let! client := load c in
  let! b := fd_isset (fd client) in
  if b then warppipe_client_read c else ret tt.
Fixpoint read_each (l : list ptr) : M W unit :=
  match l with [] => ret tt | c :: l => read_ready c ;; read_each l end.

(** A pass over [l] from [w] comes to a read that has undefined behaviour. *)
Definition pass_undefined (l : list ptr) (w : W) : Prop := exists pre c suf w1,
  l = pre ++ c :: suf /\ read_each pre w = Ret tt w1 /\ server_inv w1 /\
  (c ∈ s_clients (w_server w1)) /\ warppipe_client_read c w1 = Undefined.

Context `{!SocketLaws os} `{!ServerLaws os} `{!ServerCallbacksKeep}.

Lemma client_read_srv l c w :
  srv l w -> c ∈ l -> wp (warppipe_client_read c w = Undefined) (warppipe_client_read c) (fun _ => srv l) w.
Proof.
  intros (Hw & HJ & Hl) Hc. pose proof Hc as Hc'. rewrite <-Hl, (si_heap _ _ Hw) in Hc' . destruct Hc' as [cl Hcl].
  pose proof (client_read_keeps (sclient None l c (fd cl)) c (fd cl) _ w) as Hk.
  unfold wp in Hk |- *. destruct (warppipe_client_read c w) as [[] w'| | |] eqn:E; try done.
  - destruct Hk as (Hw' & (? & Hl') & _); [|done]. split_and!; [done..|]. by exists cl.
  - apply Hk. split_and!; [done..|]. by exists cl.
Qed.

Lemma tailq_next_app pre c suf :
  NoDup (pre ++ c :: suf) -> tailq_next c (pre ++ c :: suf) = Some (head suf).
Proof.
  induction pre as [|x pre IH]; simpl; intros Hnd; [by rewrite Z.eqb_refl|].
  pose proof (NoDup_cons_1_1 _ _ Hnd) as Hx. pose proof (NoDup_cons_1_2 _ _ Hnd).
  rewrite (proj2 (Z.eqb_neq _ _)); [by apply IH|]. intros ->. apply Hx. set_solver.
Qed.

Lemma read_ready_spec l c w :
  srv l w -> c ∈ l -> wp (warppipe_client_read c w = Undefined) (read_ready c) (fun _ => srv l) w.
Proof.
  intros Hw Hin. pose proof Hw as (Hinv & _ & Hl). pose proof Hin as Hc. rewrite <-Hl, (si_heap _ _ Hinv) in Hc.
  apply wp_bind, wp_load; [done|]. intros cl Hcl. apply wp_bind. destruct (si_fds _ _ Hinv c cl Hcl) as [Hfd _].
  unfold fd_isset, wp at 1. erewrite bind_Ret by reflexivity.
  rewrite (proj2 (Z.ltb_ge _ _)), (proj2 (Z.leb_gt _ _)) by lia. simpl.
  case_match; [by apply client_read_srv|done].
Qed.

Lemma read_each_spec l suf : forall w,
  srv l w -> suf ⊆ l -> wp (pass_undefined suf w) (read_each suf) (fun _ => srv l) w.
Proof.
  induction suf as [|c suf IH]; intros w Hw Hsub; [by apply wp_ret|].
  pose proof (read_ready_spec l c w Hw ltac:(apply Hsub; by left)) as Hr.
  unfold wp in Hr |- *. simpl. unfold bind.
  destruct (read_ready c w) as [[] w1| | |] eqn:E; try done.
  - apply (wp_undef_mono (pass_undefined suf w1)); [|apply IH; [done|set_solver]].
    intros (pre & c' & suf' & w2 & -> & E2 & ?). exists (c :: pre), c', suf', w2. split; [done|].
    simpl. unfold bind. by rewrite E.
  - exists [], c, suf, w. destruct Hw as (? & _ & ->). split_and!; try done. apply Hsub. by left.
Qed.

(** The loop over the queue, which follows the nodes as they are, is a pass over
    the queue as it was. *)
Lemma server_read_from_eq l suf : forall fuel pre w,
  srv l w -> l = pre ++ suf -> (length suf <= fuel)%nat -> server_read_from fuel (head suf) w = read_each suf w.
Proof.
  induction suf as [|c suf IH]; intros fuel pre w Hw Hl Hf; [by destruct fuel|].
  destruct fuel as [|fuel]; simpl in Hf; [lia|].
  assert (c ∈ l) as Hin by (rewrite Hl; set_solver).
  pose proof (read_ready_spec l c w Hw Hin) as Hr. unfold wp in Hr.
  transitivity ((read_ready c ;; (let! s := get_server in
    match tailq_next c (s_clients s) with None => undefined | Some next => server_read_from fuel next end)) w).
  { unfold read_ready. rewrite bind_assoc. cbn [server_read_from head]. apply bind_ext. intros cl w'.
    by rewrite bind_assoc. }
  cbn [read_each]. unfold bind at 1 3. destruct (read_ready c w) as [[] w1| | |]; try done.
  destruct Hr as (Hinv & HJ & Hcl). erewrite bind_Ret by reflexivity. rewrite Hcl, Hl, tailq_next_app.
  - apply (IH fuel (pre ++ [c])); [done| |lia]. by rewrite <-app_assoc.
  - rewrite <-Hl, <-Hcl. apply (si_nodup _ _ Hinv).
Qed.

Lemma server_read_eq l w : srv l w -> server_read w = read_each l w.
Proof.
  intros Hw. unfold server_read. erewrite bind_Ret by reflexivity. rewrite (proj2 (proj2 Hw)).
  by apply (server_read_from_eq l l _ []).
Qed.

(** The descriptor [accept_fd] returns, if any, fits in an [fd_set]. *)
Lemma accept_fd_spec l w :
  srv l w -> wp False accept_fd (fun f w' =>
    exists o, w' = with_os o w /\ (f = -1 \/ 0 <= f < FD_SETSIZE /\
      (s_listen (w_server w) = false -> f = s_fd (w_server w)))) w.
Proof.
  intros [Hw _]. unfold accept_fd. apply wp_bind. unfold wp at 1, get_server.
  case_match.
  - apply wp_bind, wp_os_call. intros f o Hf. apply accept_range in Hf. case_match.
    + apply wp_ret. exists o. split; [done|]. left. lia.
    + apply wp_bind, wp_os_call. intros r o' _. simpl.
      case_match; apply wp_ret; eexists; (split; [reflexivity|]); [by left|].
      destruct Hf; [by left|right]. split; [done|congruence].
  - case_match; apply wp_ret; exists (w_os w); rewrite with_os_id; (split; [done|]); auto.
    right. pose proof (si_fd _ _ Hw). pose proof (si_max _ _ Hw). lia.
Qed.

(** The state between the insertion of a new client and the end of
    [server_accept]. *)
Lemma inserted_inv l w c cl f s' :
  srv l w -> w_clients w !! c = None -> client_ok f cl -> 0 <= f < FD_SETSIZE ->
  s' = set_clients (l ++ [c]) (w_server w) ->
  sclient (Some c) (l ++ [c]) c f (with_server s' (upd c cl w)).
Proof.
  intros ([Hnd Hh Hwf Hfds Hfd Hmax] & HJ & Hl) Hc [Hok Hf] Hr ->. split_and!; [|done..|].
  - constructor; simpl; try done.
    + rewrite <-Hl. apply list.NoDup_app. split_and!; [done| |apply NoDup_singleton].
      intros x Hx ->%list_elem_of_singleton. apply Hh in Hx as [? Hx]. by rewrite Hc in Hx.
    + intros x. rewrite elem_of_app, list_elem_of_singleton, <-Hl, Hh.
      destruct (decide (c = x)) as [<-|].
      * rewrite lookup_insert_eq. split; [by eexists|by right].
      * rewrite lookup_insert_ne by done. naive_solver.
    + by apply map_Forall_insert_2.
    + apply map_Forall_insert_2; [by rewrite Hf|]. intros x cl' Hx.
      destruct (Hfds x cl' Hx) as [? Hle]. split; [done|]. intros _. by apply Hle.
  - exists cl. split; [apply lookup_insert_eq|done].
Qed.

Lemma track_max_fd_spec e l c f w :
  sclient e l c f w -> (e = Some c \/ e = None) ->
  wp False (track_max_fd f) (fun _ w' => srv l w' /\ exists cl, w_clients w' !! c = Some cl /\ fd cl = f) w.
Proof.
  intros ([Hnd Hh Hwf Hfds Hfd Hmax] & (HJ & Hl) & cl & Hc & Hf) He. unfold track_max_fd.
  apply wp_bind. unfold wp at 1, get_server. destruct (Hfds c cl Hc) as [Hr _].
  destruct (Z.ltb_spec (s_max_fd (w_server w)) f); unfold wp, put_server, ret.
  - split; [split; [|done]|by exists cl]. constructor; simpl; try done; [|lia..]. intros x cl' Hx.
    destruct (Hfds x cl' Hx) as [? Hle]. split; [done|]. intros _.
    destruct (decide (x = c)) as [->|Hne]; [simplify_eq; lia|].
    assert (fd cl' <= s_max_fd (w_server w)); [|lia]. apply Hle. destruct He as [->| ->]; congruence.
  - split; [split; [|done]|by exists cl]. constructor; try done. intros x cl' Hx.
    destruct (Hfds x cl' Hx) as [? Hle]. split; [done|]. intros _.
    destruct (decide (x = c)) as [->|Hne]; [by simplify_eq|].
    apply Hle. destruct He as [->| ->]; congruence.
Qed.

Lemma server_accept_keeps l w :
  srv l w -> wp False server_accept (fun r w' =>
    (r = -1 /\ srv l w' /\ w_clients w' = w_clients w) \/
    (r = 0 /\ exists c cl, w_clients w !! c = None /\ srv (l ++ [c]) w' /\ w_clients w' !! c = Some cl /\
       (s_listen (w_server w) = false -> fd cl = s_fd (w_server w)))) w.
Proof.
  intros Hw. unfold server_accept. apply wp_bind.
  eapply wp_mono; [|exact (accept_fd_spec l w Hw)]. intros f w1 (o & -> & Hf).
  assert (srv l (with_os o w)) as Hw1 by (destruct Hw as ([] & ? & ?); by split).
  destruct (Z.eqb_spec f (-1)) as [|Hne]; [by apply wp_ret; left|]. destruct Hf as [|[Hf Hconn]]; [done|].
  apply wp_bind. unfold new_client, wp at 1. simpl.
  destruct (sys_new_client (dom (w_clients w)) o) as [[[c cl]|] o1] eqn:Enew.
  2: { apply wp_ret. left. split_and!; [done|by destruct Hw as ([] & ? & ?)|done]. }
  apply new_client_fresh in Enew as [Hfresh Hmem]. rewrite not_elem_of_dom in Hfresh.
  apply wp_bind, wp_os_call. intros [node|] o2 _.
  2: { apply wp_bind. unfold wp at 1, free_client. apply wp_ret. left.
       assert (delete c (<[c:=cl]> (w_clients w)) = w_clients w) as E by by rewrite delete_insert_id.
       split_and!; [done| |exact E]. unfold upd, with_clients, with_os, srv, server_inv. simpl.
       rewrite E. destruct Hw as ([] & ? & ?). split; [|done]. by constructor. }
  apply wp_bind. unfold warppipe_client_create, wp at 1. erewrite run_modify by lookup_client.
  apply wp_bind. unfold modify_server, wp at 1. erewrite bind_Ret by reflexivity.
  unfold put_server. apply wp_bind. unfold wp at 1, get_server.
  rewrite !upd_with_os, !upd_upd. simpl w_server. rewrite (proj2 (proj2 Hw)).
  set (s' := set_clients (l ++ [c]) (w_server w)).
  assert (sclient (Some c) (l ++ [c]) c f (with_server s' (with_os o2 (upd c (client_created f cl) w)))) as Hs.
  { apply (inserted_inv l (with_os o2 w)); try done; [by destruct Hw as ([] & ? & ?)|by apply client_created_ok]. }
  apply wp_bind. eapply (wp_mono _ _ (fun _ => sclient (Some c) (l ++ [c]) c f)).
  2: { case_match; [exact (accept_cb_keeps _ _ _ _ _ _ Hs)|done]. }
  intros _ w2 Hw2. apply wp_bind. eapply wp_mono; [|apply (track_max_fd_spec _ _ _ _ _ Hw2); by left].
  intros [] w3 (Hw3 & cl3 & Hc3 & <-). apply wp_ret. right. split; [done|]. by exists c, cl3.
Qed.

(** ** Aborts *)

(** Aborts happen in a callback, or with a TLP that is too large. *)
Definition server_abort_cause (w' : W) : Prop :=
  abort_cause w' \/ exists cb c p w, call_accept_cb cb c p w = Aborted w'.

Lemma aborts_modify_server U (f : warppipe_server -> warppipe_server) : aborts (os := os) (app := app) U (modify_server f).
Proof. unfold modify_server. aborts. Qed.
Lemma aborts_free_client U c : aborts (os := os) (app := app) U (free_client c).
Proof. done. Qed.
#[local] Hint Resolve aborts_modify_server aborts_free_client : aborts.

Lemma aborts_accept_fd U : aborts (os := os) (app := app) U accept_fd.
Proof. unfold accept_fd. aborts. Qed.

Lemma aborts_server_accept U :
  (forall cb c p, aborts U (call_accept_cb cb c p)) -> aborts U server_accept.
Proof.
  intros Hcb. pose proof (aborts_accept_fd U).
  assert (aborts U new_client) by (intros w w'; unfold new_client; by repeat case_match).
  unfold server_accept, track_max_fd, warppipe_client_create. aborts.
Qed.

Lemma aborts_server_create U :
  (forall cb c p, aborts U (call_accept_cb cb c p)) -> aborts U warppipe_server_create.
Proof.
  intros Hcb%aborts_server_accept. assert (forall rps, aborts U (try_addresses rps)).
  { induction rps as [|rp rps IH]; simpl; unfold try_address; aborts. }
  unfold warppipe_server_create. aborts.
Qed.

Lemma aborts_server_read fuel : forall node, aborts server_abort_cause (server_read_from fuel node).
Proof.
  assert (forall c, aborts server_abort_cause (warppipe_client_read c)) by (intros c w w' E; left; by eapply aborts_client_read).
  assert (forall f, aborts server_abort_cause (fd_isset f)) by (intros f; unfold fd_isset; aborts).
  induction fuel; intros [c|]; simpl; aborts.
Qed.

Lemma aborts_set_client_fds U l : aborts (os := os) (app := app) U (set_client_fds l).
Proof. induction l; simpl; unfold fd_set; aborts. Qed.

Lemma aborts_disconnect_from U cond l : aborts (os := os) (app := app) U (disconnect_from cond l).
Proof. induction l; simpl; aborts. Qed.

Lemma aborts_server_loop : aborts server_abort_cause warppipe_server_loop.
Proof.
  assert (aborts server_abort_cause server_accept) by (apply aborts_server_accept; intros cb c p w w' E; right; by exists cb, c, p, w).
  pose proof aborts_server_read. pose proof (aborts_set_client_fds server_abort_cause).
  pose proof (aborts_disconnect_from server_abort_cause).
  unfold warppipe_server_loop, server_read, warppipe_server_disconnect_clients, fd_set, fd_isset. aborts.
Qed.

(** ** The loop *)

(** The descriptors of the connections. *)
Definition client_fds (w : W) (l : list ptr) : list Z :=
  (fun c => default 0 (fd <$> w_clients w !! c)) <$> l.

Definition with_read_fds (fds : gset Z) (w : W) : W := with_server (set_read_fds fds (w_server w)) w.

Lemma with_read_fds_srv l fds w : srv l w -> srv l (with_read_fds fds w).
Proof. intros ([] & ? & ?). by split. Qed.

Lemma fd_set_run f w :
  0 <= f < FD_SETSIZE -> fd_set f w = Ret tt (with_read_fds ({[f]} ∪ s_read_fds (w_server w)) w).
Proof.
  intros Hf. unfold fd_set. by rewrite (proj2 (Z.ltb_ge _ _)), (proj2 (Z.leb_gt _ _)) by lia.
Qed.

Lemma set_client_fds_run l : forall w,
  (forall c, c ∈ l -> exists cl, w_clients w !! c = Some cl /\ 0 <= fd cl < FD_SETSIZE) ->
  set_client_fds l w =
  Ret tt (with_read_fds (list_to_set (client_fds w l) ∪ s_read_fds (w_server w)) w).
Proof.
  induction l as [|c l IH]; intros w Hl.
  { simpl. rewrite (left_id_L ∅ (∪)). by destruct w as [o s m a t], s. }
  destruct (Hl c) as (cl & Hc & Hf); [by left|]. simpl. run.
  erewrite bind_Ret by by apply fd_set_run. rewrite IH by (intros c' Hc'; apply Hl; by right).
  unfold client_fds, with_read_fds. simpl. rewrite Hc. simpl. by rewrite (assoc_L (∪)), (comm_L (∪) (list_to_set _) {[fd cl]}).
Qed.

(** What [select] is asked to watch. *)
Definition watched (w : W) : gset Z :=
  list_to_set (client_fds w (s_clients (w_server w))) ∪ {[s_fd (w_server w)]}.

Lemma watched_range w f : server_inv w -> f ∈ watched w -> 0 <= f <= s_max_fd (w_server w).
Proof.
  intros Hw [Hf|Hf]%elem_of_union; [|apply elem_of_singleton in Hf as ->; apply Hw].
  apply elem_of_list_to_set, list_elem_of_fmap in Hf as (c & -> & Hc).
  apply (si_heap _ _ Hw) in Hc as [cl Hc]. rewrite Hc. simpl.
  destruct (si_fds _ _ Hw c cl Hc) as [? Hle]. split; [lia|]. by apply Hle.
Qed.

(** The part of the loop behind [select]. *)
Definition serve : M W unit :=
  let! s := get_server in
  let! b := fd_isset (s_fd s) in
  (if b then server_accept ;; ret tt else ret tt) ;;
  server_read ;;
  warppipe_server_disconnect_clients (Some should_disconnect_client).

Lemma server_loop_eq w :
  server_inv w ->
  warppipe_server_loop w =
  let '(fds, o) := sys_select (s_max_fd (w_server w) + 1) (watched w) (w_os w) in
  serve (with_read_fds fds (with_os o w)).
Proof.
  intros Hw. unfold warppipe_server_loop, modify_server, bind, get_server, put_server.
  rewrite fd_set_run by (simpl; pose proof (si_fd _ _ Hw); pose proof (si_max _ _ Hw); lia).
  rewrite set_client_fds_run.
  - unfold os_call, with_read_fds, with_server, watched. simpl.
    replace (list_to_set _ ∪ ({[s_fd (w_server w)]} ∪ ∅)) with (watched w)
      by (unfold watched; by rewrite (right_id_L ∅ (∪))).
    unfold watched. destruct (sys_select _ _ _) as [fds o]. done.
  - intros c Hc. simpl in Hc |- *. apply (si_heap _ _ Hw) in Hc as [cl Hc]. exists cl. split; [done|].
    apply (si_fds _ _ Hw c cl Hc).
Qed.

(** Accepting, if [select] reported the listening socket. *)
Definition accept_ready : M W unit :=
  let! s := get_server in
  let! b := fd_isset (s_fd s) in
  if b then server_accept ;; ret tt else ret tt.

(** [serve], with a pass over the queue as it is after accepting. *)
Definition serve_each : M W unit :=
  accept_ready ;;
  let! s := get_server in
  read_each (s_clients s) ;;
  warppipe_server_disconnect_clients (Some should_disconnect_client).

(** An iteration from [w] comes to a read that has undefined behaviour. *)
Definition loop_undefined (w : W) : Prop := exists fds o w1,
  sys_select (s_max_fd (w_server w) + 1) (watched w) (w_os w) = (fds, o) /\
  accept_ready (with_read_fds fds (with_os o w)) = Ret tt w1 /\ pass_undefined (s_clients (w_server w1)) w1.

Lemma accept_ready_spec w : server_inv w -> JW w -> wp False accept_ready (fun _ w' => server_inv w' /\ JW w') w.
Proof.
  intros Hw HJ. apply wp_bind. unfold wp at 1, get_server.
  apply wp_bind. unfold wp at 1, fd_isset. erewrite bind_Ret by reflexivity.
  pose proof (si_fd _ _ Hw). pose proof (si_max _ _ Hw).
  rewrite (proj2 (Z.ltb_ge _ _)), (proj2 (Z.leb_gt _ _)) by lia. simpl. case_match; [|done].
  apply wp_bind. eapply wp_mono; [|by apply (server_accept_keeps (s_clients (w_server w)))].
  intros r w1 [(_ & (? & ? & _) & _)|(_ & c & cl & _ & (? & ? & _) & _)]; by apply wp_ret.
Qed.

Lemma serve_eq w : server_inv w -> JW w -> serve w = serve_each w.
Proof.
  intros Hw HJ. pose proof (accept_ready_spec w Hw HJ) as Ha. unfold wp in Ha.
  transitivity ((accept_ready ;; server_read ;; warppipe_server_disconnect_clients (Some should_disconnect_client)) w).
  { unfold serve, accept_ready. rewrite bind_assoc. apply bind_ext. intros s w'. by rewrite bind_assoc. }
  unfold serve_each. unfold bind at 1 3. destruct (accept_ready w) as [[] w1| | |]; try done. destruct Ha as [Hw1 HJ1].
  erewrite (bind_Ret get_server) by reflexivity. unfold bind.
  by rewrite (server_read_eq (s_clients (w_server w1))).
Qed.

Lemma serve_spec fds o w :
  server_inv w -> JW w -> sys_select (s_max_fd (w_server w) + 1) (watched w) (w_os w) = (fds, o) ->
  wp (loop_undefined w) serve_each (fun _ w' => server_inv w' /\ JW w' /\
    forall c cl, w_clients w' !! c = Some cl -> active cl = true) (with_read_fds fds (with_os o w)).
Proof.
  intros Hw HJ Hsel. set (w0 := with_read_fds fds (with_os o w)).
  pose proof (accept_ready_spec w0 ltac:(by destruct Hw) HJ) as Ha. unfold wp in Ha |- *. unfold serve_each, bind at 1.
  destruct (accept_ready w0) as [[] w1| | |] eqn:Ea; try done. destruct Ha as [Hw1 HJ1].
  erewrite bind_Ret by reflexivity.
  apply (wp_undef_mono (pass_undefined (s_clients (w_server w1)) w1)); [intros Hu; by exists fds, o, w1|].
  apply wp_bind. eapply wp_mono; [|by apply (read_each_spec (s_clients (w_server w1)))].
  intros [] w2 (Hw2 & HJ2 & _). unfold wp. rewrite disconnect_clients_eq by done.
  split_and!; [by apply disconnected_inv|done|]. intros c cl [Hc Hd]%disconnected_lookup; [|done].
  unfold doomed in Hd. rewrite Hc in Hd. unfold should_disconnect_client in Hd.
  by destruct (active cl).
Qed.

Lemma server_loop_each w :
  server_inv w -> JW w ->
  warppipe_server_loop w =
    let '(fds, o) := sys_select (s_max_fd (w_server w) + 1) (watched w) (w_os w) in
    serve_each (with_read_fds fds (with_os o w)).
Proof.
  intros Hw HJ. rewrite server_loop_eq by done. destruct (sys_select _ _ _) as [fds o].
  apply serve_eq; [by destruct Hw|done].
Qed.

Lemma server_loop_keeps w :
  server_inv w -> JW w ->
  wp (loop_undefined w) warppipe_server_loop (fun _ w' => server_inv w' /\ JW w' /\
    forall c cl, w_clients w' !! c = Some cl -> active cl = true) w.
Proof.
  intros Hw HJ. unfold wp. rewrite server_loop_each by done. destruct (sys_select _ _ _) as [fds o] eqn:E.
  by apply serve_spec.
Qed.

(** A process with a single connection: the loop reads from it if [select]
    reports it, and keeps it while it is active. *)
Section OneConnection.
Context (c : ptr) (cl : warppipe_client) (w : W).
Context (Hs : s_clients (w_server w) = [c]) (Hc : w_clients w !! c = Some cl).
Context (Hf : 0 <= fd cl < FD_SETSIZE) (Hsf : 0 <= s_fd (w_server w) < FD_SETSIZE).

Lemma server_loop_one :
  warppipe_server_loop w =
  let '(fds, o) := sys_select (s_max_fd (w_server w) + 1) ({[fd cl]} ∪ {[s_fd (w_server w)]}) (w_os w) in
  serve (with_read_fds fds (with_os o w)).
Proof.
  unfold warppipe_server_loop, modify_server, bind, get_server, put_server.
  rewrite fd_set_run by done. cbn [w_server s_clients with_read_fds with_server set_read_fds]. rewrite Hs.
  rewrite set_client_fds_run.
  - unfold os_call, with_read_fds, with_server, client_fds. simpl. rewrite Hc. simpl.
    rewrite !(right_id_L ∅ (∪)). by destruct (sys_select _ _ _).
  - intros c' ->%list_elem_of_singleton. by exists cl.
Qed.

Lemma serve_reads w' :
  (s_fd (w_server w) ∈ s_read_fds (w_server w) -> s_listen (w_server w) = false) ->
  (if bool_decide (fd cl ∈ s_read_fds (w_server w)) then warppipe_client_read c else ret tt) w = Ret tt w' ->
  s_clients (w_server w') = [c] ->
  serve w = warppipe_server_disconnect_clients (Some should_disconnect_client) w'.
Proof.
  intros Hl Hr Hs'. unfold serve.
  assert (forall f, 0 <= f < FD_SETSIZE -> fd_isset f w = Ret (bool_decide (f ∈ s_read_fds (w_server w))) w) as Hset.
  { intros f Hrange. unfold fd_isset. erewrite bind_Ret by reflexivity.
    by rewrite (proj2 (Z.ltb_ge _ _)), (proj2 (Z.leb_gt _ _)) by lia. }
  assert ((if bool_decide (s_fd (w_server w) ∈ s_read_fds (w_server w))
           then server_accept ;; ret tt else ret tt) w = Ret tt w) as Hacc.
  { destruct (bool_decide_reflect (s_fd (w_server w) ∈ s_read_fds (w_server w))) as [Hin|]; [|done].
    unfold server_accept, accept_fd, bind, get_server. by rewrite (Hl Hin), Hs. }
  erewrite bind_Ret by reflexivity. erewrite bind_Ret by by apply Hset. erewrite bind_Ret by exact Hacc.
  erewrite (bind_Ret server_read _ w tt w'); [done|].
  unfold server_read. erewrite bind_Ret by reflexivity. rewrite Hs. simpl. run.
  erewrite bind_Ret by by apply Hset. erewrite bind_Ret by exact Hr.
  erewrite bind_Ret by reflexivity. rewrite Hs'. simpl. by rewrite Z.eqb_refl.
Qed.

Lemma serve_one w' cl' :
  (s_fd (w_server w) ∈ s_read_fds (w_server w) -> s_listen (w_server w) = false) ->
  (if bool_decide (fd cl ∈ s_read_fds (w_server w)) then warppipe_client_read c else ret tt) w = Ret tt w' ->
  s_clients (w_server w') = [c] -> w_clients w' !! c = Some cl' -> active cl' = true ->
  serve w = Ret tt w'.
Proof.
  intros Hl Hr Hs' Hc' Ha. rewrite (serve_reads w') by done.
  unfold warppipe_server_disconnect_clients. erewrite bind_Ret by reflexivity. rewrite Hs'. simpl. run.
  unfold should_disconnect_client. by rewrite Ha.
Qed.
End OneConnection.

(** C8. One iteration of the server loop keeps the server consistent (queue,
    heap and descriptors agree), ends, and leaves no connection that is marked
    for removal.  [select] is asked to watch exactly the listening socket and the
    connections, all of them below the bound it is given.  Then a connection is
    accepted if there is one, and each connection of the queue that was reported is
    read from once, in the order of the queue, whatever the callbacks do in between.
    Behaviour is undefined only where the iteration comes to a connection whose read
    is undefined, and aborts happen in a callback or because a TLP is larger than
    the buffer. *)
Theorem server_loop_spec w :
  server_inv w -> JW w ->
  (forall f, f ∈ watched w -> 0 <= f < s_max_fd (w_server w) + 1) /\
  warppipe_server_loop w =
    (let '(fds, o) := sys_select (s_max_fd (w_server w) + 1) (watched w) (w_os w) in
     serve_each (with_read_fds fds (with_os o w))) /\
  match warppipe_server_loop w with
  | Ret _ w' => server_inv w' /\ JW w' /\ forall c cl, w_clients w' !! c = Some cl -> active cl = true
  | Aborted w' => server_abort_cause w'
  | Undefined => loop_undefined w
  | NoFuel => False
  end.
Proof.
  intros Hw HJ. split_and!.
  - intros f Hf. pose proof (watched_range w f Hw Hf). lia.
  - by apply server_loop_each.
  - pose proof (server_loop_keeps w Hw HJ) as Hk. unfold wp in Hk.
    destruct (warppipe_server_loop w) eqn:E; try done. by eapply aborts_server_loop.
Qed.

(** [server_accept] either fails and changes neither the queue nor the
    heap, or adds one freshly allocated client at the end of the queue; the
    server stays consistent, with [max_fd] covering the new descriptor. *)
Lemma server_accept_spec w :
  server_inv w -> JW w ->
  match server_accept w with
  | Ret r w' => server_inv w' /\ JW w' /\
      ((r = -1 /\ s_clients (w_server w') = s_clients (w_server w) /\ w_clients w' = w_clients w) \/
       (r = 0 /\ exists c, w_clients w !! c = None /\
          s_clients (w_server w') = s_clients (w_server w) ++ [c]))
  | Aborted _ => True
  | _ => False
  end.
Proof.
  intros Hw HJ. pose proof (server_accept_keeps (s_clients (w_server w)) w (conj Hw (conj HJ eq_refl))) as Hk.
  unfold wp in Hk. destruct (server_accept w); try done.
  destruct Hk as [(-> & (? & ? & ?) & ?)|(-> & c & cl & ? & (? & ? & ?) & _)]; (split_and!; [done..|]); [by left|right].
  split; [done|]. by exists c.
Qed.

(** ** Creation *)

Lemma try_address_spec rp w :
  wp False (try_address rp) (fun r w' =>
    exists o, w' = with_os o w /\ forall f, r = Some (Some f) -> 0 <= f < FD_SETSIZE) w.
Proof.
  unfold try_address. apply wp_bind. unfold wp at 1, get_server.
  apply wp_bind, wp_os_call. intros sfd o Hs. apply socket_range in Hs.
  destruct (Z.eqb_spec sfd (-1)) as [|Hne]; [apply wp_ret; by exists o|]. destruct Hs as [|Hs]; [done|].
  assert (forall r o', (forall f, r = Some (Some f) -> f = sfd) ->
    wp False (ret r) (fun r w' => exists o, w' = with_os o w /\ forall f, r = Some (Some f) -> 0 <= f < FD_SETSIZE)
      (with_os o' w)) as Hret.
  { intros r o' Hr. apply wp_ret. exists o'. split; [done|]. by intros f ->%Hr. }
  destruct (s_listen (w_server w)); cbn [andb];
  repeat lazymatch goal with
  | |- wp _ (bind (os_call _) _) _ _ => apply wp_bind, wp_os_call; intros ? ? _; rewrite ?with_os_with_os
  | |- wp _ (bind (ret _) _) _ _ => apply wp_bind, wp_ret
  | |- wp _ (if ?b then _ else _) _ _ => destruct b
  | |- wp _ (ret _) _ _ => apply Hret; congruence
  end.
Qed.

Lemma try_addresses_spec rps w :
  wp False (try_addresses rps) (fun r w' =>
    exists o, w' = with_os o w /\ forall f, r = Some f -> 0 <= f < FD_SETSIZE) w.
Proof.
  revert w. induction rps as [|rp rps IH]; intros w.
  { apply wp_ret. exists (w_os w). by rewrite with_os_id. }
  simpl. apply wp_bind. eapply wp_mono; [|exact (try_address_spec rp w)].
  intros [[f|]|] w1 (o & -> & Hf).
  - apply wp_ret. exists o. split; [done|]. intros f' [= <-]. by apply Hf.
  - eapply wp_mono; [|exact (IH (with_os o w))]. intros r w2 (o2 & -> & Hr). by exists o2.
  - apply wp_ret. by exists o.
Qed.

Lemma wp_modify_server U g (Q : unit -> W -> Prop) w :
  Q tt (with_server (g (w_server w)) w) -> wp U (modify_server g) Q w.
Proof. done. Qed.

(** The server on socket [f], without connections, and the static variables [st]. *)
Definition created_on (f : Z) (o : os) (st : statics) (w : W) : W :=
  with_statics st (with_server (set_clients [] (set_fds f f (w_server w))) (with_os o w)).

(** [pcie_server] is set before anything can fail. *)
Definition saved (w : W) : W := with_statics (mk_static true (sigint_handler (w_static w))) w.

Lemma created_inv f o st w :
  w_clients w = ∅ -> 0 <= f < FD_SETSIZE -> server_inv (created_on f o st w).
Proof.
  intros He Hf. constructor; simpl; rewrite ?He; try (lia || apply map_Forall_empty).
  - constructor.
  - intros c. rewrite lookup_empty. split; [by intros ?%not_elem_of_nil|by intros []].
Qed.

(** Without an accept callback, accepting leaves these alone. *)
Lemma server_accept_quiet w r w' :
  s_accept_cb (w_server w) = NULL -> server_accept w = Ret r w' ->
  s_fd (w_server w') = s_fd (w_server w) /\ w_static w' = w_static w.
Proof.
  intros Hn E. unfold server_accept, bind at 1 in E.
  destruct (accept_fd w) as [f w1| | |] eqn:E1; try done.
  assert (exists o, w1 = with_os o w) as [o ->].
  { unfold accept_fd, bind, get_server, os_call in E1. destruct (s_listen (w_server w)); simpl in E1.
    - destruct (sys (Accept _) _) as [r1 o1]. destruct (r1 =? -1); [injection E1 as _ <-; by exists o1|]. simpl in E1.
      destruct (sys (Getnameinfo _) _) as [r2 o2]. destruct (negb _); injection E1 as _ <-; by exists o2.
    - exists (w_os w). rewrite with_os_id. destruct (negb _) in E1; by injection E1 as _ <-. }
  destruct (f =? -1); [by injection E as _ <-|]. unfold bind at 1, new_client in E. simpl in E.
  destruct (sys_new_client _ _) as [[[p x]|] o1]; [|by injection E as _ <-].
  unfold bind at 1, os_call in E. simpl in E. destruct (sys_malloc _ _) as [node o2].
  destruct node; [|unfold bind, free_client, ret in E; by injection E as _ <-].
  unfold warppipe_client_create in E. rewrite upd_with_os in E.
  erewrite bind_Ret in E by (apply run_modify; rewrite lookup_with_os; apply lookup_upd).
  unfold modify_server, bind, get_server, put_server, track_max_fd in E. simpl in E. rewrite Hn in E. simpl in E.
  unfold bind, get_server, put_server, ret in E. simpl in E.
  destruct (_ <? f) in E; by injection E as _ <-.
Qed.

(** A server on the socket [f]; the signal's handler was installed in [o1]. *)
Definition created (w w' : W) : Prop := exists f o1, 0 <= f < FD_SETSIZE /\
  let st := mk_static true (sys (Signal HANDLE_SIGINT) o1).1 in
  (s_listen (w_server w) = true -> w' = created_on f (sys (Signal HANDLE_SIGINT) o1).2 st w) /\
  (s_listen (w_server w) = false ->
     (s_clients (w_server w') = [] \/
      exists c cl, s_clients (w_server w') = [c] /\ w_clients w' !! c = Some cl /\ fd cl = f) /\
     (s_accept_cb (w_server w) = NULL -> s_fd (w_server w') = f /\ w_static w' = st)).

Lemma server_create_keeps w :
  w_clients w = ∅ -> JW w ->
  wp False warppipe_server_create (fun r w' =>
      (r = -1 /\ exists o, w' = with_os o (saved w)) \/
      (r = 0 /\ server_inv w' /\ JW w' /\ created w w')) w.
Proof.
  intros He HJ.
  unfold warppipe_server_create. apply wp_bind. unfold wp at 1, get_statics.
  apply wp_bind. unfold wp at 1, put_statics. fold (saved w). apply wp_bind. unfold wp at 1, get_server.
  apply wp_bind, wp_os_call. intros [rps|] o _; [|apply wp_ret; left; eauto].
  apply wp_bind. eapply wp_mono; [|exact (try_addresses_spec rps (with_os o (saved w)))].
  intros [f|] w1 (o1 & -> & Hf); [|apply wp_ret; left; by eauto].
  specialize (Hf f eq_refl). rewrite with_os_with_os.
  apply wp_bind, wp_modify_server, wp_bind, wp_os_call. intros _ o2 _. apply wp_bind, wp_modify_server.
  change (with_server _ _) with (created_on f o2 (w_static (saved w)) w).
  pose proof (created_inv f o2 (w_static (saved w)) w He Hf) as Hinv. apply wp_bind. simpl s_listen.
  destruct (s_listen (w_server w)) eqn:El; simpl negb; cbv iota.
  - apply wp_ret, wp_bind. unfold wp at 1, os_call. simpl w_os.
    destruct (sys (Signal HANDLE_SIGINT) o2) as [h o3] eqn:Eh. apply wp_bind. unfold wp at 1, get_statics.
    apply wp_bind. unfold wp at 1, put_statics. apply wp_ret. right. split_and!; [done|by destruct Hinv|done|].
    exists f, o2. split; [done|]. rewrite Eh, El. split; [done|]. by intros.
  - apply wp_bind. assert (forall r w2, server_accept (created_on f o2 (w_static (saved w)) w) = Ret r w2 ->
      s_accept_cb (w_server w) = NULL -> s_fd (w_server w2) = f /\ w_static w2 = w_static (saved w)) as Hquiet.
    { intros r w2 E Hn. by destruct (server_accept_quiet _ _ _ (Hn : s_accept_cb (w_server (created_on f o2 (w_static (saved w)) w)) = NULL) E). }
    pose proof (server_accept_keeps [] (created_on f o2 (w_static (saved w)) w) ltac:(done)) as Hk. unfold wp in Hk |- *.
    destruct (server_accept _) as [r w2| | |] eqn:E; try done. specialize (Hquiet r w2 eq_refl).
    simpl. unfold bind, os_call. destruct (sys (Signal HANDLE_SIGINT) (w_os w2)) as [h o3] eqn:Eh. simpl. right.
    assert (forall w3, server_inv w3 -> server_inv (with_statics (mk_static (pcie_server (w_static w2)) h) (with_os o3 w3))) as Hs
      by (by intros w3 []).
    destruct Hk as [(_ & (? & ? & ?) & _)|(_ & c & cl & _ & (? & ? & ?) & Hc & Hfd)];
      (split_and!; [done|by apply Hs|done|]); exists f, (w_os w2); (split; [done|]);
      rewrite Eh, El; (split; [done|]); intros _; (split; [|intros Hn; destruct (Hquiet Hn) as [Hf2 Hst]; split; [exact Hf2|simpl; by rewrite Hst]]).
    + by left.
    + right. exists c, cl. split_and!; [done..|]. by apply Hfd.
Qed.

End ServerSpec.

(** ** The properties on the concrete environment *)

(** Connections arrive on descriptor 5; [select] finds everything ready. *)
#[export] Instance sim_server_io : ServerIO sim_os := {|
  sys call o :=
    match call with
    | Accept _ => (5, o)
    | Close f => (0, mk_sim (delete f (inbox o)) (outbox o) (broken o) (junk o))
    | Socket _ => (4, o)
    | _ => (0, o)
    end;
  sys_getaddrinfo _ _ _ _ o := (Some [1; 2], o);
  sys_select _ fds o := (fds, o);
  sys_new_client used o := (Some (fresh used, example_client), o);
|}.

#[export] Instance sim_server_laws : ServerLaws sim_os.
Proof.
  constructor.
  - intros f o r o' E. simpl in E. simplify_eq. right. unfold FD_SETSIZE. lia.
  - intros rp o r o' E. simpl in E. simplify_eq. right. unfold FD_SETSIZE. lia.
  - intros used o p cl o' E. simpl in E. simplify_eq. split; [apply is_fresh|].
    constructor; apply example_client_wf.
Qed.

#[export] Instance sim_server_callbacks : ServerCallbacks sim_os (list event) := {|
  call_accept_cb cb c _ := fun w =>
    Ret tt (mk_world _ _ (w_os w) (w_server w) (w_clients w) (w_app w ++ [Accepted cb c]) (w_static w));
|}.

#[export] Instance sim_server_callbacks_keep :
  ServerCallbacksKeep (os := sim_os) (app := list event) (fun _ _ => True).
Proof.
  constructor; [intros l c f; constructor; intros; intros w ([] & [] & ?)|intros e l c f p w ([] & [] & ?)];
    (split_and!; [by constructor|done..]).
Qed.

Lemma sim_server_inv segs : server_inv (sim_world segs).
Proof.
  constructor.
  - apply NoDup_singleton.
  - intros c. cbn [w_server w_clients sim_world example_world s_clients].
    rewrite list_elem_of_singleton. split; [intros ->; by exists example_client|].
    intros [cl [-> _]%lookup_singleton_Some]. done.
  - apply map_Forall_singleton, example_client_wf.
  - apply map_Forall_singleton. unfold FD_SETSIZE. simpl. lia.
  - simpl. lia.
  - done.
Qed.

Lemma disconnect_clients_spec_witness :
  exists w', warppipe_server_disconnect_clients None (sim_world []) = Ret tt w' /\ server_inv w' /\
    s_clients (w_server w') = [] /\ s_quit (w_server w') = true.
Proof.
  destruct (disconnect_clients_spec None (sim_world []) (sim_server_inv [])) as (w' & E & Hi & Hl & _ & _ & Hq).
  exists w'. split_and!; [done..| |].
  - rewrite Hl. by vm_compute.
  - apply Hq. right. split; [done|]. exists 7. split; [by left|]. by vm_compute.
Defined.

Lemma server_loop_spec_witness :
  let w := sim_world [example_packet] in
  (forall f, f ∈ watched w -> 0 <= f < 6) /\
  match warppipe_server_loop w with
  | Ret _ w' => server_inv w' /\ True /\ forall c cl, w_clients w' !! c = Some cl -> active cl = true
  | Aborted w' => server_abort_cause w'
  | Undefined => loop_undefined w
  | NoFuel => False
  end.
Proof.
  destruct (server_loop_spec (fun _ _ => True) (sim_world [example_packet]) (sim_server_inv _) I) as (H1 & _ & H2).
  by split.
Defined.

Example server_accept_spec_run :
  match server_accept (sim_world []) with
  | Ret r w' => server_inv w' /\ True /\
      ((r = -1 /\ s_clients (w_server w') = [7] /\ w_clients w' = w_clients (sim_world [])) \/
       (r = 0 /\ exists c, w_clients (sim_world []) !! c = None /\ s_clients (w_server w') = [7] ++ [c]))
  | Aborted _ => True
  | _ => False
  end.
Proof. apply (server_accept_spec (fun _ _ => True) (sim_world []) (sim_server_inv []) I). Qed.

(** A listening server accepts a connection. *)
Example accept_run :
  let w := with_server (set_accept_cb 300 (mk_server 4 true false 0 None "2115" 4 ∅ [7] NULL NULL)) (sim_world []) in
  match server_accept w with
  | Ret 0 w' => s_clients (w_server w') = [7; 8] /\ s_max_fd (w_server w') = 5 /\ w_app w' = [Accepted 300 8]
  | _ => False
  end.
Proof. vm_compute. split_and!; reflexivity. Qed.


(** A process without connections. *)
Definition sim_idle (listen : bool) : world sim_os (list event) :=
  mk_world _ _ (w_os (sim_world [])) (mk_server 0 listen false 0 None "2115" 0 ∅ [] NULL NULL) ∅ [] static_init.


(** A process that connects has its connection; one that listens has none. *)
Example create_run :
  match warppipe_server_create (sim_idle false), warppipe_server_create (sim_idle true) with
  | Ret 0 w, Ret 0 w' => length (s_clients (w_server w)) = 1%nat /\ s_clients (w_server w') = [] /\
      w_static w' = mk_static true SIG_DFL
  | _, _ => False
  end.
Proof. vm_compute. split_and!; reflexivity. Qed.
