(* ===== verification/Isolation.v ===== *)
(** * Connections do not disturb each other

    What a connection sees of the others: nothing.  An iteration of the server
    loop that finds nothing to read on a connection leaves it alone, whatever the
    peers of the other connections send: its structure, what waits to be received
    on its descriptor and what was sent on it. *)

From S2P Require Import Prelude Layout Proto Crc World Client Wire Logic Aborts Bars Sim ClientSpec Receive ClientInv Server ServerSpec.

(** What POSIX says of different descriptors. *)
Class StreamsApart (os : Type) `{SocketIO os, SocketStreams os, ServerIO os} : Prop := {
  recv_apart : forall f g n o r o', sys_recv f n o = (r, o') -> g <> f -> pending g o' = pending g o;
  send_apart : forall f g bs o k o', sys_send f bs o = (k, o') -> g <> f -> sent g o' = sent g o;
  (** other calls affect only the descriptor they close or create *)
  sys_apart : forall call g o r o', sys call o = (r, o') -> call <> Close g -> (forall f, call = Accept f -> r <> g) ->
    pending g o' = pending g o /\ sent g o' = sent g o;
  select_apart : forall n fds g o fds' o', sys_select n fds o = (fds', o') ->
    pending g o' = pending g o /\ sent g o' = sent g o;
  new_client_apart : forall used g o r o', sys_new_client used o = (r, o') ->
    pending g o' = pending g o /\ sent g o' = sent g o;
}.

Create HintDb apart.

Section Isolation.
Context {os app : Type} `{!SocketIO os} `{!Callbacks os app} `{!ServerIO os} `{!ServerCallbacks os app}.
Context `{!SocketStreams os} `{!StreamLaws os} `{!StreamsApart os}.
#[local] Abbreviation W := (world os app).

(** The connection [c], with the structure [cl]; [inp] waits on its descriptor and
    [out] was sent there.  [select] last reported [ready]. *)
Context (c : ptr) (cl : warppipe_client) (inp out : list Z) (ready : gset Z).

(** It is as it was, and no other connection has its descriptor. *)
Record untouched (w : W) : Prop := {
  un_client : w_clients w !! c = Some cl;
  un_pending : pending (fd cl) (w_os w) = inp;
  un_sent : sent (fd cl) (w_os w) = out;
  un_apart : forall c' cl', c' <> c -> w_clients w !! c' = Some cl' -> fd cl' <> fd cl;
  un_ready : s_read_fds (w_server w) = ready;
}.

(** [m] keeps an invariant when it returns. *)
Definition stays {A} (I : W -> Prop) (m : M W A) : Prop := forall w a w', I w -> m w = Ret a w' -> I w'.

Lemma st_bind {A B} I (m : M W A) (k : A -> M W B) : stays I m -> (forall a, stays I (k a)) -> stays I (bind m k).
Proof. intros Hm Hk w b w' Hw E. unfold bind in E. destruct (m w) eqn:Em; simplify_eq. eapply Hk; [|exact E]. by eapply Hm. Qed.
Lemma st_ret {A} I (a : A) : stays I (ret a).
Proof. intros w b w' Hw E. by inversion E; subst. Qed.
Lemma st_undefined {A} I : stays (A := A) I undefined.
Proof. done. Qed.
Lemma st_abort {A} I : stays (A := A) I abort.
Proof. done. Qed.
Lemma st_no_fuel {A} I : stays (A := A) I no_fuel.
Proof. done. Qed.
Lemma st_get_server I : stays I get_server.
Proof. intros w b w' Hw E. by inversion E; subst. Qed.

(** ** Operations on another connection *)

(** The state while another connection [c'], on [f'], is operated on. *)
Definition beside (c' : ptr) (f' : Z) (w : W) : Prop :=
  untouched w /\ exists cl', w_clients w !! c' = Some cl' /\ fd cl' = f'.

(** Callbacks operate on the connection they are called for, and on no other.  This is
    asked of the application: the memory mock, which registers a BAR with the
    connection it accepted last, does so only while it has one connection. *)
Class CallbacksApart : Prop := {
  st_read_cb : forall c' f' cb addr len p, c' <> c -> f' <> fd cl -> stays (beside c' f') (call_read_cb cb addr len p);
  st_write_cb : forall c' f' cb addr data len p, c' <> c -> f' <> fd cl -> stays (beside c' f') (call_write_cb cb addr data len p);
  st_completion_cb : forall c' f' cb st data len p, c' <> c -> f' <> fd cl ->
    stays (beside c' f') (call_completion_cb cb st data len p);
  st_accept_cb : forall cb c' f' p, c' <> c -> f' <> fd cl -> stays (beside c' f') (call_accept_cb cb c' p);
}.
Context `{!CallbacksApart}.

Section Other.
Context (c' : ptr) (f' : Z) (Hc : c' <> c) (Hf : f' <> fd cl).
#[local] Abbreviation I := (beside c' f').

Lemma untouched_os w o :
  untouched w -> pending (fd cl) o = pending (fd cl) (w_os w) -> sent (fd cl) o = sent (fd cl) (w_os w) ->
  untouched (with_os o w).
Proof. intros [] Hp Hs. constructor; try done; simpl; congruence. Qed.

Lemma beside_os w o :
  I w -> pending (fd cl) o = pending (fd cl) (w_os w) -> sent (fd cl) o = sent (fd cl) (w_os w) -> I (with_os o w).
Proof. intros [Hw ?] Hp Hs. split; [by apply untouched_os|done]. Qed.

Lemma beside_upd w x : I w -> fd x = f' -> I (upd c' x w).
Proof.
  intros [[H1 H2 H3 H4 H5] _] Hx. split; [|exists x; split; [apply lookup_upd|done]].
  constructor; try done.
  - unfold upd, with_clients. simpl. by rewrite lookup_insert_ne.
  - intros d y Hd. unfold upd, with_clients. simpl.
    destruct (decide (c' = d)) as [<-|]; [rewrite lookup_insert_eq; intros [= <-]; congruence|].
    rewrite lookup_insert_ne by done. by apply H4.
Qed.

Lemma st_load {A} (k : warppipe_client -> M W A) :
  (forall x, fd x = f' -> stays I (k x)) -> stays I (let! x := load c' in k x).
Proof.
  intros Hk w a w' Hw E. pose proof Hw as [_ (x & Hx & Hfx)]. unfold bind, load in E. rewrite Hx in E. by eapply (Hk x).
Qed.
Lemma st_store x : fd x = f' -> stays I (store c' x).
Proof. intros Hx w a w' Hw E. unfold store in E. destruct (w_clients w !! c'); [|done]. injection E as _ <-. by apply beside_upd. Qed.
Lemma st_modify g : (forall x, fd (g x) = fd x) -> stays I (modify c' g).
Proof. intros Hg. apply st_load. intros x Hx. apply st_store. by rewrite Hg. Qed.

Lemma st_send x bs : fd x = f' -> stays I (os_call (sys_send (fd x) bs)).
Proof.
  intros Hx w a w' Hw E. unfold os_call in E. destruct (sys_send _ _ _) as [k o] eqn:Es. injection E as _ <-.
  apply beside_os; [done|by eapply send_pending|]. eapply send_apart; [exact Es|congruence].
Qed.
Lemma st_recv x n : fd x = f' -> stays I (os_call (sys_recv (fd x) n)).
Proof.
  intros Hx w a w' Hw E. unfold os_call in E. destruct (sys_recv _ _ _) as [r o] eqn:Es. injection E as _ <-.
  apply beside_os; [done| |by eapply recv_sent]. eapply recv_apart; [exact Es|congruence].
Qed.
Lemma st_malloc n : stays I (os_call (sys_malloc n)).
Proof.
  intros w a w' Hw E. unfold os_call in E. destruct (sys_malloc _ _) as [r o] eqn:Es. injection E as _ <-.
  by apply beside_os; [|eapply malloc_streams..].
Qed.
End Other.
#[local] Hint Resolve st_ret st_undefined st_abort st_no_fuel st_get_server st_store st_send st_recv st_malloc
  st_read_cb st_write_cb st_completion_cb st_accept_cb : apart.
#[local] Hint Extern 2 (stays _ (modify _ _)) => (apply st_modify; [assumption..|intros; reflexivity]) : apart.

(** Follows the program. *)
Ltac stays :=
  repeat first
    [ solve [eauto with apart] | apply st_load; [assumption..|intros] | apply st_bind; [|intros]
    | match goal with |- stays _ (match ?x with _ => _ end) => destruct x end | progress cbv zeta ].

Section OtherClient.
Context (c' : ptr) (f' : Z) (Hc : c' <> c) (Hf : f' <> fd cl).
#[local] Abbreviation I := (beside c' f').

Lemma st_send_transport t : stays I (client_send_pcie_transport c' t).
Proof. unfold client_send_pcie_transport, send_packet. stays. Qed.
#[local] Hint Resolve st_send_transport : apart.

Lemma st_handle_tlp pkt : stays I (handle_tlp c' pkt).
Proof. unfold handle_tlp, handle_memory_read_request, handle_memory_write_request, handle_completion. stays. Qed.
#[local] Hint Resolve st_handle_tlp : apart.

Lemma st_recv_store off bs : stays I (recv_store c' off bs).
Proof. unfold recv_store. stays. Qed.
#[local] Hint Resolve st_recv_store : apart.

Lemma st_recv_loop fuel : forall len total, stays I (recv_loop fuel c' len total).
Proof. induction fuel; intros; simpl; stays. Qed.
#[local] Hint Resolve st_recv_loop : apart.

Lemma st_client_read : stays I (warppipe_client_read c').
Proof. unfold warppipe_client_read, receive_tlp, warppipe_ack. stays. Qed.

(** The operations of the API. *)
Lemma st_call a : stays I (call c' a).
Proof.
  destruct a; simpl; unfold warppipe_read, warppipe_write, warppipe_config0_read, warppipe_config0_write,
    warppipe_read_imp, warppipe_write_imp, warppipe_register_bar, warppipe_register_config0_read_cb,
    warppipe_register_config0_write_cb, warppipe_ack; stays.
Qed.
End OtherClient.

(** ** The server *)

Context `{!SocketLaws os} `{!ServerLaws os} (J : ptr -> app -> Prop) `{!ServerCallbacksKeep (os := os) J}.
(** In [o], [accept] does not return the descriptor of the connection, which is open. *)
Definition accepts_other (o : os) : Prop := forall f r o', sys (Accept f) o = (r, o') -> r <> fd cl.

Lemma untouched_sys call w r o :
  untouched w -> sys call (w_os w) = (r, o) -> call <> Close (fd cl) -> (forall f, call = Accept f -> r <> fd cl) ->
  untouched (with_os o w).
Proof. intros Hw E Hn Ha. destruct (sys_apart call (fd cl) (w_os w) r o E Hn Ha). by apply untouched_os. Qed.

Lemma untouched_server s w :
  untouched w -> s_read_fds s = s_read_fds (w_server w) -> untouched (with_server s w).
Proof. intros [] Hs. constructor; try done. simpl. congruence. Qed.

Lemma accept_fd_untouched w f w' :
  accepts_other (w_os w) -> server_inv w -> untouched w -> accept_fd w = Ret f w' ->
  exists o, w' = with_os o w /\ untouched w' /\ (f = -1 \/ f <> fd cl).
Proof.
  intros Hacc Hinv Hw E. unfold accept_fd, bind, get_server, os_call in E.
  destruct (s_listen (w_server w)).
  - destruct (sys (Accept _) (w_os w)) as [r o] eqn:E1.
    pose proof (untouched_sys _ _ _ _ Hw E1 ltac:(done) ltac:(intros; by eapply Hacc)) as H1.
    destruct (r =? -1); [injection E as <- <-; by exists o; auto|]. simpl in E.
    destruct (sys (Getnameinfo r) o) as [r2 o2] eqn:E2.
    pose proof (untouched_sys _ _ _ _ H1 E2 ltac:(done) ltac:(done)) as H2.
    destruct (negb (r2 =? 0)); injection E as <- <-; exists o2; split_and!; auto.
    right. by eapply Hacc.
  - destruct (s_clients (w_server w)) as [|x l] eqn:El; simpl in E.
    + exfalso. assert (c ∈ s_clients (w_server w)) as Hin by (rewrite (si_heap _ _ Hinv); exists cl; apply Hw).
      rewrite El in Hin. by apply not_elem_of_nil in Hin.
    + injection E as <- <-. exists (w_os w). rewrite with_os_id. auto.
Qed.

(** The end of [server_accept], with the new client in the queue. *)
Lemma accept_tail p f : p <> c -> f <> fd cl -> stays (beside p f) (
  modify_server (fun s => set_clients (s_clients s ++ [p]) s) ;;
  let! s := get_server in
  (if negb (s_accept_cb s =? NULL) then call_accept_cb (s_accept_cb s) p (s_private_data s) else ret tt) ;;
  track_max_fd f ;; ret 0).
Proof.
  intros Hp Hf.
  assert (forall s w, beside p f w -> s_read_fds s = s_read_fds (w_server w) -> beside p f (with_server s w)) as Hs.
  { intros s w2 [? ?] Hs. split; [by apply untouched_server|done]. }
  apply st_bind.
  { intros w a w' Hw E. unfold modify_server, bind, get_server, put_server in E. injection E as _ <-. by apply Hs. }
  intros _. apply st_bind; [apply st_get_server|]. intros s. apply st_bind.
  { case_match; [by apply st_accept_cb|apply st_ret]. }
  intros _. apply st_bind; [|intros; apply st_ret].
  intros w a w' Hw E. unfold track_max_fd, bind, get_server, put_server in E.
  destruct (s_max_fd (w_server w) <? f); injection E as _ <-; [by apply Hs|done].
Qed.

Lemma server_accept_untouched w r w' :
  accepts_other (w_os w) -> server_inv w -> untouched w -> server_accept w = Ret r w' -> untouched w'.
Proof.
  intros Hacc Hinv Hw E. unfold server_accept in E. unfold bind at 1 in E.
  destruct (accept_fd w) as [f w1| | |] eqn:E1; try done.
  destruct (accept_fd_untouched w f w1 Hacc Hinv Hw E1) as (o & -> & Hw1 & Hf).
  destruct (Z.eqb_spec f (-1)); [by injection E as _ <-|]. destruct Hf as [|Hf]; [done|].
  unfold bind at 1, new_client in E. simpl w_clients in E.
  destruct (sys_new_client (dom (w_clients w)) (w_os (with_os o w))) as [[[p x]|] o1] eqn:E2.
  2: { injection E as _ <-. by apply untouched_os; [|eapply new_client_apart..]. }
  assert (untouched (with_os o1 w)) as Hw2 by (by apply (untouched_os (with_os o w)); [|eapply new_client_apart..]).
  apply new_client_fresh in E2 as [Hfresh _]. rewrite not_elem_of_dom in Hfresh.
  assert (p <> c) as Hp by (intros ->; rewrite (un_client _ Hw) in Hfresh; done).
  unfold bind at 1, os_call in E. simpl w_os in E. destruct (sys_malloc _ o1) as [node o2] eqn:E3.
  assert (untouched (with_os o2 w)) as Hw3 by (by apply (untouched_os (with_os o1 w)); [|eapply malloc_streams..]).
  assert (forall y, fd y = f -> beside p f (with_os o2 (upd p y w))) as Hbes.
  { intros y Hy. rewrite <-upd_with_os. destruct Hw3 as [H1 H2 H3 H4 H5]. split; [|exists y; split; [apply lookup_upd|done]].
    constructor; try done; unfold upd, with_clients; simpl.
    - by rewrite lookup_insert_ne.
    - intros d z Hd. destruct (decide (p = d)) as [<-|]; [rewrite lookup_insert_eq; intros [= <-]; congruence|].
      rewrite lookup_insert_ne by done. by apply H4. }
  destruct node as [node|].
  2: { unfold bind, free_client, ret in E. injection E as _ <-. destruct Hw3 as [H1 H2 H3 H4 H5].
       constructor; try done; unfold upd, with_clients; simpl; rewrite ?delete_insert_id; done. }
  unfold warppipe_client_create in E. rewrite upd_with_os, with_os_with_os in E.
  erewrite bind_Ret in E by (apply run_modify; rewrite lookup_with_os; apply lookup_upd).
  rewrite upd_with_os, upd_upd in E. exact (proj1 (accept_tail p f Hp Hf _ _ _ (Hbes (client_created f x) eq_refl) E)).
Qed.

Lemma accept_ready_untouched w w' :
  accepts_other (w_os w) -> server_inv w -> untouched w -> accept_ready w = Ret tt w' -> untouched w'.
Proof.
  intros Hacc Hinv Hw E. unfold accept_ready, fd_isset, bind, get_server in E.
  destruct ((_ <? 0) || _); [done|]. unfold ret in E. destruct (bool_decide _); [|by injection E as <-].
  destruct (server_accept w) as [r w1| | |] eqn:E1; try done. injection E as <-. by eapply server_accept_untouched.
Qed.

(** The queue grows at its end, by at most the connection that was accepted. *)
Lemma accept_ready_queue w w' :
  server_inv w -> J (s_accept_cb (w_server w)) (w_app w) -> accept_ready w = Ret tt w' ->
  exists news, (length news <= 1)%nat /\ Forall (fun c' => w_clients w !! c' = None) news /\
    s_clients (w_server w') = s_clients (w_server w) ++ news.
Proof.
  intros Hinv HJ E. unfold accept_ready, fd_isset, bind, get_server in E.
  assert (exists news : list ptr, (length news <= 1)%nat /\ Forall (fun c' => w_clients w !! c' = None) news /\
    s_clients (w_server w) = s_clients (w_server w) ++ news) as Hnone by (exists []; rewrite app_nil_r; by split_and!; [simpl; lia|..]).
  destruct ((_ <? 0) || _); [done|]. unfold ret in E. destruct (bool_decide _); [|injection E as <-; exact Hnone].
  pose proof (server_accept_spec J w Hinv HJ) as Hk.
  destruct (server_accept w) as [r w1| | |]; try done. injection E as <-.
  destruct Hk as (_ & _ & [(_ & -> & _)|(_ & c' & Hc' & ->)]); [exact Hnone|].
  exists [c']. split_and!; [simpl; lia| |done]. by apply Forall_cons_2.
Qed.

Lemma read_ready_untouched l c' w w' :
  fd cl ∉ ready -> srv J l w -> c' ∈ l -> untouched w -> read_ready c' w = Ret tt w' -> untouched w'.
Proof.
  intros Hun (Hinv & _ & Hl) Hin Hw E. rewrite <-Hl, (si_heap _ _ Hinv) in Hin. destruct Hin as [cl' Hc'].
  unfold read_ready, fd_isset, bind, load, get_server in E. rewrite Hc' in E. unfold ret in E.
  destruct ((_ <? 0) || _); [done|]. destruct (bool_decide_reflect (fd cl' ∈ s_read_fds (w_server w))) as [Hr|];
    [|by injection E as <-].
  assert (c' <> c) as Hne.
  { intros ->. rewrite (un_client _ Hw) in Hc'. injection Hc' as ->. by rewrite (un_ready _ Hw) in Hr. }
  assert (beside c' (fd cl') w) as Hb by (split; [done|by exists cl']).
  exact (proj1 (st_client_read c' (fd cl') Hne (un_apart _ Hw c' cl' Hne Hc') w tt w' Hb E)).
Qed.

Lemma read_each_untouched l suf : forall w w',
  fd cl ∉ ready -> srv J l w -> suf ⊆ l -> untouched w -> read_each suf w = Ret tt w' -> untouched w'.
Proof.
  induction suf as [|c' suf IH]; intros w w' Hun Hs Hsub Hw E; simpl in E; [by injection E as <-|].
  unfold bind in E. destruct (read_ready c' w) as [[] w1| | |] eqn:E1; try done.
  assert (c' ∈ l) as Hin by (apply Hsub; by left).
  pose proof (read_ready_spec J l c' w Hs Hin) as Hk. unfold wp in Hk. rewrite E1 in Hk.
  apply (IH w1); [done|done|intros x Hx; apply Hsub; by right| |done]. exact (read_ready_untouched l c' w w1 Hun Hs Hin Hw E1).
Qed.

Lemma close_all_untouched w : untouched w -> forall cs, c ∉ cs ->
  pending (fd cl) (close_all w cs) = inp /\ sent (fd cl) (close_all w cs) = out.
Proof.
  intros Hw cs. unfold close_all. generalize (conj (un_pending _ Hw) (un_sent _ Hw)). generalize (w_os w).
  induction cs as [|c' cs IH]; intros o Ho Hn; simpl; [done|]. apply IH; [|intros Hx; apply Hn; by right].
  destruct (w_clients w !! c') as [cl'|] eqn:Hc'; [|done]. destruct (sys (Close (fd cl')) o) as [r o'] eqn:E. simpl.
  assert (fd cl' <> fd cl) as Hf by (apply (un_apart _ Hw c'); [|done]; intros ->; apply Hn; by left).
  destruct (sys_apart _ (fd cl) o r o' E) as [-> ->]; [congruence|done|done].
Qed.

Lemma disconnect_untouched w w' :
  server_inv w -> active cl = true -> untouched w ->
  warppipe_server_disconnect_clients (Some should_disconnect_client) w = Ret tt w' -> untouched w'.
Proof.
  intros Hinv Ha Hw E. rewrite disconnect_clients_eq in E by done. injection E as <-.
  set (cond := Some should_disconnect_client).
  assert (doomed cond w c = false) as Hd.
  { unfold doomed, cond, should_disconnect_client. by rewrite (un_client _ Hw), Ha. }
  assert (c ∉ filter (fun x => doomed cond w x = true) (s_clients (w_server w))) as Hn.
  { rewrite list_elem_of_filter. intros [Hx _]. congruence. }
  destruct (close_all_untouched w Hw _ Hn) as [Hp Hs]. constructor; try done.
  - apply disconnected_lookup; [done|]. split; [apply Hw|done].
  - intros c' cl' Hne [Hc' _]%disconnected_lookup; [|done]. by eapply un_apart.
  - apply Hw.
Qed.
End Isolation.

(** C9. Connections do not disturb each other.  An iteration of the server loop that
    finds nothing to read on a connection keeps it: its structure is the same,
    nothing was taken from what waits on its descriptor and nothing was sent on it,
    whatever the other connections received, whoever was accepted and whoever was
    disconnected.  It keeps its place in the queue too: the queue is the one before,
    with the connection that was accepted behind it, without some that were
    disconnected.  The operations of the API on another connection keep its structure,
    what waits and what was sent.

    This is asked of the application: its callbacks operate on no connection but the
    one they are called for ([CallbacksApart]).  The memory mock does not meet it when
    it has several connections, since it registers BARs with the last one. *)
Theorem connections_isolated {os app : Type} `{!SocketIO os} `{!Callbacks os app} `{!ServerIO os}
    `{!ServerCallbacks os app} `{!SocketStreams os} `{!StreamLaws os} `{!StreamsApart os} `{!SocketLaws os}
    `{!ServerLaws os} (J : ptr -> app -> Prop) `{!ServerCallbacksKeep (os := os) J} (c : ptr) (cl : warppipe_client)
    (w : world os app) :
  let inp := pending (fd cl) (w_os w) in
  let out := sent (fd cl) (w_os w) in
  (forall ready, CallbacksApart (os := os) (app := app) c cl inp out ready) ->
  w_clients w !! c = Some cl -> (forall c' cl', c' <> c -> w_clients w !! c' = Some cl' -> fd cl' <> fd cl) ->
  (forall w' fds o, server_inv w -> J (s_accept_cb (w_server w)) (w_app w) -> active cl = true ->
     sys_select (s_max_fd (w_server w) + 1) (watched w) (w_os w) = (fds, o) -> fd cl ∉ fds ->
     accepts_other cl o ->
     warppipe_server_loop w = Ret tt w' ->
     w_clients w' !! c = Some cl /\ c ∈ s_clients (w_server w') /\
     (exists news gone : list ptr, (length news <= 1)%nat /\ Forall (fun c' => w_clients w !! c' = None) news /\ c ∉ gone /\
        s_clients (w_server w') = filter (fun c' => c' ∉ gone) (s_clients (w_server w) ++ news)) /\
     pending (fd cl) (w_os w') = inp /\ sent (fd cl) (w_os w') = out) /\
  (forall w' c' cl' a r, c' <> c -> w_clients w !! c' = Some cl' -> call c' a w = Ret r w' ->
     w_clients w' !! c = Some cl /\ pending (fd cl) (w_os w') = inp /\ sent (fd cl) (w_os w') = out).
Proof.
  intros inp out Hcb Hc Hapart. split.
  - intros w' fds o Hinv HJ Ha Hsel Hun Hacc E. rewrite (server_loop_each J) in E by done. rewrite Hsel in E.
    set (w0 := with_read_fds fds (with_os o w)) in E.
    assert (server_inv w0) as Hi0 by (by destruct Hinv).
    assert (untouched c cl inp out fds w0) as H0.
    { destruct (select_apart _ _ (fd cl) _ _ _ Hsel). by constructor. }
    pose proof (accept_ready_spec J w0 Hi0 HJ) as Hk. unfold wp in Hk. unfold serve_each, bind at 1 in E.
    destruct (accept_ready w0) as [[] w1| | |] eqn:E1; try done. destruct Hk as [Hi1 HJ1].
    pose proof (accept_ready_untouched c cl inp out fds w0 w1 Hacc Hi0 H0 E1) as H1.
    destruct (accept_ready_queue J w0 w1 Hi0 HJ E1) as (news & Hn1 & Hn2 & Hn3).
    erewrite bind_Ret in E by reflexivity. unfold bind in E.
    assert (srv J (s_clients (w_server w1)) w1) as Hs1 by done.
    pose proof (read_each_spec J _ (s_clients (w_server w1)) w1 Hs1 ltac:(done)) as Hk. unfold wp in Hk.
    destruct (read_each (s_clients (w_server w1)) w1) as [[] w2| | |] eqn:E2; try done. destruct Hk as (Hi2 & _ & Hq).
    pose proof (read_each_untouched c cl inp out fds J _ _ w1 w2 Hun Hs1 ltac:(done) H1 E2) as H2.
    pose proof (disconnect_untouched c cl inp out fds w2 w' Hi2 Ha H2 E) as H3.
    rewrite disconnect_clients_eq in E by done. injection E as <-. split_and!; [apply H3| | |apply H3..].
    { apply (si_heap _ _ (disconnected_inv _ w2 Hi2)). exists cl. apply H3. }
    eexists news, _. split_and!; [exact Hn1|exact Hn2| |].
    2: { cbn [disconnected w_server set_quit set_clients s_clients]. by rewrite Hq, Hn3. }
    rewrite list_elem_of_filter. unfold doomed, should_disconnect_client. rewrite (un_client _ _ _ _ _ _ H2), Ha. by intros [].
  - intros w' c' cl' a r Hne Hc' E.
    set (ready := s_read_fds (w_server w)).
    assert (beside c cl inp out ready c' (fd cl') w) as Hb by (split; [by constructor|by exists cl']).
    pose proof (st_call c cl inp out ready c' (fd cl') Hne (Hapart c' cl' Hne Hc') a w r w' Hb E) as [[] _]. done.
Qed.

(** ** On the concrete environment *)

(** [select] reports the descriptors that bytes wait on; connections arrive on 5. *)
#[local] Instance busy_io : ServerIO sim_os := {|
  sys := @sys _ sim_server_io;
  sys_getaddrinfo := @sys_getaddrinfo _ sim_server_io;
  sys_select _ fds o := (filter (fun f => bool_decide (pending f o = []) = false) fds, o);
  sys_new_client := @sys_new_client _ sim_server_io;
|}.
#[local] Instance busy_laws : ServerLaws sim_os.
Proof.
  constructor; [apply (accept_range (H := sim_server_io))|apply (socket_range (H := sim_server_io))
    |apply (new_client_fresh (H := sim_server_io))].
Qed.

#[local] Instance busy_apart : StreamsApart sim_os.
Proof.
  constructor.
  - intros f g n o r o' E Hg. simpl in *. destruct (n <? 0); [by simplify_eq|]. destruct (next_segment _ _). simplify_eq.
    unfold segments. simpl. by rewrite lookup_insert_ne.
  - intros f g bs o k o' E Hg. simpl in *. case_decide; simplify_eq; [done|]. unfold written. simpl.
    by rewrite lookup_insert_ne.
  - intros call g o r o' E Hn Ha. destruct call; simpl in E; simplify_eq; try done.
    split; [|done]. simpl. unfold segments. simpl. rewrite lookup_delete_ne; [done|congruence].
  - intros n fds g o fds' o' E. simpl in E. by simplify_eq.
  - intros used g o r o' E. simpl in E. by simplify_eq.
Qed.

#[local] Instance busy_callbacks c cl inp out ready :
  CallbacksApart (os := sim_os) (app := list event) c cl inp out ready.
Proof. constructor; intros; intros w a w' [[] ?] E; simpl in E; simplify_eq; (split; [by constructor|done]). Qed.

(** Two connections: nothing on descriptor 3, a request on 6, and a third peer at
    the listening socket. *)
Definition busy_client : warppipe_client := set_fd 6 example_client.
Definition busy_world : world sim_os (list event) :=
  mk_world _ _ (mk_sim {[4 := [[0]]; 6 := [example_packet]]} ∅ ∅ 0xa5)
    (set_accept_cb 300 (mk_server 4 true false 0 None "2115" 6 ∅ [7; 8] NULL NULL))
    {[7 := example_client; 8 := busy_client]} [] static_init.

Lemma busy_clients c cl :
  w_clients busy_world !! c = Some cl -> (c = 7 /\ cl = example_client) \/ (c = 8 /\ cl = busy_client).
Proof.
  unfold busy_world. cbn [w_clients].
  intros [[-> ->]|[? [<- <-]%lookup_singleton_Some]]%lookup_insert_Some; auto.
Qed.

Lemma busy_inv : server_inv busy_world.
Proof.
  constructor.
  - by apply (bool_decide_unpack (NoDup [7; 8])); vm_compute.
  - intros c. cbn [w_server busy_world s_clients set_accept_cb]. split.
    + intros [->|[->|[]%not_elem_of_nil]%elem_of_cons]%elem_of_cons; eauto.
    + intros [cl [[-> _]|[-> _]]%busy_clients]; [left|right; left].
  - intros c cl [[_ ->]|[_ ->]]%busy_clients; [apply example_client_wf|].
    destruct example_client_wf. by constructor.
  - intros c cl [[-> ->]|[-> ->]]%busy_clients; simpl; unfold FD_SETSIZE; lia.
  - simpl. lia.
  - done.
Qed.

(** The request on 6 is acknowledged and answered, and the third peer accepted. *)
Lemma busy_runs :
  match warppipe_server_loop busy_world with
  | Ret _ w' => s_clients (w_server w') = [7; 8; 9] /\ length (sent 6 (w_os w')) = 34%nat /\
      w_app w' = [Accepted 300 9; ReadCalled 103 19 5]
  | _ => False
  end /\
  match call 8 (Read 0 16 4 130) busy_world with Ret r _ => r = 0 | _ => False end.
Proof. vm_compute. split_and!; reflexivity. Qed.

Lemma connections_isolated_witness :
  (exists w', warppipe_server_loop busy_world = Ret tt w' /\ s_clients (w_server w') = [7; 8; 9] /\
     w_clients w' !! 7 = Some example_client /\ pending 3 (w_os w') = [] /\ sent 3 (w_os w') = []) /\
  (exists w', call 8 (Read 0 16 4 130) busy_world = Ret 0 w' /\
     w_clients w' !! 7 = Some example_client /\ pending 3 (w_os w') = [] /\ sent 3 (w_os w') = []).
Proof.
  assert (w_clients busy_world !! 7 = Some example_client) as Hc by reflexivity.
  assert (w_clients busy_world !! 8 = Some busy_client) as Hc8 by reflexivity.
  destruct (connections_isolated (fun _ _ => True) 7 example_client busy_world) as [H1 H2].
  - intros ready. apply busy_callbacks.
  - exact Hc.
  - intros c' cl' Hne [[-> _]|[_ ->]]%busy_clients; [congruence|done].
  - destruct busy_runs as [R1 R2]. split.
    + destruct (warppipe_server_loop busy_world) as [[] w'| | |] eqn:E; [|contradiction R1..].
      exists w'. destruct R1 as (R1 & _ & _).
      destruct (H1 w' {[4; 6]} (w_os busy_world)) as (? & _ & _ & ? & ?); [apply busy_inv|exact I|reflexivity| | | |reflexivity|].
      * vm_compute. reflexivity.
      * apply (bool_decide_unpack (3 ∉ _)). vm_compute. exact I.
      * intros f r o' [= <- _]. discriminate.
      * split_and!; [reflexivity|assumption..].
    + destruct (call 8 (Read 0 16 4 130) busy_world) as [r w'| | |] eqn:E; [|contradiction R2..].
      rewrite R2 in E. exists w'. rewrite R2.
      destruct (H2 w' 8 busy_client (Read 0 16 4 130) 0) as (? & ? & ?); [discriminate|exact Hc8|exact E|].
      split_and!; [reflexivity|assumption..].
Defined.
