(* ===== verification/Yaml.v ===== *)
(** * Configuration space from YAML ([src/yaml_configspace.c])

    [process_event] as a step function on the parser state and the bytes of
    [struct pcie_configuration_space_header_type0], and the loop that feeds it.
    The parser library is a parameter ([yaml_parser_parse]); [strtoul] is the C
    library's, for 64-bit [unsigned long]. *)

From S2P Require Import Prelude Layout.

(** ** [strtoul(value, &check_err, 0)]

    Characters are their codes. *)

Definition chars (s : string) : list Z := (fun a => Z.of_N (Ascii.N_of_ascii a)) <$> String.list_ascii_of_string s.

Definition is_space (c : Z) : bool := (c =? 32) || ((9 <=? c) && (c <=? 13)).

Definition digit (base c : Z) : option Z :=
  let d := if (48 <=? c) && (c <=? 57) then c - 48
           else if (97 <=? c) && (c <=? 122) then c - 87
           else if (65 <=? c) && (c <=? 90) then c - 55
           else 36 in
  if d <? base then Some d else None.

(** The value of the leading digits, whether there is one, and the rest. *)
Fixpoint digits (base acc : Z) (any : bool) (s : list Z) : Z * bool * list Z :=
  match s with
  | [] => (acc, any, [])
  | c :: s' => match digit base c with
               | Some d => digits base (acc * base + d) true s'
               | None => (acc, any, s)
               end
  end.

Fixpoint skip_spaces (s : list Z) : list Z :=
  match s with c :: s' => if is_space c then skip_spaces s' else s | [] => [] end.

Definition ULONG_MAX : Z := 2 ^ 64 - 1.

(** The number without its sign, converted?, and the rest; base 0 means that the
    prefix decides.  A prefix [0x] counts only before a hexadecimal digit. *)
Definition magnitude (s : list Z) : Z * bool * list Z :=
  match s with
  | 48 :: x :: h :: s' =>
      if ((x =? 120) || (x =? 88)) && bool_decide (is_Some (digit 16 h)) then digits 16 0 false (h :: s')
      else digits 8 0 false s
  | 48 :: _ => digits 8 0 false s
  | _ => digits 10 0 false s
  end.

Record strtoul_result := mk_strtoul {
  num : Z;
  converted : bool;       (** [check_err != value] *)
  trailing : list Z;      (** the string at [check_err] *)
  erange : bool;          (** [errno == ERANGE] *)
}.

Definition strtoul (value : string) : strtoul_result :=
  let s := chars value in
  let '(neg, s) := match skip_spaces s with
                   | 45 :: s' => (true, s')
                   | 43 :: s' => (false, s')
                   | s' => (false, s')
                   end in
  let '(n, any, rest) := magnitude s in
  if negb any then mk_strtoul 0 false (chars value) false
  else if ULONG_MAX <? n then mk_strtoul ULONG_MAX true rest true
  else mk_strtoul (if neg : bool then u64 (- n) else n) true rest false.

(** ** Parser state *)

Inductive parser_state :=
  | PARSE_VENDOR_ID | PARSE_DEVICE_ID | PARSE_COMMAND | PARSE_STATUS | PARSE_REVISION_ID
  | PARSE_CLASS_CODE | PARSE_CACHE_LINE_SIZE | PARSE_LATENCY_TIMER | PARSE_HEADER_TYPE | PARSE_BIST
  | PARSE_CARDBUS_CIS_POINTER | PARSE_SUBSYSTEM_VENDOR_ID | PARSE_SUBSYSTEM_ID
  | PARSE_EXPANSION_ROM_BASE_ADDRESS | PARSE_CAPABILITIES_POINTER | PARSE_INTERRUPT_LINE
  | PARSE_INTERRUPT_PIN | PARSE_MIN_GNT | PARSE_MAX_LAT
  | DONE
  | PARSE_KEY.

#[export] Instance parser_state_eq_dec : EqDecision parser_state.
Proof. solve_decision. Defined.

Definition parser_keys : list string :=
  ["vendor_id"; "device_id"; "command"; "status"; "revision_id"; "class_code"; "cache_line_size";
   "latency_timer"; "header_type"; "bist"; "cardbus_cis_pointer"; "subsystem_vendor_id";
   "subsystem_id"; "expansion_rom_base_address"; "capabilities_pointer"; "interrupt_line";
   "interrupt_pin"; "min_gnt"; "max_lat"]%string.

(** The enumeration in order: [next_state = i]. *)
Definition parser_states : list parser_state :=
  [PARSE_VENDOR_ID; PARSE_DEVICE_ID; PARSE_COMMAND; PARSE_STATUS; PARSE_REVISION_ID;
   PARSE_CLASS_CODE; PARSE_CACHE_LINE_SIZE; PARSE_LATENCY_TIMER; PARSE_HEADER_TYPE; PARSE_BIST;
   PARSE_CARDBUS_CIS_POINTER; PARSE_SUBSYSTEM_VENDOR_ID; PARSE_SUBSYSTEM_ID;
   PARSE_EXPANSION_ROM_BASE_ADDRESS; PARSE_CAPABILITIES_POINTER; PARSE_INTERRUPT_LINE;
   PARSE_INTERRUPT_PIN; PARSE_MIN_GNT; PARSE_MAX_LAT].

Fixpoint find_key (value : string) (keys : list string) (states : list parser_state)
    (default : parser_state) : parser_state :=
  match keys, states with
  | k :: keys, st :: states => if String.eqb value k then st else find_key value keys states default
  | _, _ => default
  end.

(** ** The header *)

Definition offset (name : string) : nat :=
  f_byte (field_in name (layout LITTLE_ENDIAN pcie_configuration_space_header_type0)).

(** [GET_HI_OF_SPLIT2] and so on, stored in [uint8_t]s. *)
Definition store2 (name : string) (n : Z) (result : list Z) : list Z :=
  wr (wr result (offset name + 1) (u8 (Z.shiftr n 8))) (offset name) (u8 (Z.land n 0xFF)).
Definition store3 (name : string) (n : Z) (result : list Z) : list Z :=
  wr (wr (wr result (offset name + 2) (u8 (Z.shiftr n 16))) (offset name + 1) (u8 (Z.land (Z.shiftr n 8) 0xFF)))
     (offset name) (u8 (Z.land n 0xFF)).
Definition store1 (name : string) (n : Z) (result : list Z) : list Z := wr result (offset name) (u8 n).
Definition store4 (name : string) (n : Z) (result : list Z) : list Z :=
  let v := u32 (Z.lor (Z.shiftl (Z.shiftr n 24) 24)
             (Z.lor (Z.shiftl (Z.land (Z.shiftr n 16) 0xFF) 16)
               (Z.lor (Z.shiftl (Z.land (Z.shiftr n 8) 0xFF) 8) (Z.land n 0xFF)))) in
  wr_bytes (offset name) (le_bytes 4 v) result.

(** The inner [switch] for the states that store a value. *)
Definition store_value (state : parser_state) (n : Z) (result : list Z) : list Z :=
  match state with
  | PARSE_VENDOR_ID => store2 "vendor_id" n result
  | PARSE_DEVICE_ID => store2 "device_id" n result
  | PARSE_COMMAND => store2 "command" n result
  | PARSE_STATUS => store2 "status" n result
  | PARSE_REVISION_ID => store1 "revision_id" n result
  | PARSE_CLASS_CODE => store3 "class_code" n result
  | PARSE_CACHE_LINE_SIZE => store1 "cache_line_size" n result
  | PARSE_LATENCY_TIMER => store1 "latency_timer" n result
  | PARSE_HEADER_TYPE => store1 "header_type" n result
  | PARSE_BIST => store1 "bist" n result
  | PARSE_CARDBUS_CIS_POINTER => store4 "cardbus_cis_pointer" n result
  | PARSE_SUBSYSTEM_VENDOR_ID => store2 "subsystem_vendor_id" n result
  | PARSE_SUBSYSTEM_ID => store2 "subsystem_id" n result
  | PARSE_EXPANSION_ROM_BASE_ADDRESS => store4 "expansion_rom_base_address" n result
  | PARSE_CAPABILITIES_POINTER => store1 "capabilities_pointer" n result
  | PARSE_INTERRUPT_LINE => store1 "interrupt_line" n result
  | PARSE_INTERRUPT_PIN => store1 "interrupt_pin" n result
  | PARSE_MIN_GNT => store1 "min_gnt" n result
  | PARSE_MAX_LAT => store1 "max_lat" n result
  | DONE | PARSE_KEY => result
  end.

(** ** Events *)

Inductive yaml_event :=
  | YAML_NO_EVENT
  | YAML_MAPPING_END_EVENT
  | YAML_DOCUMENT_END_EVENT
  | YAML_STREAM_END_EVENT
  | YAML_SCALAR_EVENT (value : string)
  | YAML_OTHER_EVENT.

Definition ERANGE : Z := 34.
Definition EINVAL : Z := 22.
Definition ENOENT : Z := 2.

(** [process_event] on non-NULL arguments: return value, header, next state. *)
Definition process_event (event : yaml_event) (result : list Z) (state : parser_state)
    : Z * list Z * parser_state :=
  match event with
  | YAML_NO_EVENT | YAML_MAPPING_END_EVENT | YAML_DOCUMENT_END_EVENT | YAML_STREAM_END_EVENT =>
      (0, result, DONE)
  | YAML_SCALAR_EVENT value =>
      let r := strtoul value in
      let result' := store_value state (num r) result in
      let next_state := match state with
                        | PARSE_KEY => find_key value parser_keys parser_states PARSE_KEY
                        | DONE => DONE
                        | _ => PARSE_KEY
                        end in
      let bad := negb (converted r) || negb (bool_decide (trailing r = []))
                 || ((num r =? ULONG_MAX) && erange r) in
      (if negb (bool_decide (state = PARSE_KEY)) && bad then - ERANGE else 0, result', next_state)
  | YAML_OTHER_EVENT => (0, result, state)
  end.

Section Parser.
(** The parser of libyaml: the next event, or failure. *)
Context {parser : Type} (yaml_parser_parse : parser -> option yaml_event * parser).

(** The [do ... while] loop: the return value and the header; [None] when
    [fuel] events were not enough. *)
Fixpoint parse_loop (fuel : nat) (p : parser) (result : list Z) (state : parser_state) : option (Z * list Z) :=
  match fuel with
  | O => None
  | S fuel =>
      match yaml_parser_parse p with
      | (None, _) => Some (-1, result)
      | (Some event, p') =>
          let '(retval, result', state') := process_event event result state in
          if negb (bool_decide (state' = DONE)) && (retval =? 0)
          then parse_loop fuel p' result' state'
          else Some (retval, result')
      end
  end.

(** [data] and [result] may be [NULL]; the header is what [result] points to. *)
Definition pcie_configuration_space_header_from_yaml (fuel : nat) (data : option parser)
    (result : option (list Z)) : option (Z * option (list Z)) :=
  match result, data with
  | None, _ => Some (- EINVAL, None)
  | Some _, None => Some (- ENOENT, result)
  | Some header, Some p =>
      '(retval, header') ← parse_loop fuel p header PARSE_KEY; Some (retval, Some header')
  end.
End Parser.

(** ** Lemmas *)

(** Where a state stores its value: offset and width in bytes. *)
Definition field_of (state : parser_state) : option (nat * nat) :=
  match state with
  | PARSE_VENDOR_ID => Some (0, 2)
  | PARSE_DEVICE_ID => Some (2, 2)
  | PARSE_COMMAND => Some (4, 2)
  | PARSE_STATUS => Some (6, 2)
  | PARSE_REVISION_ID => Some (8, 1)
  | PARSE_CLASS_CODE => Some (9, 3)
  | PARSE_CACHE_LINE_SIZE => Some (12, 1)
  | PARSE_LATENCY_TIMER => Some (13, 1)
  | PARSE_HEADER_TYPE => Some (14, 1)
  | PARSE_BIST => Some (15, 1)
  | PARSE_CARDBUS_CIS_POINTER => Some (40, 4)
  | PARSE_SUBSYSTEM_VENDOR_ID => Some (44, 2)
  | PARSE_SUBSYSTEM_ID => Some (46, 2)
  | PARSE_EXPANSION_ROM_BASE_ADDRESS => Some (48, 4)
  | PARSE_CAPABILITIES_POINTER => Some (52, 1)
  | PARSE_INTERRUPT_LINE => Some (60, 1)
  | PARSE_INTERRUPT_PIN => Some (61, 1)
  | PARSE_MIN_GNT => Some (62, 1)
  | PARSE_MAX_LAT => Some (63, 1)
  | DONE | PARSE_KEY => None
  end%nat.

Lemma u32_split4 (n : Z) :
  u32 (Z.lor (Z.shiftl (Z.shiftr n 24) 24)
    (Z.lor (Z.shiftl (Z.land (Z.shiftr n 16) 0xFF) 16)
      (Z.lor (Z.shiftl (Z.land (Z.shiftr n 8) 0xFF) 8) (Z.land n 0xFF)))) = u32 n.
Proof.
  bitwise; rewrite ?testbit_255, ?Z.shiftr_spec by lia;
    rewrite ?(proj2 (Z.ltb_lt _ _)), ?andb_true_r by lia; f_equal; lia.
Qed.

Lemma le_bytes_u32 (n : Z) : le_bytes 4 (u32 n) = le_bytes 4 n.
Proof.
  cbn [le_bytes]. rewrite !land_255, !Z.shiftr_shiftr by lia.
  repeat (apply (f_equal2 cons); [bitwise|]). done.
Qed.

Lemma u8_idem (n : Z) : u8 (u8 n) = u8 n.
Proof. by apply wrap_wrap. Qed.

(** Every value is stored in little-endian order. *)
Lemma store_value_field (state : parser_state) (off wd : nat) (n : Z) (result : list Z) :
  field_of state = Some (off, wd) -> store_value state n result = wr_bytes off (le_bytes wd n) result.
Proof.
  intros H. destruct state; simpl in H; simplify_eq; cbn [store_value];
    unfold store1, store2, store3, store4, wr; rewrite ?u32_split4, ?le_bytes_u32; try reflexivity;
    cbn [le_bytes]; rewrite ?land_255, ?Z.shiftr_shiftr, ?u8_idem by lia; reflexivity.
Qed.

(** Fields do not overlap and lie in the 64 bytes of the header. *)
Lemma fields_disjoint (s1 s2 : parser_state) (o1 w1 o2 w2 : nat) :
  field_of s1 = Some (o1, w1) -> field_of s2 = Some (o2, w2) -> s1 <> s2 ->
  (o1 + w1 <= o2 \/ o2 + w2 <= o1)%nat.
Proof.
  intros H1 H2 Hne.
  destruct s1; simpl in H1; simplify_eq; destruct s2; simpl in H2; simplify_eq; (done || lia).
Qed.

Lemma field_bounds (s : parser_state) (o w : nat) :
  field_of s = Some (o, w) -> (o + w <= 64 /\ 1 <= w <= 4)%nat.
Proof. intros H. destruct s; simpl in H; simplify_eq; lia. Qed.

(** *** Numerals *)

(** The value of a list of digits. *)
Definition numeral (base : Z) (ds : list Z) : Z := foldl (fun acc d => acc * base + d) 0 ds.

Definition digit_char (d : Z) : Z := if d <? 10 then 48 + d else 87 + d.

Lemma digit_digit_char (base d : Z) :
  0 <= d < base -> base <= 36 -> digit base (digit_char d) = Some d.
Proof.
  intros Hd Hb. unfold digit, digit_char. destruct (Z.ltb_spec d 10).
  - rewrite (proj2 (Z.leb_le 48 _)), (proj2 (Z.leb_le _ 57)) by lia. simpl.
    rewrite (proj2 (Z.ltb_lt _ base)) by lia. f_equal. lia.
  - rewrite (proj2 (Z.leb_gt _ 57)), andb_false_r by lia.
    rewrite (proj2 (Z.leb_le 97 _)), (proj2 (Z.leb_le _ 122)) by lia. simpl.
    rewrite (proj2 (Z.ltb_lt _ base)) by lia. f_equal. lia.
Qed.

Lemma digits_numeral (base : Z) (ds : list Z) (acc : Z) (any : bool) :
  Forall (fun d => 0 <= d < base) ds -> base <= 36 -> any = true \/ ds <> [] ->
  digits base acc any (digit_char <$> ds) = (foldl (fun acc d => acc * base + d) acc ds, true, []).
Proof.
  intros Hds Hb. revert acc any. induction Hds as [|d ds Hd _ IH]; intros acc any Hany.
  - simpl. destruct Hany as [->|]; done.
  - rewrite fmap_cons. cbn [digits foldl]. rewrite digit_digit_char by done. apply IH. by left.
Qed.

(** [value] is a decimal or hexadecimal numeral for [n]. *)
Inductive denotes (value : string) (n : Z) : Prop :=
  | denotes_dec d ds :
      chars value = digit_char <$> d :: ds -> d <> 0 \/ ds = [] ->
      Forall (fun d => 0 <= d < 10) (d :: ds) -> n = numeral 10 (d :: ds) -> denotes value n
  | denotes_hex d ds :
      chars value = 48 :: 120 :: (digit_char <$> d :: ds) ->
      Forall (fun d => 0 <= d < 16) (d :: ds) -> n = numeral 16 (d :: ds) -> denotes value n.

Lemma magnitude_denotes (value : string) (n : Z) :
  denotes value n -> magnitude (chars value) = (n, true, []) /\
  match chars value with c :: _ => is_space c = false /\ c <> 45 /\ c <> 43 | [] => False end.
Proof.
  intros [d ds E Hz Hds ->|d ds E Hds ->]; rewrite E.
  - apply Forall_cons_1 in Hds as Hd. destruct Hd as [Hd _]. split.
    + unfold magnitude. rewrite fmap_cons.
      destruct (Z.eq_dec d 0) as [->|Hne].
      * destruct Hz as [Hz|Hz]; [done|]. by subst ds.
      * unfold numeral. rewrite <-fmap_cons, <-(digits_numeral 10 (d :: ds) 0 false) by (done || lia || by right).
        unfold digit_char at 1. rewrite fmap_cons.
        assert (d = 1 \/ d = 2 \/ d = 3 \/ d = 4 \/ d = 5 \/ d = 6 \/ d = 7 \/ d = 8 \/ d = 9) as Hc by lia.
        repeat destruct Hc as [->|Hc]; try subst d; reflexivity.
    + rewrite fmap_cons. unfold digit_char, is_space. rewrite (proj2 (Z.ltb_lt _ _)) by lia. lia.
  - split; [|done]. unfold magnitude. rewrite fmap_cons.
    apply Forall_cons_1 in Hds as Hd. destruct Hd as [Hd _].
    rewrite digit_digit_char, bool_decide_true by (done || lia || by eexists). simpl (_ && _). cbv iota.
    rewrite <-fmap_cons. apply digits_numeral; [done|lia|by right].
Qed.

(** Decimal and hexadecimal numerals up to [ULONG_MAX] are read exactly, consumed
    entirely, and reported without error. *)
Lemma strtoul_denotes (value : string) (n : Z) :
  denotes value n -> n <= ULONG_MAX -> strtoul value = mk_strtoul n true [] false.
Proof.
  intros Hd Hn. destruct (magnitude_denotes _ _ Hd) as [Hm Hc]. unfold strtoul.
  destruct (chars value) as [|c s]; [done|]. destruct Hc as (Hs & H45 & H43).
  cbn [skip_spaces]. rewrite Hs.
  assert (match c :: s with 45 :: s' => (true, s') | 43 :: s' => (false, s') | s' => (false, s') end
    = (false, c :: s)) as ->.
  { destruct c as [|c|]; try done. repeat (destruct c as [c|c|]; try done). }
  rewrite Hm. simpl negb. cbv iota. by rewrite (proj2 (Z.ltb_ge _ _)) by lia.
Qed.

(** *** Documents *)

(** An entry of the mapping: the key's state, the scalar and its number. *)
Record entry := mk_entry { e_key : string; e_state : parser_state; e_value : string; e_num : Z }.

Definition entry_ok (e : entry) : Prop :=
  find_key (e_key e) parser_keys parser_states PARSE_KEY = e_state e /\
  is_Some (field_of (e_state e)) /\ denotes (e_value e) (e_num e) /\ e_num e <= ULONG_MAX.

(** The events of a document that is one mapping of scalars: up to a point in the
    mapping, and all of them. *)
Definition opening (es : list entry) : list yaml_event :=
  replicate 3 YAML_OTHER_EVENT ++
  (es ≫= fun e => [YAML_SCALAR_EVENT (e_key e); YAML_SCALAR_EVENT (e_value e)]).

Definition document (es : list entry) : list yaml_event := opening es ++ [YAML_MAPPING_END_EVENT].

Definition store_entries (es : list entry) (result : list Z) : list Z :=
  foldl (fun r e => store_value (e_state e) (e_num e) r) result es.

Section Document.
Context {parser : Type} (yaml_parser_parse : parser -> option yaml_event * parser).

(** The parser delivers these events next and is then in state [q]. *)
Inductive delivers : parser -> list yaml_event -> parser -> Prop :=
  | delivers_nil p : delivers p [] p
  | delivers_cons p p' e evs q :
      yaml_parser_parse p = (Some e, p') -> delivers p' evs q -> delivers p (e :: evs) q.

Lemma delivers_app p evs evs' q :
  delivers p (evs ++ evs') q -> exists p', delivers p evs p' /\ delivers p' evs' q.
Proof.
  revert p. induction evs as [|e evs IH]; intros p H; simpl in H.
  - exists p. split; [constructor|done].
  - inversion H as [|? p1 ? ? ? E H1]; subst. destruct (IH _ H1) as (p' & ? & ?).
    exists p'. split; [by econstructor|done].
Qed.

#[local] Abbreviation loop := (parse_loop yaml_parser_parse).

(** A key and its value. *)
Lemma process_entry (e : entry) (result : list Z) :
  entry_ok e ->
  process_event (YAML_SCALAR_EVENT (e_key e)) result PARSE_KEY = (0, result, e_state e) /\
  process_event (YAML_SCALAR_EVENT (e_value e)) result (e_state e) =
    (0, store_value (e_state e) (e_num e) result, PARSE_KEY) /\
  e_state e <> DONE.
Proof.
  intros (Hk & [[o wd] Hf] & Hv & Hn). unfold process_event.
  rewrite (strtoul_denotes _ _ Hv Hn), Hk. cbn [num converted trailing erange].
  destruct (e_state e); simpl in Hf; simplify_eq; (split_and!; [done| |done]);
    rewrite andb_false_r; reflexivity.
Qed.

(** One iteration that does not end the loop. *)
Lemma loop_step fuel p p' e result result' state state' :
  yaml_parser_parse p = (Some e, p') -> process_event e result state = (0, result', state') ->
  state' <> DONE -> loop (S fuel) p result state = loop fuel p' result' state'.
Proof. intros E H Hd. cbn [parse_loop]. rewrite E, H, bool_decide_false by done. reflexivity. Qed.

Lemma parse_entries es : forall fuel p q result,
  Forall entry_ok es ->
  delivers p (es ≫= fun e => [YAML_SCALAR_EVENT (e_key e); YAML_SCALAR_EVENT (e_value e)]) q ->
  loop (2 * length es + fuel) p result PARSE_KEY = loop fuel q (store_entries es result) PARSE_KEY.
Proof.
  induction es as [|e es IH]; intros fuel p q result Hes Hp.
  - by inversion Hp.
  - apply Forall_cons_1 in Hes as [He Hes].
    inversion Hp as [|? p1 ? ? ? E1 Hp1]; subst. inversion Hp1 as [|? p2 ? ? ? E2 Hp2]; subst.
    destruct (process_entry e result He) as (H1 & H2 & H3).
    replace (2 * length (e :: es) + fuel)%nat with (S (S (2 * length es + fuel))) by (simpl; lia).
    rewrite (loop_step _ _ _ _ _ _ _ _ E1 H1 H3), (loop_step _ _ _ _ _ _ _ _ E2 H2) by done.
    by apply IH.
Qed.

Lemma length_opening es : length (opening es) = (3 + 2 * length es)%nat.
Proof.
  unfold opening. rewrite length_app, length_replicate. f_equal.
  induction es; [done|]. rewrite bind_cons, length_app. simpl in *. lia.
Qed.

(** The loop after any number of good entries. *)
Lemma parse_opening es fuel p q result :
  Forall entry_ok es -> delivers p (opening es) q -> (length (opening es) <= fuel)%nat ->
  loop fuel p result PARSE_KEY =
    loop (fuel - length (opening es)) q (store_entries es result) PARSE_KEY.
Proof.
  intros Hes Hp Hf. rewrite length_opening in *. unfold opening in Hp. simpl in Hp.
  destruct fuel as [|[|[|fuel]]]; [lia..|].
  do 3 (inversion_clear Hp as [|? ? ? ? ? E Hp']; rename Hp' into Hp;
    rewrite (loop_step _ _ _ _ result result PARSE_KEY PARSE_KEY E) by done; clear E).
  replace fuel with (2 * length es + (fuel - 2 * length es))%nat at 1 by lia.
  rewrite (parse_entries es _ _ _ _ Hes Hp). f_equal.
Qed.

Lemma parse_document es fuel p q result :
  Forall entry_ok es -> delivers p (document es) q -> (length (document es) <= fuel)%nat ->
  pcie_configuration_space_header_from_yaml yaml_parser_parse fuel (Some p) (Some result)
    = Some (0, Some (store_entries es result)).
Proof.
  intros Hes Hp Hf. unfold document in *. rewrite length_app in Hf. cbn [length] in Hf.
  destruct (delivers_app _ _ _ _ Hp) as (p' & Ho & He).
  unfold pcie_configuration_space_header_from_yaml.
  rewrite (parse_opening es fuel p p') by (done || lia).
  inversion He as [|? ? ? ? ? E _]; subst.
  destruct (fuel - length (opening es))%nat as [|k] eqn:Hk; [lia|]. simpl. by rewrite E.
Qed.
End Document.

Lemma length_store_entries es result : length (store_entries es result) = length result.
Proof.
  revert result. induction es as [|e es IH]; intros result; [done|]. simpl. rewrite IH.
  destruct (field_of (e_state e)) as [[o w]|] eqn:Hf.
  - rewrite (store_value_field _ _ _ _ _ Hf). apply length_wr_bytes.
  - by destruct (e_state e).
Qed.

(** Entries for other fields do not touch a byte. *)
Lemma store_entries_frame es : forall result i,
  (forall e o w, e ∈ es -> field_of (e_state e) = Some (o, w) -> (i < o \/ o + w <= i)%nat) ->
  rd (store_entries es result) i = rd result i.
Proof.
  induction es as [|e es IH]; intros result i Hi; [done|]. simpl.
  rewrite IH by (intros e' o w He'; apply Hi; by right).
  destruct (field_of (e_state e)) as [[o w]|] eqn:Hf.
  - rewrite (store_value_field _ _ _ _ _ Hf). apply rd_wr_bytes_out. rewrite length_le_bytes.
    apply (Hi e o w); [by left|done].
  - by destruct (e_state e).
Qed.

Lemma store_entries_field es e o w result :
  NoDup (e_state <$> es) -> e ∈ es -> field_of (e_state e) = Some (o, w) -> length result = 64%nat ->
  take w (drop o (store_entries es result)) = le_bytes w (e_num e).
Proof.
  intros Hnd He Hf Hl. apply list_elem_of_split in He as (es1 & es2 & ->).
  destruct (field_bounds _ _ _ Hf) as [Hb _].
  unfold store_entries. rewrite foldl_app. cbn [foldl].
  change (foldl (fun r e => store_value (e_state e) (e_num e) r)) with (fun r l => store_entries l r).
  cbv beta. set (r1 := store_entries es1 result).
  assert (length r1 = 64%nat) as Hr1 by (unfold r1; by rewrite length_store_entries).
  rewrite (store_value_field _ _ _ _ _ Hf).
  apply rd_ext; rewrite length_take, length_drop, length_store_entries, length_wr_bytes, ?length_le_bytes; [lia|].
  intros i Hi. rewrite rd_take, rd_drop by lia. rewrite store_entries_frame.
  - rewrite rd_wr_bytes_in by (rewrite ?length_le_bytes; lia). f_equal. lia.
  - intros e' o' w' He' Hf'.
    assert (e_state e <> e_state e') as Hne.
    { intros Heq. rewrite fmap_app, fmap_cons in Hnd. apply list.NoDup_app in Hnd as (_ & _ & Hnd).
      apply (NoDup_cons_1_1 _ _ Hnd). rewrite Heq. by apply list_elem_of_fmap_2. }
    pose proof (fields_disjoint _ _ _ _ _ _ Hf Hf' Hne). lia.
Qed.

(** Reading a configuration from YAML: on a document that maps known keys,
    each at most once, to decimal or hexadecimal numerals, the loop ends, the
    function returns 0, the header holds every number at its field in
    little-endian order (reduced to the field's width), and every byte of no
    named field is what it was. *)
Lemma yaml_header_spec {parser : Type} (parse : parser -> option yaml_event * parser)
    (es : list entry) (fuel : nat) (p q : parser) (result : list Z) :
  Forall entry_ok es -> NoDup (e_state <$> es) -> length result = 64%nat ->
  delivers parse p (document es) q -> (length (document es) <= fuel)%nat ->
  exists header,
    pcie_configuration_space_header_from_yaml parse fuel (Some p) (Some result) = Some (0, Some header) /\
    (forall e o w, e ∈ es -> field_of (e_state e) = Some (o, w) ->
       take w (drop o header) = le_bytes w (e_num e)) /\
    (forall i, (forall e o w, e ∈ es -> field_of (e_state e) = Some (o, w) -> (i < o \/ o + w <= i)%nat) ->
       rd header i = rd result i).
Proof.
  intros Hes Hnd Hl Hp Hf. exists (store_entries es result). split_and!.
  - by apply parse_document with q.
  - intros. by apply store_entries_field.
  - apply store_entries_frame.
Qed.

(** A parser that delivers a list of events. *)
Definition list_parser (evs : list yaml_event) : option yaml_event * list yaml_event :=
  match evs with [] => (None, []) | e :: evs => (Some e, evs) end.

Definition example_document : list entry :=
  [mk_entry "vendor_id" PARSE_VENDOR_ID "0x1fed" 0x1fed; mk_entry "bist" PARSE_BIST "7" 7].

Lemma example_entries : Forall entry_ok example_document.
Proof.
  repeat constructor; try (by eexists); try done.
  - eapply (denotes_hex _ _ 1 [15; 14; 13]); [reflexivity|repeat constructor; lia|reflexivity].
  - eapply (denotes_dec _ _ 7 []); [reflexivity|by right|repeat constructor; lia|reflexivity].
Qed.

Lemma list_parser_delivers evs evs' : delivers list_parser (evs ++ evs') evs evs'.
Proof. induction evs; econstructor; done. Qed.

Example yaml_header_spec_run :
  exists header,
    pcie_configuration_space_header_from_yaml list_parser 8 (Some (document example_document)) (Some (replicate 64 0))
      = Some (0, Some header) /\
    take 2 (drop 0 header) = [0xed; 0x1f] /\ take 1 (drop 15 header) = [7] /\ rd header 2 = 0.
Proof.
  destruct (yaml_header_spec list_parser example_document 8 (document example_document) [] (replicate 64 0))
    as (header & H1 & H2 & H3).
  - exact example_entries.
  - by apply (bool_decide_unpack _).
  - reflexivity.
  - apply (list_parser_delivers (document example_document) []).
  - simpl. lia.
  - exists header. split_and!; [done| | |].
    + apply (H2 (mk_entry "vendor_id" PARSE_VENDOR_ID "0x1fed" 0x1fed)); [by left|done].
    + apply (H2 (mk_entry "bist" PARSE_BIST "7" 7)); [by right; left|done].
    + rewrite H3; [done|]. intros e o w He Hf.
      apply list_elem_of_In in He as [<-|[<-|[]]]; simpl in Hf; simplify_eq; lia.
Qed.

(** A value position with a scalar that is no numeral: nothing converted, trailing
    characters, or out of range. *)
Definition bad_value (value : string) : Prop :=
  let r := strtoul value in converted r = false \/ trailing r <> [] \/ erange r = true.

Lemma process_bad_value (value : string) (result : list Z) (state : parser_state) :
  is_Some (field_of state) -> bad_value value ->
  process_event (YAML_SCALAR_EVENT value) result state =
    (- ERANGE, store_value state (num (strtoul value)) result, PARSE_KEY).
Proof.
  intros [[o w] Hf] Hbad. unfold process_event.
  assert (negb (converted (strtoul value)) || negb (bool_decide (trailing (strtoul value) = []))
    || ((num (strtoul value) =? ULONG_MAX) && erange (strtoul value)) = true) as ->.
  { destruct Hbad as [->|[H|H]]; [done| |].
    - rewrite (bool_decide_false _ H). by rewrite orb_true_r.
    - rewrite H. assert (num (strtoul value) = ULONG_MAX) as ->.
      { revert H. unfold strtoul. case_goal; simpl; congruence. }
      rewrite Z.eqb_refl. simpl. by rewrite orb_true_r. }
  destruct state; simpl in Hf; simplify_eq; reflexivity.
Qed.

Lemma find_key_states (key : string) :
  find_key key parser_keys parser_states PARSE_KEY = PARSE_KEY \/
  is_Some (field_of (find_key key parser_keys parser_states PARSE_KEY)).
Proof. unfold parser_keys, parser_states. cbn [find_key]. repeat (case_match; [right; by eexists|]). by left. Qed.

Lemma process_unknown_key (value : string) (result : list Z) :
  ~ In value parser_keys ->
  process_event (YAML_SCALAR_EVENT value) result PARSE_KEY = (0, result, PARSE_KEY).
Proof.
  intros Hk. unfold process_event. simpl store_value.
  assert (find_key value parser_keys parser_states PARSE_KEY = PARSE_KEY) as ->; [|done].
  revert Hk. generalize parser_states. induction parser_keys as [|k ks IH]; intros sts Hk; [done|].
  simpl. destruct sts as [|st sts]; [done|]. destruct (String.eqb_spec value k) as [->|].
  - exfalso. apply Hk. by left.
  - apply IH. intros Hin. apply Hk. by right.
Qed.

(** Keys that are not known are passed over. *)
Lemma parse_junk {parser : Type} (parse : parser -> option yaml_event * parser) (junk : list string) :
  forall fuel p q result,
  Forall (fun k => ~ In k parser_keys) junk -> delivers parse p (YAML_SCALAR_EVENT <$> junk) q ->
  (length junk <= fuel)%nat ->
  parse_loop parse fuel p result PARSE_KEY = parse_loop parse (fuel - length junk) q result PARSE_KEY.
Proof.
  induction junk as [|k junk IH]; intros fuel p q result Hj Hp Hf; inversion Hp; subst.
  - by rewrite Nat.sub_0_r.
  - apply Forall_cons_1 in Hj as [Hk Hj]. destruct fuel as [|fuel]; simpl in Hf; [lia|].
    erewrite loop_step; [|done|by apply process_unknown_key|done]. simpl. apply IH; [done..|lia].
Qed.

(** A known key with a value that is no numeral ends the loop. *)
Lemma parse_bad_value {parser : Type} (parse : parser -> option yaml_event * parser)
    (key value : string) (fuel : nat) (p q : parser) (result : list Z) :
  let state := find_key key parser_keys parser_states PARSE_KEY in
  delivers parse p [YAML_SCALAR_EVENT key; YAML_SCALAR_EVENT value] q -> (2 <= fuel)%nat ->
  state <> PARSE_KEY -> bad_value value ->
  parse_loop parse fuel p result PARSE_KEY =
    Some (- ERANGE, store_value state (num (strtoul value)) result).
Proof.
  cbv zeta. intros Hp Hf Hst Hbad. destruct fuel as [|[|fuel]]; [lia..|].
  inversion Hp as [|? p1 ? ? ? E1 Hp1]; subst. inversion Hp1 as [|? p2 ? ? ? E2 _]; subst.
  pose proof (find_key_states key) as [Hk|Hk]; [done|].
  erewrite loop_step; [|done|reflexivity|by intros Hd; rewrite Hd in Hk; destruct Hk].
  cbn [parse_loop]. rewrite E2, process_bad_value by done. reflexivity.
Qed.

(** C31. Error results of [pcie_configuration_space_header_from_yaml]: [-EINVAL]
    without a header to fill, [-ENOENT] without a file; when the parser fails
    after some good entries, [-1] with those stored; when a known key, possibly
    after a key that is not known (which is passed over), has a value that is no
    numeral, [-ERANGE] with the entries before it stored and the field
    overwritten all the same, with what [strtoul] returned. *)
Theorem yaml_errors {parser : Type} (parse : parser -> option yaml_event * parser)
    (es : list entry) (fuel : nat) (p q : parser) (result : list Z) (key value : string) (junk : list string) :
  let from_yaml := pcie_configuration_space_header_from_yaml parse fuel in
  let state := find_key key parser_keys parser_states PARSE_KEY in
  from_yaml (Some p) None = Some (- EINVAL, None) /\
  from_yaml None (Some result) = Some (- ENOENT, Some result) /\
  (Forall entry_ok es -> (length (opening es) < fuel)%nat ->
   delivers parse p (opening es) q -> fst (parse q) = None ->
   from_yaml (Some p) (Some result) = Some (-1, Some (store_entries es result))) /\
  (Forall entry_ok es -> (length (opening es) + length junk + 2 <= fuel)%nat ->
   Forall (fun k => ~ In k parser_keys) junk ->
   delivers parse p (opening es ++ (YAML_SCALAR_EVENT <$> junk) ++
                     [YAML_SCALAR_EVENT key; YAML_SCALAR_EVENT value]) q ->
   state <> PARSE_KEY -> bad_value value ->
   from_yaml (Some p) (Some result) =
     Some (- ERANGE, Some (store_value state (num (strtoul value)) (store_entries es result)))).
Proof.
  cbv zeta. split_and!; [done..| |].
  - intros Hes Hf Hp Hq. unfold pcie_configuration_space_header_from_yaml.
    rewrite (parse_opening parse es fuel p q) by (done || lia).
    destruct (fuel - length (opening es))%nat as [|k] eqn:Hk; [lia|].
    simpl. destruct (parse q) as [[e|] q']; [done|reflexivity].
  - intros Hes Hf Hj Hp Hst Hbad. unfold pcie_configuration_space_header_from_yaml.
    destruct (delivers_app _ _ _ _ _ Hp) as (p1 & Hp1 & Hp2).
    destruct (delivers_app _ _ _ _ _ Hp2) as (p2 & Hp3 & Hp4).
    rewrite (parse_opening parse es fuel p p1) by (done || lia).
    rewrite (parse_junk parse junk _ _ p2) by (done || lia).
    by rewrite (parse_bad_value parse key value _ _ q) by (done || lia).
Qed.

Lemma yaml_errors_witness :
  pcie_configuration_space_header_from_yaml list_parser 9
    (Some (opening [] ++ [YAML_SCALAR_EVENT "colour"; YAML_SCALAR_EVENT "bist"; YAML_SCALAR_EVENT "12q"]))
    (Some (replicate 64 0)) = Some (- ERANGE, Some (store_value PARSE_BIST 12 (replicate 64 0))).
Proof.
  apply (yaml_errors list_parser [] 9 _ [] (replicate 64 0) "bist" "12q" ["colour"]%string).
  - constructor.
  - simpl. lia.
  - repeat constructor. by vm_compute; intuition congruence.
  - rewrite <- (app_nil_r (opening [] ++ _)) at 1. apply list_parser_delivers.
  - done.
  - right. left. by vm_compute.
Defined.
