(* ===== verification/MemoryMock.v ===== *)
(** * The memory mock ([memory-mock/main.c])

    A device with two memory BARs and a type 0 configuration space: its state,
    the callbacks it registers, the accept callback, and its main function.  It is an instance of
    the callback interfaces of [World] and [Server], for any operating system. *)

From S2P Require Import Prelude Layout Proto Crc World Client Wire Logic Bars Sim ClientSpec Receive EndToEnd ClientInv Server ServerSpec Yaml.

(** ** Constants *)

Definition BAR_N : nat := 6.
Definition BAR_CONF_MASK : Z := 0xF.
(** On [uint32_t] values. *)
Definition BAR_DECODE_SIZE (s : Z) : Z := u32 (u32 (Z.lnot (Z.land s (u32 (Z.lnot 0xF)))) + 1).
Definition BAR_MASK_SIZE (s : Z) : Z := u32 (s - 1).
Definition BAR_CHECK_SIZE (s : Z) : bool := Z.land (u32 (s - 1)) s =? 0.
Definition BAR_TYPE_32B : Z := 0.
Definition BAR_MEMORY_SPACE : Z := 1.

(** Addresses of the callbacks. *)
Definition read_bar_cb_0 : ptr := 1001.
Definition read_bar_cb_1 : ptr := 1002.
Definition write_bar_cb_1 : ptr := 1003.
Definition CONFIG0_READ_CB : ptr := 1004.
Definition CONFIG0_WRITE_CB : ptr := 1005.
Definition SERVER_CLIENT_ACCEPT : ptr := 1006.

(** Address families, and what [getopt] returns. *)
Definition AF_UNSPEC : Z := 0.
Definition AF_INET : Z := 2.
Definition AF_INET6 : Z := 10.

Inductive opt :=
  | Opt_c | Opt_a (optarg : string) | Opt_p (optarg : string) | Opt_4 | Opt_6
  | Opt_f (optarg : string) | Opt_h | Opt_unknown.

(** How the handling of arguments ends: [exit(status)] or a return value. *)
Inductive args := Exited (status : Z) | Returned (ret : Z).

(** ** State *)

(** [data]: which of the two memories. *)
Record bar_config := mk_bar_config {
  bc_config : Z;
  bc_size : Z;
  bc_read_cb : ptr;
  bc_write_cb : ptr;
}.

Definition bars_config : list bar_config :=
  [mk_bar_config (Z.lor BAR_TYPE_32B BAR_MEMORY_SPACE) 128 read_bar_cb_0 NULL;
   mk_bar_config (Z.lor BAR_TYPE_32B BAR_MEMORY_SPACE) 2048 read_bar_cb_1 write_bar_cb_1;
   mk_bar_config 0 0 NULL NULL; mk_bar_config 0 0 NULL NULL;
   mk_bar_config 0 0 NULL NULL; mk_bar_config 0 0 NULL NULL].

Record mock := mk_mock {
  bar0_memory : list Z;
  bar1_memory : list Z;
  configuration_space : list Z;
  mock_dev_client : ptr;
}.

Definition mock_init : mock := mk_mock
  ((fun i => 0x10 + i) <$> seqZ 0 128) (replicate 2048 0)
  (<[0%nat := 1]> (<[2%nat := 2]> (replicate 64 0))) NULL.

(** [server], before the process starts. *)
Definition server_init : warppipe_server :=
  mk_server 0 true false AF_UNSPEC None SERVER_PORT_NUM 0 ∅ [] NULL NULL.

Definition set_bar1_memory m s := mk_mock (bar0_memory s) m (configuration_space s) (mock_dev_client s).
Definition set_configuration_space m s := mk_mock (bar0_memory s) (bar1_memory s) m (mock_dev_client s).
Definition set_mock_dev_client m s := mk_mock (bar0_memory s) (bar1_memory s) (configuration_space s) m.

(** ** The memories *)

(** [read_bar] on a BAR of [size] bytes with contents [mem]: the return value
    and the bytes stored; a [memcpy] of a negative length is undefined. *)
Definition read_bar (size : Z) (mem : list Z) (addr length : Z) : option (Z * list Z) :=
  if size <? addr then Some (1, [])
  else
    let max_len := size - addr in
    let length := if max_len <? length then max_len else length in
    if length <? 0 then None
    else Some (0, take (Z.to_nat length) (drop (Z.to_nat addr) mem)).

(** [write_bar]: the memory afterwards; reading past [data] is undefined. *)
Definition write_bar (size : Z) (mem : list Z) (addr : Z) (data : list Z) (length_ : Z) : option (list Z) :=
  if size <? addr then Some mem
  else
    let max_len := size - addr in
    let len := if max_len <? length_ then max_len else length_ in
    if (len <? 0) || (length data <? Z.to_nat len)%nat then None
    else Some (wr_bytes (Z.to_nat addr) (take (Z.to_nat len) data) mem).

(** ** Configuration space *)

(** [offsetof(struct pcie_configuration_space_header_type0, bar)] *)
Definition offsetof_bar : Z := Eval vm_compute in
  Z.of_nat (f_byte (field_in "bar" (layout LITTLE_ENDIAN pcie_configuration_space_header_type0))).
Definition BAR_ADDR (addr : Z) : bool := (offsetof_bar <=? addr) && (addr <? offsetof_bar + 4 * 6).
Definition BAR_IDX (addr : Z) : Z := (addr - offsetof_bar) / 4.

(** [configuration_space.bar[bar_idx] = v] *)
Definition set_config_bar (bar_idx : Z) (v : Z) (s : mock) : mock :=
  set_configuration_space
    (wr_bytes (Z.to_nat (offsetof_bar + 4 * bar_idx)) (le_bytes 4 v) (configuration_space s)) s.

Section Mock.
Context {os : Type} `{!SocketIO os}.
#[local] Abbreviation P := (M (world os mock)).

Definition get_app : P mock := fun w => Ret (w_app w) w.
Definition put_app (s : mock) : P unit := fun w =>
  Ret tt (mk_world _ _ (w_os w) (w_server w) (w_clients w) s (w_static w)).

Definition handle_config_bar_write (bar_idx value : Z) : P unit :=
  match bars_config !! Z.to_nat bar_idx with
  | None => undefined
  | Some b =>
      let bar_addr := Z.land value (u32 (Z.lnot (BAR_MASK_SIZE (bc_size b)))) in
      let! s := get_app in
      put_app (set_config_bar bar_idx (Z.lor bar_addr (bc_config b)) s) ;;
      if negb (value =? 0xffffffff) then
        let! cl := load (mock_dev_client s) in
        if default 0 (bar cl !! Z.to_nat bar_idx) =? 0 then
          warppipe_register_bar (mock_dev_client s) bar_addr (bc_size b) bar_idx
            (bc_read_cb b) (bc_write_cb b) ;;
          ret tt
        else ret tt
      else ret tt
  end.

(** Reading past the header is undefined; the header is 64 bytes. *)
Definition config0_read_cb (addr length : Z) : P (Z * list Z) :=
  if negb (Z.land addr 3 =? 0) || negb (length =? 4) then ret (1, [])
  else
    let! s := get_app in
    if 64 <? addr + 4 then undefined
    else ret (0, take 4 (drop (Z.to_nat addr) (configuration_space s))).

Definition config0_write_cb (addr : Z) (data : list Z) (length_ : Z) : P unit :=
  if negb (Z.land addr 3 =? 0) || negb (length_ =? 4) then ret tt
  else if BAR_ADDR addr then
    if (length data <? 4)%nat then undefined
    else handle_config_bar_write (BAR_IDX addr) (le32 data)
  else ret tt.

Definition read_result (r : option (Z * list Z)) : P (Z * list Z) :=
  match r with Some x => ret x | None => undefined end.

(** The callbacks, by their addresses. *)
#[export] Instance mock_callbacks : Callbacks os mock := {|
  call_read_cb cb addr len _ :=
    if cb =? read_bar_cb_0 then let! s := get_app in read_result (read_bar 128 (bar0_memory s) addr len)
    else if cb =? read_bar_cb_1 then let! s := get_app in read_result (read_bar 2048 (bar1_memory s) addr len)
    else if cb =? CONFIG0_READ_CB then config0_read_cb addr len
    else undefined;
  call_write_cb cb addr data len _ :=
    if cb =? write_bar_cb_1 then
      let! s := get_app in
      match write_bar 2048 (bar1_memory s) addr data len with
      | Some m => put_app (set_bar1_memory m s)
      | None => undefined
      end
    else if cb =? CONFIG0_WRITE_CB then config0_write_cb addr data len
    else undefined;
  (** the mock issues no reads *)
  call_completion_cb _ _ _ _ _ := undefined;
|}.

Fixpoint init_config_bars (bar_idx : Z) (bs : list bar_config) (s : mock) : mock :=
  match bs with
  | [] => s
  | b :: bs => init_config_bars (bar_idx + 1) bs
                 (set_config_bar bar_idx (Z.land (bc_config b) BAR_CONF_MASK) s)
  end.

Definition server_client_accept (client : ptr) : P unit :=
  warppipe_register_config0_read_cb client CONFIG0_READ_CB ;;
  warppipe_register_config0_write_cb client CONFIG0_WRITE_CB ;;
  let! s := get_app in
  put_app (init_config_bars 0 bars_config (set_mock_dev_client client s)).

#[export] Instance mock_server_callbacks : ServerCallbacks os mock := {|
  call_accept_cb cb c _ := if cb =? SERVER_CLIENT_ACCEPT then server_client_accept c else undefined;
|}.

Definition verify_args : Z := if forallb (fun b => BAR_CHECK_SIZE (bc_size b)) bars_config then 0 else 1.

(** *** Command line *)

Section Arguments.
(** [fopen] for reading, and libyaml's parser of the open file. *)
Context {file : Type} (fopen : string -> option file) (yaml_parser_parse : file -> option yaml_event * file).

(** The loop over what [getopt] returns: the result of [parse_args] where it is
    left early, else [yaml_path]. *)
Fixpoint parse_options (opts : list opt) (yaml_path : option string) : P (args + option string) :=
  match opts with
  | [] => ret (inr yaml_path)
  | o :: opts =>
      let! s := get_server in
      match o with
      | Opt_c => put_server (set_listen false s) ;; parse_options opts yaml_path
      | Opt_a optarg =>
          put_server (set_address (s_addr_family s) (Some optarg) (s_port s) s) ;; parse_options opts yaml_path
      | Opt_p optarg =>
          put_server (set_address (s_addr_family s) (s_host s) optarg s) ;; parse_options opts yaml_path
      | Opt_4 => put_server (set_address AF_INET (s_host s) (s_port s) s) ;; parse_options opts yaml_path
      | Opt_6 => put_server (set_address AF_INET6 (s_host s) (s_port s) s) ;; parse_options opts yaml_path
      | Opt_f optarg => parse_options opts (Some optarg)
      | Opt_h => ret (inl (Exited 0))
      | Opt_unknown => ret (inl (Returned 1))
      end
  end.

(** [fuel] bounds the number of events of the file. *)
Definition parse_args (fuel : nat) (opts : list opt) : P args :=
  let! r := parse_options opts None in
  match r with
  | inl a => ret a
  | inr None => ret (Returned 0)
  | inr (Some path) =>
      match fopen path with
      | None => ret (Returned 1)
      | Some yaml_file =>
          let! s := get_app in
          match pcie_configuration_space_header_from_yaml yaml_parser_parse fuel (Some yaml_file)
                  (Some (configuration_space s)) with
          | None => no_fuel
          | Some (r, header) =>
              put_app (set_configuration_space (default (configuration_space s) header) s) ;;
              ret (Returned (if r =? 0 then 0 else 1))
          end
      end
  end.

Definition memory_mock_setup (fuel : nat) (opts : list opt) : P args :=
  let! r := parse_args fuel opts in
  match r with
  | Exited status => ret (Exited status)
  | Returned r => ret (Returned (if negb (r =? 0) || negb (verify_args =? 0) then 1 else 0))
  end.

(** *** The server *)

Context `{!ServerIO os}.

(** The loop of [memory_mark_start], bounded by [fuel] iterations. *)
Fixpoint serve_loop (fuel : nat) : P unit :=
  let! s := get_server in
  if s_quit s then ret tt
  else match fuel with
       | O => no_fuel
       | S fuel => warppipe_server_loop ;; serve_loop fuel
       end.

Definition memory_mark_start (fuel : nat) : P Z :=
  warppipe_server_register_accept_cb SERVER_CLIENT_ACCEPT ;;
  let! r := warppipe_server_create in
  (if r =? 0 then serve_loop fuel else ret tt) ;;
  ret 0.

(** The exit status of the process. *)
Definition main (yaml_fuel fuel : nat) (opts : list opt) : P Z :=
  let! r := memory_mock_setup yaml_fuel opts in
  match r with
  | Exited status => ret status
  | Returned r =>
      if negb (r =? 0) then ret 1
      else let! r := memory_mark_start fuel in ret (if negb (r =? 0) then 1 else 0)
  end.
End Arguments.
End Mock.
