(* ===== verification/MockSpec.v ===== *)
(** * Correctness of the memory mock

    The memories behave as memories, the configuration space follows the BAR
    sizing and assignment protocol, and what is written over the link is what a
    later read over the link returns. *)

From S2P Require Import Prelude Layout Proto Crc World Client Wire Logic Bars Sim ClientSpec Receive EndToEnd ClientInv Server ServerSpec MemoryMock.

(** ** Memories *)

Definition bar_access (size : Z) (mem : list Z) (addr : Z) : Prop :=
  Z.of_nat (length mem) = size /\ 0 <= addr.

Lemma read_bar_bytes (size : Z) (mem : list Z) (addr len : Z) :
  bar_access size mem addr -> addr <= size -> 0 <= len ->
  read_bar size mem addr len = Some (0, take (Z.to_nat (Z.min len (size - addr))) (drop (Z.to_nat addr) mem)).
Proof.
  intros [Hm Ha] Hs Hl. unfold read_bar. rewrite (proj2 (Z.ltb_ge _ _)) by lia.
  destruct (Z.ltb_spec (size - addr) len); rewrite (proj2 (Z.ltb_ge _ 0)) by lia; do 3 f_equal; lia.
Qed.

Lemma write_bar_bytes (size : Z) (mem : list Z) (addr : Z) (data : list Z) (len : Z) :
  bar_access size mem addr -> addr <= size -> 0 <= len -> (Z.to_nat len <= length data)%nat ->
  write_bar size mem addr data len =
  Some (wr_bytes (Z.to_nat addr) (take (Z.to_nat (Z.min len (size - addr))) data) mem).
Proof.
  intros [Hm Ha] Hs Hl Hd. unfold write_bar. rewrite (proj2 (Z.ltb_ge _ _)) by lia.
  destruct (Z.ltb_spec (size - addr) len); rewrite (proj2 (Z.ltb_ge _ 0)), (proj2 (Nat.ltb_ge _ _)) by lia;
    simpl; do 3 f_equal; f_equal; lia.
Qed.

Lemma take_drop_wr_bytes (off : nat) (bs mem : list Z) :
  (off + length bs <= length mem)%nat -> take (length bs) (drop off (wr_bytes off bs mem)) = bs.
Proof.
  intros Hl. rewrite wr_bytes_split by done. rewrite drop_app_length' by (rewrite length_take; lia).
  by rewrite take_app_length.
Qed.

(** A BAR is a memory.  An access that starts past its end fails and has no
    effect; one that runs over its end is cut off there.  What was written is
    what a read of the same range returns, and a read of any range the write
    did not touch returns what it returned before. *)
Lemma bar_memory_spec (size : Z) (mem : list Z) (addr : Z) (data : list Z) (len : Z) :
  bar_access size mem addr -> 0 <= len -> (Z.to_nat len <= length data)%nat ->
  (size < addr -> read_bar size mem addr len = Some (1, []) /\ write_bar size mem addr data len = Some mem) /\
  (addr <= size ->
   exists mem', write_bar size mem addr data len = Some mem' /\ length mem' = length mem /\
     read_bar size mem' addr len = Some (0, take (Z.to_nat (Z.min len (size - addr))) data) /\
     forall addr' len', 0 <= addr' <= size -> 0 <= len' ->
       addr' + len' <= addr \/ addr + len <= addr' ->
       read_bar size mem' addr' len' = read_bar size mem addr' len').
Proof.
  intros Hacc Hl Hd. pose proof Hacc as [Hm Ha]. split.
  - intros Hs. unfold read_bar, write_bar. by rewrite (proj2 (Z.ltb_lt _ _)) by lia.
  - intros Hs. rewrite write_bar_bytes by done. eexists. split_and!; [done|by rewrite length_wr_bytes| |].
    + set (k := Z.to_nat (Z.min len (size - addr))).
      assert (length (take k data) = k) as Hk by (rewrite length_take; lia).
      rewrite read_bar_bytes; [|split; [by rewrite length_wr_bytes|done]|done..].
      do 2 f_equal. pose proof (take_drop_wr_bytes (Z.to_nat addr) (take k data) mem) as E.
      rewrite Hk in E. apply E. lia.
    + intros addr' len' Ha' Hl' Hdisj.
      rewrite !read_bar_bytes by (unfold bar_access; rewrite ?length_wr_bytes; lia).
      do 2 f_equal. apply rd_ext; rewrite !length_take, !length_drop, length_wr_bytes; [done|].
      intros i Hi. rewrite !rd_take, !rd_drop by lia. apply rd_wr_bytes_out. rewrite length_take. lia.
Qed.

Example bar_memory_spec_run :
  exists mem', write_bar 8 [1; 2; 3; 4; 5; 6; 7; 8] 6 [20; 21; 22; 23] 4 = Some mem' /\
    read_bar 8 mem' 6 4 = Some (0, [20; 21]) /\ read_bar 8 mem' 0 4 = Some (0, [1; 2; 3; 4]).
Proof.
  destruct (bar_memory_spec 8 [1; 2; 3; 4; 5; 6; 7; 8] 6 [20; 21; 22; 23] 4) as [_ H]; [done|lia|simpl; lia|].
  destruct H as (mem' & Hw & _ & Hr & Ho); [lia|]. exists mem'. split_and!; [done..|].
  rewrite (Ho 0 4) by lia. done.
Qed.

(** ** Configuration space *)

Lemma le32_le_bytes (v : Z) (l : list Z) : 0 <= v < 2 ^ 32 -> le32 (le_bytes 4 v ++ l) = v.
Proof.
  intros Hv. rewrite <-(wrap_small 32 v Hv) at 2. unfold le32.
  change (rd (le_bytes 4 v ++ l) 0) with (Z.land v 255).
  change (rd (le_bytes 4 v ++ l) 1) with (Z.land (Z.shiftr v 8) 255).
  change (rd (le_bytes 4 v ++ l) 2) with (Z.land (Z.shiftr (Z.shiftr v 8) 8) 255).
  change (rd (le_bytes 4 v ++ l) 3) with (Z.land (Z.shiftr (Z.shiftr (Z.shiftr v 8) 8) 8) 255).
  bitwise.
Qed.

(** The register of BAR [i], as the other side reads it. *)
Lemma config_bar_read (i : Z) (v : Z) (s : mock) :
  0 <= i < 6 -> length (configuration_space s) = 64%nat ->
  length (configuration_space (set_config_bar i v s)) = 64%nat /\
  take 4 (drop (Z.to_nat (offsetof_bar + 4 * i)) (configuration_space (set_config_bar i v s))) = le_bytes 4 v.
Proof.
  intros Hi Hl. unfold set_config_bar. simpl configuration_space.
  split; [by rewrite length_wr_bytes|].
  apply (take_drop_wr_bytes _ (le_bytes 4 v)). rewrite length_le_bytes, Hl. unfold offsetof_bar. lia.
Qed.

Lemma land_bound (x k : Z) : 0 <= k < 2 ^ 32 -> 0 <= Z.land x k < 2 ^ 32.
Proof.
  intros Hk. split; [apply Z.land_nonneg; lia|].
  destruct (Z.eq_dec k 0) as [->|]; [by rewrite Z.land_0_r|].
  rewrite <-(Z.mod_small k (2 ^ 32)) by lia. rewrite <-Z.land_ones by lia.
  rewrite Z.land_assoc, Z.land_ones by lia. apply Z.mod_pos_bound. lia.
Qed.

Section Config.
Context {os : Type} `{!SocketIO os}.
#[local] Abbreviation W := (world os mock).
Implicit Types (w : W).

Definition with_app (s : mock) (w : W) : W := mk_world _ _ (w_os w) (w_server w) (w_clients w) s (w_static w).

(** The address that BAR [b] decodes from a register write. *)
Definition bar_base (b : bar_config) (value : Z) : Z :=
  Z.land value (u32 (Z.lnot (BAR_MASK_SIZE (bc_size b)))).

(** The device after a write of [value] to the register of BAR [i]. *)
Definition bar_written (i : Z) (b : bar_config) (value : Z) (w : W) : W :=
  with_app (set_config_bar i (Z.lor (bar_base b value) (bc_config b)) (w_app w)) w.

Lemma config_write_bar w (i : Z) (data : list Z) p :
  0 <= i < 6 -> (4 <= length data)%nat ->
  call_write_cb CONFIG0_WRITE_CB (offsetof_bar + 4 * i) data 4 p w = handle_config_bar_write i (le32 data) w.
Proof.
  intros Hi Hd. simpl. unfold config0_write_cb, BAR_ADDR, BAR_IDX, offsetof_bar.
  rewrite land_3. replace ((16 + 4 * i) mod 4) with 0
    by (rewrite Z.add_mod, Z.mul_comm, Z.mod_mul by lia; done).
  rewrite (proj2 (Z.leb_le _ _)), (proj2 (Z.ltb_lt _ _)), (proj2 (Nat.ltb_ge _ _)) by lia. simpl.
  f_equal. replace (16 + 4 * i - 16) with (i * 4) by lia. by rewrite Z.div_mul by lia.
Qed.

Lemma config_read_bar w (i : Z) (v : Z) p :
  0 <= i < 6 ->
  take 4 (drop (Z.to_nat (offsetof_bar + 4 * i)) (configuration_space (w_app w))) = le_bytes 4 v ->
  call_read_cb CONFIG0_READ_CB (offsetof_bar + 4 * i) 4 p w = Ret (0, le_bytes 4 v) w.
Proof.
  intros Hi Hv. simpl. unfold config0_read_cb. rewrite land_3.
  replace ((offsetof_bar + 4 * i) mod 4) with 0
    by (unfold offsetof_bar; rewrite Z.add_mod, Z.mul_comm, Z.mod_mul by lia; done).
  change (negb (0 =? 0) || negb (4 =? 4)) with false. cbv iota. erewrite bind_Ret by reflexivity.
  rewrite (proj2 (Z.ltb_ge _ _)) by (unfold offsetof_bar; lia). unfold ret. by rewrite Hv.
Qed.

Lemma bars_config_shape (i : Z) b :
  0 <= i < 6 -> bars_config !! Z.to_nat i = Some b ->
  (bc_config b = 1 /\ (bc_size b = 2 ^ 7 \/ bc_size b = 2 ^ 11)) \/ b = mk_bar_config 0 0 NULL NULL.
Proof.
  intros Hi Hb. assert (i = 0 \/ i = 1 \/ i = 2 \/ i = 3 \/ i = 4 \/ i = 5) as Hc by lia.
  repeat destruct Hc as [->|Hc]; try subst i; simpl in Hb; simplify_eq; auto.
Qed.

(** BAR sizing: after all ones are written to the register of a BAR, a
    read of the register returns the BAR's type bits and a mask from which
    the size decodes ([BAR_DECODE_SIZE]), for the two memory BARs and, with
    size 0, for the four inactive ones; nothing is registered. *)
Lemma bar_sizing w (i : Z) b p :
  0 <= i < 6 -> bars_config !! Z.to_nat i = Some b -> length (configuration_space (w_app w)) = 64%nat ->
  exists w' bs,
    call_write_cb CONFIG0_WRITE_CB (offsetof_bar + 4 * i) [0xff; 0xff; 0xff; 0xff] 4 p w = Ret tt w' /\
    w_clients w' = w_clients w /\
    call_read_cb CONFIG0_READ_CB (offsetof_bar + 4 * i) 4 p w' = Ret (0, bs) w' /\
    BAR_DECODE_SIZE (le32 bs) = bc_size b /\ Z.land (le32 bs) BAR_CONF_MASK = bc_config b.
Proof.
  intros Hi Hb Hl. rewrite config_write_bar by (simpl; lia).
  change (le32 [0xff; 0xff; 0xff; 0xff]) with 0xffffffff.
  destruct (config_bar_read i (Z.lor (bar_base b 0xffffffff) (bc_config b)) (w_app w) Hi Hl) as [_ Hr].
  assert (0 <= Z.lor (bar_base b 0xffffffff) (bc_config b) < 2 ^ 32) as Hv.
  { destruct (bars_config_shape i b Hi Hb) as [[Hc [Hs|Hs]]| ->];
      unfold bar_base; rewrite ?Hc, ?Hs; vm_compute; split; congruence. }
  exists (bar_written i b 0xffffffff w), (le_bytes 4 (Z.lor (bar_base b 0xffffffff) (bc_config b))).
  split_and!; [|done|by apply config_read_bar| |].
  - unfold handle_config_bar_write. by rewrite Hb.
  - rewrite <-(app_nil_r (le_bytes 4 _)), le32_le_bytes by done.
    destruct (bars_config_shape i b Hi Hb) as [[Hc [Hs|Hs]]| ->];
      unfold bar_base; rewrite ?Hc, ?Hs; reflexivity.
  - rewrite <-(app_nil_r (le_bytes 4 _)), le32_le_bytes by done.
    destruct (bars_config_shape i b Hi Hb) as [[Hc [Hs|Hs]]| ->];
      unfold bar_base; rewrite ?Hc, ?Hs; reflexivity.
Qed.

(** The address a register write assigns is aligned to the BAR's size. *)
Lemma bar_base_aligned (i : Z) b (value : Z) :
  0 <= i < 6 -> bars_config !! Z.to_nat i = Some b -> bc_size b <> 0 ->
  is_pow2 (bc_size b) = true /\ 0 <= bar_base b value < 2 ^ 32 /\ bar_base b value mod bc_size b = 0.
Proof.
  intros Hi Hb Hs.
  assert (exists k, 0 <= k < 32 /\ bc_size b = 2 ^ k) as (k & Hk & E).
  { destruct (bars_config_shape i b Hi Hb) as [[_ [H|H]]| ->]; [by exists 7|by exists 11|done]. }
  split_and!.
  - destruct (bars_config_shape i b Hi Hb) as [[_ [H|H]]| ->]; [by rewrite H..|done].
  - apply land_bound. apply (wrap_range 32). lia.
  - apply land_bound. apply (wrap_range 32). lia.
  - unfold bar_base, BAR_MASK_SIZE. rewrite E, land_pow2_mask, Z.mul_comm by done. apply Z.mod_mul.
    pose proof (Z.pow_pos_nonneg 2 k). lia.
Qed.

Lemma bar_base_down (i : Z) b (value : Z) :
  0 <= i < 6 -> bars_config !! Z.to_nat i = Some b -> bc_size b <> 0 -> 0 <= value < 2 ^ 32 ->
  bar_base b value = value / bc_size b * bc_size b.
Proof.
  intros Hi Hb Hs Hv. unfold bar_base, BAR_MASK_SIZE.
  destruct (bars_config_shape i b Hi Hb) as [[_ [->| ->]]| ->]; [..|done].
  - change 128 with (2 ^ 7). rewrite land_pow2_mask, (Z.mod_small _ (2 ^ 32)) by done. apply Z.mul_comm.
  - change 2048 with (2 ^ 11). rewrite land_pow2_mask, (Z.mod_small _ (2 ^ 32)) by done. apply Z.mul_comm.
Qed.

(** BAR assignment: the first write of an address to the register of a
    memory BAR registers that BAR with the connection at the address rounded
    down to its size, with the BAR's callbacks, and the register reads back
    as that address and the type bits.  Later writes change the register
    only. *)
Lemma bar_assignment w (i : Z) b (value : Z) p cl :
  0 <= i < 6 -> bars_config !! Z.to_nat i = Some b -> bc_size b <> 0 ->
  length (configuration_space (w_app w)) = 64%nat ->
  0 <= value < 0xffffffff ->
  w_clients w !! mock_dev_client (w_app w) = Some cl -> bars_ok cl ->
  let w1 := bar_written i b value w in
  call_read_cb CONFIG0_READ_CB (offsetof_bar + 4 * i) 4 p w1 =
    Ret (0, le_bytes 4 (Z.lor (bar_base b value) (bc_config b))) w1 /\
  (default 0 (bar cl !! Z.to_nat i) <> 0 ->
   call_write_cb CONFIG0_WRITE_CB (offsetof_bar + 4 * i) (le_bytes 4 value) 4 p w = Ret tt w1) /\
  (default 0 (bar cl !! Z.to_nat i) = 0 ->
   let cl' := with_bar (Z.to_nat i) (bar_base b value) (bc_size b) (bc_read_cb b) (bc_write_cb b) cl in
   call_write_cb CONFIG0_WRITE_CB (offsetof_bar + 4 * i) (le_bytes 4 value) 4 p w =
     Ret tt (upd (mock_dev_client (w_app w)) cl' w1) /\ bars_ok cl').
Proof.
  intros Hi Hb Hs Hl Hv Hc Hok w1.
  rewrite config_write_bar by (simpl; lia).
  replace (le32 (le_bytes 4 value)) with value
    by (rewrite <-(app_nil_r (le_bytes 4 value)); symmetry; apply le32_le_bytes; lia).
  destruct (bar_base_aligned i b value Hi Hb Hs) as (Hp2 & Hr & Hm).
  assert (handle_config_bar_write i value w =
    (let! cl := load (mock_dev_client (w_app w)) in
     if default 0 (bar cl !! Z.to_nat i) =? 0
     then warppipe_register_bar (mock_dev_client (w_app w)) (bar_base b value) (bc_size b) i
            (bc_read_cb b) (bc_write_cb b) ;; ret tt
     else ret tt) w1) as E.
  { unfold handle_config_bar_write. rewrite Hb. unfold bind at 1, get_app. unfold bind at 1, put_app.
    by rewrite (proj2 (Z.eqb_neq value _)) by lia. }
  rewrite E. clear E.
  assert (w_clients w1 !! mock_dev_client (w_app w) = Some cl) as Hc1 by done.
  assert (0 <= bc_size b < 2 ^ 32) as Hsz.
  { destruct (bars_config_shape i b Hi Hb) as [[_ [H|H]]| ->]; [rewrite H; lia..|done]. }
  destruct (register_bar_cases _ cl w1 (bar_base b value) (bc_size b) i (bc_read_cb b) (bc_write_cb b)
    Hc1 Hok Hi Hsz) as [_ Hreg].
  split_and!.
  - apply config_read_bar; [done|]. by apply config_bar_read.
  - intros Hn. run. by rewrite (proj2 (Z.eqb_neq _ _) Hn).
  - intros H0. destruct (Hreg H0 Hp2) as [Hrun Hok']. rewrite (wrap_small 32) in Hrun, Hok' by done.
    split; [|by apply Hok']. run. rewrite H0. simpl (0 =? 0). cbv iota. unfold bind. by rewrite Hrun.
Qed.

(** C29. The BAR registers.  After all ones are written to one of the six, it reads
    back as the BAR's type bits and a mask from which its size decodes
    ([BAR_DECODE_SIZE]; 0 for the four inactive BARs), and nothing is registered.  The
    first write of an address to the register of a memory BAR registers that BAR with
    the connection, at the address rounded down to its size and with its callbacks;
    later writes change the register only; either way it reads back as that address
    and the type bits. *)
Theorem bar_registers w (i : Z) b p :
  0 <= i < 6 -> bars_config !! Z.to_nat i = Some b -> length (configuration_space (w_app w)) = 64%nat ->
  (exists w' bs,
    call_write_cb CONFIG0_WRITE_CB (offsetof_bar + 4 * i) [0xff; 0xff; 0xff; 0xff] 4 p w = Ret tt w' /\
    w_clients w' = w_clients w /\
    call_read_cb CONFIG0_READ_CB (offsetof_bar + 4 * i) 4 p w' = Ret (0, bs) w' /\
    BAR_DECODE_SIZE (le32 bs) = bc_size b /\ Z.land (le32 bs) BAR_CONF_MASK = bc_config b) /\
  forall value cl, bc_size b <> 0 -> 0 <= value < 0xffffffff ->
    w_clients w !! mock_dev_client (w_app w) = Some cl -> bars_ok cl ->
    let w1 := bar_written i b value w in
    let base := bar_base b value in
    base = value / bc_size b * bc_size b /\
    call_read_cb CONFIG0_READ_CB (offsetof_bar + 4 * i) 4 p w1 = Ret (0, le_bytes 4 (Z.lor base (bc_config b))) w1 /\
    call_write_cb CONFIG0_WRITE_CB (offsetof_bar + 4 * i) (le_bytes 4 value) 4 p w =
      Ret tt (if default 0 (bar cl !! Z.to_nat i) =? 0
              then upd (mock_dev_client (w_app w)) (with_bar (Z.to_nat i) base (bc_size b) (bc_read_cb b) (bc_write_cb b) cl) w1
              else w1).
Proof.
  intros Hi Hb Hl. split; [by apply bar_sizing|]. intros value cl Hs Hv Hc Hok w1 base.
  destruct (bar_assignment w i b value p cl Hi Hb Hs Hl Hv Hc Hok) as (Hr & Hold & Hnew).
  split_and!; [apply (bar_base_down i); (done || lia)|done|].
  destruct (Z.eqb_spec (default 0 (bar cl !! Z.to_nat i)) 0); [by apply Hnew|by apply Hold].
Qed.
End Config.

(** ** Over the link *)

Section Link.
Context {os : Type} `{!SocketIO os} `{!SocketStreams os} `{!StreamLaws os} `{!SocketLaws os}.
#[local] Abbreviation W := (world os mock).
Implicit Types (w : W).

(** BAR 1 is registered at [base], with the mock's callbacks. *)
Record bar1_at (cl : warppipe_client) (base addr : Z) : Prop := {
  b1_bar : in_bar cl 1 base 11 addr;
  b1_read : bar_read_cb cl !! 1%nat = Some read_bar_cb_1;
  b1_write : bar_write_cb cl !! 1%nat = Some write_bar_cb_1;
}.

(** What is written over the link is what a later read over the link
    returns.  The mock receives the packet of a write of [len] bytes that fit
    in BAR 1, then, with that memory still in place, the packet of a read of
    the same bytes: the write changes exactly those bytes of the memory, and
    the answer to the read is a completion that delivers them to whoever
    waits for it. *)
Lemma mock_write_then_read c cl w rest base off data len mem s :
  malloc_succeeds os ->
  length mem = Z.to_nat (write_size (base + off) len) ->
  0 < len -> 0 <= off -> off + len <= 2048 -> (Z.to_nat len <= length data)%nat ->
  receiving c cl w (transmitted s (write_tport mem (base + off) data len PCIE_TLP_MWR64)) rest ->
  bar1_at cl base (base + off) -> length (bar1_memory (w_app w)) = 2048%nat ->
  exists w1,
    warppipe_client_read c w = Ret tt w1 /\
    bar1_memory (w_app w1) =
      wr_bytes (Z.to_nat off) (take (Z.to_nat len) data) (bar1_memory (w_app w)) /\
    forall c2 cl2 w2 rest2 tag s2,
      bar1_memory (w_app w2) = bar1_memory (w_app w1) ->
      receiving c2 cl2 w2 (transmitted s2 (read_request (Z.of_nat tag) (base + off) len PCIE_TLP_MRD64)) rest2 ->
      bar1_at cl2 base (base + off) -> seqno cl2 <> INT_MAX -> (tag < 32)%nat ->
      exists cpl w3 w4,
        sends (warppipe_client_read c2 w2) c2 cl2 cpl tt tt w3 w4 /\
        delivers_completion (os := os) (app := mock) cpl (seqno cl2 + 1) tag 0 (take (Z.to_nat len) data) len.
Proof.
  intros Hmal Hmem Hl Ho Hr Hd Hrcv [Hin Hrcb Hwcb] Hm1.
  destruct (in_bar_aligned _ _ _ _ _ Hin) as (Hb & _ & Hb').
  assert (2 ^ 11 = 2048) as Hp by done. rewrite Hp in Hb'.
  pose proof (Z.mod_pos_bound (base + off) 4 ltac:(lia)) as Hmod.
  destruct (write_packet_delivered (app := mock) mem (base + off) data len PCIE_TLP_MWR64 s Hmem
    ltac:(lia) Hl ltac:(lia) Hd eq_refl c cl w write_bar_cb_1 (base + off - base) rest Hrcv)
    as (mem' & o & act & E & Htake & _); [eapply route_bar; eauto|done|].
  replace (base + off - base) with off in E by lia.
  assert (Z.to_nat len <= length mem')%nat as Hlen'.
  { apply (f_equal length) in Htake. rewrite !length_take in Htake. lia. }
  rewrite E. simpl call_write_cb. erewrite bind_Ret by reflexivity. cbn [w_app with_os upd with_clients].
  rewrite write_bar_bytes by (unfold bar_access; lia).
  rewrite Z.min_l, Htake by lia.
  eexists. split_and!; [reflexivity|reflexivity|].
  intros c2 cl2 w2 rest2 tag s2 Hsame Hrcv2 [Hin2 Hrcb2 _] Hs2 Htag. simpl in Hsame.
  destruct (read_packet_delivered (app := mock) tag (base + off) len PCIE_TLP_MRD64 s2 Hmal Htag
    ltac:(lia) Hl ltac:(lia) eq_refl c2 cl2 w2 read_bar_cb_1 (base + off - base) rest2 Hrcv2)
    as (o2 & act2 & _ & _ & Hread); [eapply route_bar; eauto|done|].
  replace (base + off - base) with off in Hread by lia.
  edestruct (Hread 0 (take (Z.to_nat len) data)) as (cpl & Hsends & Hdel).
  - simpl call_read_cb. erewrite bind_Ret by reflexivity. cbn [w_app with_os upd with_clients].
    rewrite Hsame, read_bar_bytes by (unfold bar_access; rewrite ?length_wr_bytes; lia).
    rewrite Z.min_l by lia.
    pose proof (take_drop_wr_bytes (Z.to_nat off) (take (Z.to_nat len) data) (bar1_memory (w_app w))) as Ht.
    rewrite length_take, Nat.min_l in Ht by lia. rewrite Ht by lia. reflexivity.
  - rewrite length_take. lia.
  - apply lookup_upd.
  - exact Hs2.
  - exists cpl. eexists _, _. split; [exact Hsends|exact Hdel].
Qed.
End Link.

(** ** The properties on the concrete environment *)

Definition mock_client : warppipe_client :=
  with_bar 1 0x1000 2048 read_bar_cb_1 write_bar_cb_1
    (with_bar 0 0xff000000 128 read_bar_cb_0 NULL (client_created 3 example_client)).

Definition mock_world (cl : warppipe_client) (segs : list (list Z)) : world sim_os mock :=
  mk_world _ _ (w_os (sim_world segs)) (w_server (sim_world segs)) {[7 := cl]} (set_mock_dev_client 7 mock_init) static_init.

Lemma created_bars_ok f cl : bars_ok (client_created f cl).
Proof.
  split_and!; [done..|]. intros i b s Hb Hs. simpl in Hb, Hs.
  do 6 (destruct i as [|i]; [simpl in Hb, Hs; simplify_eq; by left|]). done.
Qed.

Lemma mock_client_bars_ok : bars_ok mock_client.
Proof.
  apply with_bar_ok; [apply with_bar_ok; [apply created_bars_ok|]|]; right;
    [exists 7|exists 11]; split_and!; (done || lia).
Qed.

Lemma mock_client_bar1 : bar1_at mock_client 0x1000 0x1013.
Proof.
  split; [|done..]. constructor; try done; [apply mock_client_bars_ok|]. 
  intros j b s Hj Hb Hs. destruct j; [|lia]. simpl in Hb, Hs. by simplify_eq.
Qed.

Example bar_sizing_run :
  exists w' bs,
    call_write_cb CONFIG0_WRITE_CB 0x14 [0xff; 0xff; 0xff; 0xff] 4 NULL (mock_world mock_client []) = Ret tt w' /\
    w_clients w' = w_clients (mock_world mock_client []) /\
    call_read_cb CONFIG0_READ_CB 0x14 4 NULL w' = Ret (0, bs) w' /\
    BAR_DECODE_SIZE (le32 bs) = 2048 /\ Z.land (le32 bs) BAR_CONF_MASK = 1.
Proof.
  apply (bar_sizing (mock_world mock_client []) 1
    (mk_bar_config 1 2048 read_bar_cb_1 write_bar_cb_1) NULL); [lia|done|by vm_compute].
Qed.

Definition mock_fresh_client : warppipe_client := client_created 3 example_client.
Definition mock_bar1 : bar_config := mk_bar_config 1 2048 read_bar_cb_1 write_bar_cb_1.

Lemma bar_registers_witness :
  let w := mock_world mock_fresh_client [] in
  (exists w' bs, call_write_cb CONFIG0_WRITE_CB 0x14 [0xff; 0xff; 0xff; 0xff] 4 NULL w = Ret tt w' /\
     call_read_cb CONFIG0_READ_CB 0x14 4 NULL w' = Ret (0, bs) w' /\ BAR_DECODE_SIZE (le32 bs) = 2048) /\
  bar_base mock_bar1 0x1234 = 0x1000 /\
  call_write_cb CONFIG0_WRITE_CB 0x14 (le_bytes 4 0x1234) 4 NULL w =
    Ret tt (upd 7 (with_bar 1 (bar_base mock_bar1 0x1234) 2048 read_bar_cb_1 write_bar_cb_1 mock_fresh_client)
              (bar_written 1 mock_bar1 0x1234 w)).
Proof.
  destruct (bar_registers (mock_world mock_fresh_client []) 1 mock_bar1 NULL)
    as [(w' & bs & H1 & _ & H2 & H3 & _) Ha]; [lia|reflexivity|by vm_compute|].
  destruct (Ha 0x1234 mock_fresh_client) as (Hb & _ & Hw); [done|lia|reflexivity|apply created_bars_ok|].
  split; [by exists w', bs|]. split; [exact Hb|exact Hw].
Defined.

Example bar_assignment_run :
  let w := mock_world mock_fresh_client [] in
  let cl' := with_bar 1 (bar_base mock_bar1 0x1234) 2048 read_bar_cb_1 write_bar_cb_1 mock_fresh_client in
  bar_base mock_bar1 0x1234 = 0x1000 /\
  call_write_cb CONFIG0_WRITE_CB (offsetof_bar + 4 * 1) (le_bytes 4 0x1234) 4 NULL w =
    Ret tt (upd 7 cl' (bar_written 1 mock_bar1 0x1234 w)) /\
  bars_ok cl'.
Proof.
  cbv zeta. split; [by vm_compute|].
  destruct (bar_assignment (mock_world mock_fresh_client []) 1 mock_bar1 0x1234 NULL mock_fresh_client)
    as (_ & _ & H); [lia|reflexivity|done|by vm_compute|lia|reflexivity|apply created_bars_ok|].
  apply H. by vm_compute.
Qed.

Definition mock_mem : list Z := replicate 31 0xa5.
Definition mock_data : list Z := [10; 20; 30; 40; 50].
Definition mock_packet : list Z := transmitted 1 (write_tport mock_mem 0x1013 mock_data 5 PCIE_TLP_MWR64).

Definition mock_receiving : world sim_os mock := mock_world mock_client [take 7 mock_packet; drop 7 mock_packet].

Lemma mock_packet_arrives : receiving 7 mock_client mock_receiving mock_packet [].
Proof.
  constructor; [reflexivity|by vm_compute|by vm_compute|].
  eexists _, _. split; [vm_compute; reflexivity|reflexivity].
Qed.

Example mock_write_then_read_run :
  exists w1,
    warppipe_client_read 7 mock_receiving = Ret tt w1 /\
    bar1_memory (w_app w1) = wr_bytes (Z.to_nat 0x13) (take (Z.to_nat 5) mock_data) (bar1_memory (w_app mock_receiving)).
Proof.
  destruct (mock_write_then_read 7 mock_client mock_receiving
    [] 0x1000 0x13 mock_data 5 mock_mem 1 sim_malloc_succeeds) as (w1 & E & Hm & _).
  - by vm_compute.
  - lia.
  - lia.
  - lia.
  - vm_compute. lia.
  - exact mock_packet_arrives.
  - exact mock_client_bar1.
  - unfold mock_receiving, mock_world. cbn [w_app bar1_memory set_mock_dev_client mock_init].
    apply length_replicate.
  - exact (ex_intro _ w1 (conj E Hm)).
Qed.
