(* ===== verification/MockServer.v ===== *)
(** * The memory mock as a server

    The mock keeps the promises that the server asks of an application
    ([ServerCallbacksKeep]), so that the theorems on the server apply to it: an
    invariant of every state its main loop reaches, its set-up from the command
    line and a YAML file, and what becomes of its pointer to the last
    connection. *)

From S2P Require Import Prelude Layout Proto Crc World Client Wire Logic Aborts Bars Sim ClientSpec Receive EndToEnd ClientInv Server ServerSpec Yaml MemoryMock MockSpec.

(** ** The mock keeps the server's invariant *)

(** The accept callback is the mock's; BAR 0 is read-only; sizes are those of the
    declarations. *)
Definition mock_ok (accept_cb : ptr) (s : mock) : Prop :=
  accept_cb = SERVER_CLIENT_ACCEPT /\ bar0_memory s = bar0_memory mock_init /\
  length (bar1_memory s) = 2048%nat /\ length (configuration_space s) = 64%nat.

Section MockServer.
Context {os : Type} `{!SocketIO os} `{!ServerIO os}.
#[local] Abbreviation W := (world os mock).
Implicit Types (w : W) (c d : ptr).

#[local] Abbreviation msclient := (sclient (os := os) mock_ok).

(** While the connection [c] is served, another one, [d], may be operated on. *)
Definition also (d : ptr) (g : Z) (I : W -> Prop) (w : W) : Prop :=
  I w /\ exists cl, w_clients w !! d = Some cl /\ fd cl = g.

#[local] Instance also_invariant e l c f d g : ClientInvariant d g (also d g (msclient e l c f)).
Proof.
  assert (forall w, also d g (msclient e l c f) w -> msclient e l d g w) as Hd
    by (intros w [(H1 & H2 & _) H3]; exact (conj H1 (conj H2 H3))).
  constructor.
  - intros w Hw. by apply (ci_client (c := d) (f := g) (I := msclient e l d g)), Hd.
  - intros w cl Hw Hcl. pose proof (ci_upd (I := msclient e l d g) w cl (Hd w Hw) Hcl) as (? & ? & ?).
    split; [|done]. split; [done|split; [done|]]. destruct Hw as [(_ & _ & cl0 & Hc & Hf) (cl1 & Hc1 & Hg)].
    destruct (decide (d = c)) as [->|].
    + exists cl. rewrite lookup_upd. split; [done|]. rewrite (proj2 Hcl). congruence.
    + exists cl0. simpl. by rewrite lookup_insert_ne.
  - intros w o [H ?]. split; [|done]. by apply (ci_os (c := c) (f := f)).
Qed.

Lemma put_app_keeps U e l c f (s : mock) w :
  msclient e l c f w -> mock_ok (s_accept_cb (w_server w)) s ->
  wp U (put_app s) (fun _ => msclient e l c f) w.
Proof. intros ([] & [_ ?] & ?) Hs. unfold wp, put_app. split; [by constructor|by split]. Qed.

Lemma length_set_config_bar i v s : length (configuration_space (set_config_bar i v s)) = length (configuration_space s).
Proof. apply length_wr_bytes. Qed.

Lemma set_config_bar_ok p i v s : mock_ok p s -> mock_ok p (set_config_bar i v s).
Proof. intros (? & ? & ? & ?). split_and!; try done. by rewrite length_set_config_bar. Qed.

Lemma handle_config_bar_write_keeps l c f bar_idx value :
  keeps True (msclient None l c f) (handle_config_bar_write bar_idx value).
Proof.
  intros w Hw. unfold handle_config_bar_write. destruct (bars_config !! _) as [b|] eqn:Eb; [|done].
  apply wp_bind. unfold wp at 1, get_app. apply wp_bind.
  eapply wp_mono; [|apply (put_app_keeps _ None l c f); [done|apply set_config_bar_ok; apply Hw]].
  intros [] w1 Hw1. case_match; [|done]. set (d := mock_dev_client (w_app w)).
  destruct (w_clients w1 !! d) as [cl|] eqn:Hd; [|unfold wp, bind, load; by rewrite Hd].
  apply wp_bind, wp_load; [by exists cl|]. intros cl' Hcl'. simplify_eq.
  case_match; [|done]. apply wp_bind.
  pose proof (call_keeps (also d (fd cl) (msclient None l c f)) d (fd cl) _
    (RegisterBar (Z.land value (u32 (Z.lnot (BAR_MASK_SIZE (bc_size b))))) (bc_size b) bar_idx
       (bc_read_cb b) (bc_write_cb b))) as Hk.
  eapply wp_mono; [|apply Hk; [|split; [done|by exists cl]]].
  - intros r w2 [? _]. by apply wp_ret.
  - unfold bars_config in Eb.
    destruct (Z.to_nat bar_idx) as [|[|[|[|[|[|n]]]]]]; simpl in Eb; simplify_eq; simpl; lia.
Qed.

#[export] Instance mock_callbacks_keep : ServerCallbacksKeep (os := os) mock_ok.
Proof.
  constructor.
  - intros l c f. constructor.
    + intros cb addr len p w Hw. simpl. unfold wp, bind, get_app, read_result, read_bar, config0_read_cb, ret.
      repeat case_match; unfold bind, get_app in *; simplify_eq; done.
    + intros cb addr data len p w Hw. simpl. repeat case_match; try done.
      * apply wp_bind. unfold wp at 1, get_app. case_match eqn:E; [|done].
        apply put_app_keeps; [done|]. destruct Hw as (_ & [(? & ? & Hl & ?) _] & _). split_and!; try done.
        simpl. unfold write_bar in E. repeat case_match; simplify_eq; rewrite ?length_wr_bytes; done.
      * unfold config0_write_cb. repeat case_match; try done. by apply handle_config_bar_write_keeps.
    + done.
  - intros e l c f p w Hw. simpl. pose proof Hw as (_ & [(-> & _) _] & _). simpl.
    unfold server_client_accept.
    assert (forall i bs s, mock_ok SERVER_CLIENT_ACCEPT s ->
      mock_ok SERVER_CLIENT_ACCEPT (init_config_bars i bs s)) as Hinit.
    { intros i bs. revert i. induction bs as [|b bs IH]; intros i s Hs; [done|]. by apply IH, set_config_bar_ok. }
    apply wp_bind. eapply (wp_mono _ _ (fun _ => msclient e l c f)); [|apply (keeps_modify False (msclient e l c f) c f); [|exact Hw];
      intros; by apply set_cfg0_read_cb_ok].
    intros _ w1 Hw1. apply wp_bind.
    eapply (wp_mono _ _ (fun _ => msclient e l c f)); [|apply (keeps_modify False (msclient e l c f) c f); [|exact Hw1];
      intros; by apply set_cfg0_write_cb_ok].
    intros _ w2 Hw2. apply wp_bind. unfold wp at 1, get_app. apply put_app_keeps; [done|].
    destruct Hw2 as (_ & [(-> & ? & ? & ?) _] & _). by apply Hinit.
Qed.

(** No callback of the mock aborts. *)
Lemma mock_aborts_app U (m : mock) : aborts (os := os) U (put_app m).
Proof. done. Qed.
Lemma mock_aborts_get U : aborts (os := os) U get_app.
Proof. done. Qed.
Lemma mock_aborts_init U c : aborts (os := os) U (server_client_accept c).
Proof. unfold server_client_accept, warppipe_register_config0_read_cb, warppipe_register_config0_write_cb. aborts; done. Qed.

Lemma mock_callbacks_run w' : callback_aborted (os := os) (app := mock) w' -> False.
Proof.
  pose proof (mock_aborts_app (fun _ => False)). pose proof (mock_aborts_get (fun _ => False)).
  pose proof (aborts_register_bar (os := os) (app := mock) (fun _ => False)).
  intros [cb addr len p w E|cb addr data len p w E|cb st data len p w E]; [..|done]; revert w w' E.
  - change (aborts (os := os) (fun _ => False) (call_read_cb cb addr len p)). simpl.
    unfold read_result, config0_read_cb. aborts.
  - change (aborts (os := os) (fun _ => False) (call_write_cb cb addr data len p)). simpl.
    unfold config0_write_cb, handle_config_bar_write. aborts.
Qed.

(** ** The main loop *)

(** [n] iterations of the loop lead from [w] to [w']. *)
Inductive served : nat -> W -> W -> Prop :=
  | served_0 w : served 0 w w
  | served_S n w w1 w2 :
      s_quit (w_server w) = false -> warppipe_server_loop w = Ret tt w1 -> served n w1 w2 ->
      served (S n) w w2.

(** The states between two iterations. *)
Definition mock_inv (w : W) : Prop := server_inv w /\ mock_ok (s_accept_cb (w_server w)) (w_app w).

Context `{!SocketLaws os} `{!ServerLaws os}.

Lemma mock_aborts_loop w w' :
  warppipe_server_loop (os := os) w = Aborted w' -> exists c cl, w_clients w' !! c = Some cl /\ oversized cl.
Proof.
  intros [[[]%mock_callbacks_run|?]|(cb & c & p & w1 & E)]%aborts_server_loop; [done|].
  simpl in E. case_match; [|done]. by apply (mock_aborts_init (fun _ => False)) in E.
Qed.

Lemma serve_loop_spec (n : nat) w :
  mock_inv w ->
  match serve_loop n w with
  | Ret _ w' => mock_inv w' /\ s_quit (w_server w') = true
  | Aborted w' => exists c cl, w_clients w' !! c = Some cl /\ oversized cl
  | Undefined => exists k w', served k w w' /\ mock_inv w' /\ loop_undefined w'
  | NoFuel => exists w', served n w w' /\ mock_inv w' /\ s_quit (w_server w') = false
  end.
Proof.
  revert w. induction n as [|n IH]; intros w Hw; simpl; erewrite bind_Ret by reflexivity;
    destruct (s_quit (w_server w)) eqn:Eq; [done| |done|].
  - exists w. split_and!; [constructor|apply Hw..|done].
  - pose proof (server_loop_keeps mock_ok w (proj1 Hw) (proj2 Hw)) as Hk. unfold wp in Hk. unfold bind.
    destruct (warppipe_server_loop w) as [[] w1| | |] eqn:E; try done.
    2: by eapply mock_aborts_loop.
    2: { exists 0%nat, w. split; [constructor|done]. }
    destruct Hk as (? & ? & _). specialize (IH w1 ltac:(by split)).
    destruct (serve_loop n w1); try done.
    + destruct IH as (k & w' & ? & ?). exists (S k), w'. split; [by econstructor|done].
    + destruct IH as (w' & ? & ?). exists w'. split; [by econstructor|done].
Qed.

(** C10. The mock serves.  Started in a process without connections, with memories
    of the declared sizes, [memory_mark_start] returns 0; it returns because the
    server could not be created, or because it was told to quit.  As long as it
    runs, and when it ends, queue, heap and descriptors are consistent, BAR 0 has
    its initial contents and the memories keep their sizes; behaviour is undefined
    only where, after some iterations, the next one comes to a connection whose read
    is undefined.  It is aborted only with a connection whose peer announced a TLP
    larger than the buffer. *)
Theorem mock_serves (fuel : nat) w :
  w_clients w = ∅ -> mock_ok SERVER_CLIENT_ACCEPT (w_app w) ->
  let w0 := with_server (set_accept_cb SERVER_CLIENT_ACCEPT (w_server w)) w in
  match memory_mark_start fuel w with
  | Ret r w' => r = 0 /\
      ((exists o, w' = with_os o (saved w0)) \/ (mock_inv w' /\ s_quit (w_server w') = true))
  | Aborted w' => exists c cl, w_clients w' !! c = Some cl /\ oversized cl
  | Undefined => exists w1 k w', warppipe_server_create w0 = Ret 0 w1 /\ served k w1 w' /\ mock_inv w' /\ loop_undefined w'
  | NoFuel => exists w1 w', warppipe_server_create w0 = Ret 0 w1 /\ served fuel w1 w' /\
      mock_inv w' /\ s_quit (w_server w') = false
  end.
Proof.
  intros He Hok w0. unfold memory_mark_start.
  erewrite (bind_Ret (warppipe_server_register_accept_cb _)) by reflexivity. fold w0.
  pose proof (server_create_keeps mock_ok w0 He Hok) as Hc. unfold wp in Hc. unfold bind at 1.
  destruct (warppipe_server_create w0) as [r w1| | |] eqn:E; try done.
  2: { exfalso. revert E. apply (aborts_server_create (fun _ => False)). intros cb c p w2 w3 E2. simpl in E2.
       case_match; [|done]. by apply (mock_aborts_init (fun _ => False)) in E2. }
  destruct Hc as [(-> & o & ->)|(-> & Hi & Hj & _)]; [simpl; split; [done|left; by exists o]|].
  simpl (0 =? 0). cbv iota. pose proof (serve_loop_spec fuel w1 (conj Hi Hj)) as Hs. unfold bind.
  destruct (serve_loop fuel w1); simpl; try done; [split; [done|by right]|..].
  - destruct Hs as (k & w' & ? & ?). by exists w1, k, w'.
  - destruct Hs as (w' & ? & ? & ?). by exists w1, w'.
Qed.

(** ** Set-up *)

(** Options that set up the server. *)
Definition server_option (o : opt) : bool :=
  match o with Opt_c | Opt_a _ | Opt_p _ | Opt_4 | Opt_6 => true | _ => false end.

Definition is_opt_c (o : opt) : bool := match o with Opt_c => true | _ => false end.

Lemma parse_server_options opts path : forall w yaml_path,
  Forall (fun o => server_option o = true) opts ->
  exists s, parse_options (opts ++ [Opt_f path]) yaml_path w = Ret (inr (Some path)) (with_server s w) /\
    s_listen s = s_listen (w_server w) && forallb (fun o => negb (is_opt_c o)) opts.
Proof.
  induction opts as [|o opts IH]; intros w yaml_path Ho.
  { exists (w_server w). simpl. by destruct w; rewrite andb_true_r. }
  apply Forall_cons_1 in Ho as [Ho Hos].
  destruct o; try done; cbn [app parse_options];
    erewrite (bind_Ret get_server) by reflexivity; erewrite bind_Ret by reflexivity;
    match goal with |- context [parse_options _ _ ?w1] =>
      destruct (IH w1 yaml_path Hos) as (s & E & Hl) end;
    exists s; (split; [rewrite E; by destruct w|rewrite Hl; simpl]); try done.
  by rewrite andb_false_r.
Qed.

(** C30. Set-up: with options for the server and [-f path], where the file holds a
    document that maps known keys, each at most once, to numerals,
    [memory_mock_setup] returns 0, the server listens unless [-c] was given, and
    the configuration space that the device then presents holds every number of
    the document: a 4-byte configuration read returns it at its place. *)
Theorem mock_setup_yaml {file : Type} (fopen : string -> option file)
    (parse : file -> option yaml_event * file) (opts : list opt) (path : string) (f q : file)
    (es : list entry) (fuel : nat) w :
  Forall (fun o => server_option o = true) opts -> fopen path = Some f ->
  Forall entry_ok es -> NoDup (e_state <$> es) -> length (configuration_space (w_app w)) = 64%nat ->
  delivers parse f (document es) q -> (length (document es) <= fuel)%nat ->
  exists w', memory_mock_setup fopen parse fuel (opts ++ [Opt_f path]) w = Ret (Returned 0) w' /\
    w_clients w' = w_clients w /\
    s_listen (w_server w') = s_listen (w_server w) && forallb (fun o => negb (is_opt_c o)) opts /\
    forall e (o wd a : nat), e ∈ es -> field_of (e_state e) = Some (o, wd) ->
      (a mod 4 = 0)%nat -> (a <= o)%nat -> (o + wd <= a + 4)%nat ->
      exists bs, config0_read_cb (Z.of_nat a) 4 w' = Ret (0, bs) w' /\
        take wd (drop (o - a) bs) = le_bytes wd (e_num e).
Proof.
  intros Ho Hf Hes Hnd Hl Hp Hfuel.
  destruct (parse_server_options opts path w None Ho) as (s & E & Hs).
  set (w1 := with_server s w) in *.
  exists (with_app (set_configuration_space (store_entries es (configuration_space (w_app w))) (w_app w)) w1).
  split_and!; [|done..|].
  - unfold memory_mock_setup, parse_args, bind. rewrite E, Hf. unfold get_app.
    by rewrite (parse_document parse es fuel f q).
  - intros e o wd a He Hfld Ha Hao How. unfold config0_read_cb.
    pose proof (field_bounds _ _ _ Hfld).
    assert (Z.land (Z.of_nat a) 3 = 0) as ->.
    { rewrite land_3. change 4 with (Z.of_nat 4). by rewrite <-Nat2Z.inj_mod, Ha. }
    simpl. erewrite bind_Ret by reflexivity.
    assert (a <= 60)%nat by (pose proof (Nat.div_mod_eq a 4) as Hdiv; rewrite Ha in Hdiv; lia).
    rewrite (proj2 (Z.ltb_ge _ _)) by lia. eexists. split; [reflexivity|].
    rewrite Nat2Z.id. simpl.
    rewrite take_drop_commute, take_take, Nat.min_l, <-take_drop_commute, drop_drop by lia.
    replace (a + (o - a))%nat with o by lia. by apply store_entries_field.
Qed.

(** ** The pointer to the last connection *)

(** C34. The mock keeps a pointer to the connection it accepted last.  When that
    connection is marked for removal, the server frees it and the pointer is left
    dangling: after that, the write of an address to any BAR register, which
    another connection can still send, accesses freed memory. *)
Theorem mock_client_dangles w cl (i value : Z) p :
  server_inv w -> w_clients w !! mock_dev_client (w_app w) = Some cl -> active cl = false ->
  0 <= i < 6 -> 0 <= value < 0xffffffff ->
  exists w',
    warppipe_server_disconnect_clients (Some should_disconnect_client) w = Ret tt w' /\
    (forall c cl', w_clients w' !! c = Some cl' <-> w_clients w !! c = Some cl' /\ active cl' = true) /\
    call_write_cb CONFIG0_WRITE_CB (offsetof_bar + 4 * i) (le_bytes 4 value) 4 p w' = Undefined.
Proof.
  intros Hw Hc Ha Hi Hv. set (cond := Some should_disconnect_client).
  exists (disconnected cond (s_clients (w_server w)) w).
  assert (forall c cl', w_clients (disconnected cond (s_clients (w_server w)) w) !! c = Some cl' <->
    w_clients w !! c = Some cl' /\ active cl' = true) as Hl.
  { intros c cl'. rewrite disconnected_lookup by done. unfold doomed, cond, should_disconnect_client.
    split; intros [H1 H2]; (split; [done|]); rewrite H1 in *; by destruct (active cl'). }
  split_and!; [by apply disconnect_clients_eq|done|].
  rewrite config_write_bar by (simpl; lia).
  replace (le32 (le_bytes 4 value)) with value
    by (rewrite <-(app_nil_r (le_bytes 4 value)); symmetry; apply le32_le_bytes; lia).
  unfold handle_config_bar_write.
  destruct (lookup_lt_is_Some_2 bars_config (Z.to_nat i)) as [b ->]; [simpl; lia|].
  unfold bind at 1, get_app. unfold bind at 1, put_app. rewrite (proj2 (Z.eqb_neq value _)) by lia. simpl.
  unfold bind, load. simpl w_clients.
  destruct (filter _ (w_clients w) !! mock_dev_client (w_app w)) as [cl'|] eqn:E; [|done].
  apply (Hl (mock_dev_client (w_app w)) cl') in E as [E ?]. congruence.
Qed.
End MockServer.

(** ** The properties on the concrete environment *)

(** The mock in a process that has just started. *)
Definition mock_idle : world sim_os mock := mk_world _ _ (w_os (sim_world [])) server_init ∅ mock_init static_init.

Lemma mock_serves_witness :
  let w0 := with_server (set_accept_cb SERVER_CLIENT_ACCEPT server_init) mock_idle in
  match memory_mark_start 2 mock_idle with
  | Ret r w' => r = 0 /\
      ((exists o, w' = with_os o (saved w0)) \/ (mock_inv w' /\ s_quit (w_server w') = true))
  | Aborted w' => exists c cl, w_clients w' !! c = Some cl /\ oversized cl
  | Undefined => exists w1 k w', warppipe_server_create w0 = Ret 0 w1 /\ served k w1 w' /\ mock_inv w' /\ loop_undefined w'
  | NoFuel => exists w1 w', warppipe_server_create w0 = Ret 0 w1 /\ served 2 w1 w' /\
      mock_inv w' /\ s_quit (w_server w') = false
  end.
Proof. apply (mock_serves 2 mock_idle); [done|by split_and!]. Defined.

Lemma mock_setup_yaml_witness :
  exists w',
    memory_mock_setup (fun _ => Some (document example_document)) list_parser 8
      [Opt_c; Opt_p "2116"; Opt_f "device.yaml"] mock_idle = Ret (Returned 0) w' /\
    s_listen (w_server w') = false /\
    exists bs, config0_read_cb 0 4 w' = Ret (0, bs) w' /\ take 2 bs = [0xed; 0x1f].
Proof.
  destruct (mock_setup_yaml (fun _ => Some (document example_document)) list_parser
    [Opt_c; Opt_p "2116"] "device.yaml" (document example_document) [] example_document 8 mock_idle)
    as (w' & E & _ & Hl & Hr); try done.
  - by repeat constructor.
  - exact example_entries.
  - by apply (bool_decide_unpack _).
  - apply (list_parser_delivers (document example_document) []).
  - exists w'. split_and!; [exact E|exact Hl|].
    apply (Hr (mk_entry "vendor_id" PARSE_VENDOR_ID "0x1fed" 0x1fed) 0%nat 2%nat 0%nat);
      [left|done|done|lia|lia].
Defined.

(** The mock with one connection, which is marked for removal. *)
Definition mock_leaving : world sim_os mock := mock_world (set_active false mock_client) [].

Lemma mock_leaving_inv : server_inv mock_leaving.
Proof.
  constructor.
  - apply NoDup_singleton.
  - intros c. cbn [w_server w_clients mock_leaving mock_world sim_world example_world s_clients].
    rewrite list_elem_of_singleton. split; [intros ->; by eexists|].
    by intros [cl [-> _]%lookup_singleton_Some].
  - apply map_Forall_singleton.
    assert (client_ok 3 (client_created 3 example_client)) as H0
      by (apply client_created_ok; constructor; apply example_client_wf).
    pose proof (with_bar_wf 3 _ H0 0 0xff000000 128 read_bar_cb_0 NULL ltac:(lia)) as H1.
    pose proof (with_bar_wf 3 _ H1 1 0x1000 2048 read_bar_cb_1 write_bar_cb_1 ltac:(lia)) as H2.
    exact (proj1 (set_active_ok 3 _ H2 false)).
  - apply map_Forall_singleton. unfold FD_SETSIZE. simpl. lia.
  - simpl. lia.
  - done.
Qed.

Lemma mock_client_dangles_witness :
  exists w',
    warppipe_server_disconnect_clients (Some should_disconnect_client) mock_leaving = Ret tt w' /\
    call_write_cb CONFIG0_WRITE_CB 0x14 (le_bytes 4 0x2000) 4 NULL w' = Undefined.
Proof.
  destruct (mock_client_dangles mock_leaving (set_active false mock_client) 1 0x2000 NULL mock_leaving_inv)
    as (w' & E & _ & H); [done..|lia|lia|]. by exists w'.
Defined.
