(* ===== verification/Host.v ===== *)
(** * Host side of the samples ([zephyr-samples/common/common.c])

    Reads that wait for their completion, and the enumeration of a device.  The
    completion callback reaches its request through [client->private_data], a
    pointer to a local variable of the function that waits: such variables live
    in a store of their own, [frames], from which they are removed when the
    function returns.  [fuel] bounds the iterations of every wait.  Logging is
    left out. *)

From S2P Require Import Prelude Layout Proto Crc World Client Server.

(** [struct read_compl_data]; [rc_buf] is the memory behind [buf]. *)
Record read_compl_data := mk_rcd {
  rc_buf : list Z;
  rc_buf_size : Z;
  rc_ret : Z;
  rc_finished : bool;
}.

(** An application with such variables. *)
Class HostApp (app : Type) := {
  frames : app -> gmap ptr read_compl_data;
  set_frames : gmap ptr read_compl_data -> app -> app;
}.

(** The address of [read_compl]. *)
Definition READ_COMPL : ptr := 2001.

Section Host.
Context {os app : Type} `{!SocketIO os} `{!Callbacks os app} `{!ServerIO os} `{!ServerCallbacks os app}
  `{!HostApp app}.
#[local] Abbreviation P := (M (world os app)).

Definition with_frames (m : gmap ptr read_compl_data) (w : world os app) : world os app :=
  mk_world _ _ (w_os w) (w_server w) (w_clients w) (set_frames m (w_app w)) (w_static w).

(** Access through a pointer: defined while the variable is alive. *)
Definition get_frame (p : ptr) : P read_compl_data := fun w =>
  match frames (w_app w) !! p with Some d => Ret d w | None => Undefined end.
Definition put_frame (p : ptr) (d : read_compl_data) : P unit := fun w =>
  match frames (w_app w) !! p with
  | Some _ => Ret tt (with_frames (<[p := d]> (frames (w_app w))) w)
  | None => Undefined
  end.

(** Entering and leaving the scope of a variable. *)
Definition new_frame (d : read_compl_data) : P ptr := fun w =>
  let p := fresh ({[NULL]} ∪ dom (frames (w_app w))) in
  Ret p (with_frames (<[p := d]> (frames (w_app w))) w).
Definition end_frame (p : ptr) : P unit := fun w =>
  Ret tt (with_frames (delete p (frames (w_app w))) w).

(** [data] is the memory at the data pointer.  The comparison of [length], an
    [int], with [buf_size] is unsigned.  A [memcpy] outside either memory is
    undefined. *)
Definition read_compl (error_code : Z) (data : list Z) (length_ : Z) (private_data : ptr) : P unit :=
  let! d := get_frame private_data in
  if negb (error_code =? 0) then
    put_frame private_data (mk_rcd (rc_buf d) (rc_buf_size d) error_code true)
  else
    let len := if rc_buf_size d <? u32 length_ then rc_buf_size d else length_ in
    if (len <? 0) || (length data <? Z.to_nat len)%nat || (length (rc_buf d) <? Z.to_nat len)%nat
    then undefined
    else put_frame private_data
           (mk_rcd (wr_bytes 0 (take (Z.to_nat len) data) (rc_buf d)) (rc_buf_size d) len true).

(** [TAILQ_FIRST(&pcie_server.clients)->client] *)
Definition first_client : P ptr :=
  let! s := get_server in
  match head (s_clients s) with Some c => ret c | None => undefined end.

Fixpoint wait_loop (fuel : nat) (read_data : ptr) : P unit :=
  let! d := get_frame read_data in
  let! s := get_server in
  if negb (rc_finished d) && negb (s_quit s) then
    match fuel with
    | O => no_fuel
    | S fuel => warppipe_server_loop ;; wait_loop fuel read_data
    end
  else ret tt.

Definition wait_for_completion (fuel : nat) (read_data : ptr) : P Z :=
  wait_loop fuel read_data ;;
  let! s := get_server in
  if s_quit s then ret (-1) else ret 0.

(** The return value and, where something is copied to [buf], the bytes.
    [aligned_buf] is not initialised: [junk] is what it holds.  [length] is
    converted to [uint64_t] in the comparison; a negative one that passes it is
    undefined in [memcpy]. *)
Definition read_config_header_field (fuel : nat) (junk : list Z) (client : ptr) (addr length_ : Z)
    : P (Z * list Z) :=
  let aligned_addr := Z.land addr (u64 (Z.lnot 3)) in
  let offset := Z.land addr 3 in
  if 4 <? u64 (u64 length_ + offset) then ret (-1, [])
  else
    let! p := new_frame (mk_rcd junk 4 0 false) in
    modify client (set_private_data p) ;;
    let! r := warppipe_config0_read client aligned_addr 4 READ_COMPL in
    if r <? 0 then end_frame p ;; ret (r, [])
    else
      let! r := wait_for_completion fuel p in
      if r <? 0 then end_frame p ;; ret (r, [])
      else
        let! d := get_frame p in
        if length_ <? 0 then undefined
        else
          end_frame p ;;
          ret (rc_ret d, take (Z.to_nat length_) (drop (Z.to_nat offset) (rc_buf d))).

(** The return value and the contents of [buf] afterwards. *)
Definition read_data (fuel : nat) (client : ptr) (bar_ addr length_ : Z) (buf : list Z) : P (Z * list Z) :=
  let! p := new_frame (mk_rcd buf (u32 length_) 0 false) in
  modify client (set_private_data p) ;;
  let! r := warppipe_read client bar_ addr length_ READ_COMPL in
  if r <? 0 then end_frame p ;; ret (r, buf)
  else
    let! r := wait_for_completion fuel p in
    let! d := get_frame p in
    end_frame p ;;
    ret (if r <? 0 then r else rc_ret d, rc_buf d).

(** The body of the loop over the BAR registers; [ret tt] is [continue]. *)
Definition enumerate_bar (fuel : nat) (junk : list Z) (client : ptr) (bar_offset : Z) : P unit :=
  let! (r, _) := read_config_header_field fuel junk client bar_offset 4 in
  if r <? 0 then ret tt
  else
    let! r := warppipe_config0_write client bar_offset (le_bytes 4 0xFFFFFFFF) 4 in
    if r <? 0 then ret tt
    else
      let! (r, bs) := read_config_header_field fuel junk client bar_offset 4 in
      let bar_ := le32 bs in
      if (r <? 0) || (bar_ =? 0x0) then ret tt
      else
        let size := u32 (- Z.land bar_ (u32 (Z.lnot 0xF))) in
        let bar_idx := (bar_offset - 0x10) / 4 in
        let bar_addr := u32 (bar_offset * 0x10000) in
        let! r := warppipe_register_bar client bar_addr size bar_idx NULL NULL in
        if r <? 0 then ret tt
        else warppipe_config0_write client bar_offset (le_bytes 4 bar_addr) 4 ;; ret tt.

(** [for (bar_offset = 0x10; bar_offset < 0x28; bar_offset += 4)] *)
Fixpoint enumerate_bars (fuel : nat) (junk : list Z) (client : ptr) (n : nat) (bar_offset : Z) : P unit :=
  match n with
  | O => ret tt
  | S n => enumerate_bar fuel junk client bar_offset ;; enumerate_bars fuel junk client n (bar_offset + 4)
  end.

Definition enumerate (fuel : nat) (junk : list Z) (client : ptr) : P Z :=
  let! (r, vendor_id) := read_config_header_field fuel junk client 0x0 2 in
  if (r <? 0) || (rd vendor_id 0 + 256 * rd vendor_id 1 =? 0xFFFF) then ret (-1)
  else
    let! (r, header_type) := read_config_header_field fuel junk client 0xE 1 in
    if (r <? 0) || negb (rd header_type 0 =? 0x0) then ret (-1)
    else
      enumerate_bars fuel junk client 6 0x10 ;;
      ret 0.
End Host.

(** ** A host without other state *)

(** Its state is its local variables. *)
Definition host := gmap ptr read_compl_data.
#[export] Instance host_app : HostApp host := {| frames a := a; set_frames m a := m |}.

#[export] Instance host_callbacks {os} : Callbacks os host := {|
  call_read_cb _ _ _ _ := undefined;
  call_write_cb _ _ _ _ _ := undefined;
  call_completion_cb cb st data len p :=
    if cb =? READ_COMPL then read_compl st data len p else undefined;
|}.
#[export] Instance host_server_callbacks {os} : ServerCallbacks os host := {|
  call_accept_cb _ _ _ := undefined;
|}.
