(* ===== verification/HostSpec.v ===== *)
(** * Reads that wait

    What the host side of the samples ([Host]) does with a completion, and what
    becomes of a read whose connection fails while it waits. *)

From S2P Require Import Prelude Layout Proto Crc World Client Wire Logic Bars Sim ClientSpec Receive ClientInv Server ServerSpec Host.

Section HostSpec.
Context {os app : Type} `{!SocketIO os} `{!Callbacks os app} `{!ServerIO os} `{!ServerCallbacks os app}
  `{!HostApp app}.
#[local] Abbreviation W := (world os app).
Implicit Types (w : W) (c p : ptr) (cl : warppipe_client) (d : read_compl_data).

(** ** Completions *)

(** The variable after the completion of its read. *)
Definition completed (error_code : Z) (data : list Z) (len : Z) (d : read_compl_data) : read_compl_data :=
  if error_code =? 0
  then let n := Z.min (rc_buf_size d) len in
       mk_rcd (take (Z.to_nat n) data ++ drop (Z.to_nat n) (rc_buf d)) (rc_buf_size d) n true
  else mk_rcd (rc_buf d) (rc_buf_size d) error_code true.

(** The completion callback of the samples.  With the variable it points to
    alive and its buffer as large as it says: an error is recorded and the
    buffer left alone; otherwise the buffer receives the data, cut off at its
    size and never beyond, and the number of bytes copied is recorded.  Either
    way the read is finished and nothing else changes.  If the variable is
    gone, the callback has undefined behaviour. *)
Lemma read_compl_spec w p error_code data len :
  (frames (w_app w) !! p = None -> read_compl error_code data len p w = Undefined) /\
  (forall d, frames (w_app w) !! p = Some d ->
     0 <= rc_buf_size d < 2 ^ 32 -> Z.of_nat (length (rc_buf d)) = rc_buf_size d ->
     0 <= len < 2 ^ 31 -> (Z.to_nat len <= length data)%nat ->
     read_compl error_code data len p w =
       Ret tt (with_frames (<[p := completed error_code data len d]> (frames (w_app w))) w) /\
     length (rc_buf (completed error_code data len d)) = length (rc_buf d)).
Proof.
  split; [intros Hp; unfold read_compl, bind, get_frame; by rewrite Hp|].
  intros d Hp Hs Hb Hl Hd. unfold read_compl, completed, put_frame, get_frame, bind. rewrite Hp.
  destruct (error_code =? 0); cbn [negb]; [|by rewrite Hp].
  rewrite (wrap_small 32) by lia.
  assert ((if rc_buf_size d <? len then rc_buf_size d else len) = Z.min (rc_buf_size d) len) as ->
    by (destruct (Z.ltb_spec (rc_buf_size d) len); lia).
  set (n := Z.min (rc_buf_size d) len) in *.
  rewrite (proj2 (Z.ltb_ge _ _)), !(proj2 (Nat.ltb_ge _ _)) by lia. simpl. rewrite Hp.
  rewrite wr_bytes_split; rewrite ?length_take; [|lia]. simpl. split.
  - do 5 f_equal. rewrite Nat.min_l by lia. done.
  - rewrite length_app, length_take, length_drop. lia.
Qed.

(** ** Connections that fail *)

(** The end of the stream, an error or a truncated header. *)
Definition lost (r : recv_result) : Prop :=
  match r with RecvError e => e = EOTHER | Received bs => (length bs < 7)%nat end.

Lemma client_read_lost c cl w r o :
  w_clients w !! c = Some cl -> length (buf cl) = Z.to_nat CLIENT_BUFFER_SIZE ->
  sys_recv (fd cl) (1 + sizeof_dllp) (w_os w) = (r, o) -> lost r ->
  exists cl', warppipe_client_read c w = Ret tt (with_os o (upd c (set_active false cl') w)).
Proof.
  intros Hc Hb Hr Hl. change (Z.to_nat CLIENT_BUFFER_SIZE) with 4117%nat in Hb.
  unfold warppipe_client_read. run. destruct r as [bs|e]; simpl in Hl; [|subst e; run; by exists cl].
  rewrite (recv_store_bind c cl) by (done || lia).
  rewrite (proj2 (Z.eqb_neq _ _)) by (unfold sizeof_dllp; lia). simpl (negb _). cbv iota.
  run. rewrite upd_upd. by exists (filled 0 bs cl).
Qed.

(** A process that connects loses its only connection. *)
Lemma server_loop_lost c cl w fds o r o' :
  s_clients (w_server w) = [c] -> s_listen (w_server w) = false -> w_clients w !! c = Some cl ->
  length (buf cl) = Z.to_nat CLIENT_BUFFER_SIZE ->
  0 <= fd cl < FD_SETSIZE -> 0 <= s_fd (w_server w) < FD_SETSIZE ->
  sys_select (s_max_fd (w_server w) + 1) ({[fd cl]} ∪ {[s_fd (w_server w)]}) (w_os w) = (fds, o) ->
  fd cl ∈ fds -> sys_recv (fd cl) (1 + sizeof_dllp) o = (r, o') -> lost r ->
  exists w', warppipe_server_loop w = Ret tt w' /\
    s_quit (w_server w') = true /\ s_clients (w_server w') = [] /\
    w_clients w' = delete c (w_clients w) /\ w_app w' = w_app w.
Proof.
  intros Hs Hl Hc Hb Hf Hsf Hsel Hin Hr Hlost.
  rewrite (server_loop_one c cl w), Hsel by done. set (w1 := with_read_fds fds (with_os o w)).
  destruct (client_read_lost c cl w1 r o') as (cl' & E); [done..|].
  set (w2 := with_os o' (upd c (set_active false cl') w1)) in E.
  rewrite (serve_reads c cl w1 Hs Hc Hf Hsf w2) by first [done | by intros | simpl; by rewrite bool_decide_eq_true_2].
  assert (w_clients w2 !! c = Some (set_active false cl')) as Hc2 by apply lookup_upd.
  unfold warppipe_server_disconnect_clients. erewrite bind_Ret by reflexivity.
  replace (s_clients (w_server w2)) with [c] by done. simpl disconnect_from. run. simpl should_disconnect_client. cbv iota.
  change (should_disconnect_client (set_active false cl')) with true. cbv iota.
  unfold bind, os_call. match goal with |- context [sys (Close ?f) ?x] => destruct (sys (Close f) x) as [? o2] end.
  unfold free_client, modify_server, bind, get_server, put_server, with_server, with_os, with_clients. simpl.
  rewrite Hl. simpl. eexists. split; [reflexivity|]. simpl. rewrite Hs. split_and!; [done| | |done].
  - rewrite filter_cons_False by (by intros H). done.
  - unfold upd, with_clients. simpl. apply delete_insert_eq.
Qed.

(** C17. A read does not wait for a connection that is gone: when the only
    connection of the process reports the end of its stream, an error or a
    truncated header while [wait_for_completion] waits, the loop removes and
    frees the connection, and the wait ends with [-1], its variable untouched. *)
Theorem wait_connection_lost c cl w p d fds o r o' fuel :
  s_clients (w_server w) = [c] -> s_listen (w_server w) = false -> w_clients w !! c = Some cl ->
  client_wf cl -> 0 <= fd cl < FD_SETSIZE -> 0 <= s_fd (w_server w) < FD_SETSIZE ->
  frames (w_app w) !! p = Some d -> rc_finished d = false -> s_quit (w_server w) = false ->
  sys_select (s_max_fd (w_server w) + 1) ({[fd cl]} ∪ {[s_fd (w_server w)]}) (w_os w) = (fds, o) ->
  fd cl ∈ fds -> sys_recv (fd cl) (1 + sizeof_dllp) o = (r, o') -> lost r ->
  exists w', wait_for_completion (S fuel) p w = Ret (-1) w' /\
    s_clients (w_server w') = [] /\ w_clients w' = delete c (w_clients w) /\ frames (w_app w') !! p = Some d.
Proof.
  intros Hs Hl Hc Hwf Hf Hsf Hp Hfin Hq Hsel Hin Hr Hlost.
  destruct (server_loop_lost c cl w fds o r o') as (w' & E & Hq' & Hs' & Hc' & Ha); try done; [apply Hwf|].
  exists w'. split_and!; [|done..|by rewrite Ha].
  unfold wait_for_completion. simpl wait_loop. unfold bind, get_frame. rewrite Hp, Hfin. simpl.
  rewrite Hq. simpl. rewrite E.
  assert (forall fuel, wait_loop fuel p w' = Ret tt w') as ->.
  { intros [|f]; simpl; unfold bind, get_frame; rewrite Ha, Hp, Hfin; simpl; by rewrite Hq'. }
  by rewrite Hq'.
Qed.
End HostSpec.

(** ** The properties on a concrete environment *)

(** A process with one connection and a variable at address 1; the peer has
    closed the connection. *)
Definition waiting_host : world sim_os host :=
  mk_world _ _ (w_os (sim_world [])) (w_server (sim_world [])) (w_clients (sim_world []))
    {[1 := mk_rcd [0; 0; 0; 0] 4 0 false]} static_init.

Example read_compl_spec_run :
  read_compl 0 [1; 2; 3; 4; 5; 6] 6 1 waiting_host =
    Ret tt (with_frames {[1 := mk_rcd [1; 2; 3; 4] 4 4 true]} waiting_host) /\
  read_compl 0 [1; 2; 3; 4; 5; 6] 6 2 waiting_host = Undefined.
Proof.
  split.
  - destruct (read_compl_spec waiting_host 1 0 [1; 2; 3; 4; 5; 6] 6) as [_ H].
    destruct (H (mk_rcd [0; 0; 0; 0] 4 0 false)) as [E _]; [done|simpl; lia|done|lia|simpl; lia|exact E].
  - by apply (read_compl_spec waiting_host 2).
Qed.

Lemma wait_connection_lost_witness :
  exists w', wait_for_completion 1 1 waiting_host = Ret (-1) w' /\
    s_clients (w_server w') = [] /\ w_clients w' = delete 7 (w_clients waiting_host).
Proof.
  destruct (wait_connection_lost 7 example_client waiting_host 1 (mk_rcd [0; 0; 0; 0] 4 0 false)
    ({[3]} ∪ {[s_fd (w_server waiting_host)]}) (w_os waiting_host) (Received []) (sys_recv 3 7 (w_os waiting_host)).2 0) as (w' & E & H1 & H2 & _);
    try (reflexivity || exact example_client_wf || (unfold FD_SETSIZE; simpl; lia)).
  by exists w'.
Defined.
