(* ===== verification/Native.v ===== *)
(** * The native sample and its device ([zephyr-samples/pcie_native/src/main.c])

    The sample's main function, and a system of two processes: the sample and
    the memory mock, connected by a stream in each direction.  The operating
    system that the sample runs on contains the other process and lets it run
    one iteration of its loop whenever the sample waits in [select]. *)

From S2P Require Import Prelude Layout Proto Crc World Client Server MemoryMock Host.

(** ** The sample *)

Section Main.
Context {os app : Type} `{!SocketIO os} `{!Callbacks os app} `{!ServerIO os} `{!ServerCallbacks os app}
  `{!HostApp app}.
#[local] Abbreviation P := (M (world os app)).

Definition assert_ (b : bool) : P unit := if b then ret tt else abort.

Definition hello : list Z := [0x68; 0x65; 0x6c; 0x6c; 0x6f].

(** [buf] and [junk]: the uninitialised contents of the local buffers. *)
Definition pcie_native_main (fuel : nat) (junk buf : list Z) : P Z :=
  let! r := warppipe_server_create in
  if r =? -1 then ret (-1)
  else
    let! client := first_client in
    let! r := enumerate fuel junk client in
    if r <? 0 then ret (-1)
    else
      let! (r, buf) := read_data fuel client 0 0 16 buf in
      assert_ (r =? 16) ;;
      let! (r, buf) := read_data fuel client 1 0 16 buf in
      assert_ (r =? 16) ;;
      let buf := wr_bytes 0 hello buf in
      let! r := warppipe_write client 1 0 buf 5 in
      assert_ (r =? 0) ;;
      let! (r, buf) := read_data fuel client 1 0 16 buf in
      assert_ (r =? 16) ;;
      assert_ (bool_decide (take 5 buf = hello)) ;;
      let! (r, buf) := read_data fuel client 2 0 16 buf in
      assert_ (r =? -1) ;;
      ret 0.
End Main.

(** ** The device's process *)

(** Connections waiting to be accepted, and the two directions of the stream. *)
Record dev_os := mk_dev { d_backlog : nat; d_in : list Z; d_out : list Z }.

#[export] Instance dev_io : SocketIO dev_os := {|
  sys_recv f n o :=
    if n <? 0 then (RecvError EOTHER, o)
    else match d_in o with
         | [] => (RecvError EAGAIN, o)
         | bs => (Received (take (Z.to_nat n) bs), mk_dev (d_backlog o) (drop (Z.to_nat n) bs) (d_out o))
         end;
  sys_send f bs o := (Z.of_nat (length bs), mk_dev (d_backlog o) (d_in o) (d_out o ++ bs));
  sys_malloc n o := (Some (replicate (Z.to_nat n) 0xa5), o);
|}.

(** It listens on descriptor 4; a connection gets descriptor 5. *)
#[export] Instance dev_server_io : ServerIO dev_os := {|
  sys call o :=
    match call with
    | Socket _ => (4, o)
    | Accept _ =>
        match d_backlog o with O => (-1, o) | S n => (5, mk_dev n (d_in o) (d_out o)) end
    | _ => (0, o)
    end;
  sys_getaddrinfo _ _ _ _ o := (Some [0], o);
  sys_select _ fds o :=
    (filter (fun f => (f = 4 /\ d_backlog o <> O) \/ (f = 5 /\ d_in o <> [])) fds, o);
  sys_new_client used o :=
    (Some (fresh ({[NULL]} ∪ used), mk_client 0 0 false 0 [] [] [] [] 0 0 (replicate 32 NULL) 0
                                     (replicate (Z.to_nat CLIENT_BUFFER_SIZE) 0)), o);
|}.

(** The mock after [memory_mark_start] created its server. *)
Definition device : outcome (world dev_os mock) Z :=
  (warppipe_server_register_accept_cb SERVER_CLIENT_ACCEPT ;; warppipe_server_create)
    (mk_world _ _ (mk_dev 0 [] []) server_init ∅ mock_init static_init).

(** ** The sample's process *)

(** The stream towards the sample, what the sample sent since the device ran,
    and the device; [None] after it ended. *)
Record pair_os := mk_pair { p_in : list Z; p_out : list Z; p_device : option (world dev_os mock) }.

(** A connection request reaches the device. *)
Definition connect_device (w : world dev_os mock) : world dev_os mock :=
  with_os (mk_dev (S (d_backlog (w_os w))) (d_in (w_os w)) (d_out (w_os w))) w.

(** The device with these bytes at the end of its input stream; what the device
    sent, taken off its output stream. *)
Definition feed (bs : list Z) (w : world dev_os mock) : world dev_os mock :=
  with_os (mk_dev (d_backlog (w_os w)) (d_in (w_os w) ++ bs) (d_out (w_os w))) w.
Definition drained (w : world dev_os mock) : world dev_os mock :=
  with_os (mk_dev (d_backlog (w_os w)) (d_in (w_os w)) []) w.

(** The bytes in transit arrive, and the device's loop runs once. *)
Definition device_runs (o : pair_os) : pair_os :=
  match p_device o with
  | None => o
  | Some w =>
      match warppipe_server_loop (feed (p_out o) w) with
      | Ret _ w' => mk_pair (p_in o ++ d_out (w_os w')) [] (Some (drained w'))
      | _ => mk_pair (p_in o) [] None
      end
  end.

#[export] Instance pair_io : SocketIO pair_os := {|
  sys_recv f n o :=
    if n <? 0 then (RecvError EOTHER, o)
    else match p_in o with
         | [] => (if p_device o then RecvError EAGAIN else Received [], o)
         | bs => (Received (take (Z.to_nat n) bs), mk_pair (drop (Z.to_nat n) bs) (p_out o) (p_device o))
         end;
  sys_send f bs o := (Z.of_nat (length bs), mk_pair (p_in o) (p_out o ++ bs) (p_device o));
  sys_malloc n o := (Some (replicate (Z.to_nat n) 0xa5), o);
|}.

#[export] Instance pair_server_io : ServerIO pair_os := {|
  sys call o :=
    match call with
    | Socket _ => (4, o)
    | Connect _ _ => (0, mk_pair (p_in o) (p_out o) (connect_device <$> p_device o))
    | _ => (0, o)
    end;
  sys_getaddrinfo _ _ _ _ o := (Some [0], o);
  sys_select _ fds o :=
    let o := device_runs o in
    (match p_in o, p_device o with [], Some _ => ∅ | _, _ => fds end, o);
  sys_new_client used o := (fst (sys_new_client used (mk_dev 0 [] [])), o);
|}.

(** [pcie_server]: it connects. *)
Definition pcie_server_init : warppipe_server :=
  mk_server 0 false false AF_UNSPEC None SERVER_PORT_NUM 0 ∅ [] NULL NULL.

Definition native_system : world pair_os host :=
  mk_world _ _ (mk_pair [] [] (match device with Ret _ w => Some w | _ => None end)) pcie_server_init ∅ ∅ static_init.
