(* ===== verification/Link.v ===== *)
(** * Two processes and their link

    The system of [Native], for any process that connects to the memory mock:
    the streams between the two, what is in flight, and what an iteration of
    the process's loop does while a read is under way.  Both memories of the
    device are covered; the process is characterised by its completion
    callback only. *)

From S2P Require Import Prelude Layout Proto Crc World Client Wire Logic Bars ClientSpec Receive EndToEnd Server ServerSpec MemoryMock MockSpec Host Native.

(** ** The streams between the processes *)

#[export] Instance dev_streams : SocketStreams dev_os := {| pending _ o := d_in o; sent _ o := d_out o |}.
#[export] Instance pair_streams : SocketStreams pair_os := {| pending _ o := p_in o; sent _ o := p_out o |}.

Lemma take_nonempty {A} (n : Z) (l : list A) : 0 < n -> l <> [] -> take (Z.to_nat n) l <> [].
Proof. intros Hn Hl. destruct l; [done|]. by destruct (Z.to_nat n) eqn:E; [lia|]. Qed.

#[export] Instance dev_stream_laws : StreamLaws dev_os.
Proof.
  constructor; simpl.
  - intros f n [b i t] bs o' E. simpl in E. destruct (n <? 0); [done|]. destruct i; simplify_eq; simpl.
    by rewrite take_drop.
  - intros f n [b i t] bs o' E. simpl in E. destruct (Z.ltb_spec n 0); [done|].
    destruct i; simplify_eq. rewrite length_take. lia.
  - intros f n [b i t] Hn Hi. simpl in *. rewrite (proj2 (Z.ltb_ge _ _)) by lia.
    destruct i; [done|]. eexists _, _. split; [done|]. by apply take_nonempty.
  - intros f g n [b i t] r o' E. simpl in E. destruct (n <? 0); [by simplify_eq|]. by destruct i; simplify_eq.
  - intros f bs o k o' E _. simplify_eq. by rewrite Nat2Z.id, firstn_all.
  - intros f g bs o k o' E. by simplify_eq.
  - intros g n o m o' E. by simplify_eq.
Qed.

#[export] Instance pair_stream_laws : StreamLaws pair_os.
Proof.
  constructor; simpl.
  - intros f n [i t d] bs o' E. simpl in E. destruct (n <? 0); [done|].
    destruct i; [by destruct d; simplify_eq|]. simplify_eq; simpl. by rewrite take_drop.
  - intros f n [i t d] bs o' E. simpl in E. destruct (Z.ltb_spec n 0); [done|].
    destruct i; [destruct d; simplify_eq; simpl; lia|]. simplify_eq. rewrite length_take. lia.
  - intros f n [i t d] Hn Hi. simpl in *. rewrite (proj2 (Z.ltb_ge _ _)) by lia.
    destruct i; [done|]. eexists _, _. split; [done|]. by apply take_nonempty.
  - intros f g n [i t d] r o' E. simpl in E. destruct (n <? 0); [by simplify_eq|]. by destruct i; simplify_eq.
  - intros f bs o k o' E _. simplify_eq. by rewrite Nat2Z.id, firstn_all.
  - intros f g bs o k o' E. by simplify_eq.
  - intros g n o m o' E. by simplify_eq.
Qed.

Lemma dev_io_steps (o o' : dev_os) : io_steps o o' -> d_backlog o' = d_backlog o.
Proof.
  induction 1 as [|o1 o2 o3 Hs _ IH]; [done|]. rewrite IH. clear IH.
  destruct Hs as [f n [b i t] r o' E|f bs o k o' E|n o m o' E]; simpl in E; [|by simplify_eq..].
  destruct (n <? 0); [by simplify_eq|]. by destruct i; simplify_eq.
Qed.

Lemma pair_io_steps (o o' : pair_os) : io_steps o o' -> p_device o' = p_device o.
Proof.
  induction 1 as [|o1 o2 o3 Hs _ IH]; [done|]. rewrite IH. clear IH.
  destruct Hs as [f n [i t d] r o' E|f bs o k o' E|n o m o' E]; simpl in E; [|by simplify_eq..].
  destruct (n <? 0); [by simplify_eq|]. by destruct i; simplify_eq.
Qed.

Lemma dev_send_ok f bs (o o' : dev_os) : send_fails f bs o o' -> False.
Proof. intros (o1 & k & o2 & _ & E & Hk & _). simpl in E. congruence. Qed.

Lemma pair_send_ok f bs (o o' : pair_os) : send_fails f bs o o' -> False.
Proof. intros (o1 & k & o2 & _ & E & Hk & _). simpl in E. congruence. Qed.

Lemma dev_header (f : Z) (o : dev_os) (p rest : list Z) :
  d_in o = p ++ rest -> (7 <= length p)%nat -> header_whole f o.
Proof.
  intros Hp Hl. unfold header_whole. simpl. rewrite Hp. destruct p; simpl in Hl; [lia|]. simpl.
  eexists _, _. split; [done|]. change (Pos.to_nat 7) with 7%nat. simpl. rewrite length_take, length_app. lia.
Qed.

Lemma pair_header (f : Z) (o : pair_os) (p rest : list Z) :
  p_in o = p ++ rest -> (7 <= length p)%nat -> header_whole f o.
Proof.
  intros Hp Hl. unfold header_whole. simpl. rewrite Hp. destruct p; simpl in Hl; [lia|]. simpl.
  eexists _, _. split; [done|]. change (Pos.to_nat 7) with 7%nat. simpl. rewrite length_take, length_app. lia.
Qed.

Lemma dev_malloc : malloc_succeeds dev_os.
Proof. intros n o _. by eexists _, _. Qed.

(** ** Connections *)

(** A connection on [f] that can send [n] more packets. *)
Record connection (f n : Z) (cl : warppipe_client) : Prop := {
  cn_fd : fd cl = f;
  cn_active : active cl = true;
  cn_buf : length (buf cl) = Z.to_nat CLIENT_BUFFER_SIZE;
  cn_seqno : 0 <= seqno cl /\ seqno cl + n <= INT_MAX;
}.

Lemma connection_filled f n bs cl : connection f n cl -> connection f n (filled 0 bs cl).
Proof. intros []. constructor; try done. unfold filled. simpl. by rewrite length_wr_bytes. Qed.

Lemma connection_after f n p cl : connection f n cl -> connection f n (after_packet p true cl).
Proof. intros Hc%(connection_filled f n p). by destruct Hc; constructor. Qed.

Lemma connection_sent f n cl : connection f n cl -> connection f (n - 1) (set_seqno (seqno cl + 1) cl).
Proof. intros [? ? ? []]. constructor; simpl; try done. lia. Qed.

Lemma connection_less f n m cl : connection f n cl -> m <= n -> connection f m cl.
Proof. intros [? ? ? []] ?. constructor; try done. lia. Qed.

Lemma connection_seqno f n cl : connection f n cl -> 1 <= n -> seqno cl <> INT_MAX.
Proof. intros [? ? ? []] ?. lia. Qed.

(** An acknowledgement, as bytes. *)
Definition ack (s : Z) : list Z := transmitted_dllp (acknak_packet PCIE_DLLP_ACK s).

(** A client that receives an acknowledgement only fills its buffer. *)
Lemma client_read_ack {os app : Type} `{!SocketIO os} `{!Callbacks os app} `{!SocketStreams os} `{!StreamLaws os}
    (c : ptr) cl (w : world os app) s rest :
  receiving c cl w (ack s) rest ->
  exists o, warppipe_client_read c w = Ret tt (with_os o (upd c (filled 0 (ack s) cl) w)) /\
    pending (fd cl) o = rest /\ (forall g, sent g o = sent g (w_os w)) /\ io_steps (w_os w) o.
Proof.
  intros [Hc Hb Hp Hh]. change (Z.to_nat CLIENT_BUFFER_SIZE) with 4117%nat in Hb.
  destruct (header_whole_stream _ _ _ _ Hh Hp) as (o & Hr & Hp' & Hs & Hio); [done|].
  exists o. split_and!; [|exact Hp'|exact Hs|exact Hio].
  apply (client_read_dllp c cl); [exact Hc|lia|exact Hr|done|].
  unfold filled. simpl buf. unfold get. rewrite rd_wr_bytes_in by (rewrite ?Hb; simpl; lia). reflexivity.
Qed.

(** ** What is in flight to the device *)

Section Link.
(** Where the BARs are mapped. *)
Context (base : nat -> Z).
#[local] Abbreviation base1 := (base 1%nat).

(** The two memories of the device: size, its logarithm, read callback. *)
Definition mem_size (i : nat) : Z := match i with O => 128 | _ => 2048 end.
Definition mem_bits (i : nat) : Z := match i with O => 7 | _ => 11 end.
Definition mem_read_cb (i : nat) : ptr := match i with O => read_bar_cb_0 | _ => read_bar_cb_1 end.

(** Their contents, when BAR 1 holds [m]: BAR 0 is read-only. *)
Definition contents (i : nat) (m : list Z) : list Z :=
  match i with O => bar0_memory mock_init | _ => m end.

Lemma contents_length i m : length m = 2048%nat -> Z.of_nat (length (contents i m)) = mem_size i.
Proof. intros Hm. destruct i; [done|]. simpl. by rewrite Hm. Qed.

(** The bytes of [k] packets, acknowledgements and writes, and their effect on
    the memory. *)
Inductive in_flight : list Z -> nat -> list Z -> list Z -> Prop :=
  | fly_nil m : in_flight [] 0 m m
  | fly_ack s bs k m m' : in_flight bs k m m' -> in_flight (ack s ++ bs) (S k) m m'
  | fly_write s mem off data len bs k m m' :
      length mem = Z.to_nat (write_size (base1 + off) len) ->
      0 <= off -> 0 < len -> off + len <= 2048 -> (Z.to_nat len <= length data)%nat ->
      in_flight bs k (wr_bytes (Z.to_nat off) (take (Z.to_nat len) data) m) m' ->
      in_flight (transmitted s (write_tport mem (base1 + off) data len PCIE_TLP_MWR64) ++ bs) (S k) m m'.

Lemma in_flight_app bs1 k1 m1 m2 bs2 k2 m3 :
  in_flight bs1 k1 m1 m2 -> in_flight bs2 k2 m2 m3 -> in_flight (bs1 ++ bs2) (k1 + k2) m1 m3.
Proof. induction 1; intros; [done|rewrite <-app_assoc; simpl; econstructor; eauto..]. Qed.

Lemma in_flight_nil bs m m' : in_flight bs 0 m m' -> bs = [] /\ m = m'.
Proof. by inversion 1. Qed.

Lemma in_flight_length bs k m m' : in_flight bs k m m' -> length m' = length m.
Proof. induction 1; [done..|]. by rewrite length_wr_bytes in *. Qed.

(** ** The device *)

(** BAR [i] is registered with the mock's read callback and decodes [addr]. *)
Record bar_at (cl : warppipe_client) (i : nat) (addr : Z) : Prop := {
  ba_bar : in_bar cl i (base i) (mem_bits i) addr;
  ba_read : bar_read_cb cl !! i = Some (mem_read_cb i);
}.

Record device_at (n : Z) (c : ptr) (cl : warppipe_client) (d : world dev_os mock) : Prop := {
  dv_clients : s_clients (w_server d) = [c];
  dv_fd : s_fd (w_server d) = 4;
  dv_client : w_clients d !! c = Some cl;
  dv_conn : connection 5 n cl;
  dv_bar : forall i off, (i < 2)%nat -> 0 <= off < mem_size i -> bar_at cl i (base i + off);
  dv_write : bar_write_cb cl !! 1%nat = Some write_bar_cb_1;
  dv_mem0 : bar0_memory (w_app d) = bar0_memory mock_init;
  dv_mem : length (bar1_memory (w_app d)) = 2048%nat;
  dv_backlog : d_backlog (w_os d) = 0%nat;
}.

Lemma bar_at_upd cl cl' i addr :
  bar cl' = bar cl -> bar_size cl' = bar_size cl -> bar_read_cb cl' = bar_read_cb cl ->
  bar_at cl i addr -> bar_at cl' i addr.
Proof.
  intros H1 H2 H3 [[] ?]. constructor; try congruence. constructor; try congruence.
  - unfold bars_ok in *. by rewrite H1, H2.
  - intros j b' s'. rewrite H1, H2. eauto.
Qed.

Lemma bar_at_range cl i addr :
  bar_at cl i addr -> 0 <= base i /\ base i + mem_size i <= 2 ^ 32.
Proof.
  intros [Hin _]. destruct (in_bar_aligned _ _ _ _ _ Hin) as (Hb & _ & Hb'). destruct i; simpl in *; lia.
Qed.

(** The loop of the device: it reads from the connection exactly if something
    arrived. *)
Lemma device_loop n c cl d :
  device_at n c cl d ->
  exists fds, let d1 := with_read_fds fds d in
    forall d' cl', (if bool_decide (d_in (w_os d) = []) then ret tt else warppipe_client_read c) d1 = Ret tt d' ->
      s_clients (w_server d') = [c] -> w_clients d' !! c = Some cl' -> active cl' = true ->
      warppipe_server_loop d = Ret tt d'.
Proof.
  intros [Hs Hf Hc [Hfd _ _ _] _ _ _ _ Hb].
  rewrite (server_loop_one c cl d) by (rewrite ?Hfd, ?Hf; unfold FD_SETSIZE; done || lia).
  simpl. set (fds := filter _ _). exists fds. rewrite with_os_id. intros d' cl' Hr Hs' Hc' Ha.
  assert (5 ∈ fds <-> d_in (w_os d) <> []) as H5 by (unfold fds; rewrite elem_of_filter, Hfd; set_solver by lia).
  assert (4 ∉ fds) as H4.
  { intros [[[_ H]|[H _]] _]%elem_of_filter; [by rewrite Hb in H|done]. }
  apply (serve_one c cl (with_read_fds fds d) Hs Hc) with (cl' := cl'); simpl; rewrite ?Hfd, ?Hf; try done;
    try (unfold FD_SETSIZE; lia).
  rewrite (bool_decide_ext _ _ H5), bool_decide_not. by destruct (bool_decide _).
Qed.

(** Nothing arrived. *)
Lemma device_idle n c cl d :
  device_at n c cl d -> d_in (w_os d) = [] ->
  exists fds, warppipe_server_loop d = Ret tt (with_read_fds fds d).
Proof.
  intros Hd Hi. destruct (device_loop n c cl d Hd) as (fds & H). exists fds. rewrite Hi in H.
  destruct Hd. apply (H _ cl); try done. by apply cn_active with 5 n.
Qed.

(** What the device does with the packet at the head of its stream. *)
Lemma device_receiving n c cl d fds p rest :
  device_at n c cl d -> d_in (w_os d) = p ++ rest -> (7 <= length p)%nat ->
  receiving c cl (with_read_fds fds d) p rest.
Proof.
  intros [Hs Hf Hc [Hfd _ Hbuf _] _ _ _ _ Hb] Hi Hl. constructor; try done. by eapply dev_header.
Qed.

Lemma device_handles n c cl d p rest :
  device_at n c cl d -> d_in (w_os d) = p ++ rest -> (7 <= length p)%nat ->
  exists fds, let d1 := with_read_fds fds d in
    receiving c cl d1 p rest /\
    forall d' cl', warppipe_client_read c d1 = Ret tt d' ->
      s_clients (w_server d') = [c] -> w_clients d' !! c = Some cl' -> active cl' = true ->
      warppipe_server_loop d = Ret tt d'.
Proof.
  intros Hd Hi Hl. destruct (device_loop n c cl d Hd) as (fds & H). exists fds.
  split; [by eapply device_receiving|]. intros d' cl' Hr. apply H. rewrite Hi.
  destruct p; [simpl in Hl; lia|done].
Qed.

Lemma device_gets_ack n c cl d s rest :
  device_at n c cl d -> d_in (w_os d) = ack s ++ rest ->
  exists d' cl', warppipe_server_loop d = Ret tt d' /\ device_at n c cl' d' /\
    w_app d' = w_app d /\ d_in (w_os d') = rest /\ d_out (w_os d') = d_out (w_os d).
Proof.
  intros Hd Hi. destruct (device_handles n c cl d _ rest Hd Hi) as (fds & Hrcv & Hrun); [done|].
  destruct (client_read_ack c cl _ s rest Hrcv) as (o & E & Hp & Hs & Hio).
  apply dev_io_steps in Hio. pose proof (Hs 0) as Hs0. simpl in Hp, Hs0, Hio. destruct Hd as [H1 H2 H3 H4 H5 Hwcb0 H0 H6 H7].
  eexists _, (filled 0 (ack s) cl). split; [eapply Hrun; [exact E|exact H1|apply lookup_upd|apply H4]|].
  split_and!; [|done|exact Hp|exact Hs0]. constructor; try done.
  - apply lookup_upd.
  - by apply connection_filled.
  - intros i off Hi' Hoff. by eapply bar_at_upd, H5.
  - simpl. congruence.
Qed.

(** [acked], where sending cannot fail. *)
Lemma dev_acked cl s o o' act :
  acked (os := dev_os) cl s o o' act -> d_backlog o' = d_backlog o /\ act = active cl /\
  d_out o' = d_out o ++ ack (s mod 4096).
Proof.
  intros [Hio%dev_io_steps [[-> Hs]|[_ Hf%dev_send_ok]]]; [|done]. by split_and!.
Qed.

Lemma device_writes n c cl d s mem off data len rest :
  device_at n c cl d ->
  d_in (w_os d) = transmitted s (write_tport mem (base1 + off) data len PCIE_TLP_MWR64) ++ rest ->
  length mem = Z.to_nat (write_size (base1 + off) len) ->
  0 <= off -> 0 < len -> off + len <= 2048 -> (Z.to_nat len <= length data)%nat ->
  exists d' cl', warppipe_server_loop d = Ret tt d' /\ device_at n c cl' d' /\
    bar1_memory (w_app d') = wr_bytes (Z.to_nat off) (take (Z.to_nat len) data) (bar1_memory (w_app d)) /\
    d_in (w_os d') = rest /\ d_out (w_os d') = d_out (w_os d) ++ ack (s mod 4096).
Proof.
  intros Hd Hi Hm Ho Hl Hmax Hdata.
  assert (bar_at cl 1 (base1 + off)) as Hat by (apply Hd; simpl; lia).
  destruct (bar_at_range _ _ _ Hat) as [Hb Hb']. simpl in Hb'. destruct Hat as [Hin Hrcb].
  pose proof (dv_write _ _ _ _ Hd) as Hwcb.
  pose proof (Z.mod_pos_bound (base1 + off) 4 ltac:(lia)) as Hmod.
  assert (is_request PCIE_TLP_MWR64 (base1 + off)) as Hreq by (by right; left).
  pose proof (write_tport_ok mem (base1 + off) data len PCIE_TLP_MWR64 Hm ltac:(lia) Hl ltac:(lia) Hdata Hreq eq_refl) as Hok.
  pose proof (transmitted_length s _ Hok) as Htl. pose proof (tport_total _ Hok) as Htt.
  unfold packet_length, sizeof_dllp in Htl.
  destruct (device_handles n c cl d _ rest Hd Hi) as (fds & Hrcv & Hrun); [lia|].
  destruct (write_packet_delivered (app := mock) mem (base1 + off) data len PCIE_TLP_MWR64 s Hm
    ltac:(lia) Hl ltac:(lia) Hdata eq_refl c cl _ write_bar_cb_1 (base1 + off - base1) rest Hrcv)
    as (mem' & o & act & E & Htake & Hp & Hack); [eapply route_bar; eauto|done|].
  apply dev_acked in Hack as (Hbl & -> & Hout). simpl in Hp, Hbl, Hout.
  replace (base1 + off - base1) with off in E by lia.
  assert (Z.to_nat len <= length mem')%nat as Hlen'.
  { apply (f_equal length) in Htake. rewrite !length_take in Htake. lia. }
  destruct Hd as [H1 H2 H3 H4 H5 Hwcb0 H0 H6 H7].
  simpl call_write_cb in E. erewrite bind_Ret in E by reflexivity. cbn [w_app with_os upd with_clients with_read_fds with_server] in E.
  rewrite write_bar_bytes, Z.min_l, Htake in E by (unfold bar_access; lia).
  rewrite (cn_active _ _ _ H4) in E.
  eexists _, (after_packet _ true cl). split; [eapply Hrun; [exact E|exact H1|apply lookup_upd|done]|].
  split_and!; [|done|exact Hp|exact Hout]. constructor; try done.
  - apply lookup_upd.
  - by apply connection_after.
  - intros i off' Hi' Hoff. by eapply bar_at_upd, H5.
  - simpl. by rewrite length_wr_bytes.
  - simpl. congruence.
Qed.

(** The completion of a read: of [len] bytes [bs] for [tag]. *)
Definition completion (s : Z) (tag : nat) (bs : list Z) (len : Z) (p : list Z) : Prop :=
  exists pkt, p = transmitted s (completion_tport pkt bs 0) /\
    tlp_data_length_bytes pkt = len /\ pkt.[r_tag] = Z.of_nat tag /\ Z.of_nat (length bs) = len.

Lemma device_reads n c cl d s tag i off len rest :
  device_at n c cl d -> 1 <= n ->
  d_in (w_os d) = transmitted s (read_request (Z.of_nat tag) (base i + off) len PCIE_TLP_MRD64) ++ rest ->
  (tag < 32)%nat -> (i < 2)%nat -> 0 <= off -> 0 < len -> off + len <= mem_size i ->
  exists d' cl' p, warppipe_server_loop d = Ret tt d' /\ device_at (n - 1) c cl' d' /\
    w_app d' = w_app d /\ d_in (w_os d') = rest /\ d_out (w_os d') = d_out (w_os d) ++ ack (s mod 4096) ++ p /\
    completion (seqno cl + 1) tag (take (Z.to_nat len) (drop (Z.to_nat off) (contents i (bar1_memory (w_app d))))) len p.
Proof.
  intros Hd Hn Hi Htag Hi2 Ho Hl Hmax.
  assert (0 < mem_size i <= 2048) as Hms by (destruct i; simpl; lia).
  assert (bar_at cl i (base i + off)) as Hat by (apply Hd; lia).
  destruct (bar_at_range _ _ _ Hat) as [Hb Hb']. destruct Hat as [Hin Hrcb].
  pose proof (Z.mod_pos_bound (base i + off) 4 ltac:(lia)) as Hmod.
  assert (is_request PCIE_TLP_MRD64 (base i + off)) as Hreq by (by left).
  pose proof (read_request_ok (Z.of_nat tag) (base i + off) len PCIE_TLP_MRD64 ltac:(lia) Hl ltac:(lia) Hreq eq_refl) as Hok.
  pose proof (transmitted_length s _ Hok) as Htl. pose proof (tport_total _ Hok) as Htt.
  unfold packet_length, sizeof_dllp in Htl.
  destruct (device_handles n c cl d _ rest Hd Hi) as (fds & Hrcv & Hrun); [lia|].
  destruct (read_packet_answered (app := mock) tag (base i + off) len PCIE_TLP_MRD64 s c cl _
    (mem_read_cb i) (base i + off - base i) rest dev_malloc Htag ltac:(lia) Hl ltac:(lia) eq_refl Hrcv)
    as (o & act & pkt & Hp & Hack & Hlen & Hpt & Hans); [eapply route_bar; eauto|by destruct i|].
  apply dev_acked in Hack as (Hbl & -> & Hout). simpl in Hp, Hbl, Hout.
  replace (base i + off - base i) with off in Hans by lia.
  destruct Hd as [H1 H2 H3 H4 H5 Hwcb0 H0 H6 H7]. rewrite (cn_active _ _ _ H4) in Hans.
  set (bs := take (Z.to_nat len) (drop (Z.to_nat off) (contents i (bar1_memory (w_app d))))).
  pose proof (contents_length i _ H6) as Hcl.
  assert (length bs = Z.to_nat len) as Hbs by (unfold bs; rewrite length_take, length_drop; lia).
  set (p := transmitted s _) in Hans.
  set (d2 := with_os o (upd c (after_packet p true cl) (with_read_fds fds d))) in Hans.
  destruct (Hans 0 bs d2 (after_packet p true cl)) as [(o2 & E & Hs & Hp2 & Hio)|(? & ? & _ & _ & Hf%dev_send_ok)];
    [|lia|apply lookup_upd|exact (connection_seqno 5 n cl H4 Hn)| |done].
  { assert (call_read_cb (mem_read_cb i) off len (private_data cl) d2 =
      read_result (read_bar (mem_size i) (contents i (bar1_memory (w_app d))) off len) d2) as ->.
    { destruct i as [|[|]]; [|done|lia]. simpl. unfold bind, get_app, d2. simpl. by rewrite H0. }
    rewrite read_bar_bytes by (unfold bar_access; lia). by rewrite Z.min_l by lia. }
  apply dev_io_steps in Hio. simpl in Hs, Hp2, Hio.
  eexists _, (set_seqno (seqno cl + 1) (after_packet p true cl)), _.
  split; [eapply Hrun; [exact E|exact H1|apply lookup_upd|done]|]. split_and!.
  - constructor; try done.
    + apply lookup_upd.
    + by apply (connection_sent 5 n (after_packet p true cl)), connection_after.
    + intros i' off' Hi' Hoff. by eapply bar_at_upd, H5.
    + simpl. congruence.
  - done.
  - simpl. congruence.
  - simpl. rewrite Hs, Hout. by rewrite <-app_assoc.
  - exists pkt. split_and!; [done..|lia].
Qed.

(** One packet of those in flight is handled. *)
Lemma device_step n c cl d bs k m rest :
  device_at n c cl d -> d_in (w_os d) = bs ++ rest -> d_out (w_os d) = [] ->
  in_flight bs (S k) (bar1_memory (w_app d)) m ->
  exists d' cl' bs', warppipe_server_loop d = Ret tt d' /\ device_at n c cl' d' /\
    d_in (w_os d') = bs' ++ rest /\ in_flight bs' k (bar1_memory (w_app d')) m /\
    (d_out (w_os d') = [] \/ exists s, d_out (w_os d') = ack s).
Proof.
  intros Hd Hi Ho Hfly. inversion Hfly as [|s bs' k' m1 m2 Hf|s mem off data len bs' k' m1 m2 Hm H1 H2 H3 H4 Hf]; subst.
  - rewrite <-app_assoc in Hi. destruct (device_gets_ack n c cl d s _ Hd Hi) as (d' & cl' & E & Hd' & Ha & Hi' & Ho').
    exists d', cl', bs'. split_and!; [done..|by rewrite Ha|left; congruence].
  - rewrite <-app_assoc in Hi.
    destruct (device_writes n c cl d s mem off data len _ Hd Hi) as (d' & cl' & E & Hd' & Ha & Hi' & Ho'); try done.
    exists d', cl', bs'. split_and!; [done..|by rewrite Ha|right]. exists (s mod 4096). by rewrite Ho', Ho.
Qed.

Lemma device_at_os n c cl d o : d_backlog o = 0%nat -> device_at n c cl d -> device_at n c cl (with_os o d).
Proof. by intros ? []. Qed.

(** ** The process that connects *)

Context {app : Type} `{!Callbacks pair_os app} `{!ServerCallbacks pair_os app}.

Record host_at (n : Z) (c : ptr) (cl : warppipe_client) (w : world pair_os app) : Prop := {
  ho_clients : s_clients (w_server w) = [c];
  ho_fd : s_fd (w_server w) = 4;
  ho_listen : s_listen (w_server w) = false;
  ho_quit : s_quit (w_server w) = false;
  ho_client : w_clients w !! c = Some cl;
  ho_conn : connection 4 n cl;
  ho_bar : forall i, (i < 2)%nat -> bar cl !! i = Some (base i);
  ho_cpl : length (completion_cb cl) = 32%nat;
  ho_tag : 0 <= read_tag cl < 32;
}.

(** An iteration of the sample's loop, once the device ran. *)
Lemma host_loop n c cl w d :
  host_at n c cl w -> p_device (device_runs (w_os w)) = Some d ->
  exists fds, let w1 := with_read_fds fds (with_os (device_runs (w_os w)) w) in
    forall w' cl',
      (if bool_decide (p_in (device_runs (w_os w)) = []) then ret tt else warppipe_client_read c) w1 = Ret tt w' ->
      s_clients (w_server w') = [c] -> w_clients w' !! c = Some cl' -> active cl' = true ->
      warppipe_server_loop w = Ret tt w'.
Proof.
  intros [Hs Hf Hli Hq Hc [Hfd _ _ _] _ _ _] Hd.
  rewrite (server_loop_one c cl w) by (rewrite ?Hfd, ?Hf; unfold FD_SETSIZE; done || lia).
  simpl. set (o1 := device_runs (w_os w)) in *. rewrite Hd, Hfd, Hf. set (fds := match p_in o1 with [] => _ | _ => _ end).
  exists fds. intros w' cl' Hr Hs' Hc' Ha.
  apply (serve_one c cl (with_read_fds fds (with_os o1 w)) Hs Hc) with (cl' := cl'); simpl; rewrite ?Hfd, ?Hf; try done;
    try (unfold FD_SETSIZE; lia).
  unfold fds. destruct (p_in o1); [done|]. by rewrite bool_decide_eq_true_2 by set_solver.
Qed.

Lemma host_idle n c cl w d :
  host_at n c cl w -> p_device (device_runs (w_os w)) = Some d -> p_in (device_runs (w_os w)) = [] ->
  exists fds, warppipe_server_loop w = Ret tt (with_read_fds fds (with_os (device_runs (w_os w)) w)).
Proof.
  intros Hh Hd Hi. destruct (host_loop n c cl w d Hh Hd) as (fds & H). exists fds. rewrite Hi in H.
  destruct Hh. apply (H _ cl); try done. by apply cn_active with 4 n.
Qed.

Lemma host_handles n c cl w d p rest :
  host_at n c cl w -> p_device (device_runs (w_os w)) = Some d ->
  p_in (device_runs (w_os w)) = p ++ rest -> (7 <= length p)%nat ->
  exists fds, let w1 := with_read_fds fds (with_os (device_runs (w_os w)) w) in
    receiving c cl w1 p rest /\
    forall w' cl', warppipe_client_read c w1 = Ret tt w' ->
      s_clients (w_server w') = [c] -> w_clients w' !! c = Some cl' -> active cl' = true ->
      warppipe_server_loop w = Ret tt w'.
Proof.
  intros Hh Hd Hi Hl. destruct (host_loop n c cl w d Hh Hd) as (fds & H). exists fds. split.
  - destruct Hh as [_ _ _ _ Hc [Hfd _ Hbuf _] _ _ _]. constructor; try done. by eapply pair_header.
  - intros w' cl' Hr. apply H. rewrite Hi. destruct p; [simpl in Hl; lia|done].
Qed.

Lemma host_at_io n c cl w fds o : host_at n c cl w -> host_at n c cl (with_read_fds fds (with_os o w)).
Proof. by intros []. Qed.

(** What matters of the sample's client to a completion that is awaited. *)
Definition same_requests (cl cl' : warppipe_client) : Prop :=
  private_data cl' = private_data cl /\ completion_cb cl' = completion_cb cl.

Lemma host_gets_ack n c cl w d s rest :
  host_at n c cl w -> p_device (device_runs (w_os w)) = Some d -> p_in (device_runs (w_os w)) = ack s ++ rest ->
  exists w' cl', warppipe_server_loop w = Ret tt w' /\ host_at n c cl' w' /\ same_requests cl cl' /\
    w_app w' = w_app w /\ p_in (w_os w') = rest /\ p_out (w_os w') = p_out (device_runs (w_os w)) /\
    p_device (w_os w') = Some d.
Proof.
  intros Hh Hd Hi. destruct (host_handles n c cl w d _ rest Hh Hd Hi) as (fds & Hrcv & Hrun); [done|].
  destruct (client_read_ack c cl _ s rest Hrcv) as (o & E & Hp & Hs & Hio).
  apply pair_io_steps in Hio. pose proof (Hs 0) as Hs0. simpl in Hp, Hs0, Hio.
  destruct Hh as [H1 H2 H3 H4 H5 H6 H7 H8 H9].
  eexists _, (filled 0 (ack s) cl). split; [eapply Hrun; [exact E|exact H1|apply lookup_upd|apply H6]|].
  split_and!; try done.
  - constructor; try done; [apply lookup_upd|by apply connection_filled].
  - simpl. congruence.
Qed.

(** ** The system *)

(** [pin] is on its way to the sample; on its way to the device are [k] packets
    that turn its memory into [m], then [rest].  The sample can send [n] more
    packets, the device [nd]. *)
Record system (n nd : Z) (c : ptr) (cl : warppipe_client) (pin rest : list Z) (k : nat) (m : list Z)
    (w : world pair_os app) : Prop := {
  sy_host : host_at n c cl w;
  sy_in : p_in (w_os w) = pin;
  sy_device : exists d dc dcl bs,
    p_device (w_os w) = Some d /\ device_at nd dc dcl d /\ d_out (w_os d) = [] /\
    d_in (w_os d) ++ p_out (w_os w) = bs ++ rest /\ in_flight bs k (bar1_memory (w_app d)) m;
}.

(** The device's side of a step. *)
Lemma device_runs_eq (o : pair_os) d d' :
  p_device o = Some d -> warppipe_server_loop (feed (p_out o) d) = Ret tt d' ->
  device_runs o = mk_pair (p_in o ++ d_out (w_os d')) [] (Some (drained d')).
Proof. intros Hd E. unfold device_runs. by rewrite Hd, E. Qed.

Lemma step_in_flight n nd c cl rest k m w :
  system n nd c cl [] rest (S k) m w ->
  exists w' cl', warppipe_server_loop w = Ret tt w' /\ system n nd c cl' [] rest k m w' /\
    same_requests cl cl' /\ w_app w' = w_app w.
Proof.
  intros [Hh Hin (d & dc & dcl & bs & Hd & Hdev & Hout & Hi & Hfly)].
  destruct (device_step nd dc dcl (feed (p_out (w_os w)) d) bs k m rest) as (d' & dcl' & bs' & E & Hdev' & Hi' & Hfly' & Hout');
    try done; [apply device_at_os; [apply Hdev|done]|].
  pose proof (device_runs_eq _ _ _ Hd E) as Er. rewrite Hin in Er. simpl in Er.
  assert (exists d dc dcl bs, Some (drained d') = Some d /\ device_at nd dc dcl d /\ d_out (w_os d) = [] /\
    d_in (w_os d) ++ [] = bs ++ rest /\ in_flight bs k (bar1_memory (w_app d)) m) as Hsys.
  { exists (drained d'), dc, dcl', bs'. split_and!; try done; [|by simpl; rewrite app_nil_r].
    apply device_at_os; [apply Hdev'|done]. }
  destruct Hout' as [Ho|[s Ho]]; rewrite Ho in Er.
  - destruct (host_idle n c cl w (drained d')) as (fds & El); rewrite ?Er; [done..|].
    eexists _, cl. split; [exact El|]. split_and!; try done. rewrite Er.
    constructor; [by apply host_at_io|done|]. done.
  - destruct (host_gets_ack n c cl w (drained d') s []) as (w' & cl' & El & Hh' & Hs' & Ha & Hp & Ho' & Hd');
      rewrite ?Er; [done..|by rewrite app_nil_r|]. rewrite Er in Ho'. simpl in Ho'.
    exists w', cl'. split_and!; try done. constructor; [done..|]. by rewrite Hd', Ho'.
Qed.

(** The request of a read. *)
Definition request (s : Z) (tag i : nat) (off len : Z) : list Z :=
  transmitted s (read_request (Z.of_nat tag) (base i + off) len PCIE_TLP_MRD64).

Lemma step_request n nd c cl s tag i off len m w :
  system n nd c cl [] (request s tag i off len) 0 m w -> 1 <= nd ->
  (tag < 32)%nat -> (i < 2)%nat -> 0 <= off -> 0 < len -> off + len <= mem_size i ->
  exists w' cl' p sd, warppipe_server_loop w = Ret tt w' /\ system n (nd - 1) c cl' p [] 0 m w' /\
    same_requests cl cl' /\ w_app w' = w_app w /\
    completion sd tag (take (Z.to_nat len) (drop (Z.to_nat off) (contents i m))) len p.
Proof.
  intros [Hh Hin (d & dc & dcl & bs & Hd & Hdev & Hout & Hi & Hfly)] Hn Htag Hi2 H1 H2 H3.
  apply in_flight_nil in Hfly as [-> <-]. simpl in Hi.
  destruct (device_reads nd dc dcl (feed (p_out (w_os w)) d) s tag i off len [])
    as (d' & dcl' & p & E & Hdev' & Ha & Hi' & Ho' & Hp); try done;
    [apply device_at_os; [apply Hdev|done]|by simpl; rewrite Hi, app_nil_r|].
  pose proof (device_runs_eq _ _ _ Hd E) as Er. simpl in Ho'. rewrite Hin, Ho', Hout in Er. simpl in Er.
  destruct (host_gets_ack n c cl w (drained d') (s mod 4096) p)
    as (w' & cl' & El & Hh' & Hs' & Ha' & Hp' & Ho'' & Hd'); rewrite ?Er; [done..|]. rewrite Er in Ho''. simpl in Ho''.
  exists w', cl', p, (seqno dcl + 1). split_and!; try done. constructor; [done..|].
  exists (drained d'), dc, dcl', []. rewrite Hd', Ho''. split_and!; try done.
  - apply device_at_os; [apply Hdev'|done].
  - simpl. by rewrite Hi'.
  - simpl. rewrite Ha. constructor.
Qed.

(** The client once its read is complete. *)
Definition released (tag : nat) (p : list Z) (cl : warppipe_client) : warppipe_client :=
  set_completion_cb (<[tag := NULL]> (completion_cb cl)) (after_packet p true cl).

(** The completion callback, given the bytes, changes the application's state
    [a] to one with [Q], and nothing else. *)
Definition completes (cb p : ptr) (bs : list Z) (len : Z) (a : app) (Q : app -> Prop) : Prop :=
  forall mem (w : world pair_os app), take (length bs) mem = bs -> (4096 <= length mem)%nat -> w_app w = a ->
    exists a', Q a' /\
      call_completion_cb cb 0 mem len p w = Ret tt (mk_world _ _ (w_os w) (w_server w) (w_clients w) a' (w_static w)).

Lemma step_completion n nd c cl p s tag cb bs len m w Q :
  system n nd c cl p [] 0 m w -> completion s tag bs len p -> (tag < 32)%nat -> 0 < len <= 2048 ->
  completion_cb cl !! tag = Some cb -> cb <> NULL -> completes cb (private_data cl) bs len (w_app w) Q ->
  exists w', warppipe_server_loop w = Ret tt w' /\ system n nd c (released tag p cl) [] [] 1 m w' /\ Q (w_app w').
Proof.
  intros [Hh Hin (dev & dc & dcl & bs' & Hd & Hdev & Hout & Hi & Hfly)] (pkt & Hp & Hlen & Htag & Hbs) H32 Hl Hcb Hne Hcpl.
  apply in_flight_nil in Hfly as [-> Hm]. simpl in Hi. apply app_nil in Hi as [Hi Hpo].
  destruct (device_idle nd dc dcl (feed (p_out (w_os w)) dev)) as (fds & E);
    [apply device_at_os; [apply Hdev|done]|by simpl; rewrite Hi, Hpo|].
  pose proof (device_runs_eq _ _ _ Hd E) as Er. simpl in Er. rewrite Hin, Hout, app_nil_r in Er.
  set (d1 := drained _) in Er.
  pose proof (data_length_bytes_range pkt) as Hdl.
  assert (Z.of_nat (length bs) <= 4 * tlp_data_length pkt + 8) as Hroom by lia.
  pose proof (completion_ok pkt bs 0 Hroom) as Hok.
  pose proof (transmitted_length s _ Hok) as Htl. pose proof (tport_total _ Hok) as Htt.
  unfold packet_length, sizeof_dllp in Htl.
  destruct (host_handles n c cl w d1 p []) as (fds' & Hrcv & Hrun); rewrite ?Er; [done..|by rewrite app_nil_r|rewrite Hp; lia|].
  rewrite Er in Hrcv, Hrun.
  set (w1 := with_read_fds fds' (with_os _ w)) in *.
  destruct (completion_packet_delivered (app := app) pkt bs 0 len tag s Hlen Htag ltac:(lia) H32 c cl w1 cb [])
    as (mem & o & act & Hpend & Hack & _ & Hc); [by rewrite <-Hp|done|done|]. rewrite <-Hp in Hc.
  destruct Hack as [Hio%pair_io_steps [[-> Hsent]|[_ Hf%pair_send_ok]]]; [|done]. simpl in Hpend, Hio, Hsent.
  pose proof Hh as [A1 A2 A3 A4 A5 A6 A7 A8 A9]. rewrite (cn_active _ _ _ A6) in Hc.
  destruct Hc as (Htake & Hmem & Hc); [done|]. rewrite (Z.mod_small len) in Hc by lia.
  set (w2 := with_os o (upd c (after_packet p true cl) w1)) in Hc.
  destruct (Hcpl mem w2 Htake Hmem eq_refl) as (a' & HQ & Hcall).
  eexists. split.
  - eapply Hrun; [eapply Hc; [exact Hcall|apply lookup_upd|done|exact A8]|exact A1|apply lookup_upd|done].
  - split; [|done]. constructor.
    + constructor; try done; [apply lookup_upd| |by simpl; rewrite length_insert].
      pose proof (connection_after 4 n p cl A6) as []. by constructor.
    + exact Hpend.
    + simpl. exists d1, dc, dcl, (ack (s mod 4096)). rewrite Hio, Hsent. split_and!; try done.
      * apply device_at_os; [apply Hdev|]. by destruct Hdev.
      * simpl. by rewrite Hi, Hpo, app_nil_r.
      * simpl. rewrite Hm, <-(app_nil_r (ack _)). constructor. constructor.
Qed.

(** ** A read under way *)

(** [n] iterations of the loop that leave the application alone. *)
Inductive quiet : nat -> world pair_os app -> world pair_os app -> Prop :=
  | quiet_0 w : quiet 0 w w
  | quiet_S n w w1 w2 :
      s_quit (w_server w) = false -> warppipe_server_loop w = Ret tt w1 -> w_app w1 = w_app w ->
      quiet n w1 w2 -> quiet (S n) w w2.

Lemma quiet_app n w w' : quiet n w w' -> w_app w' = w_app w.
Proof. induction 1; congruence. Qed.

Lemma quiet_r n w w1 w2 :
  quiet n w w1 -> s_quit (w_server w1) = false -> warppipe_server_loop w1 = Ret tt w2 -> w_app w2 = w_app w1 ->
  quiet (S n) w w2.
Proof. induction 1; intros; econstructor; eauto using quiet_0. Qed.

Lemma system_quit n nd c cl pin rest k m w : system n nd c cl pin rest k m w -> s_quit (w_server w) = false.
Proof. by intros [[]]. Qed.

Lemma quiet_in_flight n nd c rest m : forall k cl w,
  system n nd c cl [] rest k m w ->
  exists w' cl', quiet k w w' /\ system n nd c cl' [] rest 0 m w' /\ same_requests cl cl'.
Proof.
  induction k as [|k IH]; intros cl w Hsys; [exists w, cl; split; [constructor|done]|].
  destruct (step_in_flight n nd c cl rest k m w Hsys) as (w1 & cl1 & E & Hsys1 & [Hr1 Hr2] & Ha).
  destruct (IH cl1 w1 Hsys1) as (w2 & cl2 & Hq & Hsys2 & [Hr3 Hr4]).
  exists w2, cl2. split_and!; [|done|split; congruence]. econstructor; eauto using system_quit.
Qed.

(** A read of which everything is in flight completes: after [k + 1] iterations
    the next one runs the callback. *)
Lemma read_completes n nd c cl s tag i off len k m cb w Q :
  system n nd c cl [] (request s tag i off len) k m w -> 1 <= nd ->
  (tag < 32)%nat -> (i < 2)%nat -> 0 <= off -> 0 < len -> off + len <= mem_size i ->
  completion_cb cl !! tag = Some cb -> cb <> NULL ->
  completes cb (private_data cl) (take (Z.to_nat len) (drop (Z.to_nat off) (contents i m))) len (w_app w) Q ->
  exists w1 w2 cl2, quiet (S k) w w1 /\ s_quit (w_server w1) = false /\
    warppipe_server_loop w1 = Ret tt w2 /\ Q (w_app w2) /\ system n (nd - 1) c cl2 [] [] 1 m w2.
Proof.
  intros Hsys Hnd Htag Hi Ho Hl Hmax Hcb Hne Hcpl.
  destruct (quiet_in_flight n nd c _ m k cl w Hsys) as (w1 & cl1 & Hq1 & Hsys1 & [Hr1 Hr2]).
  pose proof (quiet_app _ _ _ Hq1) as Ha1.
  destruct (step_request n nd c cl1 s tag i off len m w1) as (w2 & cl2 & pk & sd & E2 & Hsys2 & [Hr3 Hr4] & Ha2 & Hpk);
    try done.
  assert (mem_size i <= 2048) by (destruct i; simpl; lia).
  destruct (step_completion n (nd - 1) c cl2 pk sd tag cb _ len m w2 Q Hsys2 Hpk)
    as (w3 & E3 & Hsys3 & Ha3); try done; try lia; [congruence| |].
  { rewrite Hr3, Hr1, Ha2, Ha1. exact Hcpl. }
  exists w2, w3, (released tag pk cl2). split_and!; try done; [|by eapply system_quit].
  eapply quiet_r; eauto using system_quit.
Qed.

(** A request of the process: [warppipe_read] puts it behind what is in flight. *)
Lemma read_starts n c cl i off len k m cb w :
  (forall i, (i < 2)%nat -> 0 < base i) ->
  system n n c cl [] [] k m w -> 1 <= n ->
  (i < 2)%nat -> 0 <= off -> 0 < len -> off + len <= mem_size i ->
  exists w' cl' s, warppipe_read c (Z.of_nat i) off len cb w = Ret 0 w' /\ w_app w' = w_app w /\
    system (n - 1) n c cl' [] (request s (Z.to_nat (read_tag cl)) i off len) k m w' /\
    private_data cl' = private_data cl /\
    completion_cb cl' = <[Z.to_nat (read_tag cl) := cb]> (completion_cb cl).
Proof.
  intros Hbase [Hh Hin (d & dc & dcl & bs & Hdv & Hdev & Hout & Hi & Hfly)] Hn Hi2 Ho Hl Hmax.
  pose proof Hh as [A1 A2 A3 A4 A5 A6 A7 A8 A9].
  assert (0 < mem_size i <= 2048) as Hms by (destruct i; simpl; lia).
  destruct (bar_at_range dcl i (base i + off)) as [_ Hb]; [apply Hdev; lia|].
  pose proof (Z.mod_pos_bound (base i + off) 4 ltac:(lia)) as Hmod.
  specialize (Hbase i Hi2).
  rewrite (warppipe_read_imp_eq c cl w i (base i)) by (auto || lia).
  destruct (read_imp_sends c cl w (base i + off) len cb PCIE_TLP_MRD64)
    as [(o & E & Hs & Hp & Hio)|(? & ? & _ & _ & Hf%pair_send_ok)]; try done; try lia;
    [exact (connection_seqno 4 n cl A6 Hn)|by left|].
  apply pair_io_steps in Hio. simpl in Hs, Hp, Hio.
  eexists _, (read_issued cb cl), (seqno cl + 1). split; [exact E|]. split_and!; try done. constructor.
  - constructor; try done; [apply lookup_upd|by destruct (connection_sent 4 n cl A6)|by simpl; rewrite length_insert|].
    simpl. apply (wrap_range 5). lia.
  - simpl. congruence.
  - simpl. exists d, dc, dcl, bs. rewrite Hio, Hs, app_assoc, Hi, app_nil_r. split_and!; try done.
    unfold request. by rewrite Z2Nat.id by lia.
Qed.
End Link.
