(* ===== verification/Remote.v ===== *)
(** * The device's memory, seen from the sample

    The system of [Native] with the two processes connected and the device
    enumerated: what the sample writes to BAR 1 and reads back is what it would
    write to and read from a local memory of 2048 bytes.  Requests in flight
    make the difference between that memory and the device's own: a write
    returns before the device has seen it. *)

From S2P Require Import Prelude Layout Proto Crc World Client Wire Logic Bars ClientSpec Receive EndToEnd Server ServerSpec MemoryMock MockSpec Host Native Link.

(** ** Waiting *)

Lemma wait_loop_quiet p d fuel n (w w' : world pair_os host) :
  quiet n w w' -> w_app w !! p = Some d -> rc_finished d = false ->
  wait_loop (n + fuel) p w = wait_loop fuel p w'.
Proof.
  intros Hq Hp Hf. induction Hq as [w|n w w1 w2 Hs E Ha _ IH]; [done|].
  simpl. unfold get_frame, bind. simpl. unfold host in *. rewrite Hp, Hf. simpl.
  rewrite Hs. simpl. rewrite E. apply IH. by rewrite Ha.
Qed.

(** ** Accesses *)

Section Accesses.
Context (base : nat -> Z) (Hbase : forall i, (i < 2)%nat -> 0 < base i).

(** The memory is [m], up to [k] packets in flight; [n] more accesses can be
    made. *)
Definition linked (n : Z) (c : ptr) (k : nat) (m : list Z) (w : world pair_os host) : Prop :=
  exists cl, system base n n c cl [] [] k m w.

Lemma linked_length n c k m w : linked n c k m w -> length m = 2048%nat.
Proof.
  intros (cl & [_ _ (d & dc & dcl & bs & _ & [] & _ & _ & Hfly)]).
  by rewrite (in_flight_length _ _ _ _ _ Hfly).
Qed.

Lemma linked_write n c k m w off data len :
  linked n c k m w -> 1 <= n ->
  0 <= off -> 0 < len -> off + len <= 2048 -> (Z.to_nat len <= length data)%nat ->
  exists w', warppipe_write c 1 off data len w = Ret 0 w' /\ w_app w' = w_app w /\
    linked (n - 1) c (k + 1) (wr_bytes (Z.to_nat off) (take (Z.to_nat len) data) m) w'.
Proof.
  intros (cl & [Hh Hin (d & dc & dcl & bs & Hdv & Hdev & Hout & Hi & Hfly)]) Hn Ho Hl Hmax Hd.
  destruct (bar_at_range base dcl 1 (base 1%nat + off)) as [_ Hb]; [apply Hdev; simpl; lia|]. simpl in Hb.
  pose proof Hh as [A1 A2 A3 A4 A5 A6 A7 A8 A9]. pose proof (Hbase 1%nat ltac:(lia)) as Hb0.
  pose proof (Z.mod_pos_bound (base 1%nat + off) 4 ltac:(lia)) as Hmod.
  set (mem := replicate (Z.to_nat (write_size (base 1%nat + off) len)) 0xa5).
  assert (length mem = Z.to_nat (write_size (base 1%nat + off) len)) as Hm by (by unfold mem; rewrite length_replicate).
  pose proof (warppipe_write_imp_eq c cl w 1 (base 1%nat) off A5 ltac:(lia) (A7 1%nat ltac:(lia)) Hb0 ltac:(lia) data len) as Eq.
  change (Z.of_nat 1) with 1 in Eq. rewrite Eq. clear Eq.
  destruct (write_imp_sends_mem c cl w (base 1%nat + off) data len PCIE_TLP_MWR64 mem (w_os w))
    as [(o & E & Hs & Hp & Hio)|(? & ? & _ & _ & Hf%pair_send_ok)]; try done; try lia;
    [by apply (connection_seqno 4 n)|by right; left|].
  apply pair_io_steps in Hio. simpl in Hs, Hp.
  eexists. split_and!; [exact E|done|]. exists (set_seqno (seqno cl + 1) cl). constructor.
  - constructor; try done; [apply lookup_upd|by apply connection_sent].
  - simpl. congruence.
  - simpl. eexists d, dc, dcl, _. rewrite Hio, Hs, app_assoc, Hi, !app_nil_r. split_and!; try done.
    + destruct Hdev. constructor; try done. eapply connection_less; [done|lia].
    + eapply in_flight_app; [exact Hfly|]. rewrite <-(app_nil_r (transmitted _ _)).
      constructor; try done. constructor.
Qed.

(** What [read_compl] does to the variables. *)
Lemma read_compl_completes (a : host) p d bs len :
  a !! p = Some d -> rc_buf_size d = len -> Z.of_nat (length bs) = len -> 0 < len < 2 ^ 32 ->
  (Z.to_nat len <= length (rc_buf d))%nat ->
  completes READ_COMPL p bs len a (eq (<[p := mk_rcd (wr_bytes 0 bs (rc_buf d)) len len true]> a)).
Proof.
  intros Hp Hsz Hbs Hl Hbuf mem w Htake _ <-.
  assert (length bs <= length mem)%nat as Hmem.
  { apply (f_equal length) in Htake. rewrite length_take in Htake. lia. }
  simpl. unfold read_compl, get_frame, put_frame, bind. simpl. unfold host in *. rewrite Hp.
  rewrite Hsz, (wrap_small 32) by lia. rewrite Z.ltb_irrefl. cbv iota.
  rewrite (proj2 (Z.ltb_ge _ _)), !(proj2 (Nat.ltb_ge _ _)) by lia. simpl. rewrite Hp.
  replace (Z.to_nat len) with (length bs) by lia. rewrite Htake. by eexists.
Qed.

Lemma linked_read n c k m w (i : nat) off len buf fuel :
  linked n c k m w -> 1 <= n -> (i < 2)%nat ->
  0 <= off -> 0 < len -> off + len <= mem_size i -> (Z.to_nat len <= length buf)%nat -> (k + 2 <= fuel)%nat ->
  exists w', read_data fuel c (Z.of_nat i) off len buf w =
      Ret (len, wr_bytes 0 (take (Z.to_nat len) (drop (Z.to_nat off) (contents i m))) buf) w' /\ w_app w' = w_app w /\
    linked (n - 1) c 1 m w'.
Proof.
  intros Hlk Hn Hi2 Ho Hl Hmax Hbuf Hfuel.
  pose proof (contents_length i m (linked_length _ _ _ _ _ Hlk)) as Hcl.
  assert (mem_size i <= 2048) as Hms by (destruct i; simpl; lia).
  destruct Hlk as (cl & Hsys). pose proof (ho_client _ _ _ _ _ (sy_host _ _ _ _ _ _ _ _ _ _ Hsys)) as Hc.
  unfold read_data, new_frame. unfold bind at 1. set (p := fresh _). set (fr := mk_rcd buf (u32 len) 0 false).
  set (w1 := with_frames _ w). assert (w_clients w1 !! c = Some cl) as Hc1 by done.
  assert (frames (w_app w) !! p = None) as Hfresh.
  { pose proof (is_fresh ({[NULL]} ∪ dom (frames (w_app w)))) as H. fold p in H.
    apply not_elem_of_dom. set_solver. }
  run. set (cl1 := set_private_data p cl). set (w2 := upd c cl1 w1).
  assert (system base n n c cl1 [] [] k m w2) as Hsys2.
  { destruct Hsys as [[? ? ? ? ? [] ? ? ?] ? ?]. constructor; [|done..]. constructor; try done. apply lookup_upd. }
  destruct (read_starts base n c cl1 i off len k m READ_COMPL w2 Hbase Hsys2)
    as (w3 & cl3 & s & E3 & Ha3 & Hsys3 & Hpd3 & Hcb3); try done.
  set (bs := take (Z.to_nat len) (drop (Z.to_nat off) (contents i m))).
  assert (Z.of_nat (length bs) = len) as Hbs by (unfold bs; rewrite length_take, length_drop; lia).
  assert (w_app w3 !! p = Some fr) as Hp3 by (rewrite Ha3; apply lookup_insert_eq).
  assert (u32 len = len) as Hu by (apply (wrap_small 32); lia).
  destruct (read_completes base (n - 1) n c cl3 s (Z.to_nat (read_tag cl1)) i off len k m READ_COMPL w3
    (eq (<[p := mk_rcd (wr_bytes 0 bs buf) len len true]> (w_app w3))))
    as (w4 & w5 & cl5 & Hq & Hs4 & E5 & Ha5 & Hsys5); try done; [..|symmetry in Ha5].
  { destruct Hsys as [[]]. simpl. lia. }
  { rewrite Hcb3. apply list_lookup_insert_eq. destruct Hsys as [[]]. unfold cl1, ptr in *. simpl. lia. }
  { rewrite Hpd3. by apply (read_compl_completes _ p fr); rewrite ?Hu; try done; lia. }
  unfold bind at 1. rewrite E3. change (0 <? 0) with false. cbv iota.
  assert (w_app w5 !! p = Some (mk_rcd (wr_bytes 0 bs buf) len len true)) as Hp5.
  { rewrite Ha5. apply lookup_insert_eq. }
  assert (wait_for_completion fuel p w3 = Ret 0 w5) as Ew.
  { unfold wait_for_completion, bind. replace fuel with (S k + S (fuel - k - 2))%nat by lia.
    rewrite (wait_loop_quiet p fr _ _ _ _ Hq Hp3 eq_refl). simpl wait_loop. unfold bind, get_frame. simpl.
    unfold host in *. rewrite (quiet_app _ _ _ Hq), Hp3. simpl. rewrite Hs4. simpl. rewrite E5.
    assert (forall f, wait_loop f p w5 = Ret tt w5) as ->.
    { intros [|f]; simpl; unfold bind, get_frame; simpl; unfold host in *; by rewrite Hp5. }
    by rewrite (system_quit _ _ _ _ _ _ _ _ _ _ Hsys5). }
  unfold bind. rewrite Ew. change (0 <? 0) with false. cbv iota. unfold get_frame, end_frame. simpl frames.
  unfold host in *. rewrite Hp5. eexists. split_and!.
  - unfold ret. simpl. reflexivity.
  - simpl. rewrite Ha5, Ha3. simpl. rewrite insert_insert_eq. by apply delete_insert_id.
  - exists cl5. destruct Hsys5 as [[] ? ?]. constructor; [by constructor|done..].
Qed.
End Accesses.

(** ** Sequences of accesses *)

(** Writes to BAR 1, reads of BAR [i]. *)
Inductive access := Store (off : Z) (data : list Z) | Load (i : nat) (off len : Z).

(** In the BAR, and not empty. *)
Definition access_ok (a : access) : Prop :=
  match a with
  | Store off data => 0 <= off /\ data <> [] /\ off + Z.of_nat (length data) <= 2048
  | Load i off len => (i < 2)%nat /\ 0 <= off /\ 0 < len /\ off + len <= mem_size i
  end.

(** The specification: memories of the process's own, one of them constant. *)
Definition local_access (a : access) (m : list Z) : (Z * list Z) * list Z :=
  match a with
  | Store off data => ((0, []), wr_bytes (Z.to_nat off) data m)
  | Load i off len => ((len, take (Z.to_nat len) (drop (Z.to_nat off) (contents i m))), m)
  end.

Fixpoint local_accesses (l : list access) (m : list Z) : list (Z * list Z) * list Z :=
  match l with
  | [] => ([], m)
  | a :: l =>
      let '(r, m) := local_access a m in
      let '(rs, m) := local_accesses l m in (r :: rs, m)
  end.

(** The implementation: the BARs of the device. *)
Definition remote_access (fuel : nat) (c : ptr) (a : access) : M (world pair_os host) (Z * list Z) :=
  match a with
  | Store off data => let! r := warppipe_write c 1 off data (Z.of_nat (length data)) in ret (r, [])
  | Load i off len => read_data fuel c (Z.of_nat i) off len (replicate (Z.to_nat len) 0)
  end.

Fixpoint remote_accesses (fuel : nat) (c : ptr) (l : list access) : M (world pair_os host) (list (Z * list Z)) :=
  match l with
  | [] => ret []
  | a :: l =>
      let! r := remote_access fuel c a in
      let! rs := remote_accesses fuel c l in ret (r :: rs)
  end.

Lemma linked_access base n c k m w a fuel :
  (forall i, (i < 2)%nat -> 0 < base i) -> linked base n c k m w -> 1 <= n -> access_ok a -> (k + 2 <= fuel)%nat ->
  exists w' k', remote_access fuel c a w = Ret (local_access a m).1 w' /\
    linked base (n - 1) c k' (local_access a m).2 w' /\ (k' <= k + 1)%nat.
Proof.
  intros Hb Hl Hn Ha Hf. pose proof (linked_length _ _ _ _ _ _ Hl) as Hm.
  destruct a as [off data|i off len]; simpl in *.
  - destruct Ha as (Ho & Hd & Hmax).
    assert (0 < length data)%nat as H0 by (destruct data; [done|simpl; lia]).
    destruct (linked_write base Hb n c k m w off data (Z.of_nat (length data))) as (w' & E & _ & Hl');
      try done; [lia..|].
    rewrite Nat2Z.id, firstn_all in Hl'. exists w', (k + 1)%nat. split_and!; [|done..].
    unfold bind. by rewrite E.
  - destruct Ha as (Hi & Ho & Hlen & Hmax).
    destruct (linked_read base Hb n c k m w i off len (replicate (Z.to_nat len) 0) fuel) as (w' & E & _ & Hl');
      try done; [by rewrite length_replicate|].
    pose proof (contents_length i m Hm).
    exists w', 1%nat. split_and!; [|done|lia]. rewrite E.
    rewrite wr_bytes_split; rewrite ?length_replicate, ?length_take, ?length_drop; [|lia].
    rewrite (drop_ge (replicate _ _)), app_nil_r; [done|]. rewrite length_replicate, ?length_take, ?length_drop. lia.
Qed.

Lemma linked_accesses base c fuel l : forall n k m w,
  (forall i, (i < 2)%nat -> 0 < base i) -> linked base n c k m w -> Z.of_nat (length l) <= n -> Forall access_ok l ->
  (k + length l + 2 <= fuel)%nat ->
  exists w' k', remote_accesses fuel c l w = Ret (local_accesses l m).1 w' /\
    linked base (n - Z.of_nat (length l)) c k' (local_accesses l m).2 w'.
Proof.
  induction l as [|a l IH]; intros n k m w Hb Hl Hn Ha Hf.
  { exists w, k. split; [done|]. simpl. by rewrite Z.sub_0_r. }
  apply Forall_cons_1 in Ha as [Ha Has]. simpl length in Hn, Hf.
  destruct (linked_access base n c k m w a fuel) as (w1 & k1 & E1 & Hl1 & Hk1); try done; [lia..|].
  destruct (IH (n - 1) k1 (local_access a m).2 w1) as (w2 & k2 & E2 & Hl2); try done; [lia..|].
  exists w2, k2. simpl. destruct (local_access a m) as [r m1]. simpl in *.
  destruct (local_accesses l m1) as [rs m2]. simpl in *. split.
  - unfold bind. by rewrite E1, E2.
  - by replace (n - Z.of_nat (S (length l))) with (n - 1 - Z.of_nat (length l)) by lia.
Qed.

(** ** From power-on *)

(** The sample up to and including the enumeration. *)
Definition bring_up (fuel : nat) (junk : list Z) : M (world pair_os host) ptr :=
  warppipe_server_create ;;
  let! client := first_client in
  let! r := enumerate fuel junk client in
  assert_ (r =? 0) ;;
  ret client.

(** Where [enumerate] maps the BARs. *)
Definition BASES (i : nat) : Z := match i with O => 0x100000 | _ => 0x140000 end.
Definition PACKETS : Z := INT_MAX - 100.

(** A decidable description of the system that has been brought up. *)
Definition connection_b (f n : Z) (cl : warppipe_client) : bool :=
  (fd cl =? f) && active cl && (length (buf cl) =? 4117)%nat && (0 <=? seqno cl) && (seqno cl + n <=? INT_MAX).

Definition device_b (d : world dev_os mock) (sent : list Z) : bool :=
  match s_clients (w_server d) with
  | [dc] =>
      match w_clients d !! dc with
      | Some cl =>
          (s_fd (w_server d) =? 4) && connection_b 5 PACKETS cl &&
          bool_decide (bar cl = [0x100000; 0x140000; 0; 0; 0; 0]) &&
          bool_decide (bar_size cl = [128; 2048; 0; 0; 0; 0]) &&
          bool_decide (take 2 (bar_read_cb cl) = [read_bar_cb_0; read_bar_cb_1]) &&
          bool_decide (take 2 (bar_write_cb cl) = [NULL; write_bar_cb_1]) &&
          bool_decide (bar0_memory (w_app d) = bar0_memory mock_init) &&
          bool_decide (bar1_memory (w_app d) = replicate 2048 0) && (d_backlog (w_os d) =? 0)%nat &&
          bool_decide (d_in (w_os d) = []) && bool_decide (d_out (w_os d) = []) &&
          bool_decide (sent = ack (seqno cl mod 4096))
      | None => false
      end
  | _ => false
  end.

Definition up_b {app} (c : ptr) (w : world pair_os app) : bool :=
  match w_clients w !! c, p_device (w_os w) with
  | Some cl, Some d =>
      bool_decide (s_clients (w_server w) = [c]) && (s_fd (w_server w) =? 4) &&
      negb (s_listen (w_server w)) && negb (s_quit (w_server w)) &&
      connection_b 4 PACKETS cl && bool_decide (take 2 (bar cl) = [0x100000; 0x140000]) &&
      (length (completion_cb cl) =? 32)%nat && (0 <=? read_tag cl) && (read_tag cl <? 32) &&
      bool_decide (p_in (w_os w) = []) && device_b d (p_out (w_os w))
  | _, _ => false
  end.

Lemma connection_b_sound f n cl : connection_b f n cl = true -> connection f n cl.
Proof.
  unfold connection_b. rewrite !andb_true_iff, Nat.eqb_eq, Z.eqb_eq, !Z.leb_le.
  intros ((((? & ?) & ?) & ?) & ?). by constructor.
Qed.

(** The BARs as the enumeration leaves them. *)
Lemma enumerated_bars cl i off :
  bar cl = [0x100000; 0x140000; 0; 0; 0; 0] -> bar_size cl = [128; 2048; 0; 0; 0; 0] ->
  take 2 (bar_read_cb cl) = [read_bar_cb_0; read_bar_cb_1] ->
  (i < 2)%nat -> 0 <= off < mem_size i -> bar_at BASES cl i (BASES i + off).
Proof.
  intros Hb Hs Hr Hi Ho. constructor.
  - constructor; try (by rewrite ?Hb, ?Hs; destruct i as [|[|]]; [..|lia]).
    + split_and!; [by rewrite Hb|by rewrite Hs|]. rewrite Hb, Hs. intros j b s Hj Hj'.
      do 6 (destruct j as [|j]; [simpl in Hj, Hj'; simplify_eq;
        first [by left | right; exists 7; repeat split; done || lia | right; exists 11; repeat split; done || lia]|]).
      done.
    + destruct i as [|[|]]; cbn [BASES mem_bits mem_size] in *; lia.
    + rewrite Hb, Hs. intros j b' s' Hj Hbj Hsj. destruct i as [|[|]]; [lia| |lia]. destruct j; [|lia].
      simpl in Hbj, Hsj, Ho. simplify_eq. unfold bar_covers, BASES.
      pose proof (Z.mod_pos_bound (1310720 + off) 4 ltac:(lia)).
      change (128 =? 0) with false. cbv iota. rewrite (Z.mod_small _ (2 ^ 32)) by lia.
      apply andb_false_iff. right. apply Z.ltb_ge. lia.
  - rewrite <-(lookup_take_lt _ 2) by lia. rewrite Hr. by destruct i as [|[|]]; [..|lia].
Qed.

Lemma bases_pos i : (i < 2)%nat -> 0 < BASES i.
Proof. destruct i; simpl; lia. Qed.

Lemma up_b_sound {app} c (w : world pair_os app) :
  up_b c w = true -> exists cl, system BASES PACKETS PACKETS c cl [] [] 1 (replicate 2048 0) w.
Proof.
  unfold up_b. destruct (w_clients w !! c) as [cl|] eqn:Hc; [|done].
  destruct (p_device (w_os w)) as [d|] eqn:Hd; [|done].
  rewrite !andb_true_iff, !negb_true_iff, Nat.eqb_eq, !bool_decide_eq_true, Z.eqb_eq, Z.leb_le, Z.ltb_lt.
  intros ((((((((((H1 & H2) & H3) & H4) & H5%connection_b_sound) & H6) & H7) & H8) & H9) & H10) & Hdev).
  unfold device_b in Hdev. destruct (s_clients (w_server d)) as [|dc [|]] eqn:Hs; [done| |done].
  destruct (w_clients d !! dc) as [dcl|] eqn:Hdc; [|done].
  rewrite !andb_true_iff, Nat.eqb_eq, !bool_decide_eq_true, Z.eqb_eq in Hdev.
  destruct Hdev as (((((((((((D1 & D2%connection_b_sound) & D3) & D4) & D5) & D6) & D7) & D8) & D9) & D10) & D11) & D12).
  assert (forall {A} (l l2 : list A) i, take 2 l = l2 -> (i < 2)%nat -> l !! i = l2 !! i) as Htake.
  { intros A l l2 i <- Hi. by rewrite lookup_take_lt. }
  exists cl. constructor.
  { constructor; try done. intros i Hi. rewrite (Htake _ _ _ i H6 Hi). by destruct i as [|[|]]; [..|lia]. }
  { done. }
  exists d, dc, dcl, (ack (seqno dcl mod 4096)). rewrite D10, D12, D8, app_nil_r. split_and!; try done.
  - constructor; try done; [..|by rewrite D8].
    + intros i off Hi Hoff. by apply enumerated_bars.
    + by rewrite (Htake _ _ _ 1%nat D6) by lia.
  - rewrite <-(app_nil_r (ack _)). constructor. constructor.
Qed.

Lemma bring_up_linked fuel (junk : list Z) :
  length junk = 4%nat -> (5 <= fuel)%nat ->
  exists c w, bring_up fuel junk native_system = Ret c w /\ linked BASES PACKETS c 1 (replicate 2048 0) w.
Proof.
  intros Hj Hf. do 5 (destruct junk as [|? junk]; try done).
  do 5 (destruct fuel as [|fuel]; [lia|]).
  assert (match bring_up (S (S (S (S (S fuel))))) [z; z0; z1; z2] native_system with
          | Ret c w => up_b c w | _ => false end = true) as H by (vm_compute; reflexivity).
  destruct (bring_up _ _ _) as [c w| | |]; try done. exists c, w. split; [done|]. by apply up_b_sound.
Qed.

(** ** Properties *)

(** C1. The device's BARs refine local memories.  In every state in which the
    processes are connected, the BARs are mapped at [base], and the writes in
    flight would turn the memory of BAR 1 into [m]: any sequence of in-range
    accesses ([warppipe_write], and [read_data], which sends a request, runs the
    server loop until the completion arrives and returns the data) gives exactly
    the results it gives on the constant list of BAR 0 and the list [m], and leads to such a state for
    the memory it leaves.  Every read completes: waiting takes at most one
    iteration per packet in flight and two more. *)
Theorem remote_memory_refines base n c k m w l fuel :
  (forall i, (i < 2)%nat -> 0 < base i) -> linked base n c k m w -> Z.of_nat (length l) <= n -> Forall access_ok l ->
  (k + length l + 2 <= fuel)%nat ->
  exists w' k', remote_accesses fuel c l w = Ret (local_accesses l m).1 w' /\
    linked base (n - Z.of_nat (length l)) c k' (local_accesses l m).2 w'.
Proof. intros. by apply linked_accesses with k. Qed.

(** C6. From power-on: the sample connects to the mock, enumerates it and then
    makes any sequence of in-range accesses; whatever its uninitialised buffer
    holds, every result is that of the same accesses to local memories, BAR 1
    being one of zeroes. *)
Theorem session_refines (l : list access) (junk : list Z) fuel :
  length junk = 4%nat -> Forall access_ok l -> Z.of_nat (length l) <= PACKETS -> (length l + 5 <= fuel)%nat ->
  exists w', (let! c := bring_up fuel junk in remote_accesses fuel c l) native_system =
    Ret (local_accesses l (replicate 2048 0)).1 w'.
Proof.
  intros Hj Hl Hn Hf. destruct (bring_up_linked fuel junk) as (c & w & E & Hw); [done|lia|].
  destruct (linked_accesses BASES c fuel l PACKETS 1 (replicate 2048 0) w) as (w' & k' & E' & _);
    [exact bases_pos|exact Hw|exact Hn|exact Hl|lia|]. exists w'. unfold bind. rewrite E. exact E'.
Qed.

(** The sample's main function succeeds against the mock: whatever its
    uninitialised buffers hold, it connects, enumerates, none of its assertions
    fails, it returns 0; afterwards both sides have the two memory BARs at the
    same addresses with the same sizes, and the device's memory starts with
    the greeting. *)
Lemma native_sample_succeeds (junk buf : list Z) fuel :
  length junk = 4%nat -> length buf = 16%nat -> (5 <= fuel)%nat ->
  exists w' c cl d dc dcl, pcie_native_main fuel junk buf native_system = Ret 0 w' /\
    s_clients (w_server w') = [c] /\ w_clients w' !! c = Some cl /\
    p_device (w_os w') = Some d /\ s_clients (w_server d) = [dc] /\ w_clients d !! dc = Some dcl /\
    bar cl = [0x100000; 0x140000; 0; 0; 0; 0] /\ bar dcl = bar cl /\
    bar_size cl = [128; 2048; 0; 0; 0; 0] /\ bar_size dcl = bar_size cl /\
    bar1_memory (w_app d) = hello ++ replicate 2043 0.
Proof.
  intros Hj Hb Hf. do 5 (destruct junk as [|? junk]; try done). do 17 (destruct buf as [|? buf]; try done).
  do 5 (destruct fuel as [|fuel]; [lia|]).
  set (r := pcie_native_main _ _ _ _).
  assert (match r with
    | Ret 0 w' =>
        match s_clients (w_server w'), p_device (w_os w') with
        | [c], Some d =>
            match s_clients (w_server d) with
            | [dc] =>
                match w_clients w' !! c, w_clients d !! dc with
                | Some cl, Some dcl =>
                    bool_decide (bar cl = [0x100000; 0x140000; 0; 0; 0; 0]) && bool_decide (bar dcl = bar cl) &&
                    bool_decide (bar_size cl = [128; 2048; 0; 0; 0; 0]) && bool_decide (bar_size dcl = bar_size cl) &&
                    bool_decide (bar1_memory (w_app d) = hello ++ replicate 2043 0)
                | _, _ => false
                end
            | _ => false
            end
        | _, _ => false
        end
    | _ => false
    end = true) as H by (vm_compute; reflexivity).
  destruct r as [[| |] w'| | |]; try done. destruct (s_clients (w_server w')) as [|c [|]] eqn:H1; try done.
  destruct (p_device (w_os w')) as [d|] eqn:H2; [|done].
  destruct (s_clients (w_server d)) as [|dc [|]] eqn:H3; try done.
  destruct (w_clients w' !! c) as [cl|] eqn:H4; [|done]. destruct (w_clients d !! dc) as [dcl|] eqn:H5; [|done].
  rewrite !andb_true_iff, !bool_decide_eq_true in H. exists w', c, cl, d, dc, dcl. tauto.
Qed.

(** ** The properties on a concrete system *)

Definition example_accesses : list access :=
  [Store 0 [1; 2; 3]; Load 1 1 4; Store 2046 [7; 8]; Load 0 126 2; Load 1 0 4; Load 1 2044 4].

Lemma example_accesses_ok : Forall access_ok example_accesses.
Proof. repeat (apply Forall_cons_2; [split_and!; (done || simpl; lia)|]). apply Forall_nil_2. Qed.

Lemma remote_memory_refines_witness :
  exists c w w' k',
    bring_up 20 [1; 2; 3; 4] native_system = Ret c w /\
    remote_accesses 20 c example_accesses w =
      Ret [(0, []); (4, [2; 3; 0; 0]); (0, []); (2, [0x8e; 0x8f]); (4, [1; 2; 3; 0]); (4, [0; 0; 7; 8])] w' /\
    linked BASES (PACKETS - 6) c k' (local_accesses example_accesses (replicate 2048 0)).2 w'.
Proof.
  destruct (bring_up_linked 20 [1; 2; 3; 4]) as (c & w & E & Hw); [done|lia|].
  destruct (remote_memory_refines BASES PACKETS c 1 (replicate 2048 0) w example_accesses 20)
    as (w' & k' & E' & Hl); [exact bases_pos|exact Hw|done|exact example_accesses_ok|simpl; lia|].
  exists c, w, w', k'. split_and!; [done| |exact Hl]. rewrite E'. reflexivity.
Defined.

Lemma session_refines_witness :
  exists w', (let! c := bring_up 11 [0xa5; 0xa5; 0xa5; 0xa5] in remote_accesses 11 c example_accesses) native_system =
    Ret [(0, []); (4, [2; 3; 0; 0]); (0, []); (2, [0x8e; 0x8f]); (4, [1; 2; 3; 0]); (4, [0; 0; 7; 8])] w'.
Proof.
  destruct (session_refines example_accesses [0xa5; 0xa5; 0xa5; 0xa5] 11) as (w' & E);
    [done|exact example_accesses_ok|done|simpl; lia|].
  exists w'. rewrite E. reflexivity.
Defined.

Example native_sample_succeeds_run :
  exists w', pcie_native_main 5 [1; 2; 3; 4] (replicate 16 0xff) native_system = Ret 0 w'.
Proof.
  destruct (native_sample_succeeds [1; 2; 3; 4] (replicate 16 0xff) 5) as (w' & H); [done|done|lia|].
  exists w'. by destruct H as (? & ? & ? & ? & ? & H & _).
Qed.
