(* ===== verification/Frame.v ===== *)
(** * What the library leaves alone

    Every function of the library changes the application's state only through
    the application's callbacks: an invariant of that state that the callbacks
    keep is kept by all of them, whatever the operating system does. *)

From S2P Require Import Prelude Layout Proto Crc World Client Wire Logic Server Host.

Section Frame.
Context {os app : Type} `{!SocketIO os} `{!Callbacks os app} `{!ServerIO os} `{!ServerCallbacks os app}.
#[local] Abbreviation W := (world os app).
Context (I : app -> Prop).

(** If [m] returns, it kept [I]. *)
Definition app_keeps {A} (m : M W A) : Prop :=
  forall w a w', I (w_app w) -> m w = Ret a w' -> I (w_app w').

Lemma ak_ret {A} (a : A) : app_keeps (ret a).
Proof. intros w a' w' Hw E. by inversion E; subst. Qed.
Lemma ak_undefined {A} : app_keeps (A := A) undefined.
Proof. done. Qed.
Lemma ak_abort {A} : app_keeps (A := A) abort.
Proof. done. Qed.
Lemma ak_no_fuel {A} : app_keeps (A := A) no_fuel.
Proof. done. Qed.
Lemma ak_bind {A B} (m : M W A) (k : A -> M W B) :
  app_keeps m -> (forall a, app_keeps (k a)) -> app_keeps (bind m k).
Proof. intros Hm Hk w b w' Hw E. unfold bind in E. destruct (m w) eqn:Em; simplify_eq. eapply Hk; [|exact E]. by eapply Hm. Qed.
Lemma ak_load c : app_keeps (load c).
Proof. intros w a w' Hw E. unfold load in E. by case_match; simplify_eq. Qed.
Lemma ak_store c cl : app_keeps (store c cl).
Proof. intros w a w' Hw E. unfold store in E. by case_match; simplify_eq. Qed.
Lemma ak_get_server : app_keeps get_server.
Proof. intros w a w' Hw E. by inversion E; subst. Qed.
Lemma ak_put_server s : app_keeps (put_server s).
Proof. intros w a w' Hw E. by inversion E; subst. Qed.
Lemma ak_get_statics : app_keeps get_statics.
Proof. intros w a w' Hw E. by inversion E; subst. Qed.
Lemma ak_put_statics st : app_keeps (put_statics st).
Proof. intros w a w' Hw E. by inversion E; subst. Qed.
Lemma ak_os_call {A} (f : os -> A * os) : app_keeps (os_call f).
Proof. intros w a w' Hw E. unfold os_call in E. destruct (f (w_os w)). by simplify_eq. Qed.
Lemma ak_free_client c : app_keeps (free_client c).
Proof. intros w a w' Hw E. by inversion E; subst. Qed.
Lemma ak_new_client : app_keeps new_client.
Proof. intros w a w' Hw E. unfold new_client in E. destruct (sys_new_client _ _) as [[[]|] ?]; by simplify_eq. Qed.
End Frame.

Create HintDb frame.
#[export] Hint Resolve ak_ret ak_undefined ak_abort ak_no_fuel ak_load ak_store ak_get_server ak_put_server ak_get_statics ak_put_statics
  ak_os_call ak_free_client ak_new_client : frame.

(** Follows the program down to what [frame] knows. *)
Ltac app_keeps :=
  repeat first
    [ solve [eauto with frame]
    | apply ak_bind; [|intros]
    | match goal with |- app_keeps _ (match ?x with _ => _ end) => destruct x end ].

(** What the application promises. *)
Class CallbacksKeepApp (os app : Type) `{Callbacks os app, ServerCallbacks os app} (I : app -> Prop) : Prop := {
  ak_read_cb : forall cb addr len p, app_keeps I (call_read_cb cb addr len p);
  ak_write_cb : forall cb addr data len p, app_keeps I (call_write_cb cb addr data len p);
  ak_completion_cb : forall cb st data len p, app_keeps I (call_completion_cb cb st data len p);
  ak_accept_cb : forall cb c p, app_keeps I (call_accept_cb cb c p);
}.
#[export] Hint Resolve ak_read_cb ak_write_cb ak_completion_cb ak_accept_cb : frame.

Section Library.
Context {os app : Type} `{!SocketIO os} `{!Callbacks os app} `{!ServerIO os} `{!ServerCallbacks os app}.
Context (I : app -> Prop) `{!CallbacksKeepApp os app I}.
#[local] Abbreviation keeps := (app_keeps (os := os) I).

(** ** Connections *)

Lemma ak_modify c f : keeps (modify c f).
Proof. unfold modify. app_keeps. Qed.
#[local] Hint Resolve ak_modify : frame.
Lemma ak_send_packet c n t : keeps (send_packet c n t).
Proof. unfold send_packet. app_keeps. Qed.
#[local] Hint Resolve ak_send_packet : frame.
Lemma ak_send_transport c t : keeps (client_send_pcie_transport c t).
Proof. unfold client_send_pcie_transport. app_keeps. Qed.
#[local] Hint Resolve ak_send_transport : frame.
Lemma ak_handle_tlp c pkt : keeps (handle_tlp c pkt).
Proof.
  unfold handle_tlp, handle_memory_read_request, handle_memory_write_request, handle_completion. app_keeps.
Qed.
#[local] Hint Resolve ak_handle_tlp : frame.
Lemma ak_recv_loop fuel c : forall len total, keeps (recv_loop fuel c len total).
Proof. induction fuel; intros; simpl; unfold recv_store; app_keeps. Qed.
#[local] Hint Resolve ak_recv_loop : frame.
Lemma ak_client_read c : keeps (warppipe_client_read c).
Proof. unfold warppipe_client_read, receive_tlp, warppipe_ack, recv_store. cbv zeta. app_keeps. Qed.
#[local] Hint Resolve ak_client_read : frame.
Lemma ak_read_imp c addr len cb t : keeps (warppipe_read_imp c addr len cb t).
Proof. unfold warppipe_read_imp. app_keeps. Qed.
#[local] Hint Resolve ak_read_imp : frame.
Lemma ak_write_imp c addr data len t : keeps (warppipe_write_imp c addr data len t).
Proof. unfold warppipe_write_imp. app_keeps. Qed.
#[local] Hint Resolve ak_write_imp : frame.
Lemma ak_read c i addr len cb : keeps (warppipe_read c i addr len cb).
Proof. unfold warppipe_read. app_keeps. Qed.
Lemma ak_register_bar c b s i rcb wcb : keeps (warppipe_register_bar c b s i rcb wcb).
Proof. unfold warppipe_register_bar. app_keeps. Qed.

(** ** The server *)

Lemma ak_disconnect_from cond l : keeps (disconnect_from cond l).
Proof. induction l; simpl; unfold modify_server; app_keeps. Qed.
#[local] Hint Resolve ak_disconnect_from : frame.
Lemma ak_server_read_from fuel : forall node, keeps (server_read_from fuel node).
Proof. induction fuel; intros [i|]; simpl; unfold fd_isset; app_keeps. Qed.
#[local] Hint Resolve ak_server_read_from : frame.
Lemma ak_server_accept : keeps server_accept.
Proof. unfold server_accept, accept_fd, warppipe_client_create, modify_server, track_max_fd. app_keeps. Qed.
#[local] Hint Resolve ak_server_accept : frame.
Lemma ak_try_addresses l : keeps (try_addresses l).
Proof. induction l; simpl; unfold try_address; cbv zeta; app_keeps. Qed.
#[local] Hint Resolve ak_try_addresses : frame.
Lemma ak_server_create : keeps warppipe_server_create.
Proof. unfold warppipe_server_create, modify_server. app_keeps. Qed.
Lemma ak_set_client_fds l : keeps (set_client_fds l).
Proof. induction l; simpl; unfold fd_set, modify_server; app_keeps. Qed.
#[local] Hint Resolve ak_set_client_fds : frame.
Lemma ak_server_loop : keeps warppipe_server_loop.
Proof.
  unfold warppipe_server_loop, modify_server, fd_set, fd_isset, server_read, warppipe_server_disconnect_clients,
    modify_server. app_keeps.
Qed.
#[local] Hint Resolve ak_read ak_register_bar ak_server_loop ak_server_create : frame.

(** ** Waiting, and enumeration *)

Context `{!HostApp app} (Hframes : forall m a, I a -> I (set_frames m a)).

Lemma ak_get_frame p : keeps (get_frame p).
Proof. intros w a w' Hw E. unfold get_frame in E. by case_match; simplify_eq. Qed.
Lemma ak_new_frame d : keeps (new_frame d).
Proof. intros w a w' Hw E. unfold new_frame in E. simplify_eq. by apply Hframes. Qed.
Lemma ak_end_frame p : keeps (end_frame p).
Proof. intros w a w' Hw E. unfold end_frame in E. simplify_eq. by apply Hframes. Qed.
#[local] Hint Resolve ak_get_frame ak_new_frame ak_end_frame : frame.
Lemma ak_put_frame p d : keeps (put_frame p d).
Proof. intros w a w' Hw E. unfold put_frame in E. case_match; simplify_eq. by apply Hframes. Qed.
Lemma ak_wait_loop fuel p : keeps (wait_loop fuel p).
Proof. induction fuel; simpl; app_keeps. Qed.
#[local] Hint Resolve ak_wait_loop : frame.
Lemma ak_read_config_header_field fuel junk c addr len : keeps (read_config_header_field fuel junk c addr len).
Proof. unfold read_config_header_field, warppipe_config0_read, wait_for_completion. cbv zeta. app_keeps. Qed.
#[local] Hint Resolve ak_read_config_header_field : frame.
Lemma ak_enumerate_bars fuel junk c n : forall off, keeps (enumerate_bars fuel junk c n off).
Proof. induction n; intros off; simpl; unfold enumerate_bar, warppipe_config0_write; cbv zeta; app_keeps. Qed.
#[local] Hint Resolve ak_enumerate_bars : frame.
Lemma ak_enumerate fuel junk c : keeps (enumerate fuel junk c).
Proof. unfold enumerate. app_keeps. Qed.
End Library.
#[export] Hint Resolve ak_read ak_register_bar ak_server_loop ak_server_create ak_get_frame ak_put_frame
  ak_wait_loop ak_enumerate : frame.
