(* ===== verification/Dma.v ===== *)
(** * The emulated DMA controller ([zephyr-samples/drivers/dma/dma_emul.c])

    A Zephyr driver whose transfers read from the remote device: the operations
    of its API, in the order of the source, and the handler that its work queue
    runs.  What belongs to the user of the driver or to Zephyr is a parameter:
    the transfer callback, the submission of work, and what other threads do
    when a thread takes the driver's lock, which is where they can interfere.
    [waits] bounds the iterations of each wait, [fuel] the bursts of a block,
    [links] the linked channels.  Logging is left out. *)

From S2P Require Import Prelude Layout Proto Crc World Client Server Host.

(** ** Constants *)

Definition DMA_EMUL_CHANNEL_UNUSED : Z := 0.
Definition DMA_EMUL_CHANNEL_LOADED : Z := 1.
Definition DMA_EMUL_CHANNEL_STARTED : Z := 2.
Definition DMA_EMUL_CHANNEL_STOPPED : Z := 3.

(** [errno.h] *)
Definition EIO : Z := 5.
Definition EBUSY : Z := 16.
Definition DMA_EINVAL : Z := 22.
Definition ENOSYS : Z := 38.

(** What the transfer callback is told: [DMA_STATUS_COMPLETE] or [-ECANCELED]. *)
Inductive dma_status := DMA_STATUS_COMPLETE | ECANCELED.

(** The address of [pcie_completion_cb]. *)
Definition PCIE_COMPLETION_CB : ptr := 3001.

(** ** State *)

(** The fields of [struct dma_block_config] that the driver uses. *)
Record dma_block_config := mk_block {
  source_address : Z;
  dest_address : Z;
  block_size : Z;
  next_block : ptr;
}.

(** The fields of [struct dma_config] that the driver uses. *)
Record dma_config := mk_config {
  dma_slot : Z;
  error_callback_en : bool;
  source_chaining_en : bool;
  dest_chaining_en : bool;
  linked_channel : Z;
  source_burst_length : Z;
  dest_burst_length : Z;
  block_count : Z;
  head_block : ptr;
  user_data : ptr;
  dma_callback : ptr;
  _reserved : Z;
}.

Definition set_reserved v c := mk_config (dma_slot c) (error_callback_en c) (source_chaining_en c) (dest_chaining_en c) (linked_channel c) (source_burst_length c) (dest_burst_length c) (block_count c) (head_block c) (user_data c) (dma_callback c) v.

(** The instance: [struct dma_emul_config], from the device tree, and the build's
    configuration. *)
Class DmaInstance := {
  num_channels : Z;
  num_requests : Z;
  (** whether [__ASSERT_NO_MSG] checks *)
  CONFIG_ASSERT : bool;
  (** the width of [dma_addr_t] *)
  dma_addr_bits : Z;
}.

(** The process that contains the driver: the arrays [xfer] and [block], the
    channel of the submitted work, [result] and [got_result]; the local
    variables of [enumerate]; the memory that transfers write to and the block
    descriptors of the users; the rest of the user's state. *)
Record dma {U : Type} := mk_dma {
  xfer : list dma_config;
  block : list dma_block_config;
  work_channel : Z;
  result : list Z;
  got_result : bool;
  dma_frames : gmap ptr read_compl_data;
  memory : gmap Z Z;
  descriptors : gmap ptr dma_block_config;
  user : U;
}.
Arguments dma : clear implicits.

Section Setters.
Context {U : Type}.
Implicit Types (s : dma U).
Definition set_xfer v s := mk_dma U v (block s) (work_channel s) (result s) (got_result s) (dma_frames s) (memory s) (descriptors s) (user s).
Definition set_block v s := mk_dma U (xfer s) v (work_channel s) (result s) (got_result s) (dma_frames s) (memory s) (descriptors s) (user s).
Definition set_work_channel v s := mk_dma U (xfer s) (block s) v (result s) (got_result s) (dma_frames s) (memory s) (descriptors s) (user s).
Definition set_result r v s := mk_dma U (xfer s) (block s) (work_channel s) r v (dma_frames s) (memory s) (descriptors s) (user s).
Definition set_dma_frames v s := mk_dma U (xfer s) (block s) (work_channel s) (result s) (got_result s) v (memory s) (descriptors s) (user s).
Definition set_memory v s := mk_dma U (xfer s) (block s) (work_channel s) (result s) (got_result s) (dma_frames s) v (descriptors s) (user s).
Definition set_user v s := mk_dma U (xfer s) (block s) (work_channel s) (result s) (got_result s) (dma_frames s) (memory s) (descriptors s) v.
End Setters.

#[export] Instance dma_host {U} : HostApp (dma U) := {| frames := dma_frames; set_frames := set_dma_frames |}.

(** The user of the driver and the kernel. *)
Class DmaEnv (os U : Type) := {
  (** [dma_callback(dev, user_data, channel, status)], by its address *)
  call_dma_callback : ptr -> ptr -> Z -> dma_status -> M (world os (dma U)) unit;
  (** what other threads do until the lock is taken *)
  other_threads : M (world os (dma U)) unit;
  (** [k_work_submit_to_queue(&data->work_q, &data->work.work)] *)
  k_work_submit_to_queue : M (world os (dma U)) Z;
}.

Section Dma.
Context {os U : Type} `{!SocketIO os} `{!ServerIO os} {INST : DmaInstance} `{!DmaEnv os U}.
#[local] Abbreviation P := (M (world os (dma U))).

Definition get_dma : P (dma U) := fun w => Ret (w_app w) w.
Definition put_dma (s : dma U) : P unit := fun w =>
  Ret tt (mk_world _ _ (w_os w) (w_server w) (w_clients w) s (w_static w)).

Definition dma_assert (b : bool) : P unit := if b || negb CONFIG_ASSERT then ret tt else abort.

Definition k_spin_lock : P unit := other_threads.

(** Outside the array the access is undefined. *)
Definition dma_emul_get_channel_state (channel : Z) : P Z :=
  dma_assert (channel <? num_channels) ;;
  let! s := get_dma in
  match xfer s !! Z.to_nat channel with
  | Some c => ret (_reserved c)
  | None => undefined
  end.

Definition dma_emul_set_channel_state (channel state : Z) : P unit :=
  dma_assert (channel <? num_channels) ;;
  dma_assert ((DMA_EMUL_CHANNEL_UNUSED <=? state) && (state <=? DMA_EMUL_CHANNEL_STOPPED)) ;;
  let! s := get_dma in
  match xfer s !! Z.to_nat channel with
  | Some c => put_dma (set_xfer (<[Z.to_nat channel := set_reserved state c]> (xfer s)) s)
  | None => undefined
  end.

(** [data] is the memory at the data pointer. *)
Definition pcie_completion_cb (error_code : Z) (data : list Z) (length_ : Z) : P unit :=
  if (length data <? 4)%nat then undefined
  else
    let! s := get_dma in
    put_dma (set_result (take 4 data) true s).

#[export] Instance dma_callbacks : Callbacks os (dma U) := {|
  call_read_cb _ _ _ _ := undefined;
  call_write_cb _ _ _ _ _ := undefined;
  call_completion_cb cb st data len p :=
    if cb =? PCIE_COMPLETION_CB then pcie_completion_cb st data len
    else if cb =? READ_COMPL then read_compl st data len p
    else undefined;
|}.
#[export] Instance dma_server_callbacks : ServerCallbacks os (dma U) := {|
  call_accept_cb _ _ _ := undefined;
|}.

(** [while(!got_result)] *)
Fixpoint wait_result (fuel : nat) : P unit :=
  let! s := get_dma in
  if got_result s then ret tt
  else match fuel with
       | O => no_fuel
       | S fuel => warppipe_server_loop ;; wait_result fuel
       end.

(** [memcpy((void * )dest, bs, length)]: defined within the memory. *)
Fixpoint write_memory (dest : Z) (bs : list Z) (m : gmap Z Z) : option (gmap Z Z) :=
  match bs with
  | [] => Some m
  | b :: bs =>
      match m !! dest with
      | Some _ => write_memory (dest + 1) bs (<[dest := b]> m)
      | None => None
      end
  end.

Definition copy_result (dest bytes : Z) : P unit :=
  let! s := get_dma in
  if 4 <? bytes then undefined
  else match write_memory dest (take (Z.to_nat bytes) (result s)) (memory s) with
       | Some m => put_dma (set_result (result s) false (set_memory m s))
       | None => undefined
       end.

(** The block after [bytes] of it were transferred. *)
Definition advance (bytes : Z) (b : dma_block_config) : dma_block_config :=
  mk_block (wrap dma_addr_bits (source_address b + bytes)) (wrap dma_addr_bits (dest_address b + bytes))
    (u32 (block_size b - bytes)) (next_block b).

(** The loop over the bursts of a block: [false] where the transfer was
    cancelled and the handler returns. *)
Fixpoint transfer_bursts (waits fuel : nat) (channel : Z) (xfer_config : dma_config) (b : dma_block_config) : P bool :=
  let bytes := Z.min (block_size b) (dest_burst_length xfer_config) in
  if 0 <? bytes then
    match fuel with
    | O => no_fuel
    | S fuel =>
        k_spin_lock ;;
        let! state := dma_emul_get_channel_state channel in
        if state =? DMA_EMUL_CHANNEL_STOPPED then
          (if error_callback_en xfer_config
           then call_dma_callback (dma_callback xfer_config) (user_data xfer_config) channel ECANCELED
           else ret tt) ;;
          ret false
        else
          dma_assert (state =? DMA_EMUL_CHANNEL_STARTED) ;;
          let! client := first_client in
          warppipe_read client 0 (source_address b) bytes PCIE_COMPLETION_CB ;;
          wait_result waits ;;
          copy_result (dest_address b) bytes ;;
          transfer_bursts waits fuel channel xfer_config (advance bytes b)
    end
  else ret true.

(** The loop over the blocks, [n] of them from [i] on. *)
Fixpoint transfer_blocks (waits fuel : nat) (channel : Z) (xfer_config : dma_config) (n : nat) (i : Z) : P bool :=
  match n with
  | O => ret true
  | S n =>
      k_spin_lock ;;
      let! s := get_dma in
      match block s !! Z.to_nat (channel * num_requests + dma_slot xfer_config + i) with
      | None => undefined
      | Some b =>
          let! r := transfer_bursts waits fuel channel xfer_config b in
          if r then transfer_blocks waits fuel channel xfer_config n (i + 1) else ret false
      end
  end.

Definition chained (c : dma_config) : bool := source_chaining_en c || dest_chaining_en c.

(** The outer loop, over the linked channels. *)
Fixpoint transfer_channels (waits fuel links : nat) (channel : Z) : P unit :=
  match links with
  | O => no_fuel
  | S links =>
      k_spin_lock ;;
      let! s := get_dma in
      match xfer s !! Z.to_nat channel with
      | None => undefined
      | Some xfer_config =>
          let! r := transfer_blocks waits fuel channel xfer_config (Z.to_nat (block_count xfer_config)) 0 in
          if negb r then ret tt
          else
            k_spin_lock ;;
            dma_emul_set_channel_state channel DMA_EMUL_CHANNEL_STOPPED ;;
            call_dma_callback (dma_callback xfer_config) (user_data xfer_config) channel DMA_STATUS_COMPLETE ;;
            if chained xfer_config then
              dma_assert (negb (channel =? linked_channel xfer_config)) ;;
              transfer_channels waits fuel links (linked_channel xfer_config)
            else ret tt
      end
  end.

Definition dma_emul_work_handler (waits fuel links : nat) : P unit :=
  let! s := get_dma in transfer_channels waits fuel links (work_channel s).

(** The loop over the descriptors; the user's pointers are followed. *)
Fixpoint blocks_valid (n : nat) (i : Z) (b : ptr) : P bool :=
  match n with
  | O => ret true
  | S n =>
      if b =? NULL then ret false
      else if num_requests <=? i then ret false
      else
        let! s := get_dma in
        match descriptors s !! b with
        | Some d => blocks_valid n (i + 1) (next_block d)
        | None => undefined
        end
  end.

Definition dma_emul_config_valid (channel : Z) (xfer_config : dma_config) : P bool :=
  if num_requests <=? dma_slot xfer_config then ret false
  else if num_channels <=? channel then ret false
  else if negb (dest_burst_length xfer_config =? source_burst_length xfer_config) then ret false
  else blocks_valid (Z.to_nat (block_count xfer_config)) 0 (head_block xfer_config).

(** Copies [n] descriptors from [block_it] on to the slots from [idx] on;
    outside the array the store is undefined. *)
Fixpoint copy_blocks (n : nat) (idx : Z) (block_it : ptr) : P unit :=
  match n with
  | O => ret tt
  | S n =>
      dma_assert (negb (block_it =? NULL)) ;;
      let! s := get_dma in
      match descriptors s !! block_it, block s !! Z.to_nat idx with
      | Some d, Some _ =>
          put_dma (set_block (<[Z.to_nat idx := d]> (block s)) s) ;;
          copy_blocks n (idx + 1) (next_block d)
      | _, _ => undefined
      end
  end.

Definition dma_emul_configure (channel : Z) (xfer_config : dma_config) : P Z :=
  let! valid := dma_emul_config_valid channel xfer_config in
  if negb valid then ret (- DMA_EINVAL)
  else
    k_spin_lock ;;
    let! state := dma_emul_get_channel_state channel in
    if (state =? DMA_EMUL_CHANNEL_UNUSED) || (state =? DMA_EMUL_CHANNEL_STOPPED) then
      let! s := get_dma in
      put_dma (set_xfer (<[Z.to_nat channel := xfer_config]> (xfer s)) s) ;;
      copy_blocks (Z.to_nat (block_count xfer_config)) (channel * num_requests + dma_slot xfer_config)
        (head_block xfer_config) ;;
      dma_emul_set_channel_state channel DMA_EMUL_CHANNEL_LOADED ;;
      ret 0
    else ret (- EBUSY).

Definition dma_emul_reload (channel src dst size : Z) : P Z := ret (- ENOSYS).

(** [while (true)], over the linked channels. *)
Fixpoint start_channels (fuel : nat) (channel : Z) : P unit :=
  match fuel with
  | O => no_fuel
  | S fuel =>
      dma_emul_set_channel_state channel DMA_EMUL_CHANNEL_STARTED ;;
      let! s := get_dma in
      match xfer s !! Z.to_nat channel with
      | None => undefined
      | Some c => if chained c then start_channels fuel (linked_channel c) else ret tt
      end
  end.

(** [junk] is what [enumerate] finds in its buffer. *)
Definition dma_emul_start (fuel links : nat) (junk : list Z) (channel : Z) : P Z :=
  if num_channels <=? channel then ret (- DMA_EINVAL)
  else
    let! r := warppipe_server_create in
    if r =? -1 then ret (-1)
    else
      let! client := first_client in
      enumerate fuel junk client ;;
      k_spin_lock ;;
      let! state := dma_emul_get_channel_state channel in
      if state =? DMA_EMUL_CHANNEL_STARTED then ret 0
      else if (state =? DMA_EMUL_CHANNEL_LOADED) || (state =? DMA_EMUL_CHANNEL_STOPPED) then
        let! s := get_dma in
        put_dma (set_work_channel channel s) ;;
        start_channels links channel ;;
        let! r := k_work_submit_to_queue in
        ret (if r <? 0 then r else 0)
      else ret (- EIO).

Definition dma_emul_stop (channel : Z) : P Z :=
  k_spin_lock ;;
  dma_emul_set_channel_state channel DMA_EMUL_CHANNEL_STOPPED ;;
  ret 0.

Definition dma_emul_suspend (channel : Z) : P Z := ret (- ENOSYS).
Definition dma_emul_resume (channel : Z) : P Z := ret (- ENOSYS).
Definition dma_emul_get_status (channel : Z) : P Z := ret (- ENOSYS).
Definition dma_emul_get_attribute (type : Z) : P Z := ret (- ENOSYS).

(** [channel] is an [int], converted to [uint32_t]. *)
Definition dma_emul_chan_filter (channel : Z) : P bool :=
  k_spin_lock ;;
  let! state := dma_emul_get_channel_state (u32 channel) in
  ret (state =? DMA_EMUL_CHANNEL_UNUSED).
End Dma.

(** ** The sample ([zephyr-samples/pcie_dma/src/main.c]) *)

Definition DATA_SIZE : Z := 32.

(** The sample's state: [data_end], what it printed, and whether its work was
    submitted. *)
Record dma_user := mk_user { data_end : Z; printed : list (list Z); submitted : bool }.

Definition FINISHED_CB : ptr := 3002.

(** The [n] bytes of memory from [p] on, where there are any. *)
Fixpoint read_memory (p : Z) (n : nat) (m : gmap Z Z) : option (list Z) :=
  match n with
  | O => Some []
  | S n => match m !! p, read_memory (p + 1) n m with Some b, Some bs => Some (b :: bs) | _, _ => None end
  end.

(** The addresses from [p] on hold [bs]; they hold nothing. *)
Fixpoint allocate (p : Z) (bs : list Z) (m : gmap Z Z) : gmap Z Z :=
  match bs with [] => m | b :: bs => <[p := b]> (allocate (p + 1) bs m) end.
Fixpoint release (p : Z) (n : nat) (m : gmap Z Z) : gmap Z Z :=
  match n with O => m | S n => delete p (release (p + 1) n m) end.

Section Sample.
Context {os : Type} `{!SocketIO os} `{!ServerIO os}.
#[local] Abbreviation P := (M (world os (dma dma_user))).

Definition finished_cb : P unit :=
  let! s := get_dma in
  let u := user s in
  match read_memory (data_end u) (Z.to_nat DATA_SIZE) (memory s) with
  | Some bs =>
      put_dma (set_memory (release (data_end u) (Z.to_nat DATA_SIZE) (memory s))
                 (set_user (mk_user (data_end u) (printed u ++ [bs]) (submitted u)) s))
  | None => undefined
  end.

(** The kernel queues the work; no other thread uses the driver. *)
#[export] Instance sample_env : DmaEnv os dma_user := {|
  call_dma_callback cb _ _ _ := if cb =? FINISHED_CB then finished_cb else undefined;
  other_threads := ret tt;
  k_work_submit_to_queue :=
    let! s := get_dma in
    put_dma (set_user (mk_user (data_end (user s)) (printed (user s)) true) s) ;; ret 1;
|}.

(** The device tree of the sample: one channel, and one request by default. *)
#[export] Instance sample_instance : DmaInstance :=
  {| num_channels := 1; num_requests := 1; CONFIG_ASSERT := true; dma_addr_bits := 32 |}.

(** [blk]: the address of the block on the stack. *)
Definition configure_dma (blk : ptr) : P unit :=
  let! s := get_dma in
  let b := mk_block 0x0 (u32 (data_end (user s))) DATA_SIZE NULL in
  let conf := mk_config 0 false false false 0 4 4 1 blk NULL FINISHED_CB 0 in
  put_dma (mk_dma _ (xfer s) (block s) (work_channel s) (result s) (got_result s) (dma_frames s) (memory s)
             (<[blk := b]> (descriptors s)) (user s)) ;;
  dma_emul_configure 0 conf ;;
  let! s := get_dma in
  put_dma (mk_dma _ (xfer s) (block s) (work_channel s) (result s) (got_result s) (dma_frames s) (memory s)
             (delete blk (descriptors s)) (user s)).

(** [p] and [uninit]: what [malloc] returns, and its contents. *)
Definition pcie_dma_main (fuel links : nat) (junk : list Z) (blk : ptr) (p : Z) (uninit : list Z) : P Z :=
  let! s := get_dma in
  put_dma (set_memory (allocate p uninit (memory s)) (set_user (mk_user p (printed (user s)) (submitted (user s))) s)) ;;
  configure_dma blk ;;
  dma_emul_start fuel links junk 0 ;;
  ret 0.
End Sample.
