(* ===== verification/DmaStates.v ===== *)
(** * Channels of the DMA controller

    The states of the channels and the configuration they hold: what the driver
    keeps well formed, what each operation does on each of its branches, when
    the loops over linked channels end, and where a transfer can be disturbed. *)

From S2P Require Import Prelude Layout Proto Crc World Client Wire Logic Sim Server ServerSpec Host Frame Dma.

Section States.
Context {os U : Type} `{!SocketIO os} `{!ServerIO os} {INST : DmaInstance} `{!DmaEnv os U}.
#[local] Abbreviation W := (world os (dma U)).
Implicit Types (w : W) (a : dma U) (cfg : dma_config).

(** ** Well-formedness *)

Definition state_ok (s : Z) : Prop := DMA_EMUL_CHANNEL_UNUSED <= s <= DMA_EMUL_CHANNEL_STOPPED.

Lemma loaded_ok : state_ok DMA_EMUL_CHANNEL_LOADED.
Proof. split; vm_compute; congruence. Qed.

(** The arrays have the sizes of their declarations, and what the driver keeps in
    the field [_reserved] is a channel state. *)
Definition dma_ok (a : dma U) : Prop :=
  Z.of_nat (length (xfer a)) = num_channels /\
  Z.of_nat (length (block a)) = num_channels * num_requests /\
  length (result a) = 4%nat /\ Forall (fun c => state_ok (_reserved c)) (xfer a).

(** What the user of the driver promises. *)
Class DmaUserKeeps : Prop := {
  ak_dma_callback : forall cb p ch st, app_keeps dma_ok (call_dma_callback cb p ch st);
  ak_other_threads : app_keeps dma_ok other_threads;
  ak_submit : app_keeps dma_ok k_work_submit_to_queue;
}.
#[local] Hint Resolve ak_dma_callback ak_other_threads ak_submit : frame.

Lemma ak_get_dma (I : dma U -> Prop) : app_keeps I (os := os) get_dma.
Proof. intros w x w' Hw E. by inversion E; subst. Qed.
#[local] Hint Resolve ak_get_dma : frame.

Lemma ak_dma_assert (I : dma U -> Prop) b : app_keeps I (os := os) (dma_assert b).
Proof. unfold dma_assert. app_keeps. Qed.
#[local] Hint Resolve ak_dma_assert : frame.

(** A step that computes the new state from the current one. *)
Lemma ak_update {A} (m : dma U -> M W A) :
  (forall a, dma_ok a -> forall w x w', w_app w = a -> m a w = Ret x w' -> dma_ok (w_app w')) ->
  app_keeps dma_ok (bind get_dma m).
Proof. intros H w x w' Hw E. by eapply (H (w_app w)). Qed.

Lemma ak_set_channel_state channel s : state_ok s -> app_keeps (os := os) dma_ok (dma_emul_set_channel_state channel s).
Proof.
  intros Hs. unfold dma_emul_set_channel_state. apply ak_bind; [app_keeps|intros _]. apply ak_bind; [app_keeps|intros _].
  apply ak_update. intros a (H1 & H2 & H3 & H4) w x w' _ E.
  destruct (xfer a !! Z.to_nat channel); [|done]. inversion E; subst. split_and!; simpl; try done.
  - by rewrite length_insert.
  - by apply Forall_insert.
Qed.

Lemma ak_get_channel_state channel : app_keeps (os := os) dma_ok (dma_emul_get_channel_state channel).
Proof. unfold dma_emul_get_channel_state. app_keeps. Qed.

Context {KEEPS : DmaUserKeeps}.

#[export] Instance dma_callbacks_keep : CallbacksKeepApp os (dma U) dma_ok.
Proof.
  constructor; try done. intros cb st data len p. simpl. app_keeps.
  - unfold pcie_completion_cb. destruct (Nat.ltb_spec (length data) 4); [done|].
    apply ak_update. intros a (H1 & H2 & H3 & H4) w x w' _ E. inversion E; subst. split_and!; simpl; try done.
    rewrite length_take. lia.
  - unfold read_compl. cbv zeta. app_keeps; (eapply ak_put_frame || eapply ak_get_frame); done.
Qed.

Lemma dma_ok_frames m a : dma_ok a -> dma_ok (set_frames m a).
Proof. done. Qed.
#[local] Hint Resolve dma_ok_frames ak_get_channel_state : frame.
#[local] Hint Extern 1 (app_keeps _ (dma_emul_set_channel_state _ _)) =>
  (apply ak_set_channel_state; split; vm_compute; congruence) : frame.

(** The library keeps the driver well formed. *)
Lemma ak_dma_loop : app_keeps (os := os) dma_ok warppipe_server_loop.
Proof. apply ak_server_loop, dma_callbacks_keep. Qed.
Lemma ak_dma_read c i addr len cb : app_keeps (os := os) dma_ok (warppipe_read c i addr len cb).
Proof. apply ak_read. Qed.
Lemma ak_dma_create : app_keeps (os := os) dma_ok warppipe_server_create.
Proof. apply ak_server_create, dma_callbacks_keep. Qed.
Lemma ak_dma_enumerate fuel junk c : app_keeps (os := os) dma_ok (enumerate fuel junk c).
Proof. apply ak_enumerate; [apply dma_callbacks_keep|done]. Qed.
#[local] Hint Resolve ak_dma_loop ak_dma_read ak_dma_create ak_dma_enumerate : frame.

Lemma ak_wait_result fuel : app_keeps (os := os) dma_ok (wait_result fuel).
Proof. induction fuel; simpl; app_keeps. Qed.

Lemma ak_copy_result dest bytes : app_keeps (os := os) dma_ok (copy_result dest bytes).
Proof.
  unfold copy_result. apply ak_update. intros a Ha w x w' _ E. destruct (4 <? bytes); [done|].
  case_match; [|done]. by inversion E; subst.
Qed.
#[local] Hint Resolve ak_wait_result ak_copy_result : frame.

Lemma ak_transfer_bursts waits fuel ch cfg : forall b, app_keeps (os := os) dma_ok (transfer_bursts waits fuel ch cfg b).
Proof. induction fuel; intros b; simpl; unfold k_spin_lock, first_client; app_keeps. Qed.
#[local] Hint Resolve ak_transfer_bursts : frame.
Lemma ak_transfer_blocks waits fuel ch cfg n : forall i, app_keeps (os := os) dma_ok (transfer_blocks waits fuel ch cfg n i).
Proof. induction n; intros i; simpl; unfold k_spin_lock; app_keeps. Qed.
#[local] Hint Resolve ak_transfer_blocks : frame.
Lemma ak_transfer_channels waits fuel links : forall ch, app_keeps (os := os) dma_ok (transfer_channels waits fuel links ch).
Proof. induction links; intros ch; simpl; unfold k_spin_lock; app_keeps. Qed.
#[local] Hint Resolve ak_transfer_channels : frame.
Lemma ak_start_channels fuel : forall ch, app_keeps (os := os) dma_ok (start_channels fuel ch).
Proof. induction fuel; intros ch; simpl; app_keeps. Qed.
#[local] Hint Resolve ak_start_channels : frame.

(** ** Configuration *)

(** Following [next_block] from [p] through the descriptors [bl] leads to [q]. *)
Inductive leads (ds : gmap ptr dma_block_config) : ptr -> list dma_block_config -> ptr -> Prop :=
  | leads_nil p : leads ds p [] p
  | leads_cons p d bl q :
      p <> NULL -> ds !! p = Some d -> leads ds (next_block d) bl q -> leads ds p (d :: bl) q.

Definition with_dma (a : dma U) (w : W) : W := mk_world _ _ (w_os w) (w_server w) (w_clients w) a (w_static w).

Lemma blocks_valid_long w p bl q n : forall i,
  leads (descriptors (w_app w)) p bl q -> n = length bl -> 0 <= i -> i + Z.of_nat (length bl) <= num_requests ->
  blocks_valid n i p w = Ret true w.
Proof.
  intros i Hl. revert n i. induction Hl as [p|p d bl q Hp Hd _ IH]; intros n i -> Hi Hn; [done|]. simpl in Hn |- *.
  rewrite (proj2 (Z.eqb_neq _ _) Hp), (proj2 (Z.leb_gt _ _)) by lia. unfold bind, get_dma. rewrite Hd.
  apply IH; lia.
Qed.

Lemma blocks_valid_short w p bl q n : forall i,
  leads (descriptors (w_app w)) p bl q -> (length bl < n)%nat -> 0 <= i ->
  q = NULL \/ num_requests <= i + Z.of_nat (length bl) ->
  blocks_valid n i p w = Ret false w.
Proof.
  intros i Hl. revert n i. induction Hl as [p|p d bl q Hp Hd _ IH]; intros n i Hn Hi Hq;
    (destruct n as [|n]; [simpl in Hn; lia|]); simpl.
  - destruct Hq as [->|Hq]; [done|]. simpl in Hq. rewrite (proj2 (Z.leb_le _ i)) by lia. by destruct (p =? NULL).
  - rewrite (proj2 (Z.eqb_neq _ _) Hp). destruct (num_requests <=? i); [done|]. unfold bind, get_dma. rewrite Hd.
    apply IH; [simpl in Hn; lia|lia|]. destruct Hq as [?|Hq]; [by left|right; simpl in Hq; lia].
Qed.

Lemma copy_blocks_spec bl q : forall p (idx : nat) w,
  leads (descriptors (w_app w)) p bl q -> (idx + length bl <= length (block (w_app w)))%nat ->
  copy_blocks (length bl) (Z.of_nat idx) p w =
  Ret tt (with_dma (set_block (list_inserts idx bl (block (w_app w))) (w_app w)) w).
Proof.
  induction bl as [|d bl IH]; intros p idx w Hl Hn.
  { simpl. unfold ret. destruct w as [o s c a], a; done. }
  inversion Hl as [|p' d' bl' q' Hp Hd Hl']; subst. simpl in Hn |- *.
  unfold dma_assert. rewrite (proj2 (Z.eqb_neq _ _) Hp). simpl. erewrite bind_Ret by reflexivity.
  erewrite bind_Ret by reflexivity. rewrite Hd, Nat2Z.id.
  destruct (lookup_lt_is_Some_2 (block (w_app w)) idx) as [x ->]; [lia|].
  erewrite bind_Ret by reflexivity. replace (Z.of_nat idx + 1) with (Z.of_nat (S idx)) by lia.
  rewrite IH; simpl; [|done|rewrite length_insert; lia]. by rewrite list_insert_inserts_lt by lia.
Qed.

Lemma copy_blocks_overrun bl q : forall p (idx : nat) w,
  leads (descriptors (w_app w)) p bl q -> (length (block (w_app w)) < idx + length bl)%nat ->
  (idx <= length (block (w_app w)))%nat -> copy_blocks (length bl) (Z.of_nat idx) p w = Undefined.
Proof.
  induction bl as [|d bl IH]; intros p idx w Hl Hn Hi; simpl in Hn; [lia|].
  inversion Hl as [|p' d' bl' q' Hp Hd Hl']; subst. simpl.
  unfold dma_assert. rewrite (proj2 (Z.eqb_neq _ _) Hp). simpl. erewrite bind_Ret by reflexivity.
  erewrite bind_Ret by reflexivity. rewrite Hd, Nat2Z.id.
  destruct (block (w_app w) !! idx) as [x|] eqn:Hx; [|done]. apply lookup_lt_Some in Hx.
  erewrite bind_Ret by reflexivity. replace (Z.of_nat idx + 1) with (Z.of_nat (S idx)) by lia.
  apply IH; simpl; rewrite ?length_insert; [done|lia..].
Qed.

(** The slots of a channel are indexed by this and the following numbers. *)
Definition slot_index (channel : Z) (cfg : dma_config) : nat := Z.to_nat (channel * num_requests + dma_slot cfg).

Definition undisturbed_at (w : W) : Prop := other_threads w = Ret tt w.

(** The configuration is one that the driver rejects. *)
Definition rejected (channel : Z) (cfg : dma_config) (a : dma U) : Prop :=
  num_requests <= dma_slot cfg \/ num_channels <= channel \/
  dest_burst_length cfg <> source_burst_length cfg \/
  exists bl q, leads (descriptors a) (head_block cfg) bl q /\ Z.of_nat (length bl) < block_count cfg /\
    (q = NULL \/ num_requests <= Z.of_nat (length bl)).

Lemma config_invalid w channel cfg :
  rejected channel cfg (w_app w) ->
  dma_emul_config_valid channel cfg w = Ret false w.
Proof.
  intros Hr. unfold dma_emul_config_valid.
  destruct (Z.leb_spec num_requests (dma_slot cfg)); [done|].
  destruct (Z.leb_spec num_channels channel); [done|].
  destruct (Z.eqb_spec (dest_burst_length cfg) (source_burst_length cfg)); [|done]. simpl.
  destruct Hr as [?|[?|[?|(bl & q & Hl & Hn & Hq)]]]; [lia|lia|done|].
  apply (blocks_valid_short w _ bl q); [done|lia|lia|done].
Qed.

(** A configuration with as many descriptors as it says, and slots for them. *)
Record accepted (channel : Z) (cfg : dma_config) (bl : list dma_block_config) (a : dma U) : Prop := {
  ac_slot : 0 <= dma_slot cfg < num_requests;
  ac_channel : 0 <= channel < num_channels;
  ac_burst : dest_burst_length cfg = source_burst_length cfg;
  ac_blocks : exists q, leads (descriptors a) (head_block cfg) bl q;
  ac_count : block_count cfg = Z.of_nat (length bl);
  ac_room : Z.of_nat (length bl) <= num_requests;
}.

Lemma config_valid w channel cfg bl :
  accepted channel cfg bl (w_app w) -> dma_emul_config_valid channel cfg w = Ret true w.
Proof.
  intros [? ? Hb [q Hl] Hc ?]. unfold dma_emul_config_valid.
  rewrite !(proj2 (Z.leb_gt _ _)), (proj2 (Z.eqb_eq _ _) Hb) by lia. simpl.
  apply (blocks_valid_long w _ bl q); [done|lia..].
Qed.

Lemma get_channel_state w channel c :
  0 <= channel < num_channels -> xfer (w_app w) !! Z.to_nat channel = Some c ->
  dma_emul_get_channel_state channel w = Ret (_reserved c) w.
Proof.
  intros Hc Hx. unfold dma_emul_get_channel_state, dma_assert. rewrite (proj2 (Z.ltb_lt _ _)) by lia. simpl.
  unfold bind, ret, get_dma. by rewrite Hx.
Qed.

Lemma set_channel_state w channel s c :
  0 <= channel < num_channels -> state_ok s -> xfer (w_app w) !! Z.to_nat channel = Some c ->
  dma_emul_set_channel_state channel s w =
  Ret tt (with_dma (set_xfer (<[Z.to_nat channel := set_reserved s c]> (xfer (w_app w))) (w_app w)) w).
Proof.
  intros Hc Hs Hx. unfold dma_emul_set_channel_state, dma_assert, state_ok in *.
  rewrite (proj2 (Z.ltb_lt _ _)), !(proj2 (Z.leb_le _ _)) by lia. simpl. unfold bind, ret, get_dma. by rewrite Hx.
Qed.

(** The configuration of a channel, once it was found valid. *)
Lemma configure_checked w channel cfg bl c :
  undisturbed_at w -> accepted channel cfg bl (w_app w) -> xfer (w_app w) !! Z.to_nat channel = Some c ->
  dma_emul_configure channel cfg w =
    (if (_reserved c =? DMA_EMUL_CHANNEL_UNUSED) || (_reserved c =? DMA_EMUL_CHANNEL_STOPPED) then
      let! s := get_dma in
      put_dma (set_xfer (<[Z.to_nat channel := cfg]> (xfer s)) s) ;;
      copy_blocks (Z.to_nat (block_count cfg)) (channel * num_requests + dma_slot cfg) (head_block cfg) ;;
      dma_emul_set_channel_state channel DMA_EMUL_CHANNEL_LOADED ;;
      ret 0
    else ret (- EBUSY)) w.
Proof.
  intros Hq Hacc Hc. pose proof Hacc as [A1 A2 A3 [q A4] A5 A6].
  unfold dma_emul_configure. erewrite bind_Ret by by eapply config_valid. change (negb true) with false. cbv iota.
  unfold k_spin_lock. erewrite bind_Ret by exact Hq. by erewrite bind_Ret by by apply get_channel_state.
Qed.

(** C15. [dma_emul_configure], on each of its branches.  A configuration with a
    slot or channel out of range, different burst lengths, fewer descriptors
    than blocks or more blocks than slots: [-EINVAL], nothing changes.  A
    channel that is loaded or started: [-EBUSY], nothing changes.  An unused or
    stopped channel, with the blocks behind the first slot within the
    channel's slots: 0; the channel holds the configuration and is LOADED, its
    slots hold the descriptors in order, and every other channel and slot is
    as before.  The driver does not check that the slots behind the first one
    suffice: where they do not, the last channel's blocks are written past the
    end of the array. *)
Theorem configure_spec w channel cfg :
  dma_ok (w_app w) -> undisturbed_at w ->
  (rejected channel cfg (w_app w) -> dma_emul_configure channel cfg w = Ret (- DMA_EINVAL) w) /\
  (forall bl c, accepted channel cfg bl (w_app w) -> xfer (w_app w) !! Z.to_nat channel = Some c ->
     (_reserved c = DMA_EMUL_CHANNEL_LOADED \/ _reserved c = DMA_EMUL_CHANNEL_STARTED ->
      dma_emul_configure channel cfg w = Ret (- EBUSY) w) /\
     (_reserved c = DMA_EMUL_CHANNEL_UNUSED \/ _reserved c = DMA_EMUL_CHANNEL_STOPPED ->
      dma_slot cfg + Z.of_nat (length bl) <= num_requests ->
      exists w', dma_emul_configure channel cfg w = Ret 0 w' /\ dma_ok (w_app w') /\
        xfer (w_app w') = <[Z.to_nat channel := set_reserved DMA_EMUL_CHANNEL_LOADED cfg]> (xfer (w_app w)) /\
        (forall (j : nat) b, bl !! j = Some b -> block (w_app w') !! (slot_index channel cfg + j)%nat = Some b) /\
        (forall j : nat, (j < slot_index channel cfg)%nat \/ (slot_index channel cfg + length bl <= j)%nat ->
           block (w_app w') !! j = block (w_app w) !! j) /\
        memory (w_app w') = memory (w_app w) /\ work_channel (w_app w') = work_channel (w_app w)) /\
     (_reserved c = DMA_EMUL_CHANNEL_UNUSED \/ _reserved c = DMA_EMUL_CHANNEL_STOPPED ->
      num_requests < dma_slot cfg + Z.of_nat (length bl) -> channel = num_channels - 1 ->
      dma_emul_configure channel cfg w = Undefined)).
Proof.
  intros (Hx & Hb & Hrs & Hst) Hq. split.
  { intros Hr. unfold dma_emul_configure. erewrite bind_Ret by by apply config_invalid. done. }
  intros bl c Hacc Hc. pose proof Hacc as [A1 A2 A3 [q A4] A5 A6].
  rewrite (configure_checked w channel cfg bl c) by done.
  set (a1 := set_xfer (<[Z.to_nat channel := cfg]> (xfer (w_app w))) (w_app w)).
  set (idx := slot_index channel cfg).
  assert (Z.of_nat idx = channel * num_requests + dma_slot cfg) as Hidx by (unfold idx, slot_index; nia).
  split_and!; [by intros [->| ->]| |]; intros Hs Hroom;
  (assert ((_reserved c =? DMA_EMUL_CHANNEL_UNUSED) || (_reserved c =? DMA_EMUL_CHANNEL_STOPPED) = true) as ->
    by (by destruct Hs as [->| ->])).
  2: { intros Hlast. unfold bind at 1, get_dma. unfold bind at 1, put_dma. fold a1. fold (with_dma a1 w).
       unfold bind. rewrite A5, Nat2Z.id, <-Hidx, (copy_blocks_overrun bl q); simpl; [done|done|nia..]. }
  assert (idx + length bl <= length (block (w_app w)))%nat as Hlen.
  { assert (channel * num_requests + num_requests <= num_channels * num_requests) by nia. lia. }
  set (a2 := set_block (list_inserts idx bl (block (w_app w))) a1).
  assert (copy_blocks (Z.to_nat (block_count cfg)) (channel * num_requests + dma_slot cfg) (head_block cfg) (with_dma a1 w)
    = Ret tt (with_dma a2 w)) as E.
  { rewrite A5, Nat2Z.id, <-Hidx. by rewrite (copy_blocks_spec bl q) by done. }
  assert ((Z.to_nat channel < length (xfer (w_app w)))%nat) as Hch by lia.
  assert (xfer (w_app (with_dma a2 w)) !! Z.to_nat channel = Some cfg) as Hx2 by (by apply list_lookup_insert_eq).
  eexists. split_and!.
  - unfold bind at 1, get_dma. unfold bind at 1, put_dma. fold a1. fold (with_dma a1 w). unfold bind at 1. rewrite E.
    unfold bind. rewrite (set_channel_state _ channel _ cfg A2 loaded_ok Hx2). reflexivity.
  - split_and!; simpl; rewrite ?length_insert, ?length_inserts; try done.
    rewrite list_insert_insert_eq. by apply Forall_insert; [|apply loaded_ok].
  - simpl. by rewrite list_insert_insert_eq.
  - intros j b Hj. pose proof (lookup_lt_Some _ _ _ Hj). simpl. rewrite list_lookup_inserts by lia.
    by replace (idx + j - idx)%nat with j by lia.
  - intros j [Hj|Hj]; simpl; [by rewrite list_lookup_inserts_lt|by rewrite list_lookup_inserts_ge].
  - done.
  - done.
Qed.

(** ** Everything keeps the driver well formed *)

(** While the channel [ch] is being configured, its own state is not. *)
Definition dma_ok_but (ch : nat) (a : dma U) : Prop :=
  Z.of_nat (length (xfer a)) = num_channels /\
  Z.of_nat (length (block a)) = num_channels * num_requests /\
  length (result a) = 4%nat /\
  forall i c, i <> ch -> xfer a !! i = Some c -> state_ok (_reserved c).

Lemma ak_copy_blocks ch n : forall idx p, app_keeps (os := os) (dma_ok_but ch) (copy_blocks n idx p).
Proof.
  induction n as [|n IH]; intros idx p; simpl; [app_keeps|]. apply ak_bind; [app_keeps|intros _].
  intros w x w' (H1 & H2 & H3 & H4) E. unfold bind, get_dma in E.
  destruct (descriptors (w_app w) !! p) as [d|]; [|done].
  destruct (block (w_app w) !! Z.to_nat idx); [|done]. unfold put_dma in E.
  eapply IH; [|exact E]. split_and!; simpl; try done. by rewrite length_insert.
Qed.

Lemma ak_configure channel cfg : app_keeps (os := os) dma_ok (dma_emul_configure channel cfg).
Proof.
  unfold dma_emul_configure. apply ak_bind.
  { unfold dma_emul_config_valid. app_keeps. generalize 0 (head_block cfg).
    induction (Z.to_nat (block_count cfg)) as [|n IH]; intros i p; simpl; app_keeps. }
  intros []; simpl; [|app_keeps]. unfold k_spin_lock. apply ak_bind; [app_keeps|intros _].
  apply ak_bind; [app_keeps|intros s]. destruct (_ || _); [|app_keeps].
  intros w x w' (H1 & H2 & H3 & H4) E. unfold bind at 1, get_dma in E. unfold bind at 1, put_dma in E.
  set (w1 := mk_world _ _ _ _ _ _ _) in E. unfold bind at 1 in E.
  destruct (copy_blocks _ _ _ w1) as [[] w2| | |] eqn:Ec; try done.
  apply (ak_copy_blocks (Z.to_nat channel)) in Ec as (K1 & K2 & K3 & K4).
  2: { split_and!; simpl; rewrite ?length_insert; try done. intros i c Hi Hc.
       rewrite list_lookup_insert_ne in Hc by done. rewrite Forall_lookup in H4. by eapply H4. }
  unfold dma_emul_set_channel_state, dma_assert in E. unfold bind at 1 in E.
  destruct (_ || _) in E; [|done]. unfold ret at 1 in E. simpl in E. unfold bind, ret, get_dma in E.
  destruct (xfer (w_app w2) !! Z.to_nat channel) as [c|] eqn:Hc; [|done]. inversion E; subst.
  split_and!; simpl; rewrite ?length_insert; try done.
  apply Forall_lookup. intros i c' Hi. destruct (decide (i = Z.to_nat channel)) as [->|Hne].
  - rewrite list_lookup_insert_eq in Hi by (by eapply lookup_lt_Some). simplify_eq. apply loaded_ok.
  - rewrite list_lookup_insert_ne in Hi by done. by eapply K4.
Qed.

Lemma ak_start fuel links junk channel : app_keeps (os := os) dma_ok (dma_emul_start fuel links junk channel).
Proof.
  unfold dma_emul_start, k_spin_lock, first_client. destruct (num_channels <=? channel); [app_keeps|].
  do 5 (apply ak_bind; [app_keeps|intros ?]; try (destruct (_ =? -1); [app_keeps|])).
  destruct (_ =? _); [app_keeps|]. destruct (_ || _); [|app_keeps].
  apply ak_update. intros a' Ha w x w' <- E. unfold bind at 1, put_dma in E.
  eapply (ak_bind dma_ok (start_channels links channel)); [app_keeps| | |exact E]; [intros; app_keeps|exact Ha].
Qed.

(** The operations of the driver's API, and its handler. *)
Inductive dma_call :=
  | Configure (channel : Z) (cfg : dma_config)
  | Start (channel : Z)
  | Stop (channel : Z)
  | Reload (channel src dst size : Z)
  | Suspend (channel : Z)
  | Resume (channel : Z)
  | GetStatus (channel : Z)
  | GetAttribute (type : Z)
  | ChanFilter (channel : Z)
  | WorkHandler.

Definition run_call (waits fuel links : nat) (junk : list Z) (call : dma_call) : M W Z :=
  match call with
  | Configure channel cfg => dma_emul_configure channel cfg
  | Start channel => dma_emul_start fuel links junk channel
  | Stop channel => dma_emul_stop channel
  | Reload channel src dst size => dma_emul_reload channel src dst size
  | Suspend channel => dma_emul_suspend channel
  | Resume channel => dma_emul_resume channel
  | GetStatus channel => dma_emul_get_status channel
  | GetAttribute type => dma_emul_get_attribute type
  | ChanFilter channel => let! b := dma_emul_chan_filter channel in ret (Z.b2z b)
  | WorkHandler => dma_emul_work_handler waits fuel links ;; ret 0
  end.

(** Every operation, whatever its arguments and whatever the remote device and the
    network do. *)
Lemma run_call_keeps waits fuel links junk call w r w' :
  dma_ok (w_app w) -> run_call waits fuel links junk call w = Ret r w' -> dma_ok (w_app w').
Proof.
  revert w r w'. change (app_keeps dma_ok (run_call waits fuel links junk call)).
  pose proof ak_configure. pose proof ak_start. destruct call; simpl;
    unfold dma_emul_stop, dma_emul_reload, dma_emul_suspend, dma_emul_resume, dma_emul_get_status,
      dma_emul_get_attribute, dma_emul_chan_filter, dma_emul_work_handler, k_spin_lock, first_client; app_keeps.
Qed.

(** ** Linked channels *)

(** The channels that are linked from [ch] on, up to one that is not chained. *)
Inductive path (xs : list dma_config) : Z -> list Z -> Prop :=
  | path_end ch c : 0 <= ch -> xs !! Z.to_nat ch = Some c -> chained c = false -> path xs ch [ch]
  | path_link ch c l :
      0 <= ch -> xs !! Z.to_nat ch = Some c -> chained c = true -> path xs (linked_channel c) l -> path xs ch (ch :: l).

Lemma path_unique xs ch l : path xs ch l -> forall l', path xs ch l' -> l' = l.
Proof.
  induction 1 as [ch c H0 Hc Hn|ch c l H0 Hc Hn _ IH]; intros l' Hl';
    inversion Hl' as [? c' ? Hc'|? c' ? ? Hc']; subst; (assert (c' = c) as -> by congruence); try congruence.
  f_equal. by apply IH.
Qed.

Lemma path_suffix xs ch l x l1 l2 : path xs ch l -> l = l1 ++ x :: l2 -> path xs x (x :: l2).
Proof.
  intros Hp. revert l1. induction Hp as [ch c H0 Hc Hn|ch c l H0 Hc Hn Hp IH]; intros l1 E;
    (destruct l1 as [|y l1]; simpl in E; simplify_eq).
  - by econstructor.
  - by destruct l1.
  - by eapply path_link.
  - by eapply IH.
Qed.

Lemma path_nodup xs ch l : path xs ch l -> NoDup l.
Proof.
  induction 1 as [ch c H0 Hc Hn|ch c l H0 Hc Hn Hp IH]; [apply NoDup_singleton|].
  apply list.NoDup_cons. split; [|done]. intros (l1 & l2 & ->)%list_elem_of_split.
  pose proof (path_link xs ch c _ H0 Hc Hn Hp) as Hp1.
  pose proof (path_suffix _ _ _ _ _ _ Hp eq_refl) as Hp2.
  apply (path_unique _ _ _ Hp1) in Hp2. apply (f_equal length) in Hp2. simpl in Hp2. rewrite length_app in Hp2.
  simpl in Hp2. lia.
Qed.

Lemma path_range xs ch l x : path xs ch l -> x ∈ l -> 0 <= x < Z.of_nat (length xs).
Proof.
  induction 1 as [ch c H0 Hc Hn|ch c l H0 Hc Hn Hp IH]; intros Hx; apply lookup_lt_Some in Hc.
  - apply list_elem_of_singleton in Hx as ->. lia.
  - apply elem_of_cons in Hx as [->|Hx]; [lia|by apply IH].
Qed.

Lemma path_length xs ch l : path xs ch l -> (length l <= length xs)%nat.
Proof.
  intros Hp. assert (length l <= length (seqZ 0 (Z.of_nat (length xs))))%nat as Hl.
  { apply submseteq_length, NoDup_submseteq; [by eapply path_nodup|].
    intros x Hx. apply elem_of_seqZ. pose proof (path_range _ _ _ _ Hp Hx). lia. }
  rewrite length_seqZ in Hl. lia.
Qed.

(** The state of a channel does not matter to its links. *)
Lemma path_alter xs s i ch l : path xs ch l -> path (alter (set_reserved s) i xs) ch l.
Proof.
  assert (forall n c, xs !! n = Some c ->
    exists c', alter (set_reserved s) i xs !! n = Some c' /\ chained c' = chained c /\ linked_channel c' = linked_channel c) as H.
  { intros n c Hc. destruct (decide (i = n)) as [->|].
    - rewrite list_lookup_alter_eq, Hc. by eexists.
    - rewrite list_lookup_alter_ne by done. by exists c. }
  induction 1 as [ch c H0 Hc Hn|ch c l H0 Hc Hn Hp IH]; destruct (H _ _ Hc) as (c' & Hc' & E1 & E2).
  - eapply path_end; [done|exact Hc'|congruence].
  - eapply path_link; [done|exact Hc'|congruence|by rewrite E2].
Qed.

Lemma path_alter_inv xs s i ch l : path (alter (set_reserved s) i xs) ch l -> path xs ch l.
Proof.
  intros Hp. remember (alter (set_reserved s) i xs) as ys eqn:Ey.
  assert (forall n c', ys !! n = Some c' ->
    exists c, xs !! n = Some c /\ chained c' = chained c /\ linked_channel c' = linked_channel c) as H.
  { intros n c' Hc. subst ys. destruct (decide (i = n)) as [->|].
    - rewrite list_lookup_alter_eq in Hc. destruct (xs !! n) as [c|]; [|done]. simpl in Hc. simplify_eq. by exists c.
    - rewrite list_lookup_alter_ne in Hc by done. by exists c'. }
  induction Hp as [ch c H0 Hc Hn|ch c l H0 Hc Hn Hp IH]; destruct (H _ _ Hc) as (c' & Hc' & E1 & E2).
  - eapply path_end; [done|exact Hc'|congruence].
  - eapply path_link; [done|exact Hc'|congruence|]. rewrite <-E2. by apply IH.
Qed.

(** The channels of [l] are set to STARTED. *)
Definition started (l : list Z) (a : dma U) : dma U :=
  foldl (fun a ch => set_xfer (alter (set_reserved DMA_EMUL_CHANNEL_STARTED) (Z.to_nat ch) (xfer a)) a) a l.

Lemma start_one w ch c :
  0 <= ch < num_channels -> xfer (w_app w) !! Z.to_nat ch = Some c ->
  dma_emul_set_channel_state ch DMA_EMUL_CHANNEL_STARTED w = Ret tt (with_dma (started [ch] (w_app w)) w).
Proof.
  intros Hr Hc. rewrite (set_channel_state w ch _ c) by (done || split; vm_compute; congruence).
  simpl. do 3 f_equal. apply list_eq. intros i. destruct (decide (i = Z.to_nat ch)) as [->|].
  - rewrite list_lookup_insert_eq, list_lookup_alter_eq, Hc by (by eapply lookup_lt_Some). done.
  - by rewrite list_lookup_insert_ne, list_lookup_alter_ne by done.
Qed.

Lemma start_links fuel : forall l ch w,
  Z.of_nat (length (xfer (w_app w))) = num_channels -> path (xfer (w_app w)) ch l -> (length l <= fuel)%nat ->
  start_channels fuel ch w = Ret tt (with_dma (started l (w_app w)) w).
Proof.
  induction fuel as [|fuel IH]; intros l ch w Hx Hp Hl; [inversion Hp; subst; simpl in Hl; lia|].
  inversion Hp as [ch' c H0 Hc Hn|ch' c l' H0 Hc Hn Hp']; subst; pose proof (lookup_lt_Some _ _ _ Hc);
    simpl; (erewrite bind_Ret by (eapply start_one; [lia|exact Hc])); erewrite bind_Ret by reflexivity;
    simpl; rewrite list_lookup_alter_eq, Hc; simpl.
  - change (chained (set_reserved DMA_EMUL_CHANNEL_STARTED c)) with (chained c). by rewrite Hn.
  - change (chained (set_reserved DMA_EMUL_CHANNEL_STARTED c)) with (chained c). rewrite Hn.
    rewrite (IH l'); simpl; [done| | |simpl in Hl; lia]; [by rewrite length_alter|by apply path_alter].
Qed.

Lemma start_endless fuel : forall ch w,
  Z.of_nat (length (xfer (w_app w))) = num_channels -> 0 <= ch < num_channels ->
  Forall (fun c => 0 <= linked_channel c < num_channels) (xfer (w_app w)) ->
  (forall l, ~ path (xfer (w_app w)) ch l) -> start_channels fuel ch w = NoFuel.
Proof.
  induction fuel as [|fuel IH]; intros ch w Hx Hr Hin Hno; [done|]. simpl.
  destruct (lookup_lt_is_Some_2 (xfer (w_app w)) (Z.to_nat ch)) as [c Hc]; [lia|].
  erewrite bind_Ret by (by eapply start_one). erewrite bind_Ret by reflexivity. simpl.
  rewrite list_lookup_alter_eq, Hc. simpl.
  change (chained (set_reserved DMA_EMUL_CHANNEL_STARTED c)) with (chained c).
  destruct (chained c) eqn:Hn; [|destruct (Hno [ch]); eapply path_end; [lia|exact Hc|exact Hn]].
  apply IH; simpl.
  - by rewrite length_alter.
  - rewrite Forall_lookup in Hin. by eapply (Hin (Z.to_nat ch)).
  - rewrite Forall_lookup in Hin |- *. intros i c' Hi. destruct (decide (Z.to_nat ch = i)) as [<-|].
    + rewrite list_lookup_alter_eq, Hc in Hi. simpl in Hi. simplify_eq. exact (Hin _ _ Hc).
    + rewrite list_lookup_alter_ne in Hi by done. by eapply Hin.
  - intros l Hp%path_alter_inv. apply (Hno (ch :: l)). eapply path_link; [lia|done..].
Qed.

(** C18. The loop of [dma_emul_start] over linked channels ends exactly if the
    links lead to a channel that is not chained.  Then they pass no channel
    twice, so that the number of channels bounds the iterations, and the
    channels on the way are set to STARTED.  Otherwise (the links are cyclic)
    the loop never ends. *)
Theorem start_links_terminate w ch :
  dma_ok (w_app w) -> 0 <= ch < num_channels ->
  Forall (fun c => 0 <= linked_channel c < num_channels) (xfer (w_app w)) ->
  (forall l, path (xfer (w_app w)) ch l ->
     NoDup l /\ Z.of_nat (length l) <= num_channels /\
     forall fuel, (length l <= fuel)%nat -> start_channels fuel ch w = Ret tt (with_dma (started l (w_app w)) w)) /\
  ((forall l, ~ path (xfer (w_app w)) ch l) -> forall fuel, start_channels fuel ch w = NoFuel).
Proof.
  intros (Hx & _) Hr Hin. split.
  - intros l Hp. split_and!; [by eapply path_nodup|pose proof (path_length _ _ _ Hp); lia|].
    intros fuel Hf. by apply start_links.
  - intros Hno fuel. by apply start_endless.
Qed.

(** ** Bursts *)

Lemma bind_inv {A B} (m : M W A) (k : A -> M W B) w b w' :
  bind m k w = Ret b w' -> exists x w1, m w = Ret x w1 /\ k x w1 = Ret b w'.
Proof. unfold bind. destruct (m w) as [x w1| | |]; try done. by exists x, w1. Qed.

(** The burst length is not checked.  With a burst length of 0 the transfer of
    a block is over at once: nothing is copied, and the handler goes on to
    report completion.  With bursts of more than four bytes it never completes
    in a defined way: copying the first result reads past the four bytes of
    [result], unless the transfer is cancelled before. *)
Lemma burst_length_unchecked waits fuel ch cfg b w :
  (dest_burst_length cfg = 0 -> 0 <= block_size b -> transfer_bursts waits fuel ch cfg b w = Ret true w) /\
  (4 < dest_burst_length cfg -> 4 < block_size b ->
   forall r w', transfer_bursts waits fuel ch cfg b w = Ret r w' -> r = false).
Proof.
  split.
  - intros Hb Hs. destruct fuel; simpl; by rewrite Hb, Z.min_r by lia.
  - intros Hb Hs r w'. destruct fuel; simpl; rewrite (proj2 (Z.ltb_lt _ _)) by lia; [done|].
    intros (? & w1 & _ & E)%bind_inv. apply bind_inv in E as (s & w2 & _ & E).
    destruct (s =? DMA_EMUL_CHANNEL_STOPPED).
    + apply bind_inv in E as (? & w3 & _ & E). unfold ret in E. by simplify_eq.
    + apply bind_inv in E as (? & w3 & _ & E). apply bind_inv in E as (c & w4 & _ & E).
      apply bind_inv in E as (? & w5 & _ & E). apply bind_inv in E as (? & w6 & _ & E).
      apply bind_inv in E as (? & w7 & E & _). unfold copy_result, bind, get_dma in E.
      by rewrite (proj2 (Z.ltb_lt _ _)) in E by lia.
Qed.

(** ** Other threads *)

(** A burst of [bytes] bytes, once the state of the channel was checked. *)
Definition burst (waits : nat) (bytes : Z) (b : dma_block_config) : M W unit :=
  let! client := first_client in
  warppipe_read client 0 (source_address b) bytes PCIE_COMPLETION_CB ;;
  wait_result waits ;;
  copy_result (dest_address b) bytes.

(** [k] bursts of the channel [ch] lead from the block [b] in [w] to what is left of
    it, [b'], in [w'].  Other threads run before each of them; they leave the
    channel STARTED, or, where assertions are off, in any state but STOPPED. *)
Inductive bursts (waits : nat) (ch : Z) (cfg : dma_config) :
    nat -> dma_block_config -> W -> dma_block_config -> W -> Prop :=
  | bursts_none b w : bursts waits ch cfg 0 b w b w
  | bursts_next k b w w1 c w2 b' w' :
      0 < Z.min (block_size b) (dest_burst_length cfg) ->
      other_threads w = Ret tt w1 -> xfer (w_app w1) !! Z.to_nat ch = Some c ->
      _reserved c <> DMA_EMUL_CHANNEL_STOPPED ->
      CONFIG_ASSERT = false \/ _reserved c = DMA_EMUL_CHANNEL_STARTED ->
      burst waits (Z.min (block_size b) (dest_burst_length cfg)) b w1 = Ret tt w2 ->
      bursts waits ch cfg k (advance (Z.min (block_size b) (dest_burst_length cfg)) b) w2 b' w' ->
      bursts waits ch cfg (S k) b w b' w'.

(** The start of a burst: the lock is taken and the state looked at. *)
Lemma burst_begins waits fuel ch cfg b w w1 c :
  0 < Z.min (block_size b) (dest_burst_length cfg) -> 0 <= ch < num_channels ->
  other_threads w = Ret tt w1 -> xfer (w_app w1) !! Z.to_nat ch = Some c ->
  transfer_bursts waits (S fuel) ch cfg b w =
    (if _reserved c =? DMA_EMUL_CHANNEL_STOPPED then
       (if error_callback_en cfg then call_dma_callback (dma_callback cfg) (user_data cfg) ch ECANCELED else ret tt) ;;
       ret false
     else
       dma_assert (_reserved c =? DMA_EMUL_CHANNEL_STARTED) ;;
       burst waits (Z.min (block_size b) (dest_burst_length cfg)) b ;;
       transfer_bursts waits fuel ch cfg (advance (Z.min (block_size b) (dest_burst_length cfg)) b)) w1.
Proof.
  intros Hb Hch Ho Hc. cbn [transfer_bursts]. rewrite (proj2 (Z.ltb_lt _ _)) by done. unfold k_spin_lock.
  erewrite bind_Ret by exact Ho. erewrite bind_Ret by by apply get_channel_state.
  case_match; [done|]. apply bind_ext. intros [] w2. unfold burst. rewrite bind_assoc. apply bind_ext. intros cl w3.
  rewrite bind_assoc. apply bind_ext. intros r w4. by rewrite bind_assoc.
Qed.

Lemma bursts_run waits fuel ch cfg k b w b' w' :
  0 <= ch < num_channels -> bursts waits ch cfg k b w b' w' ->
  transfer_bursts waits (k + fuel) ch cfg b w = transfer_bursts waits fuel ch cfg b' w'.
Proof.
  intros Hch. induction 1 as [|k b w w1 c w2 b' w' Hb Ho Hc Hn Hs Hbu _ IH]; [done|].
  cbn [Nat.add]. erewrite burst_begins by done. rewrite (proj2 (Z.eqb_neq _ _) Hn).
  assert ((_reserved c =? DMA_EMUL_CHANNEL_STARTED) || negb CONFIG_ASSERT = true) as Ha
    by (destruct Hs as [->| ->]; [apply orb_true_r|done]).
  unfold dma_assert. rewrite Ha. erewrite bind_Ret by reflexivity. by erewrite bind_Ret by exact Hbu.
Qed.

Lemma transfer_blocks_app waits fuel ch cfg m n : forall i w w1,
  transfer_blocks waits fuel ch cfg m i w = Ret true w1 ->
  transfer_blocks waits fuel ch cfg (m + n) i w = transfer_blocks waits fuel ch cfg n (i + Z.of_nat m) w1.
Proof.
  induction m as [|m IH]; intros i w w1 E; cbn [transfer_blocks Nat.add] in *.
  { injection E as ->. by rewrite Z.add_0_r. }
  unfold bind in *. destruct (k_spin_lock w) as [? w2| | |]; try done. simpl in *.
  destruct (block (w_app w2) !! _) as [b|]; [|done].
  destruct (transfer_bursts waits fuel ch cfg b w2) as [[] w3| | |]; try done.
  rewrite (IH (i + 1) w3 w1 E). f_equal. lia.
Qed.

(** The handler has come to a burst of the channel [ch]: it copied the configuration
    [cfg] of the channel, transferred [i] blocks and [k] bursts of the next one, and
    has bytes of it left, [b']; it is about to take the lock, in [w']. *)
Record at_burst (waits fuel : nat) (ch : Z) (w : W) (cfg : dma_config) (i k : nat) (b' : dma_block_config) (w' : W) : Prop := {
  ab_channel : 0 <= ch < num_channels;
  ab_fuel : (k < fuel)%nat;
  ab_index : (i < Z.to_nat (block_count cfg))%nat;
  ab_left : 0 < Z.min (block_size b') (dest_burst_length cfg);
  ab_run : exists w1 w2 w3 b,
    other_threads w = Ret tt w1 /\ xfer (w_app w1) !! Z.to_nat ch = Some cfg /\
    transfer_blocks waits fuel ch cfg i 0 w1 = Ret true w2 /\ other_threads w2 = Ret tt w3 /\
    block (w_app w3) !! Z.to_nat (ch * num_requests + dma_slot cfg + Z.of_nat i) = Some b /\
    bursts waits ch cfg k b w3 b' w';
}.

(** What the handler does from there on. *)
Lemma at_burst_run waits fuel links ch w cfg i k b' w' :
  at_burst waits fuel ch w cfg i k b' w' -> exists n,
  transfer_channels waits fuel (S links) ch w =
    (let! r := (let! r := transfer_bursts waits (S (fuel - S k)) ch cfg b' in
                if r then transfer_blocks waits fuel ch cfg n (Z.of_nat i + 1) else ret false) in
     if negb r then ret tt
     else
       k_spin_lock ;;
       dma_emul_set_channel_state ch DMA_EMUL_CHANNEL_STOPPED ;;
       call_dma_callback (dma_callback cfg) (user_data cfg) ch DMA_STATUS_COMPLETE ;;
       if chained cfg then
         dma_assert (negb (ch =? linked_channel cfg)) ;;
         transfer_channels waits fuel links (linked_channel cfg)
       else ret tt) w'.
Proof.
  intros [Hch Hf Hi Hl (w1 & w2 & w3 & b & H1 & Hx & Hbl & H3 & Hb & Hbu)].
  set (n := (Z.to_nat (block_count cfg) - S i)%nat). exists n.
  cbn [transfer_channels]. unfold k_spin_lock at 1. erewrite bind_Ret by exact H1.
  erewrite bind_Ret by reflexivity. rewrite Hx.
  replace (Z.to_nat (block_count cfg)) with (i + S n)%nat by lia. unfold bind at 1 7.
  rewrite (transfer_blocks_app _ _ _ _ _ _ _ _ _ Hbl), Z.add_0_l. cbn [transfer_blocks].
  unfold k_spin_lock at 1. erewrite bind_Ret by exact H3. erewrite bind_Ret by reflexivity. rewrite Hb.
  unfold bind at 1 7. replace fuel with (k + S (fuel - S k))%nat at 1 by lia.
  by rewrite (bursts_run _ _ _ _ _ _ _ _ _ Hch Hbu).
Qed.

(** C21. What other threads can do to a transfer.  They run whenever the handler
    takes the lock, in particular before each burst.  When the handler has come to
    a burst, after any number of blocks and bursts, and they have stopped the
    channel, the handler returns from there: no further byte of any block is
    copied, completion is not reported, the channel's state is left alone and no
    linked channel is served; the callback is told of the cancellation exactly if
    that was asked for.  If the channel is neither STOPPED nor STARTED (it was
    stopped and configured again), an assertion fails, where assertions are on. *)
Theorem transfer_disturbed waits fuel links ch w cfg i k b' w' w1 c :
  at_burst waits fuel ch w cfg i k b' w' ->
  other_threads w' = Ret tt w1 -> xfer (w_app w1) !! Z.to_nat ch = Some c ->
  (_reserved c = DMA_EMUL_CHANNEL_STOPPED ->
   transfer_channels waits fuel (S links) ch w =
     if error_callback_en cfg
     then call_dma_callback (dma_callback cfg) (user_data cfg) ch ECANCELED w1
     else Ret tt w1) /\
  (_reserved c <> DMA_EMUL_CHANNEL_STOPPED -> _reserved c <> DMA_EMUL_CHANNEL_STARTED -> CONFIG_ASSERT = true ->
   transfer_channels waits fuel (S links) ch w = Aborted w1).
Proof.
  intros Hat Ho Hc. destruct (at_burst_run waits fuel links _ _ _ _ _ _ _ Hat) as [n ->].
  destruct Hat as [Hch _ _ Hl _].
  pose proof (burst_begins waits (fuel - S k) ch cfg b' w' w1 c Hl Hch Ho Hc) as Hrun. split.
  - intros Hs. rewrite Hs in Hrun. unfold bind in *. rewrite Hrun. simpl.
    destruct (error_callback_en cfg); [|done]. by destruct (call_dma_callback _ _ _ _ w1) as [[]| | |].
  - intros Hn Hm Ha. rewrite (proj2 (Z.eqb_neq _ _) Hn) in Hrun. unfold dma_assert in Hrun.
    rewrite (proj2 (Z.eqb_neq _ _) Hm), Ha in Hrun. unfold bind in *. by rewrite Hrun.
Qed.
End States.

(** ** The properties on a concrete driver *)

(** Two channels with two slots each. *)
#[local] Instance ex_instance : DmaInstance :=
  {| num_channels := 2; num_requests := 2; CONFIG_ASSERT := true; dma_addr_bits := 32 |}.

(** The callback records its calls. *)
#[local] Instance ex_env : DmaEnv sim_os (list (Z * dma_status)) := {|
  call_dma_callback cb _ ch st := let! s := get_dma in put_dma (set_user (user s ++ [(ch, st)]) s);
  other_threads := ret tt;
  k_work_submit_to_queue := ret 1;
|}.

#[local] Instance ex_user_keeps : DmaUserKeeps (INST := ex_instance) (os := sim_os) (U := list (Z * dma_status)).
Proof.
  constructor; [|intros w x w' Hw E; by inversion E; subst..].
  intros cb p ch st. apply ak_update. intros a Ha w x w' _ E. by inversion E; subst.
Qed.

(** A configuration of two blocks for the slots of a channel. *)
Definition ex_config (slot : Z) (linked : option Z) : dma_config :=
  mk_config slot true (bool_decide (is_Some linked)) false (default 0 linked) 4 4 (2 - slot) 10 NULL 900 0.

Definition ex_dma (x0 x1 : dma_config) : dma (list (Z * dma_status)) :=
  mk_dma _ [x0; x1] (replicate 4 (mk_block 0 0 0 NULL)) 0 [0; 0; 0; 0] false ∅ ∅
    {[10 := mk_block 0 0x100 8 11; 11 := mk_block 8 0x200 8 NULL]} [].

Definition ex_world (x0 x1 : dma_config) : world sim_os (dma (list (Z * dma_status))) :=
  mk_world _ _ (w_os (sim_world [])) (w_server (sim_world [])) (w_clients (sim_world [])) (ex_dma x0 x1) static_init.

Definition ex_channel (s : Z) (linked : option Z) : dma_config := set_reserved s (ex_config 0 linked).

Lemma ex_ok s0 s1 l0 l1 :
  state_ok s0 -> state_ok s1 ->
  dma_ok (INST := ex_instance) (ex_dma (ex_channel s0 l0) (ex_channel s1 l1)).
Proof.
  intros H0 H1. split_and!; [done..|]. repeat (apply Forall_cons_2; [done|]). apply Forall_nil_2.
Qed.

Lemma ex_unused_ok : state_ok 0.
Proof. split; vm_compute; congruence. Qed.

Definition ex_idle : world sim_os (dma (list (Z * dma_status))) := ex_world (ex_channel 0 None) (ex_channel 0 None).

Lemma configure_spec_witness :
  exists w', dma_emul_configure (INST := ex_instance) 1 (ex_config 0 None) ex_idle = Ret 0 w' /\
    block (w_app w') !! 2%nat = Some (mk_block 0 0x100 8 11) /\
    block (w_app w') !! 3%nat = Some (mk_block 8 0x200 8 NULL) /\
    dma_emul_configure (INST := ex_instance) 2 (ex_config 0 None) ex_idle = Ret (-22) ex_idle.
Proof.
  pose proof (configure_spec (INST := ex_instance) ex_idle) as Hspec.
  destruct (Hspec 1 (ex_config 0 None)) as [_ H]; [apply ex_ok; apply ex_unused_ok|done|].
  destruct (H [mk_block 0 0x100 8 11; mk_block 8 0x200 8 NULL] (ex_channel 0 None)) as (_ & Hok & _).
  { constructor; try (simpl; lia); try done. exists NULL. repeat (econstructor; [done|done|]). constructor. }
  { done. }
  destruct Hok as (w' & E & _ & _ & Hin & _); [by left|simpl; lia|].
  exists w'. split_and!; [exact E|by apply (Hin 0%nat)|by apply (Hin 1%nat)|].
  destruct (Hspec 2 (ex_config 0 None)) as [Hr _]; [apply ex_ok; apply ex_unused_ok|done|].
  apply Hr. right. left. simpl. lia.
Defined.

Lemma start_links_terminate_witness :
  start_channels (INST := ex_instance) 2 1 (ex_world (ex_channel 1 None) (ex_channel 1 (Some 0))) =
    Ret tt (ex_world (ex_channel 2 None) (ex_channel 2 (Some 0))) /\
  start_channels (INST := ex_instance) 100 0 (ex_world (ex_channel 1 (Some 1)) (ex_channel 1 (Some 0))) = NoFuel.
Proof.
  assert (state_ok 1) as H1 by (split; vm_compute; congruence).
  assert (forall l0 l1, (l0 = None \/ l0 = Some 1) -> (l1 = Some 0) ->
    Forall (fun c => 0 <= linked_channel c < 2) [ex_channel 1 l0; ex_channel 1 l1]) as Hl.
  { intros l0 l1 [->| ->] ->; repeat (apply Forall_cons_2; [simpl; lia|]); apply Forall_nil_2. }
  split.
  - destruct (start_links_terminate (INST := ex_instance) (ex_world (ex_channel 1 None) (ex_channel 1 (Some 0))) 1)
      as [Hp _]; [by apply ex_ok|simpl; lia|apply Hl; by auto|].
    destruct (Hp [1; 0]) as (_ & _ & Hrun).
    + eapply path_link; [lia|done|done|]. by eapply path_end.
    + rewrite Hrun by (simpl; lia). reflexivity.
  - destruct (start_links_terminate (INST := ex_instance) (ex_world (ex_channel 1 (Some 1)) (ex_channel 1 (Some 0))) 0)
      as [_ Hn]; [by apply ex_ok|simpl; lia|apply Hl; by auto|]. apply Hn. intros l.
    assert (forall xs ch l, path xs ch l -> xs = [ex_channel 1 (Some 1); ex_channel 1 (Some 0)] -> ch = 0 \/ ch = 1 -> False)
      as Hno.
    { clear. induction 1 as [ch c H0 Hc Hn|ch c l H0 Hc Hn Hp IH]; intros -> [->| ->]; simpl in Hc; simplify_eq;
        first [by vm_compute in Hn | apply IH; [done|simpl; auto]]. }
    intros Hp. eapply Hno; [exact Hp|done|by left].
Defined.

Example burst_length_unchecked_run :
  transfer_bursts (INST := ex_instance) 1 1 0 (mk_config 0 true false false 0 0 0 1 10 NULL 900 0) (mk_block 0 0x100 8 NULL) ex_idle =
    Ret true ex_idle.
Proof.
  apply (burst_length_unchecked (INST := ex_instance) 1 1 0 (mk_config 0 true false false 0 0 0 1 10 NULL 900 0)); simpl; lia.
Qed.

(** Another thread stops the channel and configures it again. *)
#[local] Instance ex_racing : DmaEnv sim_os (list (Z * dma_status)) := {|
  call_dma_callback cb p ch st := call_dma_callback (DmaEnv := ex_env) cb p ch st;
  other_threads :=
    dma_emul_stop (INST := ex_instance) (DmaEnv0 := ex_env) 0 ;;
    dma_emul_configure (INST := ex_instance) (DmaEnv0 := ex_env) 0 (ex_config 0 None) ;; ret tt;
  k_work_submit_to_queue := ret 1;
|}.

(** Another thread stops the channel. *)
#[local] Instance ex_stopping : DmaEnv sim_os (list (Z * dma_status)) := {|
  call_dma_callback cb p ch st := call_dma_callback (DmaEnv := ex_env) cb p ch st;
  other_threads := dma_emul_stop (INST := ex_instance) (DmaEnv0 := ex_env) 0 ;; ret tt;
  k_work_submit_to_queue := ret 1;
|}.

(** Channel 0 is linked to channel 1 and has a block of eight bytes; cancellation is
    reported. *)
Definition ex_linked (s : Z) : dma_config := mk_config 0 true true false 1 4 4 1 10 NULL 900 s.
Definition ex_transfer (s : Z) : world sim_os (dma (list (Z * dma_status))) :=
  let w := ex_world (ex_linked s) (ex_channel 2 None) in
  with_dma (mk_dma _ (xfer (w_app w)) (replicate 4 (mk_block 0 0x100 8 NULL)) 0 [0; 0; 0; 0] false ∅ ∅
              (descriptors (w_app w)) []) w.

Lemma transfer_disturbed_witness :
  (exists w1, transfer_channels (INST := ex_instance) (DmaEnv0 := ex_stopping) 1 1 2 0 (ex_transfer 2) = Ret tt w1 /\
     user (w_app w1) = [(0, ECANCELED)] /\ _reserved <$> xfer (w_app w1) = [3; 2]) /\
  (exists w1, transfer_channels (INST := ex_instance) (DmaEnv0 := ex_racing) 1 1 2 0 (ex_transfer 2) = Aborted w1).
Proof.
  split.
  - destruct (transfer_disturbed (INST := ex_instance) (DmaEnv0 := ex_stopping) 1 1 1 0 (ex_transfer 2) (ex_linked 3) 0 0
      (mk_block 0 0x100 8 NULL) (ex_transfer 3) (ex_transfer 3) (ex_linked 3)) as [H _]; [|reflexivity..|].
    + constructor; [split; reflexivity|lia|simpl; lia|simpl; lia|].
      exists (ex_transfer 3), (ex_transfer 3), (ex_transfer 3), (mk_block 0 0x100 8 NULL).
      split_and!; [reflexivity..|apply bursts_none].
    + rewrite (H eq_refl). eexists. split; [reflexivity|]. split; reflexivity.
  - set (raced := fun w => match other_threads (DmaEnv := ex_racing) w with Ret _ w' => w' | _ => w end).
    set (w1 := raced (ex_transfer 2)). exists (raced (raced w1)).
    destruct (transfer_disturbed (INST := ex_instance) (DmaEnv0 := ex_racing) 1 1 1 0 (ex_transfer 2)
      (ex_channel 1 None) 0 0 (mk_block 0 0x100 8 11) (raced w1) (raced (raced w1)) (ex_channel 1 None)) as [_ H];
      [|vm_compute; reflexivity..|].
    + constructor; [split; reflexivity|lia|simpl; lia|simpl; lia|].
      exists w1, w1, (raced w1), (mk_block 0 0x100 8 11).
      split_and!; [vm_compute; reflexivity..|apply bursts_none].
    + apply H; [discriminate|discriminate|reflexivity].
Defined.
