(* ===== verification/DmaTree.v ===== *)
(** * Instances of the DMA controller

    How [dma_emul.c] makes a driver from a node of the device tree: the macros
    that read its properties and allocate the arrays, the initialisation, and the
    functions that format configurations for the log.  The driver of every
    instance that the build accepts is well formed from the start, and stays so. *)

From S2P Require Import Prelude Layout Proto Crc World Client Sim Server ServerSpec Host Yaml Frame Dma DmaStates.

(** ** The device tree *)

(** The properties of a node that the macros read. *)
Record dt_node := mk_node {
  dma_channels : option Z;
  dma_channel_mask : option Z;
  dma_requests : option Z;
  dma_buf_addr_alignment : option Z;
  dma_buf_size_alignment : option Z;
  dma_copy_alignment : option Z;
  stack_size : Z;
  priority : option Z;
}.

Definition DT_INST_PROP_OR (prop : option Z) (default_value : Z) : Z := default default_value prop.

(** The macros of [sys/util.h] that are used, and of [sys/atomic.h] the bits of an
    [atomic_t] and the number of them that [ATOMIC_DEFINE] declares for a bitmap. *)
Class ZephyrUtil := {
  POPCOUNT : Z -> Z;
  BIT_MASK : Z -> Z;
  ATOMIC_BITS : Z;
  ATOMIC_BITMAP_SIZE : Z -> Z;
}.

(** The number of one bits among the low [n]. *)
Fixpoint one_bits (n : nat) (z : Z) : Z :=
  match n with O => 0 | S n => Z.b2z (Z.testbit z (Z.of_nat n)) + one_bits n z end.

Class ZephyrUtilLaws (UTIL : ZephyrUtil) : Prop := {
  popcount_spec z : 0 <= z < 2 ^ 32 -> POPCOUNT z = one_bits 32 z;
  bit_mask_spec n : 0 <= n < 32 -> BIT_MASK n = 2 ^ n - 1;
  atomic_bitmap_room n : 0 <= n -> n <= ATOMIC_BITS * ATOMIC_BITMAP_SIZE n;
  atomic_bits_pos : 0 < ATOMIC_BITS;
}.

(** [struct dma_emul_config], without the addresses of the stack and the arrays. *)
Record dma_emul_config := mk_emul_config {
  channel_mask : Z;
  cfg_num_channels : Z;
  cfg_num_requests : Z;
  addr_align : Z;
  size_align : Z;
  copy_align : Z;
  work_q_stack_size : Z;
  work_q_priority : Z;
}.

Section Tree.
Context {UTIL : ZephyrUtil}.

Definition DMA_EMUL_INST_HAS_PROP (prop : option Z) : bool := bool_decide (is_Some prop).

Definition DMA_EMUL_INST_CHANNEL_MASK (inst : dt_node) : Z :=
  DT_INST_PROP_OR (dma_channel_mask inst)
    (if DMA_EMUL_INST_HAS_PROP (dma_channels inst)
     then if 0 <? default 0 (dma_channels inst) then BIT_MASK (DT_INST_PROP_OR (dma_channels inst) 0) else 0
     else 0).

Definition DMA_EMUL_INST_NUM_CHANNELS (inst : dt_node) : Z :=
  DT_INST_PROP_OR (dma_channels inst)
    (if DMA_EMUL_INST_HAS_PROP (dma_channel_mask inst) then POPCOUNT (DT_INST_PROP_OR (dma_channel_mask inst) 0) else 0).

Definition DMA_EMUL_INST_NUM_REQUESTS (inst : dt_node) : Z := DT_INST_PROP_OR (dma_requests inst) 1.

(** Static memory is zero. *)
Definition zero_config : dma_config := mk_config 0 false false false 0 0 0 0 NULL NULL NULL 0.
Definition zero_block : dma_block_config := mk_block 0 0 0 NULL.

(** The configuration of an instance and its arrays: transfers, blocks and the bitmap
    [dma_emul_channels_atomic]; [None] where a [BUILD_ASSERT] fails. *)
Definition DEFINE_DMA_EMUL (inst : dt_node) :
    option (dma_emul_config * list dma_config * list dma_block_config * list Z) :=
  if negb (DMA_EMUL_INST_HAS_PROP (dma_channel_mask inst) || DMA_EMUL_INST_HAS_PROP (dma_channels inst)) then None
  else if negb (DMA_EMUL_INST_NUM_CHANNELS inst <=? 32) then None
  else
    Some (mk_emul_config (DMA_EMUL_INST_CHANNEL_MASK inst) (DMA_EMUL_INST_NUM_CHANNELS inst)
            (DMA_EMUL_INST_NUM_REQUESTS inst) (DT_INST_PROP_OR (dma_buf_addr_alignment inst) 1)
            (DT_INST_PROP_OR (dma_buf_size_alignment inst) 1) (DT_INST_PROP_OR (dma_copy_alignment inst) 1)
            (stack_size inst) (DT_INST_PROP_OR (priority inst) 0),
          replicate (Z.to_nat (DMA_EMUL_INST_NUM_CHANNELS inst)) zero_config,
          replicate (Z.to_nat (DMA_EMUL_INST_NUM_CHANNELS inst * DMA_EMUL_INST_NUM_REQUESTS inst)) zero_block,
          replicate (Z.to_nat (ATOMIC_BITMAP_SIZE (DT_INST_PROP_OR (dma_channels inst) 0))) 0).
End Tree.

(** ** Initialisation *)

(** The calls to the kernel that concern the work queue. *)
Inductive work_call := K_work_queue_init | K_work_init | K_work_queue_start (stack_size priority : Z).

(** [struct dma_context] and the rest of [struct dma_emul_data] that the
    initialisation sets; [work_calls] are the calls made. *)
Record dma_emul_data := mk_emul_data {
  work_dev : ptr;
  ctx_magic : Z;
  ctx_dma_channels : Z;
  ctx_atomic : ptr;
  channels_atomic : ptr;
  work_calls : list work_call;
}.

Definition dma_emul_init (DMA_MAGIC : Z) (dev : ptr) (config : dma_emul_config) (data : dma_emul_data) : Z * dma_emul_data :=
  (0, mk_emul_data dev DMA_MAGIC (cfg_num_channels config) (channels_atomic data) (channels_atomic data)
        (work_calls data ++ [K_work_queue_init; K_work_init;
                             K_work_queue_start (work_q_stack_size config) (work_q_priority config)])).

(** The power management hook. *)
Definition gpio_emul_pm_device_pm_action : Z := 0.

(** ** Log messages *)

Definition dma_emul_channel_state_to_string (state : Z) : string :=
  if state =? DMA_EMUL_CHANNEL_UNUSED then "UNUSED"
  else if state =? DMA_EMUL_CHANNEL_LOADED then "LOADED"
  else if state =? DMA_EMUL_CHANNEL_STARTED then "STARTED"
  else if state =? DMA_EMUL_CHANNEL_STOPPED then "STOPPED"
  else "(invalid)".

(** A format string, cut at its conversions. *)
Inductive piece := Text (s : string) | Unsigned (n : Z) | Pointer (p : Z).

(** [%u] of a 32-bit number: ten digits at most. *)
Fixpoint decimal (fuel : nat) (n : Z) : list Z :=
  match fuel with
  | O => []
  | S fuel => if n <? 10 then [48 + n] else decimal fuel (n / 10) ++ [48 + n mod 10]
  end.
Definition show_unsigned (n : Z) : list Z := decimal 10 n.

Section Strings.
(** [%p], which the implementation defines. *)
Context (show_pointer : Z -> list Z).

Definition show_piece (p : piece) : list Z :=
  match p with Text s => chars s | Unsigned n => show_unsigned n | Pointer p => show_pointer p end.

Definition render (ps : list piece) : list Z := concat (show_piece <$> ps).

(** [snprintf(buffer, size, ...)]: what the buffer holds before the null byte. *)
Definition snprintf (size : nat) (ps : list piece) : list Z := take (size - 1) (render ps).

(** A line for a field. *)
Definition field (name : string) (p : piece) : list piece := [Text ("
	" ++ name ++ ": "); p].
Definition braces (fields : list (list piece)) : list piece := Text "{" :: concat fields ++ [Text "
}"].

(** The fields of [struct dma_config] that only the log shows. *)
Record dma_config_log := mk_config_log {
  channel_direction : Z; complete_callback_en : Z; source_handshake : Z; dest_handshake : Z;
  channel_priority : Z; cyclic : Z; source_data_size : Z; dest_data_size : Z;
}.

Definition xfer_config_pieces (cfg : dma_config) (l : dma_config_log) : list piece :=
  braces [
    field "slot" (Unsigned (dma_slot cfg));
    field "channel_direction" (Unsigned (channel_direction l));
    field "complete_callback_en" (Unsigned (complete_callback_en l));
    field "error_callback_en" (Unsigned (Z.b2z (error_callback_en cfg)));
    field "source_handshake" (Unsigned (source_handshake l));
    field "dest_handshake" (Unsigned (dest_handshake l));
    field "channel_priority" (Unsigned (channel_priority l));
    field "source_chaining_en" (Unsigned (Z.b2z (source_chaining_en cfg)));
    field "dest_chaining_en" (Unsigned (Z.b2z (dest_chaining_en cfg)));
    field "linked_channel" (Unsigned (linked_channel cfg));
    field "cyclic" (Unsigned (cyclic l));
    field "_reserved" (Unsigned (_reserved cfg));
    field "source_data_size" (Unsigned (source_data_size l));
    field "dest_data_size" (Unsigned (dest_data_size l));
    field "source_burst_length" (Unsigned (source_burst_length cfg));
    field "dest_burst_length" (Unsigned (dest_burst_length cfg));
    field "block_count" (Unsigned (block_count cfg));
    field "head_block" (Pointer (head_block cfg));
    field "user_data" (Pointer (user_data cfg));
    field "dma_callback" (Pointer (dma_callback cfg))].

Definition dma_emul_xfer_config_to_string (cfg : dma_config) (l : dma_config_log) : list Z :=
  snprintf 1024 (xfer_config_pieces cfg l).

(** The fields of [struct dma_block_config] that only the log shows. *)
Record dma_block_log := mk_block_log {
  source_gather_interval : Z; dest_scatter_interval : Z; dest_scatter_count : Z; source_gather_count : Z;
  source_gather_en : Z; dest_scatter_en : Z; source_addr_adj : Z; dest_addr_adj : Z; source_reload_en : Z;
  dest_reload_en : Z; fifo_mode_control : Z; flow_control_mode : Z; block_reserved : Z;
}.

Definition block_config_pieces (cfg : dma_block_config) (l : dma_block_log) : list piece :=
  braces [
    field "source_address" (Pointer (source_address cfg));
    field "dest_address" (Pointer (dest_address cfg));
    field "source_gather_interval" (Unsigned (source_gather_interval l));
    field "dest_scatter_interval" (Unsigned (dest_scatter_interval l));
    field "dest_scatter_count" (Unsigned (dest_scatter_count l));
    field "source_gather_count" (Unsigned (source_gather_count l));
    field "block_size" (Unsigned (block_size cfg));
    field "next_block" (Pointer (next_block cfg));
    field "source_gather_en" (Unsigned (source_gather_en l));
    field "dest_scatter_en" (Unsigned (dest_scatter_en l));
    field "source_addr_adj" (Unsigned (source_addr_adj l));
    field "dest_addr_adj" (Unsigned (dest_addr_adj l));
    field "source_reload_en" (Unsigned (source_reload_en l));
    field "dest_reload_en" (Unsigned (dest_reload_en l));
    field "fifo_mode_control" (Unsigned (fifo_mode_control l));
    field "flow_control_mode" (Unsigned (flow_control_mode l));
    field "_reserved" (Unsigned (block_reserved l))].

Definition dma_emul_block_config_to_string (cfg : dma_block_config) (l : dma_block_log) : list Z :=
  snprintf 1024 (block_config_pieces cfg l).
End Strings.

(** ** Messages are complete *)

(** A number's digits, read back. *)
Definition read_decimal (ds : list Z) : Z := foldl (fun acc d => 10 * acc + (d - 48)) 0 ds.

Lemma decimal_value fuel : forall n, 0 <= n < 10 ^ Z.of_nat fuel -> read_decimal (decimal fuel n) = n.
Proof.
  induction fuel as [|fuel IH]; intros n Hn; [assert (n = 0) as -> by (change (10 ^ Z.of_nat 0) with 1 in Hn; lia); done|]. cbn [decimal].
  destruct (Z.ltb_spec n 10). { unfold read_decimal. cbn [foldl]. lia. }
  unfold read_decimal. rewrite foldl_app. fold (read_decimal (decimal fuel (n / 10))).
  rewrite Nat2Z.inj_succ, Z.pow_succ_r in Hn by lia. rewrite IH.
  - cbn [foldl]. pose proof (Z.div_mod n 10 ltac:(lia)). lia.
  - split; [apply Z.div_pos; lia|]. apply Z.div_lt_upper_bound; lia.
Qed.

Lemma decimal_length fuel : forall n, (length (decimal fuel n) <= fuel)%nat.
Proof.
  induction fuel as [|fuel IH]; intros n; simpl; [lia|]. case_match; simpl; [lia|].
  rewrite length_app. specialize (IH (n / 10)). simpl. lia.
Qed.

Definition piece_width (p : piece) : nat :=
  match p with Text s => length (chars s) | Unsigned _ => 10 | Pointer _ => 18 end.

Lemma render_length show_pointer (ps : list piece) :
  (forall p, (length (show_pointer p) <= 18)%nat) ->
  (length (render show_pointer ps) <= sum_list (piece_width <$> ps))%nat.
Proof.
  intros Hp. induction ps as [|p ps IH]; [done|].
  change (length (show_piece show_pointer p ++ render show_pointer ps) <= piece_width p + sum_list (piece_width <$> ps))%nat.
  assert (length (show_piece show_pointer p) <= piece_width p)%nat.
  { destruct p as [s|n|q]; [done|apply decimal_length|apply Hp]. }
  rewrite length_app. lia.
Qed.

Lemma snprintf_all show_pointer n (ps : list piece) :
  (forall p, (length (show_pointer p) <= 18)%nat) -> (sum_list (piece_width <$> ps) < n)%nat ->
  snprintf show_pointer n ps = render show_pointer ps /\ (length (render show_pointer ps) < n)%nat.
Proof.
  intros Hp Hn. pose proof (render_length show_pointer ps Hp). split; [|lia]. unfold snprintf. apply take_ge. lia.
Qed.

(** C39. The log messages are complete: where a pointer takes no more than 18
    characters, the description of a configuration and that of a block fit in
    their buffers of 1024 bytes with the null byte, whatever the values, so that
    no field is cut off; the digits shown for a 32-bit number denote it. *)
Theorem to_string_fits show_pointer cfg l b bl :
  (forall p, (length (show_pointer p) <= 18)%nat) ->
  dma_emul_xfer_config_to_string show_pointer cfg l = render show_pointer (xfer_config_pieces cfg l) /\
  (length (dma_emul_xfer_config_to_string show_pointer cfg l) < 1024)%nat /\
  dma_emul_block_config_to_string show_pointer b bl = render show_pointer (block_config_pieces b bl) /\
  (length (dma_emul_block_config_to_string show_pointer b bl) < 1024)%nat /\
  (forall n, 0 <= n < 2 ^ 32 -> read_decimal (show_unsigned n) = n).
Proof.
  intros Hp. unfold dma_emul_xfer_config_to_string, dma_emul_block_config_to_string.
  destruct (snprintf_all show_pointer 1024 (xfer_config_pieces cfg l) Hp) as [-> ?]; [vm_compute; lia|].
  destruct (snprintf_all show_pointer 1024 (block_config_pieces b bl) Hp) as [-> ?]; [vm_compute; lia|].
  split_and!; try done. intros n Hn. apply decimal_value. change (10 ^ Z.of_nat 10) with 10000000000. lia.
Qed.

Lemma to_string_fits_witness :
  (length (dma_emul_block_config_to_string (fun _ => chars "0x1000") (mk_block 0 0 32 NULL)
             (mk_block_log 4294967295 0 0 0 0 0 0 0 0 0 0 0 0)) < 1024)%nat.
Proof.
  apply (to_string_fits (fun _ => chars "0x1000") zero_config (mk_config_log 0 0 0 0 0 0 0 0) (mk_block 0 0 32 NULL)).
  intros p. vm_compute. lia.
Defined.

(** ** Instances are well formed *)

(** The cells of a device tree are unsigned 32-bit numbers. *)
Definition cell_ok (prop : option Z) : Prop := forall v, prop = Some v -> 0 <= v < 2 ^ 32.
Definition node_ok (inst : dt_node) : Prop :=
  cell_ok (dma_channels inst) /\ cell_ok (dma_channel_mask inst) /\ cell_ok (dma_requests inst).

Lemma one_bits_range n z : 0 <= one_bits n z <= Z.of_nat n.
Proof. induction n as [|n IH]; cbn [one_bits]; [lia|]. destruct (Z.testbit z (Z.of_nat n)); simpl; lia. Qed.

(** A mask of [k] ones has [k] ones. *)
Lemma one_bits_ones n : forall k, 0 <= k <= Z.of_nat n -> one_bits n (2 ^ k - 1) = k.
Proof.
  assert (forall n k, 0 <= k -> one_bits n (2 ^ k - 1) = Z.min (Z.of_nat n) k) as H; [|intros k Hk; rewrite H; lia].
  clear n. induction n as [|n IH]; intros k Hk; cbn [one_bits]; [lia|]. rewrite IH by done.
  replace (2 ^ k - 1) with (Z.ones k) by (rewrite Z.ones_equiv; lia).
  destruct (decide (Z.of_nat n < k)).
  - rewrite Z.ones_spec_low by lia. simpl. lia.
  - rewrite Z.ones_spec_high by lia. simpl. lia.
Qed.

#[local] Arguments one_bits : simpl never.

Section Reachable.
Context {UTIL : ZephyrUtil} {LAWS : ZephyrUtilLaws UTIL}.

Lemma num_channels_range inst r :
  node_ok inst -> DEFINE_DMA_EMUL inst = Some r ->
  0 <= DMA_EMUL_INST_NUM_CHANNELS inst <= 32 /\ 0 <= DMA_EMUL_INST_NUM_REQUESTS inst.
Proof.
  intros (H1 & H2 & H3). unfold DEFINE_DMA_EMUL. destruct (negb _); [done|].
  destruct (Z.leb_spec (DMA_EMUL_INST_NUM_CHANNELS inst) 32) as [Hle|]; [|done]. intros _. split.
  - split; [|done]. unfold DMA_EMUL_INST_NUM_CHANNELS, DT_INST_PROP_OR.
    destruct (dma_channels inst) as [c|]; simpl; [apply (H1 c eq_refl)|].
    unfold DMA_EMUL_INST_HAS_PROP. destruct (dma_channel_mask inst) as [m|]; simpl; [|done].
    rewrite (popcount_spec m) by (by apply H2). apply one_bits_range.
  - unfold DMA_EMUL_INST_NUM_REQUESTS, DT_INST_PROP_OR. destruct (dma_requests inst) as [q|]; simpl; [apply (H3 q eq_refl)|lia].
Qed.

(** The driver of an instance, with or without assertions, for a width of
    addresses. *)
Definition instance_of (config : dma_emul_config) (asserts : bool) (bits : Z) : DmaInstance :=
  {| num_channels := cfg_num_channels config; num_requests := cfg_num_requests config;
     CONFIG_ASSERT := asserts; dma_addr_bits := bits |}.

(** A sequence of calls. *)
Fixpoint run_calls {os U} `{!SocketIO os} `{!ServerIO os} {INST : DmaInstance} `{!DmaEnv os U}
    (waits fuel links : nat) (junk : list Z) (calls : list dma_call) : M (world os (dma U)) unit :=
  match calls with
  | [] => ret tt
  | call :: calls => run_call waits fuel links junk call ;; run_calls waits fuel links junk calls
  end.

(** C14. The driver of every instance that the build accepts is well formed, and
    stays so.  It has at most 32 channels, as many as its mask has bits where the
    device tree gives only the mask or only a number below 32; the arrays of
    transfers and blocks have room for all of its channels and requests; every
    channel is UNUSED.  The bitmap that Zephyr allocates channels from has a bit for
    every channel where the number of channels is given; where only the mask is
    given, it is made for no channel at all, however many there are.  From then on,
    whatever sequence of operations its users call, whatever their arguments and
    whatever the remote device and the network do, the arrays of transfers and blocks
    keep their sizes and every channel is in one of the four states, provided the
    transfer callbacks, the work queue and other threads leave the driver so
    ([DmaUserKeeps]). *)
Theorem driver_stays_ok {os U} `{!SocketIO os} `{!ServerIO os} `{!DmaEnv os U} (inst : dt_node)
    config xs bs atomic asserts bits frames mem descs (u : U) :
  node_ok inst -> DEFINE_DMA_EMUL inst = Some (config, xs, bs, atomic) ->
  let INST := instance_of config asserts bits in
  let a := mk_dma U xs bs 0 [0; 0; 0; 0] false frames mem descs u in
  0 <= cfg_num_channels config <= 32 /\
  (dma_channels inst = None \/ (dma_channel_mask inst = None /\ cfg_num_channels config < 32) ->
   one_bits 32 (channel_mask config) = cfg_num_channels config) /\
  (dma_channels inst <> None -> cfg_num_channels config <= ATOMIC_BITS * Z.of_nat (length atomic)) /\
  (dma_channels inst = None -> length atomic = Z.to_nat (ATOMIC_BITMAP_SIZE 0)) /\
  Forall (fun c => _reserved c = DMA_EMUL_CHANNEL_UNUSED) xs /\ dma_ok (INST := INST) a /\
  (DmaUserKeeps (INST := INST) (os := os) (U := U) ->
   forall waits fuel links junk calls w r w', dma_ok (INST := INST) (w_app w) ->
     run_calls (INST := INST) waits fuel links junk calls w = Ret r w' -> dma_ok (INST := INST) (w_app w')).
Proof.
  intros Hok Hdef INST a. destruct (num_channels_range inst _ Hok Hdef) as [Hn Hq].
  destruct Hok as (H1 & H2 & _). unfold DEFINE_DMA_EMUL in Hdef.
  destruct (negb (_ || _)) eqn:Hprop; [done|]. destruct (negb (_ <=? 32)); [done|]. simplify_eq.
  split_and!; try (done || apply Hn).
  - intros Hone. simpl. unfold DMA_EMUL_INST_CHANNEL_MASK, DMA_EMUL_INST_NUM_CHANNELS, DT_INST_PROP_OR, DMA_EMUL_INST_HAS_PROP in *.
    simpl in Hone. destruct (dma_channels inst) as [c|]; simpl in *.
    + destruct Hone as [?|[-> Hc]]; [done|]. simpl. specialize (H1 c eq_refl).
      destruct (Z.ltb_spec 0 c); [|assert (c = 0) as -> by lia; done]. rewrite bit_mask_spec by lia. apply one_bits_ones. lia.
    + destruct (dma_channel_mask inst) as [m|]; simpl in *; [|done]. by rewrite popcount_spec by (by apply H2).
  - intros Hch. rewrite length_replicate. unfold DMA_EMUL_INST_NUM_CHANNELS, DT_INST_PROP_OR.
    destruct (dma_channels inst) as [c|]; [|done]. simpl. specialize (H1 c eq_refl).
    pose proof (atomic_bitmap_room c ltac:(lia)). pose proof atomic_bits_pos.
    destruct (Z.le_gt_cases 0 (ATOMIC_BITMAP_SIZE c)); [rewrite Z2Nat.id by done; lia|nia].
  - intros Hch. by rewrite length_replicate, Hch.
  - by apply Forall_replicate.
  - split_and!; simpl; rewrite ?length_replicate; try lia. apply Forall_replicate. simpl. apply ex_unused_ok.
  - intros Hkeeps waits fuel links junk calls. induction calls as [|call calls IH]; intros w r w' Hw E; simpl in E.
    { by inversion E; subst. }
    unfold bind in E. destruct (run_call waits fuel links junk call w) as [x w1| | |] eqn:E1; try done.
    eapply IH; [|exact E]. by eapply run_call_keeps.
Qed.
End Reachable.

(** ** A concrete instance *)

(** The macros on 32-bit numbers. *)
#[local] Instance ex_util : ZephyrUtil := {|
  POPCOUNT := one_bits 32; BIT_MASK n := 2 ^ n - 1; ATOMIC_BITS := 32; ATOMIC_BITMAP_SIZE n := (n + 31) / 32;
|}.
#[local] Instance ex_util_laws : ZephyrUtilLaws ex_util.
Proof.
  constructor; [done..| |done]. intros n Hn. simpl.
  pose proof (Z.div_mod (n + 31) 32 ltac:(lia)). pose proof (Z.mod_pos_bound (n + 31) 32). lia.
Qed.

(** The node of the DMA sample. *)
Definition sample_node : dt_node := mk_node (Some 1) None None None None None 4096 None.

Example sample_node_instance :
  exists config xs bs, DEFINE_DMA_EMUL sample_node = Some (config, xs, bs, [0]) /\
    instance_of config true 32 = sample_instance /\ channel_mask config = 1 /\ length bs = 1%nat.
Proof. by eexists _, _, _. Qed.

(** Three channels by their mask, and no bitmap. *)
Example mask_only_instance :
  exists config xs bs, DEFINE_DMA_EMUL (mk_node None (Some 7) None None None None 4096 None) = Some (config, xs, bs, []) /\
    cfg_num_channels config = 3 /\ length xs = 3%nat.
Proof. by eexists _, _, _. Qed.

(** Users whose callback does nothing. *)
#[local] Instance ex_quiet : DmaEnv sim_os unit :=
  {| call_dma_callback _ _ _ _ := ret tt; other_threads := ret tt; k_work_submit_to_queue := ret 1 |}.
#[local] Instance ex_quiet_keeps {INST : DmaInstance} : DmaUserKeeps (os := sim_os) (U := unit).
Proof. constructor; intros; intros w x w' Hw E; by inversion E; subst. Qed.

Lemma driver_stays_ok_witness :
  exists config xs bs, DEFINE_DMA_EMUL sample_node = Some (config, xs, bs, [0]) /\ 0 <= cfg_num_channels config <= 32 /\
    let INST := instance_of config true 32 in
    let a := mk_dma unit xs bs 0 [0; 0; 0; 0] false ∅ ∅ ∅ tt in
    let w := mk_world _ _ (w_os (sim_world [])) (w_server (sim_world [])) ∅ a static_init in
    exists w', run_calls (INST := INST) 1 1 1 [] [ChanFilter 0; Configure 0 zero_config; Stop 0] w = Ret tt w' /\
      dma_ok (INST := INST) (w_app w').
Proof.
  exists (mk_emul_config 1 1 1 1 1 1 4096 0), [zero_config], [zero_block]. split; [reflexivity|].
  destruct (driver_stays_ok (os := sim_os) (U := unit) sample_node (mk_emul_config 1 1 1 1 1 1 4096 0) [zero_config] [zero_block] [0]
    true 32 ∅ ∅ ∅ tt) as (Hn & _ & _ & _ & _ & Ha & Hk); [|reflexivity|].
  { split_and!; intros v [= <-]. lia. }
  split; [exact Hn|]. intros INST a w. eexists. split; [vm_compute; reflexivity|].
  refine (Hk _ 1%nat 1%nat 1%nat [] [ChanFilter 0; Configure 0 zero_config; Stop 0] w tt _ Ha _).
  vm_compute. reflexivity.
Defined.
