(* ===== verification/DmaSpec.v ===== *)
(** * Correctness of the DMA controller

    A transfer copies the remote memory to the local one, burst by burst; the
    states of the channels; configuration, and the loops over linked channels;
    what other threads can do to a transfer. *)

From S2P Require Import Prelude Layout Proto Crc World Client Wire Logic Bars ClientSpec Receive EndToEnd Server ServerSpec MemoryMock MockSpec Host Native Link Remote Dma DmaTree.

(** ** Memory *)

Lemma lookup_allocate bs : forall p (m : gmap Z Z) a,
  allocate p bs m !! a =
  if decide (p <= a < p + Z.of_nat (length bs)) then bs !! Z.to_nat (a - p) else m !! a.
Proof.
  induction bs as [|b bs IH]; intros p m a; simpl; [by rewrite decide_False by lia|].
  destruct (decide (a = p)) as [->|Hne].
  - rewrite lookup_insert_eq, decide_True by lia. by rewrite Z.sub_diag.
  - rewrite lookup_insert_ne, IH by done. case_decide; [|by rewrite decide_False by lia].
    rewrite decide_True by lia. by replace (Z.to_nat (a - p)) with (S (Z.to_nat (a - (p + 1)))) by lia.
Qed.

Lemma allocate_app bs1 bs2 p (m : gmap Z Z) :
  allocate p (bs1 ++ bs2) m = allocate (p + Z.of_nat (length bs1)) bs2 (allocate p bs1 m).
Proof.
  apply map_eq. intros a. rewrite !lookup_allocate, length_app. repeat case_decide; try lia; try done.
  - rewrite lookup_app_r by lia. f_equal. lia.
  - by rewrite lookup_app_l by lia.
Qed.

(** The bytes from [p] on are allocated. *)
Definition allocated (p n : Z) (m : gmap Z Z) : Prop := forall a, p <= a < p + n -> is_Some (m !! a).

Lemma allocated_allocate p n q bs m : allocated p n m -> allocated p n (allocate q bs m).
Proof.
  intros H a Ha. rewrite lookup_allocate. case_decide; [|by apply H]. apply lookup_lt_is_Some. lia.
Qed.

Lemma write_memory_spec bs : forall p m,
  allocated p (Z.of_nat (length bs)) m -> write_memory p bs m = Some (allocate p bs m).
Proof.
  induction bs as [|b bs IH]; intros p m Ha; [done|]. simpl.
  destruct (Ha p) as [? ->]; [simpl; lia|]. rewrite IH.
  - f_equal. apply map_eq. intros a. rewrite lookup_allocate. destruct (decide (a = p)) as [->|].
    + rewrite decide_False, !lookup_insert_eq by lia. done.
    + rewrite !lookup_insert_ne, lookup_allocate by done. done.
  - intros a Hr. rewrite lookup_insert_ne by lia. apply Ha. simpl. lia.
Qed.

(** ** Transfers *)

Section Transfer.
Context {U : Type} {INST : DmaInstance} `{!DmaEnv pair_os U}.
Context (base : nat -> Z) (Hbase : forall i, (i < 2)%nat -> 0 < base i).
#[local] Abbreviation W := (world pair_os (dma U)).
Implicit Types (w : W) (a : dma U).

(** The driver waits for no one and has received nothing; [n] more packets can
    be sent. *)
Definition ready (n : Z) (k : nat) (m : list Z) (w : W) : Prop :=
  got_result (w_app w) = false /\ exists c cl, system base n n c cl [] [] k m w.

Lemma system_app n nd c cl pin rest k m w a :
  system base n nd c cl pin rest k m w ->
  system base n nd c cl pin rest k m (mk_world _ _ (w_os w) (w_server w) (w_clients w) a (w_static w)).
Proof. intros [[] ? ?]. constructor; [by constructor|done..]. Qed.

Lemma ready_less n n' k m w : ready n k m w -> n' <= n -> ready n' k m w.
Proof.
  intros [Hg (c & cl & [[] Hin (d & dc & dcl & bs & H1 & [] & H3)])] Hn. split; [done|]. exists c, cl.
  constructor; [constructor; try done; by eapply connection_less|done|].
  exists d, dc, dcl, bs. split_and!; try apply H3; [done|]. constructor; try done. by eapply connection_less.
Qed.

Lemma pcie_completes a p bs len :
  (length bs <= 4)%nat -> Z.of_nat (length bs) = len ->
  completes PCIE_COMPLETION_CB p bs len a
    (fun a' => exists r, a' = set_result r true a /\ take (length bs) r = bs).
Proof.
  intros Hl Hbs mem w Htake Hmem <-. eexists. split.
  - exists (take 4 mem). split; [reflexivity|]. by rewrite take_take, Nat.min_l by lia.
  - simpl. unfold pcie_completion_cb, bind. rewrite (proj2 (Nat.ltb_ge _ _)) by lia. done.
Qed.

Lemma wait_result_quiet fuel n w w' :
  quiet n w w' -> got_result (w_app w) = false -> wait_result (n + fuel) w = wait_result fuel w'.
Proof.
  intros Hq Hg. induction Hq as [w|n w w1 w2 Hs E Ha _ IH]; [done|].
  simpl. unfold bind, get_dma. rewrite Hg, E. apply IH. by rewrite Ha.
Qed.

(** One burst: the request, the wait and the result. *)
Lemma fetch n k m w off len waits :
  ready n k m w -> 1 <= n -> 0 <= off -> 0 < len <= 4 -> off + len <= 128 -> (k + 2 <= waits)%nat ->
  exists w1 w2 r, (exists c, first_client w = Ret c w /\ warppipe_read c 0 off len PCIE_COMPLETION_CB w = Ret 0 w1) /\
    wait_result waits w1 = Ret tt w2 /\ w_app w2 = set_result r true (w_app w) /\
    take (Z.to_nat len) r = take (Z.to_nat len) (drop (Z.to_nat off) (bar0_memory mock_init)) /\
    (exists c cl, system base (n - 1) (n - 1) c cl [] [] 1 m w2).
Proof.
  intros [Hg (c & cl & Hsys)] Hn Ho Hl Hmax Hw.
  destruct (read_starts base n c cl 0 off len k m PCIE_COMPLETION_CB w Hbase Hsys)
    as (w1 & cl1 & s & E1 & Ha1 & Hsys1 & Hpd1 & Hcb1); try (done || simpl; lia).
  set (bs := take (Z.to_nat len) (drop (Z.to_nat off) (contents 0 m))).
  assert (length bs = Z.to_nat len) as Hbs.
  { unfold bs. rewrite length_take, length_drop. change (length (contents 0 m)) with 128%nat. lia. }
  destruct (read_completes base (n - 1) n c cl1 s (Z.to_nat (read_tag cl)) 0 off len k m PCIE_COMPLETION_CB w1
    (fun a' => exists r, a' = set_result r true (w_app w1) /\ take (length bs) r = bs))
    as (w2 & w3 & cl3 & Hq & Hs2 & E3 & (r & Ha3 & Hr) & Hsys3); try (done || simpl; lia).
  { destruct Hsys as [[]]. lia. }
  { rewrite Hcb1. apply list_lookup_insert_eq. destruct Hsys as [[]]. unfold ptr in *. lia. }
  { fold bs. apply pcie_completes; rewrite Hbs; lia. }
  exists w1, w3, r. split_and!.
  - exists c. split; [|done]. unfold first_client, bind, get_server. by destruct Hsys as [[-> ? ? ? ? ? ? ? ?]].
  - replace waits with (S k + S (waits - k - 2))%nat by lia.
    rewrite (wait_result_quiet _ _ _ _ Hq) by (by rewrite Ha1). simpl. unfold bind, get_dma.
    rewrite (quiet_app _ _ _ Hq), Ha1, Hg, E3. destruct (waits - k - 2)%nat; simpl; unfold bind, get_dma; by rewrite Ha3.
  - by rewrite Ha3, Ha1.
  - rewrite Hbs in Hr. exact Hr.
  - by exists c, cl3.
Qed.

(** The driver with [bs] at [dest] of the memory. *)
Definition stored (dest : Z) (bs : list Z) (a a' : dma U) : Prop :=
  exists r, a' = set_result r false (set_memory (allocate dest bs (memory a)) a).

(** No other thread interferes. *)
Definition undisturbed : Prop := forall w, other_threads w = Ret tt w.

(** A block that lies in the remote memory, with a burst length that [result]
    has room for, and a destination in the local memory. *)
Record block_ok (b : dma_block_config) (a : dma U) : Prop := {
  bk_source : 0 <= source_address b;
  bk_size : 0 <= block_size b;
  bk_remote : source_address b + block_size b <= 128;
  bk_dest : 0 <= dest_address b;
  bk_wrap : dest_address b + block_size b < 2 ^ dma_addr_bits /\ 128 < 2 ^ dma_addr_bits;
  bk_local : allocated (dest_address b) (block_size b) (memory a);
}.

(** What the block brings in. *)
Definition source_bytes (b : dma_block_config) : list Z :=
  take (Z.to_nat (block_size b)) (drop (Z.to_nat (source_address b)) (bar0_memory mock_init)).

Lemma source_bytes_split b n :
  0 <= source_address b -> 0 <= n <= block_size b -> source_address b + block_size b <= 128 ->
  source_bytes b =
  take (Z.to_nat n) (drop (Z.to_nat (source_address b)) (bar0_memory mock_init)) ++
  take (Z.to_nat (block_size b - n)) (drop (Z.to_nat (source_address b + n)) (bar0_memory mock_init)).
Proof.
  intros Hs Hn Hr. unfold source_bytes. rewrite (Z2Nat.inj_add _ n), <-drop_drop, Z2Nat.inj_sub by lia.
  rewrite <-(take_drop (Z.to_nat n) (drop (Z.to_nat (source_address b)) (bar0_memory mock_init))) at 1.
  assert (length (take (Z.to_nat n) (drop (Z.to_nat (source_address b)) (bar0_memory mock_init))) = Z.to_nat n) as Hl.
  { rewrite length_take, length_drop. change (length (bar0_memory mock_init)) with 128%nat. lia. }
  rewrite take_app_ge by lia. by rewrite Hl.
Qed.

(** One burst of a started channel: its bytes are in memory, [result] is free. *)
Lemma burst_step waits fuel channel cfg b n k m w : undisturbed ->
  let bytes := Z.min (block_size b) (dest_burst_length cfg) in
  let bs := take (Z.to_nat bytes) (drop (Z.to_nat (source_address b)) (bar0_memory mock_init)) in
  0 < bytes <= 4 -> 0 <= channel < num_channels -> ready n k m w -> 1 <= n -> (k + 2 <= waits)%nat ->
  block_ok b (w_app w) -> _reserved <$> xfer (w_app w) !! Z.to_nat channel = Some DMA_EMUL_CHANNEL_STARTED ->
  exists w1, transfer_bursts waits (S fuel) channel cfg b w = transfer_bursts waits fuel channel cfg (advance bytes b) w1 /\
    ready (n - 1) 1 m w1 /\ stored (dest_address b) bs (w_app w) (w_app w1).
Proof.
  intros Hquiet bytes bs Hby Hch Hr Hn Hk [B1 B2 B3 B4 [B5 B6] B7] Hst.
  destruct (fetch n k m w (source_address b) bytes waits Hr)
    as (w1 & w2 & r & (c & Ec & E1) & E2 & Ha2 & Htake & c2 & cl2 & Hsys2); try lia. fold bs in Htake.
  assert (length bs = Z.to_nat bytes) as Hbs.
  { unfold bs. rewrite length_take, length_drop. change (length (bar0_memory mock_init)) with 128%nat. lia. }
  set (a3 := set_result r false (set_memory (allocate (dest_address b) bs (memory (w_app w))) (w_app w))).
  exists (mk_world _ _ (w_os w2) (w_server w2) (w_clients w2) a3 (w_static w2)). split_and!.
  - cbn [transfer_bursts]. fold bytes. rewrite (proj2 (Z.ltb_lt 0 bytes)) by lia.
    unfold k_spin_lock. erewrite bind_Ret by apply Hquiet.
    assert (dma_emul_get_channel_state channel w = Ret DMA_EMUL_CHANNEL_STARTED w) as Es.
    { unfold dma_emul_get_channel_state, dma_assert. rewrite (proj2 (Z.ltb_lt _ _)) by lia.
      unfold bind, ret, get_dma. simpl. destruct (xfer (w_app w) !! Z.to_nat channel); simpl in Hst; [by injection Hst as ->|done]. }
    erewrite bind_Ret by exact Es. change (DMA_EMUL_CHANNEL_STARTED =? DMA_EMUL_CHANNEL_STOPPED) with false. cbv iota.
    erewrite bind_Ret by reflexivity. erewrite bind_Ret by exact Ec. erewrite bind_Ret by exact E1.
    erewrite bind_Ret by exact E2. erewrite bind_Ret; [reflexivity|].
    unfold copy_result, bind, get_dma. rewrite (proj2 (Z.ltb_ge 4 bytes)), Ha2 by lia.
    unfold set_result at 1 2. cbn [result memory].
    rewrite Htake, write_memory_spec; [done|]. intros x Hx. apply B7. lia.
  - split; [done|]. exists c2, cl2. by apply system_app.
  - by exists r.
Qed.

Lemma bursts_transfer waits channel cfg m : undisturbed ->
  0 < dest_burst_length cfg <= 4 -> 0 <= channel < num_channels -> (3 <= waits)%nat ->
  forall fuel b n k w,
    ready n k m w -> (k + 2 <= waits)%nat -> block_size b <= n -> block_size b <= Z.of_nat fuel ->
    block_ok b (w_app w) -> _reserved <$> xfer (w_app w) !! Z.to_nat channel = Some DMA_EMUL_CHANNEL_STARTED ->
    exists w' k', transfer_bursts waits fuel channel cfg b w = Ret true w' /\
      (k' <= k \/ k' = 1)%nat /\ ready (n - block_size b) k' m w' /\
      stored (dest_address b) (source_bytes b) (w_app w) (w_app w').
Proof.
  intros Hquiet Hbl Hch Hwaits. induction fuel as [|fuel IH]; intros b n k w Hr Hk Hn Hf Hb Hst.
  all: destruct (Z.eq_dec (block_size b) 0) as [Hz|Hz];
    [exists w, k; destruct Hr as [Hg Hr];
     split_and!; [by simpl; rewrite Hz, Z.min_l by lia|by left|split; [done|by rewrite Hz, Z.sub_0_r]|];
     exists (result (w_app w)); unfold source_bytes; rewrite Hz; destruct (w_app w); simpl in *; by subst|].
  { destruct Hb. lia. }
  set (bytes := Z.min (block_size b) (dest_burst_length cfg)).
  assert (1 <= bytes <= block_size b /\ bytes <= 4) as [Hby Hby4] by (destruct Hb; lia).
  destruct (burst_step waits fuel channel cfg b n k m w Hquiet) as (w1 & -> & Hr1 & r & Ha1); try (done || lia). fold bytes.
  fold bytes in Ha1. set (bs := take (Z.to_nat bytes) (drop (Z.to_nat (source_address b)) (bar0_memory mock_init))) in Ha1.
  destruct Hb as [B1 B2 B3 B4 [B5 B6] B7].
  assert (length bs = Z.to_nat bytes) as Hbs.
  { unfold bs. rewrite length_take, length_drop. change (length (bar0_memory mock_init)) with 128%nat. lia. }
  assert (advance bytes b =
    mk_block (source_address b + bytes) (dest_address b + bytes) (block_size b - bytes) (next_block b)) as Hadv.
  { unfold advance. by rewrite !(wrap_small dma_addr_bits), (wrap_small 32) by lia. }
  destruct (IH (advance bytes b) (n - 1) 1%nat w1) as (w' & k' & E' & Hk' & Hr' & r' & Ha');
    rewrite ?Hadv in *; cbn [source_address dest_address block_size next_block] in *; rewrite ?Ha1; try (done || lia).
  { constructor; simpl; try lia. intros x Hx. apply (allocated_allocate (dest_address b) (block_size b)); [done|lia]. }
  exists w', k'. split_and!; [done|lia|eapply ready_less; [exact Hr'|]; lia|].
  exists r'. rewrite Ha', Ha1. unfold set_result, set_memory. simpl. f_equal.
  rewrite (source_bytes_split b bytes) by lia. fold bs. rewrite allocate_app, Hbs. unfold source_bytes. simpl.
  by rewrite Z2Nat.id by lia.
Qed.

(** The memory after these blocks were transferred, and their total size. *)
Definition transferred (bl : list dma_block_config) (m : gmap Z Z) : gmap Z Z :=
  foldl (fun m b => allocate (dest_address b) (source_bytes b) m) m bl.
Definition total_size (bl : list dma_block_config) : Z := foldr (fun b n => block_size b + n) 0 bl.

(** The blocks in the slots of a transfer, from the [i]th on. *)
Definition in_slots (channel : Z) (cfg : dma_config) (i : Z) (bl : list dma_block_config) (a : dma U) : Prop :=
  forall (j : nat) b, bl !! j = Some b ->
    block a !! Z.to_nat (channel * num_requests + dma_slot cfg + (i + Z.of_nat j)) = Some b.

Lemma block_ok_stored b dest bs a a' : stored dest bs a a' -> block_ok b a -> block_ok b a'.
Proof. intros (r & ->) []. constructor; try done. simpl. by apply allocated_allocate. Qed.

Lemma blocks_transfer waits fuel channel cfg m : undisturbed ->
  0 < dest_burst_length cfg <= 4 -> 0 <= channel < num_channels -> (3 <= waits)%nat ->
  forall bl i n k w,
    ready n k m w -> (k + 2 <= waits)%nat -> total_size bl <= n -> Forall (fun b => block_size b <= Z.of_nat fuel) bl ->
    Forall (fun b => block_ok b (w_app w)) bl -> in_slots channel cfg i bl (w_app w) ->
    _reserved <$> xfer (w_app w) !! Z.to_nat channel = Some DMA_EMUL_CHANNEL_STARTED ->
    exists w' k' r, transfer_blocks waits fuel channel cfg (length bl) i w = Ret true w' /\
      (k' <= k \/ k' = 1)%nat /\ ready (n - total_size bl) k' m w' /\
      w_app w' = set_result r false (set_memory (transferred bl (memory (w_app w))) (w_app w)).
Proof.
  intros Hquiet Hbl Hch Hwaits. induction bl as [|b bl IH]; intros i n k w Hr Hk Hn Hf Hb Hs Hst.
  { exists w, k, (result (w_app w)). split_and!; [done|by left|by simpl; rewrite Z.sub_0_r|].
    destruct Hr as [Hg _]. destruct (w_app w). simpl in *. by subst. }
  apply Forall_cons_1 in Hf as [Hf Hfs]. apply Forall_cons_1 in Hb as [Hb Hbs].
  change (total_size (b :: bl)) with (block_size b + total_size bl) in *.
  assert (0 <= total_size bl) as Htot.
  { clear -Hbs. induction Hbs as [|x l [] _ IH]; simpl; [done|]. lia. }
  destruct (bursts_transfer waits channel cfg m Hquiet Hbl Hch Hwaits fuel b n k w Hr Hk)
    as (w1 & k1 & E1 & Hk1 & Hr1 & Hst1); try done; [lia|].
  pose proof Hst1 as (r1 & Ha1).
  destruct (IH (i + 1) (n - block_size b) k1 w1) as (w2 & k2 & r2 & E2 & Hk2 & Hr2 & Ha2); try done.
  - lia.
  - lia.
  - eapply Forall_impl; [|exact Hbs]. intros x Hx. by eapply block_ok_stored.
  - intros j x Hx. rewrite Ha1. simpl. pose proof (Hs (S j) x Hx) as HSj.
    by replace (i + Z.of_nat (S j)) with (i + 1 + Z.of_nat j) in HSj by lia.
  - by rewrite Ha1.
  - exists w2, k2, r2. split_and!.
    + simpl. unfold k_spin_lock. erewrite bind_Ret by apply Hquiet. erewrite bind_Ret by reflexivity.
      pose proof (Hs 0%nat b eq_refl) as H0. rewrite Z.add_0_r in H0. rewrite H0.
      erewrite bind_Ret by exact E1. exact E2.
    + lia.
    + by rewrite Z.sub_add_distr.
    + rewrite Ha2, Ha1. done.
Qed.

(** *** Linked channels *)

(** A channel of a transfer: its configuration and the blocks in its slots. *)
Record link := mk_link { lk_channel : Z; lk_cfg : dma_config; lk_blocks : list dma_block_config }.

Record link_ok (fuel : nat) (a : dma U) (l : link) : Prop := {
  lk_range : 0 <= lk_channel l < num_channels;
  lk_xfer : xfer a !! Z.to_nat (lk_channel l) = Some (lk_cfg l);
  lk_started : _reserved (lk_cfg l) = DMA_EMUL_CHANNEL_STARTED;
  lk_burst : 0 < dest_burst_length (lk_cfg l) <= 4;
  lk_count : block_count (lk_cfg l) = Z.of_nat (length (lk_blocks l));
  lk_slots : in_slots (lk_channel l) (lk_cfg l) 0 (lk_blocks l) a;
  lk_blocks_ok : Forall (fun b => block_ok b a) (lk_blocks l);
  lk_fuel : Forall (fun b => block_size b <= Z.of_nat fuel) (lk_blocks l);
}.

(** Each channel is linked to the next, and the last is not. *)
Fixpoint chain (l : link) (ls : list link) : Prop :=
  match ls with
  | [] => chained (lk_cfg l) = false
  | l' :: ls => chained (lk_cfg l) = true /\ linked_channel (lk_cfg l) = lk_channel l' /\ chain l' ls
  end.

Definition stop_link (xs : list dma_config) (l : link) : list dma_config :=
  <[Z.to_nat (lk_channel l) := set_reserved DMA_EMUL_CHANNEL_STOPPED (lk_cfg l)]> xs.

(** The driver after the transfers of these channels; [u] is what the callbacks
    made of the user's state. *)
Definition links_done (ls : list link) (u : U) (a a' : dma U) : Prop :=
  xfer a' = foldl stop_link (xfer a) ls /\ block a' = block a /\ user a' = u /\
  memory a' = transferred (concat (lk_blocks <$> ls)) (memory a).

Lemma transferred_allocated bl p n m : allocated p n m -> allocated p n (transferred bl m).
Proof. revert m. induction bl as [|b bl IH]; intros m Hm; [done|]. by apply IH, allocated_allocate. Qed.

Lemma total_size_app bl bl' : total_size (bl ++ bl') = total_size bl + total_size bl'.
Proof. induction bl as [|b bl IH]; simpl; [done|]. unfold total_size in *. simpl. lia. Qed.

Lemma link_ok_done fuel l l' u a a' :
  lk_channel l <> lk_channel l' -> 0 <= lk_channel l -> links_done [l] u a a' -> link_ok fuel a l' -> link_ok fuel a' l'.
Proof.
  intros Hne Hl (Hx & Hb & _ & Hm) []. constructor; try done.
  - rewrite Hx. simpl. unfold stop_link. rewrite list_lookup_insert_ne by lia. done.
  - intros j b Hj. rewrite Hb. by apply lk_slots0.
  - eapply Forall_impl; [|exact lk_blocks_ok0]. intros b []. constructor; try done.
    rewrite Hm. by apply transferred_allocated.
Qed.

Lemma links_done_trans l ls u u' a a' a'' :
  links_done [l] u a a' -> links_done ls u' a' a'' -> links_done (l :: ls) u' a a''.
Proof.
  intros (Hx & Hb & Hu & Hm) (Hx' & Hb' & Hu' & Hm'). split_and!; [by rewrite Hx', Hx|congruence|done|].
  rewrite Hm', Hm. simpl. rewrite app_nil_r. unfold transferred. by rewrite foldl_app.
Qed.

Lemma last_cons_default {A} (l : list A) : forall x d, last (x :: l) d = last l x.
Proof. induction l as [|y l IH]; intros x d; [done|]. change (last (x :: y :: l) d) with (last (y :: l) d). by rewrite !IH. Qed.

Lemma links_size fuel a ls : Forall (link_ok fuel a) ls -> 0 <= total_size (concat (lk_blocks <$> ls)).
Proof.
  induction 1 as [|l ls Hl _ IH]; [done|]. rewrite fmap_cons. cbn [concat]. rewrite total_size_app.
  apply Z.add_nonneg_nonneg; [|exact IH]. pose proof (lk_blocks_ok _ _ _ Hl) as Hb.
  clear -Hb. induction Hb as [|b bl [] _ IH]; [done|]. unfold total_size in *. simpl. lia.
Qed.

(** The transfer of one channel, up to its callback. *)
Lemma channel_transfers waits fuel links l m n k w :
  undisturbed -> ready n k m w -> (k <= 1)%nat -> (3 <= waits)%nat -> link_ok fuel (w_app w) l -> total_size (lk_blocks l) <= n ->
  exists w1 k1, transfer_channels waits fuel (S links) (lk_channel l) w =
      (call_dma_callback (dma_callback (lk_cfg l)) (user_data (lk_cfg l)) (lk_channel l) DMA_STATUS_COMPLETE ;;
       if chained (lk_cfg l) then
         dma_assert (negb (lk_channel l =? linked_channel (lk_cfg l))) ;;
         transfer_channels waits fuel links (linked_channel (lk_cfg l))
       else ret tt) w1 /\
    links_done [l] (user (w_app w)) (w_app w) (w_app w1) /\ (k1 <= 1)%nat /\ ready (n - total_size (lk_blocks l)) k1 m w1.
Proof.
  intros Hquiet Hr Hk Hwaits [Hch Hx Hst Hbl Hcount Hs Hb Hf] Hn. destruct l as [channel cfg bl]. simpl in *.
  destruct (blocks_transfer waits fuel channel cfg m Hquiet Hbl Hch Hwaits bl 0 n k w Hr)
    as (w1 & k1 & r & E & Hk1 & Hr1 & Ha1); try done; [lia|by rewrite Hx; simpl; rewrite Hst|].
  set (a2 := set_xfer (<[Z.to_nat channel := set_reserved DMA_EMUL_CHANNEL_STOPPED cfg]> (xfer (w_app w1))) (w_app w1)).
  set (w2 := mk_world _ _ (w_os w1) (w_server w1) (w_clients w1) a2 (w_static w1)).
  exists w2, k1. split_and!; [..|lia|].
  - cbn [transfer_channels].
    unfold k_spin_lock. erewrite bind_Ret by apply Hquiet. erewrite bind_Ret by reflexivity. rewrite Hx.
    rewrite Hcount, Nat2Z.id. erewrite bind_Ret by exact E. cbn [negb]. erewrite bind_Ret by apply Hquiet.
    erewrite bind_Ret; [reflexivity|].
    unfold dma_emul_set_channel_state, dma_assert, bind, get_dma. rewrite (proj2 (Z.ltb_lt _ _)) by lia. simpl.
    assert (xfer (w_app w1) !! Z.to_nat channel = Some cfg) as -> by (rewrite Ha1; exact Hx). done.
  - unfold w2, a2. split_and!; simpl; rewrite Ha1; simpl; rewrite ?app_nil_r; done.
  - destruct Hr1 as [Hg (c & cl & Hsys)]. split; [by unfold w2, a2|]. exists c, cl.
    by apply system_app.
Qed.

(** The callback of [l] changes only the user's state, as [notify] says. *)
Definition notifies (notify : link -> U -> U) (l : link) : Prop := forall w,
  call_dma_callback (dma_callback (lk_cfg l)) (user_data (lk_cfg l)) (lk_channel l) DMA_STATUS_COMPLETE w =
    put_dma (set_user (notify l (user (w_app w))) (w_app w)) w.

Lemma chain_transfers waits fuel notify m : undisturbed -> (3 <= waits)%nat -> forall ls l links n k w,
  ready n k m w -> (k <= 1)%nat -> chain l ls -> NoDup (lk_channel <$> l :: ls) ->
  Forall (link_ok fuel (w_app w)) (l :: ls) -> Forall (notifies notify) (removelast (l :: ls)) ->
  total_size (concat (lk_blocks <$> l :: ls)) <= n ->
  let z := last ls l in
  exists w1 k1, transfer_channels waits fuel (S (length ls + links)) (lk_channel l) w =
      call_dma_callback (dma_callback (lk_cfg z)) (user_data (lk_cfg z)) (lk_channel z) DMA_STATUS_COMPLETE w1 /\
    links_done (l :: ls) (foldl (flip notify) (user (w_app w)) (removelast (l :: ls))) (w_app w) (w_app w1) /\
    (k1 <= 1)%nat /\ ready (n - total_size (concat (lk_blocks <$> l :: ls))) k1 m w1.
Proof.
  intros Hquiet Hwaits. induction ls as [|l' ls IH]; intros l links n k w Hr Hk Hchain Hnd Hok Hnot Hn z.
  all: pose proof (Forall_inv Hok) as Hl; simpl in Hn; rewrite ?app_nil_r in Hn.
  { destruct (channel_transfers waits fuel links l m n k w) as (w1 & k1 & E & Hd & Hk1 & Hr1); try done.
    exists w1, k1. cbn [length Nat.add]. rewrite E. simpl in Hchain. rewrite Hchain. split_and!; [|done..|].
    - unfold bind, ret, z. simpl. by destruct (call_dma_callback _ _ _ _ w1) as [[]| | |].
    - simpl. by rewrite app_nil_r. }
  rewrite total_size_app in Hn.
  assert (0 <= total_size (concat (lk_blocks <$> l' :: ls))) as Hpos by (by eapply links_size, Forall_inv_tail).
  destruct (channel_transfers waits fuel (S (length ls + links)) l m n k w) as (w1 & k1 & E & Hd & Hk1 & Hr1); try done.
  { simpl in Hpos. lia. }
  destruct Hchain as (Hc & Hlink & Hchain). pose proof (NoDup_cons_1_1 _ _ Hnd) as Hnin. apply NoDup_cons_1_2 in Hnd.
  set (w2 := mk_world _ _ (w_os w1) (w_server w1) (w_clients w1) (set_user (notify l (user (w_app w1))) (w_app w1)) (w_static w1)).
  assert (links_done [l] (notify l (user (w_app w))) (w_app w) (w_app w2)) as Hd2.
  { destruct Hd as (? & ? & <- & ?). by split_and!. }
  destruct (IH l' links (n - total_size (lk_blocks l)) k1 w2) as (w3 & k3 & E3 & Hd3 & Hk3 & Hr3); try done.
  - destruct Hr1 as [? (c & cl & Hsys)]. split; [done|]. exists c, cl. by apply system_app.
  - apply Forall_forall. intros x Hx. eapply link_ok_done; [|apply Hl|exact Hd2|].
    + intros Heq. apply Hnin. rewrite Heq. by apply (list_elem_of_fmap_2 lk_channel (l' :: ls)), list_elem_of_In.
    + rewrite Forall_forall in Hok. apply Hok. by right.
  - by apply Forall_inv_tail in Hnot.
  - simpl. lia.
  - exists w3, k3. split_and!; [|..|done|].
    + cbn [length Nat.add]. rewrite E, Hc, Hlink. erewrite bind_Ret; [|apply (Forall_inv Hnot)]. fold w2.
      unfold dma_assert. rewrite (proj2 (Z.eqb_neq _ _)); [|set_solver]. erewrite bind_Ret by reflexivity.
      rewrite E3. unfold z. by rewrite (last_cons_default ls l' l).
    + eapply links_done_trans; [exact Hd2|]. rewrite (proj1 (proj2 (proj2 Hd2))) in Hd3. exact Hd3.
    + simpl. rewrite total_size_app, Z.sub_add_distr. exact Hr3.
Qed.

(** C2. A transfer copies.  Started channels, each linked to the next, with bursts
    of one to four bytes and blocks that lie in the memory of BAR 0 of the device,
    their destinations in the local memory, while no other thread interferes and
    the callbacks of all but the last change the user's state only: the handler,
    which sends one read per burst and runs the server loop until it completes,
    brings every block of every channel to its destination in order and changes
    no other byte, sets each channel to STOPPED and then calls its transfer
    callback with [DMA_STATUS_COMPLETE], once, before the next channel's transfer
    begins.  Three iterations per wait are enough, and one burst per byte. *)
Theorem dma_transfers waits fuel links notify l ls m n k w :
  undisturbed -> ready n k m w -> (k <= 1)%nat -> (3 <= waits)%nat ->
  work_channel (w_app w) = lk_channel l -> chain l ls -> NoDup (lk_channel <$> l :: ls) ->
  Forall (link_ok fuel (w_app w)) (l :: ls) -> Forall (notifies notify) (removelast (l :: ls)) ->
  total_size (concat (lk_blocks <$> l :: ls)) <= n -> (length ls < links)%nat ->
  let z := last ls l in
  exists w1 k1, dma_emul_work_handler waits fuel links w =
      call_dma_callback (dma_callback (lk_cfg z)) (user_data (lk_cfg z)) (lk_channel z) DMA_STATUS_COMPLETE w1 /\
    xfer (w_app w1) = foldl stop_link (xfer (w_app w)) (l :: ls) /\ block (w_app w1) = block (w_app w) /\
    user (w_app w1) = foldl (flip notify) (user (w_app w)) (removelast (l :: ls)) /\
    memory (w_app w1) = transferred (concat (lk_blocks <$> l :: ls)) (memory (w_app w)) /\
    (k1 <= 1)%nat /\ ready (n - total_size (concat (lk_blocks <$> l :: ls))) k1 m w1.
Proof.
  intros Hquiet Hr Hk Hwaits Hch Hchain Hnd Hok Hnot Hn Hlinks z.
  destruct (chain_transfers waits fuel notify m Hquiet Hwaits ls l (links - S (length ls)) n k w)
    as (w1 & k1 & E & (H1 & H2 & H3 & H4) & Hk1 & Hr1); try done.
  replace (S (length ls + (links - S (length ls))))%nat with links in E by lia.
  exists w1, k1. split_and!; try done. unfold dma_emul_work_handler. erewrite bind_Ret by reflexivity. by rewrite Hch.
Qed.
End Transfer.

(** ** The sample *)

(** The process before it starts: the arrays of the driver are zero. *)
Definition dma_init : dma dma_user :=
  mk_dma _ [zero_config] [zero_block] 0 [0; 0; 0; 0] false ∅ ∅ ∅ (mk_user 0 [] false).
Definition dma_system : world pair_os (dma dma_user) :=
  mk_world _ _ (w_os native_system) pcie_server_init ∅ dma_init (w_static native_system).

(** C28. The DMA sample, run against the mock: whatever its uninitialised memory
    holds, its main function configures and starts the transfer, and the handler
    that the kernel then runs copies the first 32 bytes of BAR 0 to the buffer,
    which the callback prints and frees; the channel is STOPPED. *)
Theorem dma_sample_transfers (junk uninit : list Z) fuel waits :
  length junk = 4%nat -> length uninit = 32%nat -> (5 <= fuel)%nat -> (4 <= waits)%nat ->
  exists w' r, (let! r := pcie_dma_main fuel 1 junk 77 0x1000 uninit in
      dma_emul_work_handler waits 8 1 ;; ret r) dma_system = Ret r w' /\
    r = 0 /\ printed (user (w_app w')) = [take 32 (bar0_memory mock_init)] /\ memory (w_app w') = ∅ /\
    (_reserved <$> xfer (w_app w')) = [DMA_EMUL_CHANNEL_STOPPED].
Proof.
  intros Hj Hu Hf Hw. do 5 (destruct junk as [|? junk]; try done).
  do 33 (destruct uninit as [|? uninit]; try done).
  do 5 (destruct fuel as [|fuel]; [lia|]). do 4 (destruct waits as [|waits]; [lia|]).
  set (x := bind _ _ _).
  assert (match x with
    | Ret r w' =>
        (r =? 0) && bool_decide (printed (user (w_app w')) = [take 32 (bar0_memory mock_init)]) &&
        bool_decide (memory (w_app w') = ∅) &&
        bool_decide ((_reserved <$> xfer (w_app w')) = [DMA_EMUL_CHANNEL_STOPPED])
    | _ => false
    end = true) as H by (vm_compute; reflexivity).
  destruct x as [r w'| | |]; try done. rewrite !andb_true_iff, !bool_decide_eq_true, Z.eqb_eq in H.
  exists w', r. tauto.
Qed.

Lemma dma_sample_transfers_witness :
  exists w', (let! r := pcie_dma_main 5 1 [1; 2; 3; 4] 77 0x1000 (replicate 32 0xee) in
      dma_emul_work_handler 4 8 1 ;; ret r) dma_system = Ret 0 w' /\
    printed (user (w_app w')) = [take 32 (bar0_memory mock_init)].
Proof.
  destruct (dma_sample_transfers [1; 2; 3; 4] (replicate 32 0xee) 5 4) as (w' & r & E & -> & H & _); [done|done|lia|lia|].
  exists w'. exact (conj E H).
Defined.

(** The sample after its main function. *)
Definition dma_started : world pair_os (dma dma_user) :=
  match pcie_dma_main 5 1 [1; 2; 3; 4] 77 0x1000 (replicate 32 0xee) dma_system with
  | Ret _ w => w
  | _ => dma_system
  end.

Lemma dma_started_ready : ready BASES PACKETS 1 (replicate 2048 0) dma_started.
Proof.
  split; [vm_compute; reflexivity|]. exists (fresh ({[NULL]} : gset Z)). apply up_b_sound.
  vm_compute. reflexivity.
Qed.

(** A driver with two linked channels, of one block each, started. *)
Definition two_channels : DmaInstance :=
  {| num_channels := 2; num_requests := 1; CONFIG_ASSERT := true; dma_addr_bits := 32 |}.
#[local] Instance quiet_env : DmaEnv pair_os (list Z) :=
  {| call_dma_callback _ _ channel _ := let! s := get_dma in put_dma (set_user (user s ++ [channel]) s);
     other_threads := ret tt; k_work_submit_to_queue := ret 1 |}.

Definition first_link : link :=
  mk_link 0 (mk_config 0 false true false 1 4 4 1 77 NULL FINISHED_CB DMA_EMUL_CHANNEL_STARTED) [mk_block 0 0x1000 6 NULL].
Definition second_link : link :=
  mk_link 1 (mk_config 0 false false false 0 3 3 1 78 NULL FINISHED_CB DMA_EMUL_CHANNEL_STARTED) [mk_block 100 0x1004 5 NULL].
Definition linked_driver : dma (list Z) :=
  mk_dma _ [lk_cfg first_link; lk_cfg second_link] (lk_blocks first_link ++ lk_blocks second_link) 0 [0; 0; 0; 0] false
    ∅ (allocate 0x1000 (replicate 16 0xee) ∅) ∅ [].
Definition linked_started : world pair_os (dma (list Z)) :=
  mk_world _ _ (w_os dma_started) (w_server dma_started) (w_clients dma_started) linked_driver static_init.

Lemma linked_ready : ready BASES PACKETS 1 (replicate 2048 0) linked_started.
Proof.
  destruct dma_started_ready as [_ (c & cl & Hsys)]. split; [reflexivity|]. exists c, cl.
  destruct Hsys as [[] ? ?]. constructor; [by constructor|done..].
Qed.

Lemma linked_ok : Forall (link_ok (INST := two_channels) 6 linked_driver) [first_link; second_link].
Proof.
  assert (forall p n, 0x1000 <= p -> p + n <= 0x1010 -> allocated p n (memory linked_driver)) as Hal.
  { intros p n Hp Hn x Hx. change (memory linked_driver) with (allocate 0x1000 (replicate 16 0xee) ∅). rewrite lookup_allocate, decide_True by (simpl; lia). apply lookup_lt_is_Some. simpl. lia. }
  repeat (apply Forall_cons_2); [..|apply Forall_nil_2]; constructor; try (reflexivity || simpl; lia);
    try (apply Forall_cons_2; [|apply Forall_nil_2]; simpl; lia);
    try (intros [|j] b Hj; [simpl in Hj; by simplify_eq|by apply lookup_lt_Some in Hj; simpl in Hj; lia]);
    (apply Forall_cons_2; [|apply Forall_nil_2]; constructor; try (simpl; lia); apply Hal; simpl; lia).
Qed.

Lemma dma_transfers_witness :
  exists w1, dma_emul_work_handler (INST := two_channels) 3 6 2 linked_started =
      call_dma_callback FINISHED_CB NULL 1 DMA_STATUS_COMPLETE w1 /\
    user (w_app w1) = [0] /\ (_reserved <$> xfer (w_app w1)) = [DMA_EMUL_CHANNEL_STOPPED; DMA_EMUL_CHANNEL_STOPPED] /\
    memory (w_app w1) = transferred [mk_block 0 0x1000 6 NULL; mk_block 100 0x1004 5 NULL] (memory linked_driver).
Proof.
  destruct (dma_transfers (INST := two_channels) BASES bases_pos 3 6 2 (fun l u => u ++ [lk_channel l])
    first_link [second_link] (replicate 2048 0) PACKETS 1 linked_started) as (w1 & k1 & E & Hx & _ & Hu & Hm & _).
  - intros w. reflexivity.
  - exact linked_ready.
  - lia.
  - lia.
  - reflexivity.
  - split_and!; reflexivity.
  - repeat constructor; simpl; set_solver.
  - exact linked_ok.
  - apply Forall_cons_2; [|apply Forall_nil_2]. intros w. reflexivity.
  - vm_compute. congruence.
  - simpl. lia.
  - exists w1. split; [exact E|]. split; [exact Hu|]. split; [rewrite Hx; reflexivity|exact Hm].
Defined.
