(* ===== verification/Threads.v ===== *)
(** * Threads on one connection ([zephyr-samples/pcie_native_thread/src/main.c])

    Threads that read and write BAR 1 through one connection, reads under the
    shared side of a read-write lock and writes under its exclusive side.  They
    have a cooperative priority, so that they switch only where they block: in
    an operation on the lock, while they sleep, and in the [select] of the
    server loop that a read runs until its completion arrives.  A step of a
    thread is its execution up to the next such point, where a whole iteration
    of the server loop is one step.  Logging, and the output of debug builds,
    are left out. *)

From S2P Require Import Prelude Layout Proto Crc World Client Server Host Native.

Definition NUM_THREADS : nat := 506.
Definition TRANSACTION_LENGTH : Z := 2048.
Definition ITERATIONS : Z := 100.

(** ** The parts of a read *)

Section Read.
Context {os app : Type} `{!SocketIO os} `{!Callbacks os app} `{!ServerIO os} `{!ServerCallbacks os app}
  `{!HostApp app}.
#[local] Abbreviation P := (M (world os app)).

(** [read_data] up to the wait: its result where it returns at once, and else
    the address of its variable. *)
Definition read_begin (client : ptr) (bar_ addr length_ : Z) (buf : list Z) : P (Z + ptr) :=
  let! p := new_frame (mk_rcd buf (u32 length_) 0 false) in
  modify client (set_private_data p) ;;
  let! r := warppipe_read client bar_ addr length_ READ_COMPL in
  if r <? 0 then end_frame p ;; ret (inl r) else ret (inr p).

(** The condition of the loop in [wait_for_completion]. *)
Definition read_waits (p : ptr) : P bool :=
  let! d := get_frame p in
  let! s := get_server in
  ret (negb (rc_finished d) && negb (s_quit s)).

(** [read_data] from the end of that loop on. *)
Definition read_end (p : ptr) : P (Z * list Z) :=
  let! s := get_server in
  let! d := get_frame p in
  end_frame p ;;
  ret (if s_quit s then -1 else rc_ret d, rc_buf d).

(** Together they are [read_data]. *)
Lemma read_data_parts fuel client bar_ addr length_ buf w :
  read_data fuel client bar_ addr length_ buf w =
  (let! r := read_begin client bar_ addr length_ buf in
   match r with
   | inl r => ret (r, buf)
   | inr p => wait_loop fuel p ;; read_end p
   end) w.
Proof.
  unfold read_data, read_begin, wait_for_completion, read_end, bind, ret, get_server.
  destruct (new_frame _ w) as [p w1| | |]; try done.
  destruct (modify client _ w1) as [[] w2| | |]; try done.
  destruct (warppipe_read _ _ _ _ _ w2) as [r w3| | |]; try done.
  destruct (r <? 0); [by destruct (end_frame p w3)|].
  destruct (wait_loop fuel p w3) as [[] w4| | |]; try done.
  destruct (s_quit (w_server w4)); unfold get_frame; by destruct (frames _ !! p).
Qed.

Lemma wait_loop_step fuel p w :
  wait_loop fuel p w =
  (let! b := read_waits p in
   if b then match fuel with O => no_fuel | S fuel => warppipe_server_loop ;; wait_loop fuel p end
   else ret tt) w.
Proof.
  destruct fuel; simpl; unfold read_waits, bind, ret; by destruct (get_frame p w) as [d w1| | |].
Qed.
End Read.

(** ** The threads *)

(** Where a thread is between two steps: before or in the first or second read
    of an iteration, before its write, or at its end. *)
Inductive point := ReadNext (second : bool) | Reading (second : bool) (p : ptr) | WriteNext | Finished.

(** The argument of the thread, its [k] and its [buf], which [read_data] owns
    while it runs. *)
Record thread := mk_thread { t_i : Z; t_k : Z; t_at : point; t_buf : list Z }.

(** [buf[j] = j+i] *)
Definition pattern (i : Z) : list Z :=
  (fun j => u8 (j + i)) <$> seqZ 0 TRANSACTION_LENGTH.

Section Threads.
Context {os app : Type} `{!SocketIO os} `{!Callbacks os app} `{!ServerIO os} `{!ServerCallbacks os app}
  `{!HostApp app}.
#[local] Abbreviation P := (M (world os app)).

(** A read section with its assertion is over: on to the write, or to the next
    iteration. *)
Definition after_read (second : bool) (t : thread) (r : Z) (buf : list Z) : P thread :=
  assert_ (r =? TRANSACTION_LENGTH) ;;
  ret (if negb second then mk_thread (t_i t) (t_k t) WriteNext buf
       else mk_thread (t_i t) (t_k t + 1) (if t_k t + 1 <? ITERATIONS then ReadNext false else Finished) buf).

(** A step of a thread, where [readers] threads hold the lock for reading; [None]
    where it cannot run. *)
Definition thread_step (client : ptr) (readers : nat) (t : thread) : P (option (nat * thread)) :=
  match t_at t with
  | ReadNext second =>
      let! r := read_begin client 1 0 TRANSACTION_LENGTH (t_buf t) in
      match r with
      | inl r => let! t := after_read second t r (t_buf t) in ret (Some (readers, t))
      | inr p => ret (Some (S readers, mk_thread (t_i t) (t_k t) (Reading second p) (t_buf t)))
      end
  | Reading second p =>
      let! b := read_waits p in
      if b then warppipe_server_loop ;; ret (Some (readers, t))
      else
        let! (r, buf) := read_end p in
        let! t := after_read second t r buf in
        ret (Some (pred readers, t))
  | WriteNext =>
      match readers with
      | S _ => ret None
      | O =>
          let buf := pattern (t_i t) in
          let! r := warppipe_write client 1 0 buf TRANSACTION_LENGTH in
          assert_ (r =? 0) ;;
          ret (Some (O, mk_thread (t_i t) (t_k t) (ReadNext true) buf))
      end
  | Finished => ret None
  end.

(** [thread_task(i)] at its start; [buf] is not initialised. *)
Definition thread_task (i : Z) (buf : list Z) : thread :=
  mk_thread i 0 (if 0 <? ITERATIONS then ReadNext false else Finished) buf.

(** [uninit]: what the threads find in their buffers. *)
Definition init_threads (uninit : nat -> list Z) : list thread :=
  (fun i => thread_task (Z.of_nat i) (uninit i)) <$> seq 0 NUM_THREADS.

(** The threads run in the order of [sched]; one that cannot run passes. *)
Fixpoint run_threads (sched : list nat) (client : ptr) (s : nat * list thread) : P (nat * list thread) :=
  match sched with
  | [] => ret s
  | j :: sched =>
      match s.2 !! j with
      | None => run_threads sched client s
      | Some t =>
          let! r := thread_step client s.1 t in
          match r with
          | None => run_threads sched client s
          | Some (readers, t) => run_threads sched client (readers, <[j := t]> s.2)
          end
      end
  end.

Definition finished (t : thread) : bool := match t_at t with Finished => true | _ => false end.

(** The main function joins the threads: it returns only in a schedule in which
    all of them finish. *)
Definition pcie_native_thread_main (fuel : nat) (junk : list Z) (uninit : nat -> list Z) (sched : list nat) : P Z :=
  let! r := warppipe_server_create in
  if r =? -1 then ret (-1)
  else
    let! client := first_client in
    let! r := enumerate fuel junk client in
    if r <? 0 then ret (-1)
    else
      let! s := run_threads sched client (O, init_threads uninit) in
      if forallb finished s.2 then ret 0 else no_fuel.
End Threads.

(** ** Runs *)

Section Runs.
Context {os app : Type} `{!SocketIO os} `{!Callbacks os app} `{!ServerIO os} `{!ServerCallbacks os app}
  `{!HostApp app}.

(** Holders of the lock for reading, threads, and the rest of the process. *)
Definition pool : Type := nat * list thread * world os app.

(** Some thread takes a step. *)
Inductive pool_step (client : ptr) : pool -> pool -> Prop :=
  | thread_steps j t t' readers readers' ts w w' :
      ts !! j = Some t -> thread_step client readers t w = Ret (Some (readers', t')) w' ->
      pool_step client (readers, ts, w) (readers', <[j := t']> ts, w').

(** A step after which at most one thread is reading. *)
Definition solo_step (client : ptr) (s s' : pool) : Prop := pool_step client s s' /\ (s'.1.1 <= 1)%nat.

Lemma run_threads_steps client sched : forall s w s' w',
  run_threads sched client s w = Ret s' w' -> rtc (pool_step client) (s, w) (s', w').
Proof.
  induction sched as [|j sched IH]; intros [readers ts] w s' w'; simpl; [by intros [= <- <-]|].
  destruct (ts !! j) as [t|] eqn:Ht; [|apply IH]. unfold bind.
  destruct (thread_step client readers t w) as [[[readers1 t1]|] w1| | |] eqn:E; try done.
  - intros H%IH. eapply rtc_l; [|exact H]. by econstructor.
  - assert (w1 = w) as ->; [|apply IH].
    unfold thread_step in E. destruct (t_at t) as [second|second p| |] eqn:Hat.
    + unfold bind in E. destruct (read_begin _ _ _ _ _ w) as [[r|p] w2| | |]; try done.
      by destruct (after_read _ _ _ _ w2).
    + unfold bind in E. destruct (read_waits p w) as [[] w2| | |]; try done; [by destruct (warppipe_server_loop w2)|].
      destruct (read_end p w2) as [[r buf] w3| | |]; try done. by destruct (after_read _ _ _ _ w3).
    + destruct readers; [|by inversion E]. unfold bind in E. destruct (warppipe_write _ _ _ _ _ w) as [r w2| | |]; try done.
      by destruct (assert_ _ w2).
    + by inversion E.
Qed.
End Runs.
