(* ===== verification/ThreadsSpec.v ===== *)
(** * Threads on one connection: properties

    The threads of [Threads], in the system of [Native] after the enumeration.
    As long as no two of them read at the same time every run is correct and can
    be completed; the lock of the sample, however, lets them read at the same
    time, and then it is not. *)

From S2P Require Import Prelude Layout Proto Crc World Client Logic Server MemoryMock MockSpec Host Native Link Remote Threads.

#[local] Abbreviation W := (world pair_os host).

(** ** One read *)

Lemma read_begin_fails client bar_ addr len buf (w w' : W) r :
  read_begin client bar_ addr len buf w = Ret (inl r) w' -> r < 0.
Proof.
  unfold read_begin, bind, ret. destruct (new_frame _ w) as [p w1| | |]; try done.
  destruct (modify client _ w1) as [[] w2| | |]; try done.
  destruct (warppipe_read _ _ _ _ _ w2) as [r' w3| | |]; try done.
  destruct (Z.ltb_spec r' 0); [|done]. destruct (end_frame p w3); congruence.
Qed.

(** The read that waits in [p] will return [x] after at most [u] iterations of the
    server loop, and lead to [w']. *)
Definition will_return (u : nat) (p : ptr) (x : Z * list Z) (w w' : W) : Prop :=
  (wait_loop u p ;; read_end p) w = Ret x w'.

Lemma will_return_step u p x w w' :
  will_return u p x w w' ->
  (read_waits p w = Ret true w /\
   exists u' w1, u = S u' /\ warppipe_server_loop w = Ret tt w1 /\ will_return u' p x w1 w') \/
  (read_waits p w = Ret false w /\ read_end p w = Ret x w').
Proof.
  intros E. unfold will_return, bind in E. rewrite wait_loop_step in E.
  assert (match read_waits p w with Ret b w1 => w1 = w | _ => True end) as Hw.
  { unfold read_waits, bind, get_frame, get_server, ret. by destruct (frames (w_app w) !! p). }
  unfold bind in E. destruct (read_waits p w) as [[] w1| | |] eqn:Er; try done; subst w1.
  - left. split; [done|]. destruct u as [|u]; [done|].
    destruct (warppipe_server_loop w) as [[] w1| | |] eqn:El; try done. by exists u, w1.
  - right. done.
Qed.

Lemma wr_bytes_all (m buf : list Z) : length m = length buf -> wr_bytes 0 m buf = m.
Proof.
  intros H. rewrite wr_bytes_split by lia. simpl. rewrite H, drop_all. apply app_nil_r.
Qed.

Section Solo.
Context (c : ptr).

Lemma linked_begin n k m (w : W) buf :
  linked BASES n c k m w -> 1 <= n -> length buf = 2048%nat ->
  exists p w1 w', read_begin c 1 0 TRANSACTION_LENGTH buf w = Ret (inr p) w1 /\
    will_return (k + 2) p (TRANSACTION_LENGTH, m) w1 w' /\ linked BASES (n - 1) c 1 m w'.
Proof.
  intros Hl Hn Hb. pose proof (linked_length _ _ _ _ _ _ Hl) as Hm.
  destruct (linked_read BASES bases_pos n c k m w 1 0 TRANSACTION_LENGTH buf (k + 2))
    as (w' & E & _ & Hl'); try done; try (unfold TRANSACTION_LENGTH; simpl; lia).
  change (Z.of_nat 1) with 1 in E. rewrite read_data_parts in E. unfold bind at 1 in E.
  destruct (read_begin c 1 0 TRANSACTION_LENGTH buf w) as [[r|p] w1| | |] eqn:Eb; try done.
  { apply read_begin_fails in Eb. inversion E. subst. unfold TRANSACTION_LENGTH in Eb. lia. }
  exists p, w1, w'. split_and!; [done| |done]. unfold will_return. rewrite E. do 2 f_equal.
  simpl contents. rewrite (take_ge _ (Z.to_nat _)) by (rewrite length_drop; unfold TRANSACTION_LENGTH; lia).
  apply wr_bytes_all. simpl. lia.
Qed.

Lemma linked_store n k m (w : W) data :
  linked BASES n c k m w -> 1 <= n -> length data = 2048%nat ->
  exists w', warppipe_write c 1 0 data TRANSACTION_LENGTH w = Ret 0 w' /\ linked BASES (n - 1) c (k + 1) data w'.
Proof.
  intros Hl Hn Hd. pose proof (linked_length _ _ _ _ _ _ Hl) as Hm.
  destruct (linked_write BASES bases_pos n c k m w 0 data TRANSACTION_LENGTH)
    as (w' & E & _ & Hl'); try done; try (unfold TRANSACTION_LENGTH; lia).
  exists w'. split; [done|]. rewrite take_ge, wr_bytes_all in Hl' by (unfold TRANSACTION_LENGTH; simpl; lia). done.
Qed.

(** ** The invariant *)

(** What a read can return: the initial memory, or all of what one thread wrote. *)
Definition untorn (m : list Z) : Prop :=
  m = replicate 2048 0 \/ exists i : nat, (i < NUM_THREADS)%nat /\ m = pattern (Z.of_nat i).

Definition thread_ok (t : thread) : Prop :=
  length (t_buf t) = 2048%nat /\ (exists i : nat, (i < NUM_THREADS)%nat /\ t_i t = Z.of_nat i) /\
  0 <= t_k t /\ (t_at t <> Finished -> t_k t < ITERATIONS) /\ (t_at t = WriteNext \/ 0 < t_k t -> untorn (t_buf t)).

Definition reading (t : thread) : option ptr := match t_at t with Reading _ p => Some p | _ => None end.

(** The accesses that a thread has yet to begin. *)
Definition remaining (t : thread) : Z :=
  match t_at t with
  | ReadNext false => 3 * (ITERATIONS - t_k t)
  | Reading false _ | WriteNext => 3 * (ITERATIONS - t_k t) - 1
  | ReadNext true => 3 * (ITERATIONS - t_k t) - 2
  | Reading true _ => 3 * (ITERATIONS - t_k t) - 3
  | Finished => 0
  end.
Definition total (ts : list thread) : Z := foldr (fun t n => remaining t + n) 0 ts.

Lemma total_insert ts : forall j t t', ts !! j = Some t -> total (<[j := t']> ts) = total ts - remaining t + remaining t'.
Proof.
  induction ts as [|x ts IH]; intros [|j] t t' H; simpl in *; simplify_eq; [lia|]. rewrite (IH j t t' H). lia.
Qed.

Lemma remaining_nonneg t : thread_ok t -> 0 <= remaining t.
Proof.
  intros (_ & _ & Hk & Hf & _). unfold remaining, ITERATIONS in *.
  destruct (t_at t) as [[]|[]| |]; first [lia | specialize (Hf ltac:(done)); lia].
Qed.

Lemma total_nonneg ts : Forall thread_ok ts -> 0 <= total ts.
Proof. induction 1 as [|t ts Ht _ IH]; simpl; [lia|]. pose proof (remaining_nonneg t Ht). lia. Qed.

Lemma total_ge ts : forall j t, Forall thread_ok ts -> ts !! j = Some t -> remaining t <= total ts.
Proof.
  induction ts as [|x ts IH]; intros [|j] t Hok Ht; simpl in *; simplify_eq; apply Forall_cons_1 in Hok as [Hx Hok].
  - pose proof (total_nonneg ts Hok). lia.
  - pose proof (IH j t Hok Ht). pose proof (remaining_nonneg x Hx). lia.
Qed.

(** Nobody reads: the memory is [m].  One thread reads: it will get [m]. *)
Inductive memory_is (m : list Z) (n : Z) : pool (os := pair_os) (app := host) -> Prop :=
  | memory_free k ts w :
      linked BASES n c k m w -> (forall j t, ts !! j = Some t -> reading t = None) -> memory_is m n (O, ts, w)
  | memory_read k u j t p ts w w' :
      ts !! j = Some t -> reading t = Some p -> (forall j' t', ts !! j' = Some t' -> j' <> j -> reading t' = None) ->
      will_return u p (TRANSACTION_LENGTH, m) w w' -> linked BASES n c k m w' -> memory_is m n (1%nat, ts, w).

Definition pool_ok (s : pool) : Prop :=
  Forall thread_ok s.1.2 /\ exists m n, untorn m /\ total s.1.2 <= n /\ memory_is m n s.

Lemma pattern_length i : length (pattern i) = 2048%nat.
Proof. unfold pattern. by rewrite length_fmap, length_seqZ. Qed.

Lemma remaining_pos t : thread_ok t -> (exists second, t_at t = ReadNext second) \/ t_at t = WriteNext -> 1 <= remaining t.
Proof.
  intros (_ & _ & _ & Hf & _) [[second H]|H]; specialize (Hf ltac:(by rewrite H)); unfold remaining, ITERATIONS in *;
    rewrite H; [destruct second|]; lia.
Qed.

(** ** The steps *)

(** A thread after a step, and what the step used of the accesses left. *)
Record stepped (t t' : thread) (used : Z) (now : option ptr) : Prop := {
  st_ok : thread_ok t';
  st_remaining : remaining t' = remaining t - used;
  st_reading : reading t' = now;
}.

Lemma step_begin n k m t second (w : W) :
  thread_ok t -> t_at t = ReadNext second -> linked BASES n c k m w -> 1 <= n ->
  exists p t' w1 w', thread_step c O t w = Ret (Some (1%nat, t')) w1 /\ stepped t t' 1 (Some p) /\
    will_return (k + 2) p (TRANSACTION_LENGTH, m) w1 w' /\ linked BASES (n - 1) c 1 m w'.
Proof.
  intros (Hb & Hi & Hk & Hf & Hu) Hat Hl Hn. destruct (linked_begin n k m w (t_buf t)) as (p & w1 & w' & E & Hr & Hl'); try done.
  exists p, (mk_thread (t_i t) (t_k t) (Reading second p) (t_buf t)), w1, w'. split_and!; [|constructor|done..].
  - unfold thread_step. rewrite Hat. unfold bind. by rewrite E.
  - split_and!; try done; simpl; [by rewrite Hat in Hf; intros _; apply Hf|]. intros [?|?]; [done|]. apply Hu. by right.
  - unfold remaining. rewrite Hat. destruct second; simpl; lia.
  - done.
Qed.

Lemma step_store n k m t (w : W) :
  thread_ok t -> t_at t = WriteNext -> linked BASES n c k m w -> 1 <= n ->
  exists t' w', thread_step c O t w = Ret (Some (O, t')) w' /\ stepped t t' 1 None /\
    untorn (t_buf t') /\ linked BASES (n - 1) c (k + 1) (t_buf t') w'.
Proof.
  intros (Hb & (i & Hi & Hti) & Hk & Hf & Hu) Hat Hl Hn.
  destruct (linked_store n k m w (pattern (t_i t))) as (w' & E & Hl'); try done.
  assert (untorn (pattern (t_i t))) as Hp by (right; exists i; by rewrite Hti).
  exists (mk_thread (t_i t) (t_k t) (ReadNext true) (pattern (t_i t))), w'. split_and!; [|constructor|done..].
  - unfold thread_step. rewrite Hat. unfold bind. by rewrite E.
  - split_and!; try done; [by exists i|simpl; rewrite Hat in Hf; intros _; by apply Hf].
  - unfold remaining. rewrite Hat. simpl. lia.
  - done.
Qed.

Lemma after_read_ok second t p buf (w : W) :
  thread_ok t -> t_at t = Reading second p -> length buf = 2048%nat -> untorn buf ->
  exists t', after_read second t TRANSACTION_LENGTH buf w = Ret t' w /\ stepped t t' 0 None.
Proof.
  intros (Hb & Hi & Hk & Hf & Hu) Hat Hl Hun. specialize (Hf ltac:(by rewrite Hat)).
  eexists. split; [reflexivity|]. constructor.
  - destruct second; simpl; [|by split_and!].
    destruct (Z.ltb_spec (t_k t + 1) ITERATIONS); split_and!; simpl; done || lia.
  - unfold remaining. rewrite Hat. destruct second; simpl; [|lia]. unfold ITERATIONS in *.
    destruct (Z.ltb_spec (t_k t + 1) 100); simpl; lia.
  - unfold reading. destruct second; simpl; [|done]. by destruct (_ <? _).
Qed.

Lemma step_poll n k u m t p (w w' : W) :
  thread_ok t -> reading t = Some p -> untorn m -> will_return u p (TRANSACTION_LENGTH, m) w w' -> linked BASES n c k m w' ->
  (exists u' w1, u = S u' /\ thread_step c 1 t w = Ret (Some (1%nat, t)) w1 /\ will_return u' p (TRANSACTION_LENGTH, m) w1 w') \/
  (exists t', thread_step c 1 t w = Ret (Some (O, t')) w' /\ stepped t t' 0 None).
Proof.
  intros Ht Hp Hm Hr Hl. unfold reading in Hp. destruct (t_at t) as [|second q| |] eqn:Hat; simplify_eq.
  unfold thread_step. rewrite Hat. destruct (will_return_step _ _ _ _ _ Hr) as [(E & u' & w1 & Hu & El & Hr1)|(E & Ee)]; unfold bind; rewrite E.
  - left. exists u', w1. by rewrite El.
  - right. rewrite Ee. destruct (after_read_ok second t p m w') as (t' & Ea & Hst); try done.
    { by apply linked_length in Hl. }
    exists t'. by rewrite Ea.
Qed.

Lemma step_more_readers readers t (w : W) second readers' t' w' :
  t_at t = ReadNext second -> thread_step c readers t w = Ret (Some (readers', t')) w' ->
  readers' = S readers.
Proof.
  intros Hat E. unfold thread_step in E. rewrite Hat in E. unfold bind in E.
  destruct (read_begin _ _ _ _ _ w) as [[r|p] w1| | |] eqn:Eb; try done; [|by inversion E].
  apply read_begin_fails in Eb. unfold after_read, bind, assert_ in E.
  rewrite (proj2 (Z.eqb_neq _ _)) in E by (unfold TRANSACTION_LENGTH; lia). done.
Qed.

Lemma reading_others (j : nat) t t' (ts : list thread) p :
  ts !! j = Some t -> reading t' = p -> (forall j' x, ts !! j' = Some x -> j' <> j -> reading x = None) ->
  <[j := t']> ts !! j = Some t' /\ (forall j' x, <[j := t']> ts !! j' = Some x -> j' <> j -> reading x = None) /\
  (p = None -> forall j' x, <[j := t']> ts !! j' = Some x -> reading x = None).
Proof.
  intros Hj Hp Ho.
  assert (<[j := t']> ts !! j = Some t') as Hi by (apply list_lookup_insert_eq; by eapply lookup_lt_Some).
  assert (forall j' x, <[j := t']> ts !! j' = Some x -> j' <> j -> reading x = None) as Ho'.
  { intros j' x Hx Hne. rewrite list_lookup_insert_ne in Hx by done. by eapply Ho. }
  split_and!; [done..|]. intros -> j' x Hx. destruct (decide (j' = j)) as [->|Hne]; [congruence|by eapply Ho'].
Qed.

(** A thread that may run without a second reader: what its step does to a pool
    that is well formed. *)
Lemma pool_runs s j t :
  pool_ok s -> s.1.2 !! j = Some t -> (s.1.1 = O \/ forall second, t_at t <> ReadNext second) ->
  (thread_step c s.1.1 t s.2 = Ret None s.2 /\ (t_at t = Finished \/ s.1.1 = 1%nat)) \/
  exists readers' t' w', thread_step c s.1.1 t s.2 = Ret (Some (readers', t')) w' /\
    pool_ok (readers', <[j := t']> s.1.2, w') /\ (readers' <= 1)%nat /\ remaining t' <= remaining t /\
    (s.1.1 = O -> remaining t' < remaining t).
Proof.
  intros [Hok (m & n & Hm & Hn & Hmem)] Hj Hmay.
  pose proof (Forall_lookup_1 _ _ _ _ Hok Hj) as Ht. pose proof (total_ge _ _ _ Hok Hj) as Hge.
  assert (forall readers' t' u p w' m' n', stepped t t' u p -> n' = n - u -> untorn m' ->
    memory_is m' n' (readers', <[j := t']> s.1.2, w') -> pool_ok (readers', <[j := t']> s.1.2, w')) as Hpool.
  { intros readers' t' u p w' m' n' [H1 H2 H3] -> Hm' Hmem'. split; [by apply Forall_insert|].
    exists m', (n - u). split_and!; [done| |done]. cbn. rewrite (total_insert _ _ t) by done. cbn in Hn. lia. }
  destruct Hmem as [k ts w Hl Hnone|k u j0 t0 p ts w w1 Hj0 Hp Hothers Hr Hl]; cbn [fst snd] in *.
  - pose proof (Hnone j t Hj) as Hrd. destruct (t_at t) as [second|second p| |] eqn:Hat.
    + right. destruct (step_begin n k m t second w) as (p & t' & w1 & w' & E & Hst & Hr & Hl'); try done.
      { pose proof (remaining_pos t Ht ltac:(left; by exists second)). lia. }
      exists 1%nat, t', w1. pose proof (st_remaining _ _ _ _ Hst). split_and!; [done| |intros; lia..].
      destruct (reading_others j t t' ts (Some p)) as (H1 & H2 & _); try done; [apply Hst|by intros; eapply Hnone|].
      eapply Hpool; [exact Hst|reflexivity|exact Hm|]. eapply memory_read; [exact H1|apply Hst|exact H2|exact Hr|exact Hl'].
    + unfold reading in Hrd. by rewrite Hat in Hrd.
    + right. destruct (step_store n k m t w) as (t' & w' & E & Hst & Hu & Hl'); try done.
      { pose proof (remaining_pos t Ht ltac:(by right)). lia. }
      exists O, t', w'. pose proof (st_remaining _ _ _ _ Hst). split_and!; [done| |intros; lia..].
      destruct (reading_others j t t' ts None) as (_ & _ & H3); try done; [apply Hst|by intros; eapply Hnone|].
      eapply Hpool; [exact Hst|reflexivity|exact Hu|]. eapply memory_free; [exact Hl'|by apply H3].
    + left. split; [|by left]. unfold thread_step. by rewrite Hat.
  - destruct Hmay as [?|Hmay]; [done|]. destruct (reading t) as [q|] eqn:Hrd.
    + assert (j0 = j) as -> by (destruct (decide (j0 = j)); [done|]; by rewrite (Hothers j t Hj) in Hrd).
      assert (t0 = t) as -> by congruence. assert (q = p) as -> by congruence. right.
      destruct (step_poll n k u m t p w w1) as [(u2 & w2 & _ & E & Hr2)|(t' & E & Hst)]; try done.
      * exists 1%nat, t, w2. split_and!; [done| |intros; lia..]. rewrite list_insert_id by done.
        split; [done|]. exists m, n. split_and!; [done..|]. by eapply memory_read.
      * exists O, t', w1. pose proof (st_remaining _ _ _ _ Hst). split_and!; [done| |intros; lia..].
        destruct (reading_others j t t' ts None) as (_ & _ & H3); try done; [apply Hst|].
        eapply Hpool; [exact Hst|symmetry; apply Z.sub_0_r|exact Hm|]. eapply memory_free; [exact Hl|by apply H3].
    + left. unfold thread_step, reading in *. destruct (t_at t) as [second| | |] eqn:Hat; try done.
      * by destruct (Hmay second).
      * split; [done|by right].
      * split; [done|by left].
Qed.

(** ** Runs *)

Lemma solo_step_ok s s' : pool_ok s -> solo_step c s s' -> pool_ok s'.
Proof.
  intros Hok [Hs Hsolo]. destruct Hs as [j t t' readers readers' ts w w' Hj E]. cbn in Hsolo.
  destruct (pool_runs (readers, ts, w) j t) as [[E' _]|(r1 & t1 & w1 & E' & Hok' & _)]; try done; cbn in *.
  - destruct (t_at t) as [second| | |] eqn:Hat; [|by right..]. left. apply (step_more_readers _ _ _ second) in E; [lia|done].
  - congruence.
  - rewrite E in E'. by simplify_eq.
Qed.

Lemma solo_run_ok s s' : pool_ok s -> rtc (solo_step c) s s' -> pool_ok s'.
Proof. intros Hok Hs. induction Hs; [done|]. eauto using solo_step_ok. Qed.

(** The thread that reads can read on to the end. *)
Lemma pool_drains s :
  pool_ok s -> exists s', rtc (solo_step c) s s' /\ pool_ok s' /\ s'.1.1 = O /\ total s'.1.2 = total s.1.2.
Proof.
  intros [Hok (m & n & Hm & Hn & Hmem)]. destruct Hmem as [k ts w Hl Hnone|k u j t p ts w w' Hj Hp Ho Hr Hl].
  { eexists. split_and!; [apply rtc_refl| |done..]. split; [done|]. exists m, n. split_and!; [done..|]. by econstructor. }
  pose proof (Forall_lookup_1 _ _ _ _ Hok Hj) as Ht. cbn [fst snd] in *. revert w Hr. induction u as [u IH] using lt_wf_ind. intros w Hr.
  destruct (step_poll n k u m t p w w') as [(u' & w1 & -> & E & Hr1)|(t' & E & Hst)]; try done.
  - destruct (IH u' ltac:(lia) w1 Hr1) as (s' & Hs & H). exists s'. split; [|exact H]. eapply rtc_l; [|exact Hs].
    split; [|done]. rewrite <-(list_insert_id ts j t) at 2 by done. by econstructor.
  - exists (O, <[j := t']> ts, w'). pose proof (st_remaining _ _ _ _ Hst). split_and!; [| |done|].
    + apply rtc_once. split; [by econstructor|cbn; lia].
    + destruct (reading_others j t t' ts None) as (_ & _ & H3); try done; [apply Hst|].
      split; [apply Forall_insert; [done|apply Hst]|]. exists m, n. split_and!; [done| |eapply memory_free; [exact Hl|by apply H3]].
      cbn. rewrite (total_insert _ _ t) by done. lia.
    + cbn. rewrite (total_insert _ _ t) by done. lia.
Qed.

Lemma total_finished ts : Forall thread_ok ts -> forallb finished ts = false ->
  exists j t, ts !! j = Some t /\ t_at t <> Finished.
Proof.
  intros _. induction ts as [|t ts IH]; simpl; [done|]. destruct (finished t) eqn:Hf; simpl.
  - intros (j & t' & H)%IH. by exists (S j), t'.
  - intros _. exists O, t. split; [done|]. unfold finished in Hf. by destruct (t_at t).
Qed.

(** Every run can be completed. *)
Lemma pool_completes s :
  pool_ok s -> exists s', rtc (solo_step c) s s' /\ pool_ok s' /\ forallb finished s'.1.2 = true.
Proof.
  assert (forall N : nat, forall s, pool_ok s -> total s.1.2 <= Z.of_nat N ->
    exists s', rtc (solo_step c) s s' /\ pool_ok s' /\ forallb finished s'.1.2 = true) as H.
  2: { intros Hok. apply (H (Z.to_nat (total s.1.2)) s Hok). lia. }
  induction N as [N IH] using lt_wf_ind. intros s0 Hok0 HN.
  destruct (pool_drains s0 Hok0) as (s1 & Hs1 & Hok1 & Hr1 & Htot). destruct s1 as [[r ts] w]. cbn [fst snd] in *. subst r.
  destruct (forallb finished ts) eqn:Hfin; [by exists (O, ts, w)|].
  destruct (total_finished ts (proj1 Hok1) Hfin) as (j & t & Hj & Hnf).
  destruct (pool_runs (O, ts, w) j t) as [[_ [?|?]]|(r' & t' & w' & E & Hok' & Hr' & Hle & Hlt)]; try done; [by left|].
  specialize (Hlt eq_refl). pose proof (total_insert ts j t t' Hj) as Hti.
  pose proof (total_nonneg _ (proj1 Hok')) as Hnn. cbn [fst snd] in Hnn, E.
  destruct (IH (Z.to_nat (total (<[j := t']> ts))) ltac:(lia) (r', <[j := t']> ts, w') Hok') as (s2 & Hs2 & H2); [cbn [fst snd]; lia|].
  exists s2. split; [|exact H2]. etrans; [exact Hs1|]. eapply rtc_l; [|exact Hs2]. split; [by econstructor|done].
Qed.
End Solo.

(** ** From power-on *)

Lemma init_threads_ok uninit :
  (forall i, length (uninit i) = 2048%nat) ->
  Forall thread_ok (init_threads uninit) /\ total (init_threads uninit) <= PACKETS /\
  forall j t, init_threads uninit !! j = Some t -> reading t = None.
Proof.
  intros Hu.
  assert (forall l, (forall i, i ∈ l -> (i < NUM_THREADS)%nat) ->
    let ts := (fun i => thread_task (Z.of_nat i) (uninit i)) <$> l in
    Forall thread_ok ts /\ total ts = 300 * Z.of_nat (length l) /\ Forall (fun t => reading t = None) ts) as H.
  { induction l as [|i l IH]; intros Hl ts; [by split_and!; try constructor|].
    destruct IH as (H1 & H2 & H3); [intros; apply Hl; by right|]. split_and!.
    - apply Forall_cons_2; [|done]. split_and!; [apply Hu|exists i; split; [apply Hl; by left|done]|done..|by intros [|]].
    - change (total ts) with (300 + total ((fun i => thread_task (Z.of_nat i) (uninit i)) <$> l)). simpl length. lia.
    - by apply Forall_cons_2. }
  destruct (H (seq 0 NUM_THREADS)) as (H1 & H2 & H3); [by intros i [_ ?]%elem_of_seq|].
  split_and!; [done| |intros j t Hj; by eapply Forall_lookup_1 in H3].
  unfold init_threads. rewrite H2, length_seq. by vm_compute.
Qed.

Lemma steps_run_threads client (s s' : pool (os := pair_os) (app := host)) :
  rtc (pool_step client) s s' -> exists sched, run_threads sched client s.1 s.2 = Ret s'.1 s'.2.
Proof.
  induction 1 as [s|s1 s2 s3 Hs _ [sched IH]]; [by exists []|].
  destruct Hs as [j t t' readers readers' ts w w' Hj E]. exists (j :: sched). simpl. rewrite Hj.
  unfold bind. by rewrite E.
Qed.

Lemma main_runs fuel junk uninit sched c (w : W) :
  bring_up fuel junk native_system = Ret c w ->
  pcie_native_thread_main fuel junk uninit sched native_system =
  (let! s := run_threads sched c (O, init_threads uninit) in
   if forallb finished s.2 then ret 0 else no_fuel) w.
Proof.
  assert (match warppipe_server_create native_system with Ret r _ => r =? 0 | _ => false end = true) as Hc
    by (vm_compute; reflexivity).
  unfold bring_up, pcie_native_thread_main, assert_. unfold bind at 1. unfold bind at 4.
  destruct (warppipe_server_create native_system) as [r w0| | |]; try done.
  apply Z.eqb_eq in Hc as ->. change (0 =? -1) with false. cbv iota.
  unfold bind at 1. unfold bind at 3. destruct (first_client w0) as [c0 w1| | |]; try done.
  unfold bind at 1. unfold bind at 2. destruct (enumerate fuel junk c0 w1) as [r w2| | |]; try done.
  unfold bind at 1. destruct (Z.eqb_spec r 0) as [->|]; [|done]. intros [= <- <-]. done.
Qed.

(** C12. Threads that do not read at the same time are correct.  After the sample
    connected to the mock and enumerated it, take any run of its 506 threads in
    which no thread begins a read while another is in one.  Whatever the threads
    found in their buffers: no thread that may run fails an assertion or has
    undefined behaviour; no read is torn, but has all of what one thread wrote,
    or the initial memory; and the run can be completed, so that the main
    function returns 0 in some schedule. *)
Theorem solo_threads_succeed (junk : list Z) (uninit : nat -> list Z) fuel :
  length junk = 4%nat -> (5 <= fuel)%nat -> (forall i, length (uninit i) = 2048%nat) ->
  exists c w, bring_up fuel junk native_system = Ret c w /\
    (forall s, rtc (solo_step c) (O, init_threads uninit, w) s ->
       (forall j t, s.1.2 !! j = Some t -> s.1.1 = O \/ (forall second, t_at t <> ReadNext second) ->
          exists x w', thread_step c s.1.1 t s.2 = Ret x w') /\
       (forall j t, s.1.2 !! j = Some t -> t_at t = WriteNext \/ 0 < t_k t -> untorn (t_buf t)) /\
       exists s', rtc (solo_step c) s s' /\ forallb finished s'.1.2 = true) /\
    exists sched w', pcie_native_thread_main fuel junk uninit sched native_system = Ret 0 w'.
Proof.
  intros Hj Hf Hu. destruct (bring_up_linked fuel junk Hj Hf) as (c & w & E & Hl).
  destruct (init_threads_ok uninit Hu) as (H1 & H2 & H3).
  assert (pool_ok c (O, init_threads uninit, w)) as Hok.
  { split; [done|]. exists (replicate 2048 0), PACKETS. split_and!; [by left|done|by econstructor]. }
  exists c, w. split_and!; [done| |].
  - intros s Hs%(solo_run_ok c _ _ Hok). split_and!.
    + intros j t Ht Hmay. destruct (pool_runs c s j t Hs Ht Hmay) as [[Er _]|(r & t' & w' & Er & _)]; eexists _, _; exact Er.
    + intros j t Ht. apply (Forall_lookup_1 _ _ _ _ (proj1 Hs) Ht).
    + destruct (pool_completes c s Hs) as (s' & Hr & _ & Hfin). exists s'. exact (conj Hr Hfin).
  - destruct (pool_completes c _ Hok) as (s' & Hs & _ & Hfin).
    destruct (steps_run_threads c (O, init_threads uninit, w) s') as [sched Er].
    { eapply rtc_subrel; [|exact Hs]. intros ?? [H _]. exact H. }
    exists sched, s'.2. rewrite (main_runs _ _ _ _ c w E). unfold bind. cbn [fst snd] in Er. rewrite Er, Hfin. reflexivity.
Qed.

Lemma solo_threads_succeed_witness :
  exists sched w', pcie_native_thread_main 5 [1; 2; 3; 4] (fun _ => replicate 2048 0xee) sched native_system = Ret 0 w'.
Proof.
  destruct (solo_threads_succeed [1; 2; 3; 4] (fun _ => replicate 2048 0xee) 5) as (c & w & _ & _ & H);
    [reflexivity|lia|reflexivity|]. exact H.
Defined.

(** ** Two readers *)

(** The buffers of the first two threads, filled. *)
Definition filled_two (uninit : nat -> list Z) (i : nat) : list Z :=
  match i with 0%nat | 1%nat => replicate 2048 0xee | _ => uninit i end.

Lemma run_threads_app client l1 l2 s (w : W) :
  run_threads (l1 ++ l2) client s w = (let! s := run_threads l1 client s in run_threads l2 client s) w.
Proof.
  revert s w. induction l1 as [|j l1 IH]; intros s w; [done|]. simpl. destruct (s.2 !! j) as [t|]; [|apply IH].
  unfold bind. destruct (thread_step client s.1 t w) as [[[r t']|] w1| | |]; try done; apply IH.
Qed.

Lemma run_threads_idle client l s (w : W) (P : nat -> Prop) :
  (forall j, P j -> run_threads [j] client s w = Ret s w) -> Forall P l -> run_threads l client s w = Ret s w.
Proof.
  intros H. induction 1 as [|j l Hj _ IH]; [done|]. change (j :: l) with ([j] ++ l).
  rewrite run_threads_app. unfold bind. by rewrite (H j Hj).
Qed.

#[local] Instance client_eq_dec : EqDecision warppipe_client.
Proof. solve_decision. Defined.
#[local] Instance server_eq_dec : EqDecision warppipe_server.
Proof. solve_decision. Defined.
#[local] Instance statics_eq_dec : EqDecision statics.
Proof. solve_decision. Defined.
#[local] Instance world_eq_dec {os app} `{!EqDecision os} `{!EqDecision app} : EqDecision (world os app).
Proof. solve_decision. Defined.
#[local] Instance mock_eq_dec : EqDecision mock.
Proof. solve_decision. Defined.
#[local] Instance dev_os_eq_dec : EqDecision dev_os.
Proof. solve_decision. Defined.
#[local] Instance pair_os_eq_dec : EqDecision pair_os.
Proof. solve_decision. Defined.
#[local] Instance rcd_eq_dec : EqDecision read_compl_data.
Proof. solve_decision. Defined.
#[local] Instance host_eq_dec : EqDecision host.
Proof. unfold host. solve_decision. Defined.
#[local] Instance point_eq_dec : EqDecision point.
Proof. solve_decision. Defined.
#[local] Instance thread_eq_dec : EqDecision thread.
Proof. solve_decision. Defined.

(** Thread 0 waits in a read, and the iteration it runs changes nothing; thread 1
    waits for the lock. *)
Definition stuck_b (c : ptr) (s : nat * list thread) (w : W) : bool :=
  match s.2 !! 0%nat, s.2 !! 1%nat with
  | Some t0, Some t1 =>
      (s.1 =? 1)%nat && match t_at t0 with Reading false _ => true | _ => false end && bool_decide (t_at t1 = WriteNext) &&
      match thread_step c s.1 t0 w with
      | Ret (Some (r, t)) w' => (r =? s.1)%nat && bool_decide (t = t0) && bool_decide (w' = w)
      | _ => false
      end
  | _, _ => false
  end.

Lemma stuck_b_sound c s w :
  stuck_b c s w = true ->
  s.1 = 1%nat /\ (exists p, t_at <$> s.2 !! 0%nat = Some (Reading false p)) /\ t_at <$> s.2 !! 1%nat = Some WriteNext /\
  forall sched, Forall (fun j => (j < 2)%nat) sched -> run_threads sched c s w = Ret s w.
Proof.
  destruct s as [r ts]. unfold stuck_b. simpl. destruct (ts !! 0%nat) as [t0|] eqn:H0; [|done].
  destruct (ts !! 1%nat) as [t1|] eqn:H1; [|done]. rewrite !andb_true_iff, Nat.eqb_eq, bool_decide_eq_true.
  intros [[[-> Hat0] Hat1] Hs]. destruct (thread_step c 1 t0 w) as [[[r t]|] w'| | |] eqn:E; try done.
  rewrite !andb_true_iff, Nat.eqb_eq, !bool_decide_eq_true in Hs. destruct Hs as [[-> ->] ->]. split_and!.
  - done.
  - simpl. destruct (t_at t0) as [|[] p| |]; try done. by exists p.
  - simpl. by rewrite Hat1.
  - intros sched. apply run_threads_idle. intros j Hj. simpl. destruct j as [|[|]]; [| |lia].
    + rewrite H0. unfold bind. rewrite E. by rewrite list_insert_id.
    + rewrite H1. unfold bind, thread_step. by rewrite Hat1.
Qed.

(** Two readers; the second has both completions to come. *)
Definition two_readers : list nat := [0; 1; 1; 1; 1]%nat.

(** The two ways to go on. *)
Lemma two_readers_b uninit :
  match bring_up 5 [1; 2; 3; 4] native_system with
  | Ret c w =>
      match run_threads two_readers c (O, init_threads (filled_two uninit)) w with
      | Ret s w1 =>
          match run_threads [1; 0; 0]%nat c s w1 with Undefined => true | _ => false end &&
          match run_threads [0; 0; 0; 0; 1]%nat c s w1 with Ret s' w' => stuck_b c s' w' | _ => false end
      | _ => false
      end
  | _ => false
  end = true.
Proof. vm_compute. reflexivity. Qed.

(** C13. Threads that read at the same time are not correct: a connection has one
    [private_data], and a completion is stored in the variable of whoever began a
    read last.  Two threads begin to read.  If the second gets the completion of
    the first and returns before its own arrives, that one is stored through a
    pointer to a variable that is gone.  If both completions arrive before it
    returns, the first thread waits forever, with the lock held for reading, and
    the second one forever for the lock to write. *)
Theorem readers_collide (uninit : nat -> list Z) :
  pcie_native_thread_main 5 [1; 2; 3; 4] (filled_two uninit) (two_readers ++ [1; 0; 0]%nat) native_system = Undefined /\
  exists c w ts w', bring_up 5 [1; 2; 3; 4] native_system = Ret c w /\
    run_threads (two_readers ++ [0; 0; 0; 0; 1]%nat) c (O, init_threads (filled_two uninit)) w = Ret (1%nat, ts) w' /\
    (exists p, t_at <$> ts !! 0%nat = Some (Reading false p)) /\ t_at <$> ts !! 1%nat = Some WriteNext /\
    forall sched, Forall (fun j => (j < 2)%nat) sched -> run_threads sched c (1%nat, ts) w' = Ret (1%nat, ts) w'.
Proof.
  pose proof (two_readers_b uninit) as H. destruct (bring_up 5 [1; 2; 3; 4] native_system) as [c w| | |] eqn:E; [|discriminate H..].
  rewrite (main_runs _ _ _ _ c w E). clear E.
  destruct (run_threads two_readers c _ w) as [s w1| | |] eqn:E1; [|discriminate H..].
  apply andb_true_iff in H as [Hu Hs]. split.
  - unfold bind at 1. rewrite run_threads_app. unfold bind at 1. rewrite E1. destruct (run_threads [1; 0; 0]%nat c s w1); [discriminate Hu..|reflexivity|discriminate Hu].
  - destruct (run_threads [0; 0; 0; 0; 1]%nat c s w1) as [s' w'| | |] eqn:E2; [|discriminate Hs..].
    destruct (stuck_b_sound c s' w' Hs) as (Hr & H1 & H2 & H3). destruct s' as [r ts]. simpl in Hr, H1, H2. subst r.
    exists c, w, ts, w'. split; [reflexivity|]. split; [|exact (conj H1 (conj H2 H3))].
    rewrite run_threads_app. unfold bind. rewrite E1. exact E2.
Qed.
