(* ===== verification/Samples.v ===== *)
(** * Samples on Zephyr's drivers ([zephyr-samples/pcie_nvme], [pcie_ivshmem],
    [pcie_scan], [pcie_pipe])

    Programs that run next to Warp Pipe in an emulated machine and use the
    devices it connects through Zephyr's drivers.  The drivers and the macros of
    Zephyr's headers are classes; what a program prints is a list of lines, the
    second half of its state.  Messages that only announce the next step are left
    out. *)

From S2P Require Import Prelude World.

(** ** Output *)

Section Output.
Context {D line : Type}.
#[local] Abbreviation P := (M (D * list line)).

(** A driver's operation. *)
Definition call {A} (m : M D A) : P A := fun '(d, out) =>
  match m d with
  | Ret a d' => Ret a (d', out)
  | Aborted d' => Aborted (d', out)
  | Undefined => Undefined
  | NoFuel => NoFuel
  end.

Definition printf (l : line) : P unit := fun '(d, out) => Ret tt (d, out ++ [l]).

Lemma run_call {A B} (m : M D A) (k : A -> P B) d a d' out :
  m d = Ret a d' -> bind (call m) k (d, out) = k a (d', out).
Proof. intros H. unfold bind, call. by rewrite H. Qed.

Lemma run_printf {B} (l : line) (k : P B) d out : (printf l ;; k) (d, out) = k (d, out ++ [l]).
Proof. done. Qed.
End Output.

(** ** The disk sample ([pcie_nvme/src/main.c]) *)

Definition DISK_NAME : string := "nvme0n0".

(** [storage/disk_access.h], and [malloc], which returns uninitialised memory.  An
    [ioctl] gets the contents of its buffer and returns them with its result; a
    read likewise. *)
Class DiskAccess (D : Type) := {
  DISK_STATUS_OK : Z;
  DISK_IOCTL_GET_SECTOR_COUNT : Z;
  DISK_IOCTL_GET_SECTOR_SIZE : Z;
  disk_access_init : string -> M D Z;
  disk_access_status : string -> M D Z;
  disk_access_ioctl : string -> Z -> Z -> M D (Z * Z);
  disk_access_write : string -> list Z -> Z -> Z -> M D Z;
  disk_access_read : string -> list Z -> Z -> Z -> M D (Z * list Z);
  disk_malloc : Z -> M D (option (list Z));
}.

Inductive disk_line :=
  | InitFailed (rc : Z) | Status (ok : bool) | SectorCount (n : Z) | SectorSize (n : Z)
  | Differ (i r w : Z) | Correct.

Section Nvme.
Context {D : Type} `{!DiskAccess D}.
#[local] Abbreviation P := (M (D * list disk_line)).

(** [for (i = 0; i < sector_sz; i++) wbuf[i] = 2 * i]: the product overflows an
    [int] from [2 ^ 30] on. *)
Definition disk_pattern (sector_sz : Z) : P (list Z) :=
  if 2 ^ 30 <? sector_sz then undefined else ret ((fun i => u8 (2 * i)) <$> seqZ 0 sector_sz).

(** The comparison, from index [i] on. *)
Fixpoint disk_verify (i : Z) (wbuf rbuf : list Z) : P Z :=
  match wbuf, rbuf with
  | [], _ => printf Correct ;; ret 0
  | w :: wbuf, r :: rbuf => if w =? r then disk_verify (i + 1) wbuf rbuf else printf (Differ i r w) ;; ret (-1)
  | _ :: _, [] => undefined
  end.

(** [cmd_buf] is not initialised; stores through the result of [malloc] are not
    guarded. *)
Definition nvme_main (cmd_buf : Z) : P Z :=
  let! rc := call (disk_access_init DISK_NAME) in
  if negb (rc =? 0) then printf (InitFailed rc) ;; ret (-1)
  else
    let! rc := call (disk_access_status DISK_NAME) in
    printf (Status (rc =? DISK_STATUS_OK)) ;;
    let! (_, cmd_buf) := call (disk_access_ioctl DISK_NAME DISK_IOCTL_GET_SECTOR_COUNT cmd_buf) in
    printf (SectorCount cmd_buf) ;;
    let! (_, cmd_buf) := call (disk_access_ioctl DISK_NAME DISK_IOCTL_GET_SECTOR_SIZE cmd_buf) in
    printf (SectorSize cmd_buf) ;;
    let sector_sz := cmd_buf in
    let! wmem := call (disk_malloc sector_sz) in
    if bool_decide (wmem = None) && (0 <? sector_sz) then undefined else
    let! wbuf := disk_pattern sector_sz in
    let! rmem := call (disk_malloc sector_sz) in
    call (disk_access_write DISK_NAME wbuf 10 1) ;;
    let! (_, rbuf) := call (disk_access_read DISK_NAME (default [] rmem) 10 1) in
    disk_verify 0 wbuf rbuf.
End Nvme.

(** ** The shared-memory sample ([pcie_ivshmem/src/main.c]) *)

(** [ivshmem.h]: the size and the address of the shared memory.  Whoever shares
    it may change it before the [i]th word is read. *)
Class Ivshmem := {
  ivshmem_ready : bool;
  ivshmem_get_mem : Z * ptr;
  ivshmem_peer : Z -> list Z -> list Z;
}.

Inductive shm_line := NotReady | SizeZero | SharedSize (n : Z) | NullMemory | ShmDiffer (i : Z) | ShmCorrect.

Section Ivshmem.
Context {IVSHMEM : Ivshmem}.

(** The memory, in words; [size] counts bytes. *)
#[local] Abbreviation P := (M (list Z * list shm_line)).

Definition word_at (i : Z) : M (list Z) Z := fun mem =>
  match mem !! Z.to_nat i with Some v => Ret v mem | None => Undefined end.
Definition store_word (i v : Z) : M (list Z) unit := fun mem =>
  if (Z.to_nat i <? length mem)%nat then Ret tt (<[Z.to_nat i := v]> mem) else Undefined.
Definition peer_runs (i : Z) : M (list Z) unit := fun mem => Ret tt (ivshmem_peer i mem).

(** [for (i = 0; i < 512; i++) data_ptr[i] = i], [n] words from [i] on. *)
Fixpoint shm_fill (n : nat) (i : Z) : P unit :=
  match n with O => ret tt | S n => call (store_word i i) ;; shm_fill n (i + 1) end.

Fixpoint shm_verify (n : nat) (i : Z) : P Z :=
  match n with
  | O => printf ShmCorrect ;; ret 0
  | S n =>
      call (peer_runs i) ;;
      let! v := call (word_at i) in
      if negb (v =? i) then printf (ShmDiffer i) ;; ret (-1) else shm_verify n (i + 1)
  end.

Definition ivshmem_main : P Z :=
  if negb ivshmem_ready then printf NotReady ;; ret (-1)
  else
    let '(size, mem) := ivshmem_get_mem in
    if size =? 0 then printf SizeZero ;; ret (-1)
    else
      printf (SharedSize size) ;;
      if mem =? NULL then printf NullMemory ;; ret (-1)
      else shm_fill 512 0 ;; shm_verify 512 0.
End Ivshmem.

(** ** The scan sample ([pcie_scan/src/main.c]) *)

(** [drivers/pcie/pcie.h] *)
Class Pcie (D : Type) := {
  PCIE_CONF_ID : Z;
  PCIE_CONF_CLASSREV : Z;
  PCIE_CONF_TYPE : Z;
  PCIE_CONF_BAR0 : Z;
  PCIE_CONF_BAR5 : Z;
  PCIE_CONF_BAR_NONE : Z;
  PCIE_SCAN_RECURSIVE : Z;
  PCIE_SCAN_CB_ALL : Z;
  (** vendor and device of an identifier; class, subclass, interface and revision *)
  PCIE_ID_TO_VEND : Z -> Z;
  PCIE_ID_TO_DEV : Z -> Z;
  PCIE_CONF_CLASSREV_FIELDS : Z -> Z * Z * Z * Z;
  PCIE_CONF_TYPE_BRIDGE : Z -> bool;
  PCIE_CONF_BAR_IO : Z -> bool;
  PCIE_CONF_BAR_64 : Z -> bool;
  PCIE_CONF_BAR_ADDR : Z -> Z;
  pcie_conf_read : Z -> Z -> M D Z;
}.

Inductive scan_line :=
  | Scanning
  | Endpoint (bdf vendor device : Z) (classrev : Z * Z * Z * Z) (bridge : bool)
  | Bar (bdf idx : Z) (io : bool) (high : option Z) (addr : Z).

Section Scan.
Context {D : Type} `{!Pcie D}.
#[local] Abbreviation P := (M (D * list scan_line)).

(** The loop over the BAR registers, from [bar] on; [fuel] bounds its
    iterations. *)
Fixpoint scan_bars (fuel : nat) (bdf conf_id bar : Z) : P unit :=
  if bar <=? PCIE_CONF_BAR5 then
    match fuel with
    | O => no_fuel
    | S fuel =>
        let! bar_conf := call (pcie_conf_read bdf bar) in
        if conf_id =? PCIE_CONF_BAR_NONE then scan_bars fuel bdf conf_id (bar + 1)
        else if PCIE_CONF_BAR_64 bar_conf then
          let! high := call (pcie_conf_read bdf (bar + 1)) in
          printf (Bar bdf (bar - PCIE_CONF_BAR0) (PCIE_CONF_BAR_IO bar_conf) (Some high) (PCIE_CONF_BAR_ADDR bar_conf)) ;;
          scan_bars fuel bdf conf_id (bar + 1 + 1)
        else
          printf (Bar bdf (bar - PCIE_CONF_BAR0) (PCIE_CONF_BAR_IO bar_conf) None (PCIE_CONF_BAR_ADDR bar_conf)) ;;
          scan_bars fuel bdf conf_id (bar + 1)
    end
  else ret tt.

Definition scan_cb (fuel : nat) (bdf id : Z) : P bool :=
  let! conf_id := call (pcie_conf_read bdf PCIE_CONF_ID) in
  let! classrev := call (pcie_conf_read bdf PCIE_CONF_CLASSREV) in
  let! type := call (pcie_conf_read bdf PCIE_CONF_TYPE) in
  printf (Endpoint bdf (PCIE_ID_TO_VEND conf_id) (PCIE_ID_TO_DEV conf_id) (PCIE_CONF_CLASSREV_FIELDS classrev)
            (PCIE_CONF_TYPE_BRIDGE type)) ;;
  (if negb (PCIE_CONF_TYPE_BRIDGE type) then scan_bars fuel bdf conf_id PCIE_CONF_BAR0 else ret tt) ;;
  ret true.

(** [pcie_scan] calls the callback for what it finds. *)
Definition scan_main (pcie_scan : (Z -> Z -> P bool) -> Z -> P Z) (fuel : nat) : P Z :=
  printf Scanning ;;
  pcie_scan (scan_cb fuel) (Z.lor PCIE_SCAN_RECURSIVE PCIE_SCAN_CB_ALL) ;;
  ret 0.
End Scan.

(** ** The memory-access sample ([pcie_pipe/src/main.c]) *)

Definition PIPE_DATA_SIZE : nat := 32.

(** [device_map], [sys_read32], [sys_write32], and [drivers/pcie/msi.h]; a vector
    is opaque. *)
Class PipeMachine (D vector : Type) := {
  PCIE_BDF : Z -> Z -> Z -> Z;
  device_map : Z -> Z -> M D Z;
  sys_read32 : Z -> M D Z;
  sys_write32 : Z -> Z -> M D unit;
  pcie_msi_vectors_allocate : Z -> list vector -> M D (Z * list vector);
  pcie_msi_vector_connect : Z -> vector -> M D bool;
  pcie_msi_enable : Z -> list vector -> Z -> M D bool;
}.

Inductive pipe_line :=
  | Initial (v : Z) | Updated (v : Z) | CannotAllocate | Allocated (n : Z) | CannotConnect (i : Z)
  | Connected (n : Z) | CannotEnable | ReceivedIrq.

Section Pipe.
Context {D vector : Type} {MACHINE : PipeMachine D vector}.
#[local] Abbreviation P := (M (D * list pipe_line)).

(** The handler of the interrupt that [pipe_main] connects. *)
Definition irq_handle : P unit := printf ReceivedIrq.

(** The two loops over the words, [n] of them from [i] on. *)
Fixpoint pipe_show (mm : Z) (n : nat) (i : Z) : P unit :=
  match n with
  | O => ret tt
  | S n => let! v := call (sys_read32 (mm + i * 4)) in printf (Initial v) ;; pipe_show mm n (i + 1)
  end.

Fixpoint pipe_update (mm : Z) (n : nat) (i : Z) : P unit :=
  match n with
  | O => ret tt
  | S n =>
      call (sys_write32 0xABABABAB (mm + i * 4)) ;;
      let! v := call (sys_read32 (mm + i * 4)) in
      printf (Updated v) ;;
      pipe_update mm n (i + 1)
  end.

(** [false] where the function returns [-1]. *)
Fixpoint pipe_connect (bdf : Z) (vectors : list vector) (n : nat) (i : Z) : P bool :=
  match n with
  | O => ret true
  | S n =>
      match vectors !! Z.to_nat i with
      | None => undefined
      | Some v =>
          let! b := call (pcie_msi_vector_connect bdf v) in
          if b then pipe_connect bdf vectors n (i + 1) else printf (CannotConnect i) ;; ret false
      end
  end.

(** [vectors] is not initialised, and has one element. *)
Definition pipe_main (WARP_PIPE_LISTEN : bool) (vectors : list vector) : P Z :=
  if WARP_PIPE_LISTEN then ret 0
  else
    let! mm := call (device_map 0xfea00000 0x100) in
    pipe_show mm PIPE_DATA_SIZE 0 ;;
    pipe_update mm PIPE_DATA_SIZE 0 ;;
    let bdf := PCIE_BDF 0 2 0 in
    let! (n, vectors) := call (pcie_msi_vectors_allocate bdf vectors) in
    let n_vectors := u8 n in
    if n_vectors =? 0 then printf CannotAllocate ;; ret (-1)
    else
      printf (Allocated n_vectors) ;;
      let! b := pipe_connect bdf vectors (Z.to_nat n_vectors) 0 in
      if negb b then ret (-1)
      else
        printf (Connected n_vectors) ;;
        let! b := call (pcie_msi_enable bdf vectors n_vectors) in
        if negb b then printf CannotEnable ;; ret (-1) else ret 0.
End Pipe.
