(* ===== verification/SamplesSpec.v ===== *)
(** * Samples on Zephyr's drivers: properties

    What each of the programs in [Samples] does on every branch, for any driver
    whose calls return. *)

From S2P Require Import Prelude World Samples.

(** ** The disk sample *)

Section Nvme.
Context {D : Type} `{!DiskAccess D}.

(** The first index at which two buffers differ. *)
Definition first_difference (wbuf rbuf : list Z) (k : nat) : Prop :=
  take k wbuf = take k rbuf /\ exists w r, wbuf !! k = Some w /\ rbuf !! k = Some r /\ w <> r.

Lemma disk_verify_spec wbuf : forall i rbuf (d : D) out,
  length rbuf = length wbuf ->
  (wbuf = rbuf /\ disk_verify i wbuf rbuf (d, out) = Ret 0 (d, out ++ [Correct])) \/
  (exists k w r, first_difference wbuf rbuf k /\ wbuf !! k = Some w /\ rbuf !! k = Some r /\
     disk_verify i wbuf rbuf (d, out) = Ret (-1) (d, out ++ [Differ (i + Z.of_nat k) r w])).
Proof.
  induction wbuf as [|w wbuf IH]; intros i [|r rbuf] d out Hl; simpl in Hl; try lia; [by left|]. simpl.
  destruct (Z.eqb_spec w r) as [->|Hne].
  - destruct (IH (i + 1) rbuf d out ltac:(lia)) as [[-> E]|(k & w' & r' & (Ht & x & y & Hx & Hy & Hxy) & Hw & Hr & E)].
    + left. by split.
    + right. exists (S k), w', r'. split; [split; [simpl; congruence|by exists x, y]|]. split_and!; [done..|].
      rewrite E. by replace (i + 1 + Z.of_nat k) with (i + Z.of_nat (S k)) by lia.
  - right. exists O, w, r. split_and!; [|done..|by rewrite Z.add_0_r]. split; [done|]. by exists w, r.
Qed.

(** The part up to the first allocation. *)
Lemma nvme_prefix cmd_buf (d : D) out d0 st d1 r1 n d2 r2 sz d3 wmem d4 :
  disk_access_init DISK_NAME d = Ret 0 d0 -> disk_access_status DISK_NAME d0 = Ret st d1 ->
  disk_access_ioctl DISK_NAME DISK_IOCTL_GET_SECTOR_COUNT cmd_buf d1 = Ret (r1, n) d2 ->
  disk_access_ioctl DISK_NAME DISK_IOCTL_GET_SECTOR_SIZE n d2 = Ret (r2, sz) d3 ->
  0 < sz <= 2 ^ 30 -> disk_malloc sz d3 = Ret wmem d4 ->
  nvme_main cmd_buf (d, out) =
  (if bool_decide (wmem = None) && (0 <? sz) then undefined else
    let! wbuf := disk_pattern sz in
    let! rmem := call (disk_malloc sz) in
    call (disk_access_write DISK_NAME wbuf 10 1) ;;
    let! (_, rbuf) := call (disk_access_read DISK_NAME (default [] rmem) 10 1) in
    disk_verify 0 wbuf rbuf) (d4, out ++ [Status (st =? DISK_STATUS_OK); SectorCount n; SectorSize sz]).
Proof.
  intros Hi Hst Hc Hs Hsz Hm. unfold nvme_main. rewrite (run_call _ _ _ _ _ _ Hi). change (negb (0 =? 0)) with false. cbv iota.
  rewrite (run_call _ _ _ _ _ _ Hst), run_printf, (run_call _ _ _ _ _ _ Hc), run_printf, (run_call _ _ _ _ _ _ Hs), run_printf,
    (run_call _ _ _ _ _ _ Hm), <-!app_assoc. done.
Qed.

(** C38. The disk sample.  When the disk cannot be initialised it says so and
    returns [-1] without touching it again.  Otherwise, for a sector of at most
    [2 ^ 30] bytes and with memory for its buffers, it writes the even bytes to
    sector 10, reads the sector back, and returns 0 exactly if it read what it
    wrote, and else [-1] after printing the first difference; the results of
    the [ioctl]s, the write and the read are not looked at.  Without memory it
    stores through a null pointer. *)
Theorem nvme_main_spec (cmd_buf : Z) (d : D) out rc d0 :
  disk_access_init DISK_NAME d = Ret rc d0 ->
  (rc <> 0 -> nvme_main cmd_buf (d, out) = Ret (-1) (d0, out ++ [InitFailed rc])) /\
  (forall st d1 r1 n d2 r2 sz d3 wmem d4, rc = 0 ->
     disk_access_status DISK_NAME d0 = Ret st d1 ->
     disk_access_ioctl DISK_NAME DISK_IOCTL_GET_SECTOR_COUNT cmd_buf d1 = Ret (r1, n) d2 ->
     disk_access_ioctl DISK_NAME DISK_IOCTL_GET_SECTOR_SIZE n d2 = Ret (r2, sz) d3 ->
     0 < sz <= 2 ^ 30 -> disk_malloc sz d3 = Ret wmem d4 ->
     let head := [Status (st =? DISK_STATUS_OK); SectorCount n; SectorSize sz] in
     let wbuf := (fun i => u8 (2 * i)) <$> seqZ 0 sz in
     (wmem = None -> nvme_main cmd_buf (d, out) = Undefined) /\
     (forall m r d5 r3 d6 r4 rbuf d7, wmem = Some m -> disk_malloc sz d4 = Ret (Some r) d5 ->
        disk_access_write DISK_NAME wbuf 10 1 d5 = Ret r3 d6 ->
        disk_access_read DISK_NAME r 10 1 d6 = Ret (r4, rbuf) d7 -> Z.of_nat (length rbuf) = sz ->
        (rbuf = wbuf -> nvme_main cmd_buf (d, out) = Ret 0 (d7, out ++ head ++ [Correct])) /\
        (rbuf <> wbuf -> exists k w b, first_difference wbuf rbuf k /\ wbuf !! k = Some w /\ rbuf !! k = Some b /\
           nvme_main cmd_buf (d, out) = Ret (-1) (d7, out ++ head ++ [Differ (Z.of_nat k) b w])))).
Proof.
  intros Hi. split.
  { intros Hrc. unfold nvme_main. rewrite (run_call _ _ _ _ _ _ Hi). by rewrite (proj2 (Z.eqb_neq _ _) Hrc). }
  intros st d1 r1 n d2 r2 sz d3 wmem d4 -> Hst Hc Hs Hsz Hm head wbuf.
  pose proof (nvme_prefix _ _ out _ _ _ _ _ _ _ _ _ _ _ Hi Hst Hc Hs Hsz Hm) as E0. fold head in E0. split.
  { intros ->. rewrite E0, bool_decide_true by done. by rewrite (proj2 (Z.ltb_lt _ _)) by lia. }
  intros m r d5 r3 d6 r4 rbuf d7 -> Hr Hw Hrd Hlen. rewrite bool_decide_false in E0 by done. cbn [andb] in E0.
  assert (nvme_main cmd_buf (d, out) = disk_verify 0 wbuf rbuf (d7, out ++ head)) as E1.
  { rewrite E0. unfold bind at 1. unfold disk_pattern. rewrite (proj2 (Z.ltb_ge _ _)) by lia. unfold ret. fold wbuf.
    rewrite (run_call _ _ _ _ _ _ Hr), (run_call _ _ _ _ _ _ Hw). simpl default. by rewrite (run_call _ _ _ _ _ _ Hrd). }
  rewrite E1. clear E0 E1.
  destruct (disk_verify_spec wbuf 0 rbuf d7 (out ++ head)) as [[Heq E]|(k & w & b & Hk & Hwk & Hbk & E)].
  { unfold wbuf. rewrite length_fmap, length_seqZ. lia. }
  - rewrite E, <-app_assoc. split; [done|]. intros Hne. by destruct Hne.
  - rewrite Z.add_0_l, <-app_assoc in E. split.
    + intros ->. destruct Hk as (_ & x & y & Hx & Hy & Hne). congruence.
    + intros _. exists k, w, b. exact (conj Hk (conj Hwk (conj Hbk E))).
Qed.
End Nvme.

(** A disk in memory: sectors of eight bytes. *)
#[local] Instance ram_disk : DiskAccess (gmap Z (list Z)) := {|
  DISK_STATUS_OK := 0;
  DISK_IOCTL_GET_SECTOR_COUNT := 1;
  DISK_IOCTL_GET_SECTOR_SIZE := 2;
  disk_access_init _ d := Ret 0 d;
  disk_access_status _ d := Ret 0 d;
  disk_access_ioctl _ cmd _ d := Ret (0, if cmd =? 1 then 64 else 8) d;
  disk_access_write _ buf s _ d := Ret 0 (<[s := buf]> d);
  disk_access_read _ buf s _ d := Ret (0, default buf (d !! s)) d;
  disk_malloc n d := Ret (Some (replicate (Z.to_nat n) 0xee)) d;
|}.

Lemma nvme_main_spec_witness :
  exists d, nvme_main (DiskAccess0 := ram_disk) 77 (∅, []) = Ret 0 (d, [Status true; SectorCount 64; SectorSize 8; Correct]).
Proof.
  destruct (nvme_main_spec (DiskAccess0 := ram_disk) 77 ∅ [] 0 ∅ eq_refl) as [_ H].
  eexists. refine (proj1 (proj2 (H 0 ∅ 0 64 ∅ 0 8 ∅ (Some (replicate 8 0xee)) ∅ eq_refl eq_refl eq_refl eq_refl _ eq_refl)
    (replicate 8 0xee) (replicate 8 0xee) ∅ 0 _ 0 _ _ eq_refl eq_refl eq_refl eq_refl _) _); [lia|done|done].
Defined.

(** ** The shared-memory sample *)

Section Ivshmem.
Context {IVSHMEM : Ivshmem}.

(** The memory when word [i] is read, if [m] is what was written. *)
Fixpoint shared_at (i : nat) (m : list Z) : list Z :=
  ivshmem_peer (Z.of_nat i) (match i with O => m | S i => shared_at i m end).

Definition intact (m : list Z) (i : nat) : Prop := shared_at i m !! i = Some (Z.of_nat i).

Lemma shm_fill_spec n : forall i mem out,
  (i + n <= length mem)%nat ->
  shm_fill n (Z.of_nat i) (mem, out) = Ret tt (take i mem ++ seqZ (Z.of_nat i) (Z.of_nat n) ++ drop (i + n) mem, out).
Proof.
  induction n as [|n IH]; intros i mem out Hl.
  { cbn [shm_fill seqZ]. rewrite Nat.add_0_r. simpl. by rewrite take_drop. }
  cbn [shm_fill]. unfold bind, call, store_word. rewrite Nat2Z.id. rewrite (proj2 (Nat.ltb_lt _ _)) by lia.
  replace (Z.of_nat i + 1) with (Z.of_nat (S i)) by lia. rewrite IH by (rewrite length_insert; lia). do 2 f_equal.
  rewrite (seqZ_cons (Z.of_nat i)) by lia. replace (Z.succ (Z.of_nat i)) with (Z.of_nat (S i)) by lia.
  replace (Z.pred (Z.of_nat (S n))) with (Z.of_nat n) by lia.
  rewrite (take_S_r _ i (Z.of_nat i)) by (apply list_lookup_insert_eq; lia).
  rewrite take_insert_ge, drop_insert_lt by lia. rewrite <-app_assoc. simpl. do 3 f_equal. f_equal. lia.
Qed.

Lemma shm_fill_short n : forall i mem out,
  (length mem < i + n)%nat -> (i <= length mem)%nat -> shm_fill n (Z.of_nat i) (mem, out) = Undefined.
Proof.
  induction n as [|n IH]; intros i mem out Hl Hi; [lia|]. cbn [shm_fill]. unfold bind, call, store_word. rewrite Nat2Z.id.
  destruct (Nat.ltb_spec i (length mem)); [|done]. replace (Z.of_nat i + 1) with (Z.of_nat (S i)) by lia.
  apply IH; rewrite length_insert; lia.
Qed.

(** From word [i] on, in the memory [m'] that the words before it left. *)
Lemma shm_verify_step n i m m' out :
  ivshmem_peer (Z.of_nat i) m' = shared_at i m ->
  shm_verify (S n) (Z.of_nat i) (m', out) =
  match shared_at i m !! i with
  | Some v => if negb (v =? Z.of_nat i) then Ret (-1) (shared_at i m, out ++ [ShmDiffer (Z.of_nat i)])
              else shm_verify n (Z.of_nat (S i)) (shared_at i m, out)
  | None => Undefined
  end.
Proof.
  intros Hp. cbn [shm_verify]. unfold bind at 1, call at 1, peer_runs. rewrite Hp. unfold bind at 1, call, word_at.
  rewrite Nat2Z.id. destruct (shared_at i m !! i) as [v|]; [|done].
  replace (Z.of_nat i + 1) with (Z.of_nat (S i)) by lia. by destruct (negb _).
Qed.

Lemma shm_verify_spec n : forall i m m' out,
  ivshmem_peer (Z.of_nat i) m' = shared_at i m ->
  ((forall j, (i <= j < i + n)%nat -> intact m j) ->
   exists m'', shm_verify n (Z.of_nat i) (m', out) = Ret 0 (m'', out ++ [ShmCorrect])) /\
  (forall k v, (i <= k < i + n)%nat -> (forall j, (i <= j < k)%nat -> intact m j) -> shared_at k m !! k = Some v ->
     v <> Z.of_nat k ->
     shm_verify n (Z.of_nat i) (m', out) = Ret (-1) (shared_at k m, out ++ [ShmDiffer (Z.of_nat k)])).
Proof.
  induction n as [|n IH]; intros i m m' out Hp.
  { split; [by exists m'|]. intros. lia. }
  rewrite (shm_verify_step n i m m' out Hp). destruct (IH (S i) m (shared_at i m) out eq_refl) as [H1 H2]. split.
  - intros Hall. rewrite (Hall i) by lia. rewrite Z.eqb_refl. apply H1. intros j Hj. apply Hall. lia.
  - intros k v Hk Hbefore Hv Hne. destruct (decide (k = i)) as [->|Hki].
    + rewrite Hv. by rewrite (proj2 (Z.eqb_neq _ _) Hne).
    + rewrite (Hbefore i) by lia. rewrite Z.eqb_refl. apply (H2 k v); try done; [lia|]. intros j Hj. apply Hbefore. lia.
Qed.

(** C40. The shared-memory sample.  Without a device, with an empty memory or a null
    pointer it says so and returns [-1].  Otherwise it stores the numbers below
    512 as words and reads them back, while whoever shares the memory may change
    it: it returns 0 if every word is intact when it is read, and else [-1] at the
    first that is not.  It does not check that there are 512 words: a smaller
    memory is written past its end. *)
Theorem ivshmem_main_spec (mem : list Z) out size p :
  ivshmem_get_mem = (size, p) ->
  let m := seqZ 0 512 ++ drop 512 mem in
  (ivshmem_ready = false -> ivshmem_main (mem, out) = Ret (-1) (mem, out ++ [NotReady])) /\
  (ivshmem_ready = true -> size = 0 -> ivshmem_main (mem, out) = Ret (-1) (mem, out ++ [SizeZero])) /\
  (ivshmem_ready = true -> size <> 0 -> p = NULL ->
   ivshmem_main (mem, out) = Ret (-1) (mem, out ++ [SharedSize size; NullMemory])) /\
  (ivshmem_ready = true -> size <> 0 -> p <> NULL ->
   ((length mem < 512)%nat -> ivshmem_main (mem, out) = Undefined) /\
   ((512 <= length mem)%nat -> (forall i, (i < 512)%nat -> intact m i) ->
    exists m', ivshmem_main (mem, out) = Ret 0 (m', out ++ [SharedSize size; ShmCorrect])) /\
   (forall k v, (512 <= length mem)%nat -> (k < 512)%nat -> (forall i, (i < k)%nat -> intact m i) ->
      shared_at k m !! k = Some v -> v <> Z.of_nat k ->
      ivshmem_main (mem, out) = Ret (-1) (shared_at k m, out ++ [SharedSize size; ShmDiffer (Z.of_nat k)]))).
Proof.
  intros Hg m. unfold ivshmem_main. rewrite Hg. split_and!.
  - by intros ->.
  - by intros -> ->.
  - intros -> Hs ->. simpl. rewrite (proj2 (Z.eqb_neq _ _) Hs). rewrite run_printf. unfold bind, printf. by rewrite <-app_assoc.
  - intros -> Hs Hp. cbn [negb]. cbv beta iota. rewrite (proj2 (Z.eqb_neq _ _) Hs), (proj2 (Z.eqb_neq _ _) Hp), !run_printf. split_and!.
    + intros Hl. unfold bind. by rewrite (shm_fill_short 512 0) by lia.
    + intros Hl Hall. unfold bind. rewrite (shm_fill_spec 512 0) by lia. simpl app. fold m.
      destruct (shm_verify_spec 512 0 m m (out ++ [SharedSize size]) eq_refl) as [H _].
      destruct H as [m' E]; [intros j Hj; apply Hall; lia|]. exists m'. etrans; [exact E|]. by rewrite <-app_assoc.
    + intros k v Hl Hk Hbefore Hv Hne. unfold bind. rewrite (shm_fill_spec 512 0) by lia. simpl app. fold m.
      destruct (shm_verify_spec 512 0 m m (out ++ [SharedSize size]) eq_refl) as [_ H].
      etrans; [apply (H k v); try done; [lia|intros j Hj; apply Hbefore; lia]|]. by rewrite <-app_assoc.
Qed.
End Ivshmem.

(** A memory of 600 words, of which somebody changes word 3 before it is read. *)
#[local] Instance ex_ivshmem : Ivshmem := {|
  ivshmem_ready := true;
  ivshmem_get_mem := (2400, 0x1000);
  ivshmem_peer i m := if i =? 3 then <[3%nat := 99]> m else m;
|}.

Lemma ivshmem_main_spec_witness :
  exists m, ivshmem_main (replicate 600 0, []) = Ret (-1) (m, [SharedSize 2400; ShmDiffer 3]).
Proof.
  destruct (ivshmem_main_spec (IVSHMEM := ex_ivshmem) (replicate 600 0) [] 2400 0x1000 eq_refl) as (_ & _ & _ & H).
  destruct (H eq_refl ltac:(lia) ltac:(by vm_compute)) as (_ & _ & H3). eexists.
  apply (H3 3%nat 99); [rewrite length_replicate; lia|lia| |reflexivity|simpl; lia].
  intros i Hi. do 3 (destruct i as [|i]; [reflexivity|]). lia.
Defined.

(** ** The scan sample *)

Section Scan.
Context {D : Type} `{!Pcie D}.

(** The listing of BAR registers: a 64-bit BAR takes two of them, the second of
    which is the one behind the last register for the last BAR. *)
Fixpoint bar_listing (bdf idx : Z) (behind : Z) (regs : list Z) : list scan_line :=
  match regs with
  | [] => []
  | r :: rest =>
      if PCIE_CONF_BAR_64 r then
        match rest with
        | [] => [Bar bdf idx (PCIE_CONF_BAR_IO r) (Some behind) (PCIE_CONF_BAR_ADDR r)]
        | high :: rest => Bar bdf idx (PCIE_CONF_BAR_IO r) (Some high) (PCIE_CONF_BAR_ADDR r) :: bar_listing bdf (idx + 2) behind rest
        end
      else Bar bdf idx (PCIE_CONF_BAR_IO r) None (PCIE_CONF_BAR_ADDR r) :: bar_listing bdf (idx + 1) behind rest
  end.

(** The configuration space of a function, which reading does not change. *)
Context (bdf : Z) (conf : Z -> Z) (Hconf : forall r d, pcie_conf_read bdf r d = Ret (conf r) d).
Context (Hbars : PCIE_CONF_BAR5 = PCIE_CONF_BAR0 + 5).

Lemma scan_bars_listing (conf_id : Z) fuel : forall n bar d out,
  conf_id <> PCIE_CONF_BAR_NONE -> bar + Z.of_nat n = PCIE_CONF_BAR5 + 1 -> (n <= fuel)%nat ->
  scan_bars fuel bdf conf_id bar (d, out) =
  Ret tt (d, out ++ bar_listing bdf (bar - PCIE_CONF_BAR0) (conf (PCIE_CONF_BAR5 + 1)) (conf <$> seqZ bar (Z.of_nat n))).
Proof.
  induction fuel as [|fuel IH]; intros n bar d out Hid Hn Hf.
  { assert (n = O) as -> by lia. cbn [scan_bars]. rewrite (proj2 (Z.leb_gt bar PCIE_CONF_BAR5)) by lia. simpl. by rewrite app_nil_r. }
  destruct n as [|n]. { cbn [scan_bars]. rewrite (proj2 (Z.leb_gt bar PCIE_CONF_BAR5)) by lia. simpl. by rewrite app_nil_r. }
  cbn [scan_bars]. rewrite (proj2 (Z.leb_le bar PCIE_CONF_BAR5)) by lia. rewrite (run_call _ _ _ _ _ _ (Hconf bar d)).
  rewrite (proj2 (Z.eqb_neq _ _) Hid). rewrite seqZ_cons, fmap_cons by lia. cbn [bar_listing].
  replace (Z.pred (Z.of_nat (S n))) with (Z.of_nat n) by lia.
  destruct (PCIE_CONF_BAR_64 (conf bar)).
  - rewrite (run_call _ _ _ _ _ _ (Hconf (bar + 1) d)), run_printf. destruct n as [|n].
    + replace (PCIE_CONF_BAR5 + 1) with (bar + 1) by lia. destruct fuel; cbn [scan_bars]; by rewrite (proj2 (Z.leb_gt (bar + 1 + 1) PCIE_CONF_BAR5)) by lia.
    + rewrite (IH n) by (done || lia). rewrite <-app_assoc. rewrite (seqZ_cons (Z.succ bar)), fmap_cons by lia.
      replace (Z.pred (Z.of_nat (S n))) with (Z.of_nat n) by lia.
      replace (Z.succ bar) with (bar + 1) by lia. replace (Z.succ (bar + 1)) with (bar + 1 + 1) by lia.
      by replace (bar + 1 + 1 - PCIE_CONF_BAR0) with (bar - PCIE_CONF_BAR0 + 2) by lia.
  - rewrite run_printf, (IH n) by (done || lia). rewrite <-app_assoc. replace (Z.succ bar) with (bar + 1) by lia.
    by replace (bar + 1 - PCIE_CONF_BAR0) with (bar - PCIE_CONF_BAR0 + 1) by lia.
Qed.

(** C37. What [scan_cb] lists.  One line for the function with the fields of its
    registers; for an endpoint, one line per BAR in the order of the registers,
    a 64-bit BAR taking two of them.  The loop ends after at most six iterations.
    The check for an absent BAR looks at the identifier instead of the register,
    so that absent BARs are listed too, and a 64-bit BAR in the last register is
    listed with the register behind the BARs as its high half. *)
Theorem scan_cb_lists (id : Z) fuel d out :
  (6 <= fuel)%nat -> conf PCIE_CONF_ID <> PCIE_CONF_BAR_NONE ->
  scan_cb fuel bdf id (d, out) =
  let bridge := PCIE_CONF_TYPE_BRIDGE (conf PCIE_CONF_TYPE) in
  Ret true (d, out ++
    Endpoint bdf (PCIE_ID_TO_VEND (conf PCIE_CONF_ID)) (PCIE_ID_TO_DEV (conf PCIE_CONF_ID))
      (PCIE_CONF_CLASSREV_FIELDS (conf PCIE_CONF_CLASSREV)) bridge ::
    (if bridge then []
     else bar_listing bdf 0 (conf (PCIE_CONF_BAR5 + 1)) (conf <$> seqZ PCIE_CONF_BAR0 6))).
Proof.
  intros Hf Hid. unfold scan_cb. rewrite !(run_call _ _ _ _ _ _ (Hconf _ d)), run_printf. cbv zeta.
  destruct (PCIE_CONF_TYPE_BRIDGE (conf PCIE_CONF_TYPE)); cbn [negb]; [done|].
  unfold bind. rewrite (scan_bars_listing _ fuel 6) by (done || lia). rewrite Z.sub_diag, <-app_assoc. done.
Qed.
End Scan.

(** A function with a 64-bit BAR and five absent ones, in a concrete encoding. *)
#[local] Instance ex_pcie : Pcie unit := {|
  PCIE_CONF_ID := 0; PCIE_CONF_CLASSREV := 2; PCIE_CONF_TYPE := 3; PCIE_CONF_BAR0 := 4; PCIE_CONF_BAR5 := 9;
  PCIE_CONF_BAR_NONE := 0; PCIE_SCAN_RECURSIVE := 1; PCIE_SCAN_CB_ALL := 2;
  PCIE_ID_TO_VEND z := u16 z; PCIE_ID_TO_DEV z := Z.shiftr z 16;
  PCIE_CONF_CLASSREV_FIELDS z := (Z.shiftr z 24, u8 (Z.shiftr z 16), u8 (Z.shiftr z 8), u8 z);
  PCIE_CONF_TYPE_BRIDGE z := Z.testbit z 16;
  PCIE_CONF_BAR_IO z := Z.testbit z 0; PCIE_CONF_BAR_64 z := Z.testbit z 2; PCIE_CONF_BAR_ADDR z := Z.land z (u32 (Z.lnot 15));
  pcie_conf_read _ r d := Ret (match r with 0 => 0x11101af4 | 2 => 0x05000001 | 4 => 0xfea00004 | 5 => 1 | _ => 0 end) d;
|}.

Lemma scan_cb_lists_witness :
  exists e, scan_cb 6 16 0 (tt, []) =
    Ret true (tt, [e; Bar 16 0 false (Some 1) 0xfea00000; Bar 16 2 false None 0; Bar 16 3 false None 0;
                   Bar 16 4 false None 0; Bar 16 5 false None 0]).
Proof.
  eexists. etrans; [apply (scan_cb_lists (Pcie0 := ex_pcie) 16
    (fun r => match r with 0 => 0x11101af4 | 2 => 0x05000001 | 4 => 0xfea00004 | 5 => 1 | _ => 0 end))|].
  - reflexivity.
  - reflexivity.
  - lia.
  - vm_compute. discriminate.
  - vm_compute. reflexivity.
Defined.

(** ** The memory-access sample *)

(** Memory behind the mapping at [mm]: its words, and what loads and stores do. *)
Class PipeMemory {D vector : Type} (MACHINE : PipeMachine D vector) (mm : Z) (window : D -> list Z) : Prop := {
  pipe_read d (i : nat) v : window d !! i = Some v -> sys_read32 (mm + Z.of_nat i * 4) d = Ret v d;
  pipe_write d (i : nat) v : (i < length (window d))%nat ->
    exists d', sys_write32 v (mm + Z.of_nat i * 4) d = Ret tt d' /\ window d' = <[i := v]> (window d);
}.

Section Pipe.
Context {D vector : Type} {MACHINE : PipeMachine D vector} (mm : Z) (window : D -> list Z)
  `{!PipeMemory MACHINE mm window}.

Lemma pipe_show_spec n : forall (i : nat) d out,
  (i + n <= length (window d))%nat ->
  pipe_show mm n (Z.of_nat i) (d, out) = Ret tt (d, out ++ (Initial <$> take n (drop i (window d)))).
Proof.
  induction n as [|n IH]; intros i d out Hl; [by rewrite app_nil_r|].
  destruct (lookup_lt_is_Some_2 (window d) i) as [v Hv]; [lia|].
  cbn [pipe_show]. rewrite (run_call _ _ _ _ _ _ (pipe_read d i v Hv)), run_printf.
  replace (Z.of_nat i + 1) with (Z.of_nat (S i)) by lia. rewrite IH by lia. rewrite <-app_assoc.
  by rewrite (drop_S _ v i) by done.
Qed.

Lemma pipe_update_spec n : forall (i : nat) d out,
  (i + n <= length (window d))%nat ->
  exists d', pipe_update mm n (Z.of_nat i) (d, out) = Ret tt (d', out ++ replicate n (Updated 0xABABABAB)) /\
    window d' = take i (window d) ++ replicate n 0xABABABAB ++ drop (i + n) (window d).
Proof.
  induction n as [|n IH]; intros i d out Hl.
  { exists d. rewrite app_nil_r, Nat.add_0_r. simpl. by rewrite take_drop. }
  destruct (pipe_write d i 0xABABABAB) as (d1 & Ew & Hw); [lia|].
  assert (window d1 !! i = Some 0xABABABAB) as Hv by (rewrite Hw; apply list_lookup_insert_eq; lia).
  destruct (IH (S i) d1 (out ++ [Updated 0xABABABAB])) as (d' & E & Hd'); [rewrite Hw, length_insert; lia|].
  exists d'. split.
  - cbn [pipe_update]. rewrite (run_call _ _ _ _ _ _ Ew), (run_call _ _ _ _ _ _ (pipe_read d1 i _ Hv)), run_printf.
    replace (Z.of_nat i + 1) with (Z.of_nat (S i)) by lia. rewrite E, <-app_assoc. done.
  - rewrite Hd', (take_S_r _ i 0xABABABAB) by done.
    rewrite Hw, take_insert_ge, drop_insert_lt, <-app_assoc by lia. simpl. do 3 f_equal. f_equal. lia.
Qed.

(** The memory-access sample, on a device with memory behind the mapping of
    0x100 bytes: it prints the first 32 words, sets each to 0xABABABAB and prints
    what it reads back, touching nothing else.  Then it allocates one MSI-X
    vector, connects and enables it; it returns 0 exactly if all three succeed,
    and [-1] with a message otherwise. *)
Lemma pipe_main_spec (vectors : list vector) d out d0 n v d2 :
  device_map 0xfea00000 0x100 d = Ret mm d0 -> length (window d0) = 64%nat ->
  (forall d1, pcie_msi_vectors_allocate (PCIE_BDF 0 2 0) vectors d1 = Ret (n, [v]) (d2 d1)) -> 0 <= n <= 1 ->
  pipe_main true vectors (d, out) = Ret 0 (d, out) /\
  exists d1, window d1 = replicate 32 0xABABABAB ++ drop 32 (window d0) /\
    let out1 := out ++ (Initial <$> take 32 (window d0)) ++ replicate 32 (Updated 0xABABABAB) in
    (n = 0 -> pipe_main false vectors (d, out) = Ret (-1) (d2 d1, out1 ++ [CannotAllocate])) /\
    (forall b d3, n = 1 -> pcie_msi_vector_connect (PCIE_BDF 0 2 0) v (d2 d1) = Ret b d3 ->
       (b = false -> pipe_main false vectors (d, out) = Ret (-1) (d3, out1 ++ [Allocated 1; CannotConnect 0])) /\
       (forall e d4, b = true -> pcie_msi_enable (PCIE_BDF 0 2 0) [v] 1 d3 = Ret e d4 ->
          pipe_main false vectors (d, out) =
          if e then Ret 0 (d4, out1 ++ [Allocated 1; Connected 1])
          else Ret (-1) (d4, out1 ++ [Allocated 1; Connected 1; CannotEnable]))).
Proof.
  intros Hmap Hlen Halloc Hn. split; [done|].
  pose proof (pipe_show_spec 32 0 d0 out ltac:(lia)) as Es. rewrite drop_0 in Es.
  destruct (pipe_update_spec 32 0 d0 (out ++ (Initial <$> take 32 (window d0)))) as (d1 & Eu & Hw); [lia|].
  change (Z.of_nat 0) with 0 in Es, Eu. exists d1. split; [exact Hw|]. intros out1. rewrite <-app_assoc in Eu. fold out1 in Eu.
  assert (forall k : Z * list vector -> M (D * list pipe_line) Z,
    (let! mm := call (device_map 0xfea00000 0x100) in
     pipe_show mm PIPE_DATA_SIZE 0 ;;
     pipe_update mm PIPE_DATA_SIZE 0 ;;
     bind (call (pcie_msi_vectors_allocate (PCIE_BDF 0 2 0) vectors)) k) (d, out) = k (n, [v]) (d2 d1, out1)) as Hpre.
  { intros k. rewrite (run_call _ _ _ _ _ _ Hmap). unfold bind at 1. unfold PIPE_DATA_SIZE. rewrite Es.
    unfold bind at 1. rewrite Eu. by rewrite (run_call _ _ _ _ _ _ (Halloc d1)). }
  unfold pipe_main. cbv zeta. rewrite !Hpre. split; [by intros ->|].
  intros b d3 -> Hc. change (u8 1) with 1. change (Z.to_nat 1) with 1%nat. cbn [Z.eqb Pos.eqb]. rewrite !run_printf.
  assert (pipe_connect (PCIE_BDF 0 2 0) [v] 1 0 (d2 d1, out1 ++ [Allocated 1]) =
    if b then Ret true (d3, out1 ++ [Allocated 1]) else Ret false (d3, out1 ++ [Allocated 1; CannotConnect 0])) as Ec.
  { cbn [pipe_connect]. change ([v] !! Z.to_nat 0) with (Some v). cbv iota. rewrite (run_call _ _ _ _ _ _ Hc). destruct b; [done|].
    unfold bind, printf, ret. by rewrite <-app_assoc. }
  unfold bind at 1. rewrite Ec. split.
  - by intros ->.
  - intros e d4 -> He. unfold bind at 1. rewrite Ec. cbn [negb]. rewrite run_printf, (run_call _ _ _ _ _ _ He), <-app_assoc.
    destruct e; [done|]. cbn [negb]. unfold bind, printf, ret. by rewrite <-app_assoc.
Qed.
End Pipe.

(** Sixty-four words of memory; one vector, which can be connected. *)
#[local] Instance ex_machine : PipeMachine (list Z) unit := {|
  PCIE_BDF b d f := b * 65536 + d * 2048 + f * 256;
  device_map _ _ m := Ret 0x1000 m;
  sys_read32 a m := match m !! Z.to_nat ((a - 0x1000) / 4) with Some v => Ret v m | None => Undefined end;
  sys_write32 v a m := if ((a - 0x1000) / 4 <? Z.of_nat (length m)) then Ret tt (<[Z.to_nat ((a - 0x1000) / 4) := v]> m) else Undefined;
  pcie_msi_vectors_allocate _ _ m := Ret (1, [tt]) m;
  pcie_msi_vector_connect _ _ m := Ret true m;
  pcie_msi_enable _ _ _ m := Ret true m;
|}.

#[local] Instance ex_machine_memory : PipeMemory ex_machine 0x1000 (fun m => m).
Proof.
  assert (forall i : nat, (0x1000 + Z.of_nat i * 4 - 0x1000) / 4 = Z.of_nat i) as H.
  { intros i. replace (0x1000 + Z.of_nat i * 4 - 0x1000) with (Z.of_nat i * 4) by lia. by apply Z.div_mul. }
  constructor.
  - intros m i v Hv. simpl. by rewrite H, Nat2Z.id, Hv.
  - intros m i v Hi. simpl. rewrite H, Nat2Z.id, (proj2 (Z.ltb_lt _ _)) by lia. by eexists.
Qed.

Example pipe_main_spec_run :
  exists m out, pipe_main (MACHINE := ex_machine) false [tt] (replicate 64 7, []) = Ret 0 (m, out ++ [Allocated 1; Connected 1]).
Proof.
  destruct (pipe_main_spec (MACHINE := ex_machine) 0x1000 (fun m => m) [tt] (replicate 64 7) [] (replicate 64 7) 1 tt (fun m => m))
    as (_ & d1 & _ & _ & H); [done..|lia|].
  destruct (H true d1 eq_refl eq_refl) as [_ H2]. exists d1. eexists. exact (H2 true d1 eq_refl eq_refl).
Qed.
