(* ===== verification/Suite.v ===== *)
(** * The test suite ([zephyr-tests/src/main.cpp])

    Every function of the suite, its fixtures and its tests, and the system it
    runs in: the suite's process connected to the memory mock.  Each fixture opens a
    connection and none is closed, so the two operating systems here have any
    number of connections.  A failed [zassert_equal] or [zassert_true] ends the run
    ([Aborted]).  Local variables that the completion callback reaches live in the
    store of [Host]; [junk] is what uninitialised ones hold; [fuel] bounds every
    wait.  Messages are left out. *)

From S2P Require Import Prelude Layout Proto Crc World Client Wire Logic Bars Sim ClientSpec Receive ClientInv Server ServerSpec MemoryMock Host Native.

(** ** The suite *)

(** The state of the process besides server and clients: its local variables. *)
Record suite := mk_suite { suite_frames : gmap ptr read_compl_data }.
#[export] Instance suite_app : HostApp suite := {| frames := suite_frames; set_frames m _ := mk_suite m |}.

(** [zassert_true], [zassert_equal] *)
Definition zassert {os app} (b : bool) : M (world os app) unit := if b then ret tt else abort.

(** After an error the read is not marked as finished.  A [memcpy] outside either
    memory is undefined. *)
Definition read_compl {os} (error_code : Z) (data : list Z) (length_ : Z) (private_data : ptr)
    : M (world os suite) unit :=
  let! d := get_frame private_data in
  if negb (error_code =? 0) then
    put_frame private_data (mk_rcd (rc_buf d) (rc_buf_size d) error_code (rc_finished d))
  else
    zassert (length_ =? rc_buf_size d) ;;
    if (length_ <? 0) || (length data <? Z.to_nat length_)%nat || (length (rc_buf d) <? Z.to_nat length_)%nat
    then undefined
    else put_frame private_data
           (mk_rcd (wr_bytes 0 (take (Z.to_nat length_) data) (rc_buf d)) (rc_buf_size d) length_ true).

#[export] Instance suite_callbacks {os} : Callbacks os suite := {|
  call_read_cb _ _ _ _ := undefined;
  call_write_cb _ _ _ _ _ := undefined;
  call_completion_cb cb st data len p :=
    if cb =? READ_COMPL then read_compl st data len p else undefined;
|}.
(** The suite has no accept callback. *)
#[export] Instance suite_server_callbacks {os} : ServerCallbacks os suite := {|
  call_accept_cb _ _ _ := undefined;
|}.

Section Suite.
Context {os : Type} `{!SocketIO os} `{!ServerIO os}.
#[local] Abbreviation P := (M (world os suite)).

Fixpoint wait_loop (fuel : nat) (read_data : ptr) : P unit :=
  let! d := get_frame read_data in
  let! s := get_server in
  if negb (rc_finished d) && negb (s_quit s) then
    match fuel with
    | O => no_fuel
    | S fuel => warppipe_server_loop ;; wait_loop fuel read_data
    end
  else ret tt.

Definition wait_for_completion (fuel : nat) (read_data : ptr) : P Z :=
  wait_loop fuel read_data ;;
  let! s := get_server in
  if s_quit s then ret (-1) else ret 0.

(** The return value and the bytes copied to [buf]. *)
Definition read_config_header_field (fuel : nat) (junk : list Z) (client : ptr) (addr length_ : Z)
    : P (Z * list Z) :=
  let aligned_addr := Z.land addr (u64 (Z.lnot 3)) in
  let offset := Z.land addr 3 in
  zassert (u64 (u64 length_ + offset) <=? 4) ;;
  let! p := new_frame (mk_rcd junk 4 0 false) in
  modify client (set_private_data p) ;;
  let! r := warppipe_config0_read client aligned_addr 4 READ_COMPL in
  zassert (r =? 0) ;;
  let! r := wait_for_completion fuel p in
  zassert (r =? 0) ;;
  let! d := get_frame p in
  zassert (rc_ret d =? 4) ;;
  if length_ <? 0 then undefined
  else
    end_frame p ;;
    ret (length_, take (Z.to_nat length_) (drop (Z.to_nat offset) (rc_buf d))).

(** The body of the loop over the BAR registers; [ret tt] is [continue]. *)
Definition enumerate_bar (fuel : nat) (junk : list Z) (client : ptr) (bar_offset : Z) : P unit :=
  let! (r, _) := read_config_header_field fuel junk client bar_offset 4 in
  zassert (r =? 4) ;;
  let! r := warppipe_config0_write client bar_offset (le_bytes 4 0xFFFFFFFF) 4 in
  zassert (r =? 0) ;;
  let! (r, bs) := read_config_header_field fuel junk client bar_offset 4 in
  zassert (r =? 4) ;;
  let bar_ := le32 bs in
  if bar_ =? 0x0 then ret tt
  else
    let size := u32 (- Z.land bar_ (u32 (Z.lnot 0xF))) in
    let bar_idx := (bar_offset - 0x10) / 4 in
    let bar_addr := u32 (bar_offset * 0x10000) in
    let! r := warppipe_register_bar client bar_addr size bar_idx NULL NULL in
    zassert (r =? 0) ;;
    let! r := warppipe_config0_write client bar_offset (le_bytes 4 bar_addr) 4 in
    zassert (r =? 0).

(** [for (bar_offset = 0x10; bar_offset < 0x28; bar_offset += 4)] *)
Fixpoint enumerate_bars (fuel : nat) (junk : list Z) (client : ptr) (n : nat) (bar_offset : Z) : P unit :=
  match n with
  | O => ret tt
  | S n => enumerate_bar fuel junk client bar_offset ;; enumerate_bars fuel junk client n (bar_offset + 4)
  end.

Definition enumerate (fuel : nat) (junk : list Z) (client : ptr) : P Z :=
  let! (r, vendor_id) := read_config_header_field fuel junk client 0x0 2 in
  zassert (r =? 2) ;;
  zassert (rd vendor_id 0 + 256 * rd vendor_id 1 =? 0x1) ;;
  let! (r, header_type) := read_config_header_field fuel junk client 0xE 1 in
  zassert (r =? 1) ;;
  zassert (rd header_type 0 =? 0x0) ;;
  enumerate_bars fuel junk client 6 0x10 ;;
  ret 0.

(** The fixture is the server of the process.  Before [fixture_setup] its fields
    are what the allocated memory holds, and those not assigned here stay so. *)
Definition fixture_setup : P unit :=
  modify_server (fun s =>
    set_address AF_UNSPEC (Some "127.0.0.1"%string) SERVER_PORT_NUM (set_quit false (set_listen false s))).

Definition fixture_before (fuel : nat) (junk : list Z) : P unit :=
  modify_server (set_quit false) ;;
  let! r := warppipe_server_create in
  zassert (r =? 0) ;;
  let! client := first_client in
  let! r := enumerate fuel junk client in
  zassert (r =? 0).

Definition fixture_after : P unit :=
  modify_server (set_quit true) ;; warppipe_server_loop.

(** The fixture is freed afterwards: nothing uses it any more. *)
Definition fixture_teardown : P unit :=
  modify_server (set_quit true) ;; warppipe_server_loop.

(** The variable [read_data] belongs to the caller; the result of the wait is not
    looked at. *)
Definition read_data (fuel : nat) (client : ptr) (bar_ addr length_ : Z) (read_data : ptr) : P Z :=
  modify client (set_private_data read_data) ;;
  let! r := warppipe_read client bar_ addr length_ READ_COMPL in
  if r <? 0 then ret r
  else
    wait_for_completion fuel read_data ;;
    let! d := get_frame read_data in
    ret (rc_ret d).

(** [junk]: the contents of [buf]. *)
Definition test_write (junk : list Z) : P unit :=
  let! client := first_client in
  let buf := wr_bytes 0 hello junk in
  let! r := warppipe_write client 1 0 buf 5 in
  zassert (r =? 0).

(** A read into a local buffer, and the buffer afterwards: the part that the
    tests which read have in common. *)
Definition test_read_into (fuel : nat) (junk : list Z) (client : ptr) (bar_ addr : Z) : P (list Z) :=
  let n := Z.of_nat (length junk) in
  let! p := new_frame (mk_rcd junk n (-1) false) in
  let! r := read_data fuel client bar_ addr n p in
  zassert (r =? n) ;;
  let! d := get_frame p in
  end_frame p ;;
  ret (rc_buf d).

(** The comparisons of the buffer are in the order of the source. *)
Fixpoint zassert_bytes (i : nat) (read_buf expected : list Z) : P unit :=
  match expected with
  | [] => ret tt
  | e :: expected => zassert (rd read_buf i =? e) ;; zassert_bytes (S i) read_buf expected
  end.

Definition test_read (fuel : nat) (junk : list Z) : P unit :=
  let! client := first_client in
  let! read_buf := test_read_into fuel junk client 0 0 in
  zassert_bytes 0 read_buf ((fun i => 0x10 + i) <$> seqZ 0 16).

Definition test_unaligned_read (fuel : nat) (junk : list Z) : P unit :=
  let! client := first_client in
  let! read_buf := test_read_into fuel junk client 0 1 in
  zassert_bytes 0 read_buf [0x11].

Definition test_unaligned_write (fuel : nat) (buf junk : list Z) : P unit :=
  let! client := first_client in
  let buf := wr_bytes 0 hello buf in
  let! r := warppipe_write client 1 1 buf 5 in
  zassert (r =? 0) ;;
  let! read_buf := test_read_into fuel junk client 1 1 in
  zassert_bytes 0 read_buf hello.

(** [ZTEST_SUITE]: every test between its fixtures. *)
Fixpoint run_tests (fuel : nat) (junk : list Z) (tests : list (P unit)) : P unit :=
  match tests with
  | [] => ret tt
  | test :: tests =>
      fixture_before fuel junk ;; test ;; fixture_after ;; run_tests fuel junk tests
  end.
Definition run_suite (fuel : nat) (junk : list Z) (tests : list (P unit)) : P unit :=
  fixture_setup ;; run_tests fuel junk tests ;; fixture_teardown.
End Suite.

(** ** The mock's process, with any number of connections *)

(** Connections waiting to be accepted, and the streams of every connection.  A
    connection has the same descriptor in both processes, from 5 on; the mock
    listens on descriptor 4. *)
Record hub_os := mk_hub { h_backlog : list Z; h_in : gmap Z (list Z); h_out : gmap Z (list Z) }.

Definition stream (m : gmap Z (list Z)) (f : Z) : list Z := default [] (m !! f).
Definition streams_app (m1 m2 : gmap Z (list Z)) : gmap Z (list Z) :=
  union_with (fun a b => Some (a ++ b)) m1 m2.

#[export] Instance hub_io : SocketIO hub_os := {|
  sys_recv f n o :=
    if n <? 0 then (RecvError EOTHER, o)
    else match stream (h_in o) f with
         | [] => (RecvError EAGAIN, o)
         | bs => (Received (take (Z.to_nat n) bs),
                  mk_hub (h_backlog o) (<[f := drop (Z.to_nat n) bs]> (h_in o)) (h_out o))
         end;
  sys_send f bs o :=
    (Z.of_nat (length bs), mk_hub (h_backlog o) (h_in o) (<[f := stream (h_out o) f ++ bs]> (h_out o)));
  sys_malloc n o := (Some (replicate (Z.to_nat n) 0xa5), o);
|}.

#[export] Instance hub_server_io : ServerIO hub_os := {|
  sys call o :=
    match call with
    | Socket _ => (4, o)
    | Accept _ =>
        match h_backlog o with [] => (-1, o) | f :: fs => (f, mk_hub fs (h_in o) (h_out o)) end
    | _ => (0, o)
    end;
  sys_getaddrinfo _ _ _ _ o := (Some [0], o);
  sys_select _ fds o :=
    (filter (fun f => (f = 4 /\ h_backlog o <> []) \/ (f <> 4 /\ stream (h_in o) f <> [])) fds, o);
  sys_new_client used o := (fst (sys_new_client used (mk_dev 0 [] [])), o);
|}.

Definition hub_device : outcome (world hub_os mock) Z :=
  (warppipe_server_register_accept_cb SERVER_CLIENT_ACCEPT ;; warppipe_server_create)
    (mk_world _ _ (mk_hub [] ∅ ∅) server_init ∅ mock_init static_init).

(** ** The suite's process *)

(** The next descriptor, the streams of its connections, and the mock. *)
Record spoke_os := mk_spoke {
  sp_next : Z;
  sp_in : gmap Z (list Z);
  sp_out : gmap Z (list Z);
  sp_device : option (world hub_os mock);
}.

Definition request (f : Z) (w : world hub_os mock) : world hub_os mock :=
  with_os (mk_hub (h_backlog (w_os w) ++ [f]) (h_in (w_os w)) (h_out (w_os w))) w.

(** The bytes in transit arrive, and the mock's loop runs once. *)
Definition hub_runs (o : spoke_os) : spoke_os :=
  match sp_device o with
  | None => o
  | Some w =>
      let h := w_os w in
      match warppipe_server_loop (with_os (mk_hub (h_backlog h) (streams_app (h_in h) (sp_out o)) (h_out h)) w) with
      | Ret _ w' =>
          let h := w_os w' in
          mk_spoke (sp_next o) (streams_app (sp_in o) (h_out h)) ∅
            (Some (with_os (mk_hub (h_backlog h) (h_in h) ∅) w'))
      | _ => mk_spoke (sp_next o) (sp_in o) ∅ None
      end
  end.

#[export] Instance spoke_io : SocketIO spoke_os := {|
  sys_recv f n o :=
    if n <? 0 then (RecvError EOTHER, o)
    else match stream (sp_in o) f with
         | [] => (if sp_device o then RecvError EAGAIN else Received [], o)
         | bs => (Received (take (Z.to_nat n) bs),
                  mk_spoke (sp_next o) (<[f := drop (Z.to_nat n) bs]> (sp_in o)) (sp_out o) (sp_device o))
         end;
  sys_send f bs o :=
    (Z.of_nat (length bs),
     mk_spoke (sp_next o) (sp_in o) (<[f := stream (sp_out o) f ++ bs]> (sp_out o)) (sp_device o));
  sys_malloc n o := (Some (replicate (Z.to_nat n) 0xa5), o);
|}.

#[export] Instance spoke_server_io : ServerIO spoke_os := {|
  sys call o :=
    match call with
    | Socket _ => (sp_next o, mk_spoke (sp_next o + 1) (sp_in o) (sp_out o) (sp_device o))
    | Connect f _ => (0, mk_spoke (sp_next o) (sp_in o) (sp_out o) (request f <$> sp_device o))
    | _ => (0, o)
    end;
  sys_getaddrinfo _ _ _ _ o := (Some [0], o);
  sys_select _ fds o :=
    let o := hub_runs o in
    (filter (fun f => sp_device o = None \/ stream (sp_in o) f <> []) fds, o);
  sys_new_client used o := (fst (sys_new_client used (mk_dev 0 [] [])), o);
|}.

(** The suite's process before [fixture_setup], with [s] in the fixture's memory. *)
Definition suite_system (s : warppipe_server) : world spoke_os suite :=
  mk_world _ _ (mk_spoke 5 ∅ ∅ (match hub_device with Ret _ w => Some w | _ => None end)) s ∅ (mk_suite ∅) static_init.
