(* ===== verification/SuiteSpec.v ===== *)
(** * What the test suite relies on

    The suite ([Suite]) passes against the memory mock in every order of its
    tests, provided the memory of its fixture happens to hold no accept callback;
    and a read that completes with an error would block it. *)

From S2P Require Import Prelude Layout Proto Crc World Client Wire Logic Bars Sim ClientSpec Receive ClientInv Server ServerSpec MemoryMock Host HostSpec Native Suite.

(** ** Runs against the mock *)

(** The tests of the suite, by name. *)
Inductive test_name := TestWrite | TestRead | TestUnalignedRead | TestUnalignedWrite.

Definition all_tests : list test_name := [TestWrite; TestRead; TestUnalignedRead; TestUnalignedWrite].

(** What the uninitialised local buffers hold. *)
Record buffers := mk_buffers { b_field : list Z; b_16 : list Z; b_1 : list Z; b_5 : list Z }.
Definition buffers_ok (b : buffers) : Prop :=
  length (b_field b) = 4%nat /\ length (b_16 b) = 16%nat /\ length (b_1 b) = 1%nat /\ length (b_5 b) = 5%nat.

Definition test_of (fuel : nat) (b : buffers) (t : test_name) : M (world spoke_os suite) unit :=
  match t with
  | TestWrite => test_write (b_16 b)
  | TestRead => test_read fuel (b_16 b)
  | TestUnalignedRead => test_unaligned_read fuel (b_1 b)
  | TestUnalignedWrite => test_unaligned_write fuel (b_5 b) (b_5 b)
  end.

(** What a run of the whole suite leaves. *)
Definition passed (r : outcome (world spoke_os suite) unit) : bool :=
  match r with
  | Ret _ w =>
      match sp_device (w_os w) with
      | Some d =>
          (length (s_clients (w_server d)) =? 4)%nat && (length (map_to_list (w_clients w)) =? 4)%nat &&
          (length (s_clients (w_server w)) =? 1)%nat && bool_decide (suite_frames (w_app w) = ∅) &&
          bool_decide (take 5 (bar1_memory (w_app d)) = hello \/ take 5 (drop 1 (bar1_memory (w_app d))) = hello)
      | None => false
      end
  | _ => false
  end.

#[export] Instance read_compl_data_eq_dec : EqDecision read_compl_data.
Proof. solve_decision. Defined.

Lemma suite_runs fuel b s :
  s_accept_cb s = NULL -> buffers_ok b ->
  Forall (fun l => passed (run_suite (5 + fuel) (b_field b) (test_of (5 + fuel) b <$> l) (suite_system s)) = true)
    (permutations all_tests).
Proof.
  destruct s, b as [bf b16 b1 b5]. intros Hs (H1 & H2 & H3 & H4). simpl in *. subst.
  do 5 (destruct bf as [|? bf]; try done). do 17 (destruct b16 as [|? b16]; try done).
  do 2 (destruct b1 as [|? b1]; try done). do 6 (destruct b5 as [|? b5]; try done).
  clear. set (ps := permutations all_tests). vm_compute in ps. subst ps.
  repeat (apply Forall_cons_2; [vm_compute; reflexivity|]). apply Forall_nil_2.
Qed.

(** A fixture whose memory holds an accept callback. *)
Lemma suite_calls_garbage fuel b s t tests :
  s_accept_cb s <> NULL -> run_suite fuel (b_field b) (test_of fuel b <$> t :: tests) (suite_system s) = Undefined.
Proof.
  intros Hs. unfold run_suite. erewrite bind_Ret by reflexivity. rewrite fmap_cons. cbn [run_tests].
  set (w := with_server _ (suite_system s)).
  assert (forall fuel junk, fixture_before fuel junk w = Undefined) as Hu.
  { intros. unfold fixture_before. erewrite bind_Ret by reflexivity. unfold bind at 1.
    assert (warppipe_server_create (with_server (set_quit false (w_server w)) w) = Undefined) as ->; [|done].
    subst w. destruct s as [? ? ? ? ? ? ? ? ? ? cb]. simpl in Hs.
    destruct cb as [|p|p]; [done|vm_compute; reflexivity|vm_compute; reflexivity]. }
  unfold bind at 1 2. by rewrite Hu.
Qed.

(** C16. The suite passes.  Against the memory mock, whatever the uninitialised
    buffers and the other fields of the fixture hold and in every order of the
    four tests, no assertion fails and every wait ends within five iterations.
    Afterwards both processes still have all four connections, though the fixture
    knows only the last, and the greeting is in the mock's memory.  This holds if the
    memory allocated for the fixture has no accept callback, which nothing
    initialises: with any other value there, the first connection calls it. *)
Theorem suite_passes fuel b s tests :
  buffers_ok b -> (5 <= fuel)%nat -> tests ≡ₚ all_tests ->
  let r := run_suite fuel (b_field b) (test_of fuel b <$> tests) (suite_system s) in
  (s_accept_cb s = NULL -> exists w d, r = Ret tt w /\ sp_device (w_os w) = Some d /\
     length (s_clients (w_server d)) = 4%nat /\ size (w_clients w) = 4%nat /\ length (s_clients (w_server w)) = 1%nat /\
     (take 5 (bar1_memory (w_app d)) = hello \/ take 5 (drop 1 (bar1_memory (w_app d))) = hello)) /\
  (s_accept_cb s <> NULL -> r = Undefined).
Proof.
  intros Hb Hf Hp r. split; intros Hs.
  - pose proof (suite_runs (fuel - 5) b s Hs Hb) as H. replace (5 + (fuel - 5))%nat with fuel in H by lia.
    symmetry in Hp. rewrite <-permutations_Permutation, list_elem_of_In in Hp. rewrite Forall_forall in H. specialize (H tests Hp).
    fold r in H. unfold passed in H. destruct r as [[] w| | |]; try discriminate H.
    destruct (sp_device (w_os w)) as [d|] eqn:Hd; [|discriminate H].
    rewrite !andb_true_iff, !Nat.eqb_eq, !bool_decide_eq_true in H. destruct H as ((((? & Hc) & ?) & _) & ?).
    exists w, d. split_and!; try done. by rewrite <-length_map_to_list.
  - destruct tests as [|t tests]; [by apply Permutation_nil_l in Hp|]. by apply suite_calls_garbage.
Qed.

(** ** A read that fails *)

Section Fails.
Context {os : Type} `{!SocketIO os} `{!ServerIO os}.
(** Nothing arrives any more. *)
Context (silent : os -> Prop).
Context (silent_select : forall n fds o, silent o -> exists o', sys_select n fds o = (∅, o') /\ silent o').

Record idle (c : ptr) (w : world os suite) : Prop := {
  idle_os : silent (w_os w);
  idle_quit : s_quit (w_server w) = false;
  idle_queue : s_clients (w_server w) = [c];
  idle_fd : 0 <= s_fd (w_server w) < FD_SETSIZE;
  idle_client : exists cl, w_clients w !! c = Some cl /\ active cl = true /\ 0 <= fd cl < FD_SETSIZE;
}.

Lemma idle_loop c w : idle c w -> exists w', warppipe_server_loop w = Ret tt w' /\ idle c w' /\ w_app w' = w_app w.
Proof.
  intros [Ho Hq Hs Hf (cl & Hc & Ha & Hcf)]. rewrite (server_loop_one c cl w) by done.
  destruct (silent_select (s_max_fd (w_server w) + 1) ({[fd cl]} ∪ {[s_fd (w_server w)]}) (w_os w) Ho) as (o' & -> & Ho').
  set (w1 := with_read_fds ∅ (with_os o' w)). exists w1. split_and!; [|split; try done; by exists cl|done].
  apply (serve_one c cl w1) with cl; done.
Qed.

Lemma idle_waits c p d fuel w :
  idle c w -> frames (w_app w) !! p = Some d -> rc_finished d = false -> wait_loop fuel p w = NoFuel.
Proof.
  revert w. induction fuel as [|fuel IH]; intros w Hw Hp Hd; cbn [wait_loop]; unfold bind, get_frame, get_server;
    rewrite Hp, Hd, (idle_quit c w Hw); [done|]. cbn [negb andb].
  destruct (idle_loop c w Hw) as (w' & -> & Hw' & Ha). apply IH; [done|by rewrite Ha|done].
Qed.

(** A read of the suite that completes with an error never returns: the
    completion records the error but not that the read is finished, and while the
    device sends nothing more the wait goes on, however long.  The same functions
    of the samples return at once.  The library gives every completion callback the
    error code 0, so that the branch is not taken by it. *)
Lemma failed_read_blocks c w p d error_code data len fuel :
  idle c w -> frames (w_app w) !! p = Some d -> rc_finished d = false -> error_code <> 0 ->
  (read_compl error_code data len p ;; wait_for_completion fuel p) w = NoFuel /\
  exists w', (Host.read_compl error_code data len p ;; Host.wait_for_completion fuel p) w = Ret 0 w' /\
    rc_ret <$> frames (w_app w') !! p = Some error_code.
Proof.
  intros Hw Hp Hd He. apply Z.eqb_neq in He.
  assert (read_compl error_code data len p w = Ret tt (with_frames
    (<[p := mk_rcd (rc_buf d) (rc_buf_size d) error_code false]> (frames (w_app w))) w)) as E.
  { unfold read_compl, bind, get_frame, put_frame. by rewrite Hp, He, Hd; cbn [negb]; rewrite Hp. }
  assert (Host.read_compl error_code data len p w = Ret tt (with_frames
    (<[p := mk_rcd (rc_buf d) (rc_buf_size d) error_code true]> (frames (w_app w))) w)) as E'.
  { unfold Host.read_compl, bind, get_frame, put_frame. by rewrite Hp, He; cbn [negb]; rewrite Hp. }
  split.
  - erewrite bind_Ret by exact E. unfold wait_for_completion, bind.
    erewrite (idle_waits c p); [done| |apply lookup_insert_eq|done]. by destruct Hw.
  - erewrite bind_Ret by exact E'. set (w1 := with_frames _ w). exists w1.
    assert (frames (w_app w1) !! p = Some (mk_rcd (rc_buf d) (rc_buf_size d) error_code true)) as Hp1
      by apply lookup_insert_eq.
    split; [|by rewrite Hp1]. unfold Host.wait_for_completion, bind.
    destruct fuel; cbn [Host.wait_loop]; unfold bind, get_frame, get_server; rewrite Hp1; simpl;
      by rewrite (idle_quit c w Hw).
Qed.
End Fails.

(** ** The properties on concrete systems *)

Definition example_buffers : buffers := mk_buffers [1; 2; 3; 4] (replicate 16 0xff) [0] [5; 6; 7; 8; 9].
(** An uninitialised fixture. *)
Definition example_fixture (accept_cb : ptr) : warppipe_server :=
  mk_server 0xa5 true true 0xa5 None "" 0xa5 ∅ [0xa5] 0xa5 accept_cb.

Lemma suite_passes_witness :
  let tests := [TestRead; TestUnalignedRead; TestUnalignedWrite; TestWrite] in
  (exists w, run_suite 5 [1; 2; 3; 4] (test_of 5 example_buffers <$> tests) (suite_system (example_fixture NULL)) = Ret tt w) /\
  run_suite 5 [1; 2; 3; 4] (test_of 5 example_buffers <$> tests) (suite_system (example_fixture 0xa5)) = Undefined.
Proof.
  intros tests. assert (tests ≡ₚ all_tests) as Hp.
  { symmetry. apply permutations_Permutation, list_elem_of_In. vm_compute. tauto. }
  split.
  - destruct (suite_passes 5 example_buffers (example_fixture NULL) tests) as [H _]; [done|lia|exact Hp|].
    destruct (H eq_refl) as (w & d & E & _). by exists w.
  - destruct (suite_passes 5 example_buffers (example_fixture 0xa5) tests) as [_ H]; [done|lia|exact Hp|].
    by apply H.
Defined.

(** A read with its variable at address 1, on a connection that is silent. *)
Definition silent_world : world dev_os suite :=
  mk_world _ _ (mk_dev 0 [] []) (w_server waiting_host) (w_clients waiting_host)
    (mk_suite (w_app waiting_host)) (w_static waiting_host).

Lemma dev_silent n (fds : gset Z) (o : dev_os) :
  o = mk_dev 0 [] [] -> exists o', sys_select n fds o = (∅, o') /\ o' = mk_dev 0 [] [].
Proof.
  intros ->. eexists. split; [|reflexivity]. simpl. f_equal. apply set_eq. intros f.
  rewrite elem_of_filter, elem_of_empty. naive_solver.
Qed.

Lemma silent_idle : idle (fun o => o = mk_dev 0 [] []) 7 silent_world.
Proof.
  constructor; try reflexivity; [vm_compute; split; (reflexivity || discriminate)|].
  exists example_client. split_and!; try reflexivity. vm_compute. discriminate.
Qed.

Example failed_read_blocks_run :
  (read_compl 1 [] 0 1 ;; wait_for_completion 100 1) silent_world = NoFuel /\
  exists w', (Host.read_compl 1 [] 0 1 ;; Host.wait_for_completion 100 1) silent_world = Ret 0 w'.
Proof.
  destruct (failed_read_blocks (os := dev_os) (fun o => o = mk_dev 0 [] []) dev_silent 7 silent_world 1
    (mk_rcd [0; 0; 0; 0] 4 0 false) 1 [] 0 100 silent_idle) as (E & w' & E' & _); [reflexivity|reflexivity|lia|].
  split; [exact E|]. exists w'. exact E'.
Qed.
